(* ===== verification/_CoqProject ===== *)
-Q . S2P
Prelude.v
GoStrings.v
GoPath.v
GoSha256.v
GoRegexp.v
Model.v
GoJson.v
Canonical.v
Contract.v
RoundTrip.v
Wire.v
Expectation.v
Process.v
Observers.v
Evaluator.v
HostBinding.v
HostParse.v
Protected.v
Privacy.v
ProofId.v
Receipt.v
World.v
HostDiscovery.v
Embedded.v
JsonSchema.v
Schemas.v
Conformance.v
Issue.v
Artifact.v
ArtifactTree.v
ArtifactWindows.v
ConfigFile.v
ConfigWindows.v
HostFiles.v
Flags.v
App.v
Answers.v
Accepted.v
Doctor.v
Store.v
Witness.v
WitnessRun.v
Cli.v
Mcp.v
McpServer.v
Supervisor.v
SupervisorWindows.v
Supervised.v
SupervisedWindows.v
Local.v
LocalAnswers.v
Sdk.v
Witnessed.v
Refusals.v
