(* ===== verification/Prelude.v ===== *)
(** * Agent Runtime Proof: a verification development

    The program answers one question about a local process: is it running the
    artifact that was approved?  It observes the process, reads the artifact
    the approval names, observes the process again, decides, and issues a
    self-identifying proof; or it launches a command itself and issues a
    launch receipt.  The implementation is in Go under [src/].  This library
    models its Linux build, and of the macOS and Windows builds what differs:
    the process observers, the Windows readers of artifacts and of host
    configurations, and the Windows supervisor.

    ** The files, from the bottom up

    - [Prelude]: the error monad of a Go function that may fail, folds, sorting
      ([slices.SortFunc]), machine integers and the tactics and hint database
      [arp] of the library.  [GoStrings], [GoPath], [GoSha256], [GoJson]: what
      the program uses of Go's standard library on strings, UTF-8, paths,
      SHA-256 and JSON tokens.  [GoRegexp]: the regular expressions it writes,
      parsed from their source text and matched by derivatives.  [Flags]: its
      flag sets, [ParseInt] with base 0 and [ParseDuration].
    - [Model], [Wire]: the structs of [internal/model] and [sdk/model], their
      JSON trees and the strict decoding of such trees.
    - [Canonical]: [internal/canonical], the bytes that are hashed.
      [Contract]: [internal/contract], the strict decoder, the entry points
      and the semantic rules of proofs and receipts.  [RoundTrip]: the two are
      inverse to each other.  [Protected]: canonical bytes determine fields.
    - [Expectation]: [internal/expectation].  [Process]: [internal/process] on
      Linux; [Observers]: on macOS and Windows, and the contract the three
      observers share.  [Evaluator]: [internal/evaluator].  [Privacy]: [internal/privacy].
      [ProofId]: [internal/proof].  [Receipt]: [internal/receipt].
    - [World]: computations on a world that may fail, the Hoare triples used
      to reason about them, and operations on a part of a world.
    - [HostBinding], [HostParse], [HostDiscovery]: [internal/hostprofile], from
      matching a binding to discovering those of a host.  [Embedded]: the
      decision registry and the host profiles as they are embedded, and the
      compilation of the schemas.
    - [JsonSchema]: JSON Schema (draft 2020-12), the keywords that occur, as
      the standard defines them.  [Schemas]: the five documents of
      [src/schemas] byte for byte, and that they compile.  [Conformance]: what
      the proof and the receipt schema say of the structs the program encodes.
      [Issue]: what the builders of proofs and receipts accept with them.
    - [Artifact]: [internal/artifact] on Unix, for any file system;
      [ArtifactTree]: the same on a tree nobody changes; [ArtifactWindows]: the
      Windows reader, over the same file system.  [ConfigFile],
      [ConfigWindows]: the readers of host configurations of both builds, over
      it too; [HostFiles]: discovery with these readers.
    - [App], [Doctor]: [internal/app].  [Answers]: what the interfaces of the
      service have to return so that its proofs can always be issued.
      [Accepted]: what the expectation schema guarantees of a loaded
      expectation.  [Store]: [internal/store].  [Witness],
      [WitnessRun], [Supervisor], [SupervisorWindows]: [internal/witness]
      (prepare, run, the Unix supervisor with its guardian, and the Windows
      supervisor with its job object).  [Supervised], [SupervisedWindows]: [run.go] over
      either supervisor.  [Cli]: [internal/cli].  [Mcp], [McpServer]:
      [internal/mcpserver] (the handlers, and the server with its tools) and
      [internal/versioninfo].
    - [Local]: [app.NewService] and [main], the program as it is assembled.
      [LocalAnswers]: its interfaces return what [Answers] asks for.
      [Sdk]: [witness.NewController] and [sdk/witness].  [Witnessed]: the
      command [witness] of the program, from the command line to the reaped
      process.  [Refusals]: what is accepted although the schemas refuse the
      document it leads to.

    ** How the model corresponds to the code

    A definition carries the name of the Go function, type or constant it
    translates; a part of a long function that has a definition of its own is
    named for what it does.  A string is a byte string, an integer a [Z] (with
    [wrap32] and [wrap64] where the code can wrap), a map that is only looked
    up an association list or a [gmap], [T, error] a [result].  Code with
    effects is a function on a world [W] that the environment may change
    between any two operations ([io] in [World]); an interface of the code is
    a record of such operations ([Observer], [Service], [Dependencies],
    [Supervision], [FS], [StoreOS], [Runtime]).  What those interfaces promise
    is a type class ([DescriptorLaws], [WinLaws], [StoreLaws], [PathLaws],
    [SeekLaws], [HandleLaws], [ReaderLaws], [ObserverContract],
    [RuntimeContract], [ChildLaws], [SelectLaws], [FittingInterfaces],
    [FittingObserver]) with an instance for a concrete
    environment.  State machines are relations: [runs] for the supervision
    loop, [sup_runs] for the supervisor under its lock, [proc_runs] for
    witness, guardian and command, [win_runs] for the Windows supervisor, its
    job and the command.

    Code outside the repository is a parameter: the JSON schema validator
    ([schema_ok]; in [Embedded] the compiler of schemas), the Unicode tables beyond ASCII ([UnicodeTables]) and
    normalisation form C ([NFC]), the readers of HuJSON, TOML and YAML,
    gopsutil and [/proc] ([ProcOS]), [libproc] ([LibProc]), [x/sys/windows]
    ([Win], [WinFiles], [ConfigHandles]; with them [path/filepath] of the Windows build, since
    [GoPath] is that of Unix), the clock, and the file system.  The
    fraction of a duration is computed in floating point, which is a parameter
    of [ParseDuration]; so is the growth of the buffer of [io.ReadAll].
    Where the answer of the validator matters ([Issue], [Answers], [Accepted],
    [LocalAnswers], [Refusals]) the hypothesis [engine_agrees] says that it
    follows the standard on the schemas of the program; [JsonSchema] is the
    instance for which it holds trivially.

    ** What is shown

    - End to end ([Local]): exit code 0 of [verify] means that the named
      expectation was loaded, the named process was seen (or the only one that
      the binding found in the host's files describes), the artifact had the
      demanded digest and is what the process runs, and the process was still
      the same afterwards.  [Witnessed]: the command [witness] always returns,
      and prints the identity of a receipt only if it is in the store and
      describes the one process that was started, observed and reaped.  [Sdk]:
      the same for a program that starts the process itself.  [McpServer]: the
      server gives the answers of the command line.
      [Local] holds for every observer that keeps [ObserverContract], which
      the Linux, the macOS and the Windows one do ([Observers]).
    - Decisions ([Evaluator], [App]): exactly when a verdict is reached; every
      decision is one the registry allows; inspection never claims a match.
    - Artifacts ([Artifact], [ArtifactTree]): termination, no leaked
      descriptor, limits; the digest is the reference digest of the tree; on
      Windows ([ArtifactWindows]) also that every file was read twice.
    - Identities ([ProofId], [Receipt], [RoundTrip]): a proof or receipt cannot
      be altered under its identity without a collision of SHA-256.
    - Inputs ([Expectation], [HostParse], [HostDiscovery], [HostFiles],
      [ConfigWindows], [Cli], [Mcp], [Privacy]): discovery is a function of the
      files, paths stay inside what is allowed, patterns mean what
      globs mean, documents are bounded, arguments are read back, and what is
      published fits the schema.
    - The witness ([Witness], [WitnessRun], [Supervisor], [Supervised],
      [SupervisorWindows], [SupervisedWindows], [Store]): the launch is bound to its expectation, recorded once, supervised and never
      outlived; the receipt is published whole or not at all.

    - The contract ([Schemas], [Issue], [LocalAnswers], [Refusals]): the
      embedded schemas compile; a proof is issued exactly if it satisfies the
      predicate the schema amounts to; on a machine that answers plausibly no
      request ever fails because the proof the program has made is refused by
      its own schema; and a launch is recorded only if its tool and its
      executable's name are what the receipt schema takes, which the program
      does not check before it starts the process.

    Each hypothesis of a theorem is discharged on a concrete input by a lemma
    of the same name with the suffix [_witness].

    ** Bounds

    A recursion that is not structural has a fuel, and a theorem that it is
    enough: the strict decoder gets the length of its input
    ([decodeOne_terminates]), the walk of the artifact the number of
    descriptors a process may open, since each level holds one
    ([Digest_lawful]), a bounded reading one more than its limit
    ([readPinnedConfig_pinned]).  The reference validator follows at most 40
    references on one value; more give the same answer, since every reference
    of the embedded schemas resolves within them ([contract_compiles]).  The
    supervision loop serves the
    signals that arrive and at most three other events before the exit of the
    child ([Run_reaps]).

    ** Not modelled, and why

    The engine of the JSON schemas, which is third-party code; the format
    assertions of the schemas, which such an engine ignores unless told
    otherwise; the privacy and threat registries, which no code reads; the
    one-line stubs of the Windows and macOS builds for operations that are
    parameters here; the transport of the MCP SDK and the schemas it derives for the arguments of a
    call (a call is a name and a decoded input); the copying of the output
    streams by the Windows supervisor; the path functions of Windows inside
    [PrepareLaunch] and [Spawned] ([SupervisedWindows] does not depend on
    them, [Sdk] and [Witnessed] are about Unix); the layout of
    tables by [text/tabwriter] (a table is the list of lines handed to it);
    the texts of wrapped errors, which the program never prints; goroutines
    other than those of the witness and the guardian, because no other code
    shares state between any.  A panic on a nil interface is an error value
    ([NilDereference]).  Each snapshot of a process reads [/proc] as it is at
    one moment.  Time is an RFC 3339 text where it is only recorded.  The
    order of the members of a decoded Go map is left open, and a document the
    program itself has just encoded is decoded to its [normalize]d tree. *)

From Stdlib Require Export ZArith Lia Ascii.
From Stdlib Require Export Sorting.Sorted Sorting.Permutation.
From stdpp Require Export base list strings gmap.
From Stdlib Require String.

(** ** The error monad

    A Go function that returns [(T, error)] becomes a function into
    [result E T]; a function that returns only [error] one into
    [result E unit]. *)

Inductive result (E A : Type) : Type :=
| Ok (a : A)
| Err (e : E).
Arguments Ok {E A} a.
Arguments Err {E A} e.

Definition rbind {E A B} (c : result E A) (k : A -> result E B) : result E B :=
  match c with Ok a => k a | Err e => Err e end.

Definition map_err {E F A} (f : E -> F) (c : result E A) : result F A :=
  match c with Ok a => Ok a | Err e => Err (f e) end.

Definition is_ok {E A} (c : result E A) : bool :=
  match c with Ok _ => true | Err _ => false end.

(** [if cond { return err }] at the head of a function body. *)
Definition guard_ {E} (b : bool) (e : E) : result E unit :=
  if b then Ok tt else Err e.

Declare Scope go_scope.
Delimit Scope go_scope with go.
Notation "'let!' x ':=' c 'in' k" := (rbind c (fun x => k))
  (at level 10, x pattern, c at level 100, k at level 200) : go_scope.
Notation "'check!' b 'else' e 'in' k" := (rbind (guard_ b e) (fun _ => k))
  (at level 10, b at level 100, e at level 100, k at level 200) : go_scope.
Notation "a =s b" := (String.eqb a b) (at level 70, no associativity) : go_scope.
#[global] Arguments String.append !_ _ : simpl nomatch.
#[global] Open Scope go_scope.
#[global] Open Scope Z_scope.
#[global] Open Scope bool_scope.

(** A Go [for _, x := range l] loop whose body may return an error. *)
Fixpoint foldM {E A S} (f : S -> A -> result E S) (l : list A) (s : S) : result E S :=
  match l with
  | [] => Ok s
  | x :: l' => let! s' := f s x in foldM f l' s'
  end.

Fixpoint mapM_ {E A B} (f : A -> result E B) (l : list A) : result E (list B) :=
  match l with
  | [] => Ok []
  | x :: l' => let! y := f x in let! ys := mapM_ f l' in Ok (y :: ys)
  end.

(** A validating loop: the first element that fails decides the error. *)
Definition eachM {E A} (f : A -> result E unit) (l : list A) : result E unit :=
  foldM (fun _ x => f x) l tt.

(** ** Tactics *)

(** Split every pair, conjunction and successful bind of the context. *)
Ltac destruct_hyps :=
  repeat match goal with
  | H : _ /\ _ |- _ => destruct H
  | H : exists _, _ |- _ => destruct H
  | H : (_ && _) = true |- _ => apply andb_true_iff in H
  | H : (_ || _) = false |- _ => apply orb_false_iff in H
  | H : negb _ = true |- _ => apply negb_true_iff in H
  | H : negb _ = false |- _ => apply negb_false_iff in H
  | H : Ok _ = Ok _ |- _ => injection H as H
  | H : Err _ = Err _ |- _ => injection H as H
  | H : Ok _ = Err _ |- _ => discriminate H
  | H : Err _ = Ok _ |- _ => discriminate H
  end.

(** Case analysis on the scrutinee of a [match] of the goal or context. *)
Ltac case_goal :=
  match goal with
  | |- context [match ?x with _ => _ end] => destruct x eqn:?
  end.

Ltac case_hyp H :=
  match type of H with
  | context [match ?x with _ => _ end] => destruct x eqn:?
  end.

(** Boolean equality tests on strings and integers as equations. *)
Ltac to_prop :=
  repeat match goal with
  | H : String.eqb _ _ = true |- _ => apply String.eqb_eq in H
  | H : String.eqb _ _ = false |- _ => apply String.eqb_neq in H
  | H : Z.eqb _ _ = true |- _ => apply Z.eqb_eq in H
  | H : Z.eqb _ _ = false |- _ => apply Z.eqb_neq in H
  | H : Z.ltb _ _ = true |- _ => apply Z.ltb_lt in H
  | H : Z.ltb _ _ = false |- _ => apply Z.ltb_ge in H
  | H : Z.leb _ _ = true |- _ => apply Z.leb_le in H
  | H : Z.leb _ _ = false |- _ => apply Z.leb_gt in H
  end.

(** Decide a closed goal by evaluation. *)
Ltac eval_goal := vm_compute; reflexivity.

(** ** Facts on the error monad *)

Section Result.
Context {E : Type}.

Lemma rbind_ok {A B} (c : result E A) (k : A -> result E B) b :
  rbind c k = Ok b <-> exists a, c = Ok a /\ k a = Ok b.
Proof. destruct c; simpl; split.
  - intros H. eauto.
  - intros (x & [= ->] & H). exact H.
  - done.
  - intros (x & [=] & _).
Qed.

Lemma rbind_err {A B} (c : result E A) (k : A -> result E B) e :
  rbind c k = Err e <-> c = Err e \/ exists a, c = Ok a /\ k a = Err e.
Proof.
  destruct c as [a|e0]; simpl; split; intros H.
  - right. by exists a.
  - destruct H as [H|(x & Hx & H)]; congruence.
  - left. congruence.
  - destruct H as [H|(x & Hx & H)]; congruence.
Qed.

Lemma guard_ok (b : bool) (e : E) u : guard_ b e = Ok u <-> b = true.
Proof. destruct b, u; simpl; split; congruence. Qed.

Lemma guard_err (b : bool) (e e' : E) : guard_ b e = Err e' <-> b = false /\ e = e'.
Proof. destruct b; simpl; split; [done|by intros []|by intros [= ->]|by intros [_ ->]]. Qed.

Lemma map_err_ok {A F} (f : E -> F) (c : result E A) a : map_err f c = Ok a <-> c = Ok a.
Proof. destruct c; simpl; split; congruence. Qed.

Lemma is_ok_true {A} (c : result E A) : is_ok c = true <-> exists a, c = Ok a.
Proof. destruct c; simpl; split; [by eauto|done|done|by intros []]. Qed.

Lemma mapM_total {A B} (f : A -> result E B) l :
  (forall x, x ∈ l -> exists y, f x = Ok y) -> exists l', mapM_ f l = Ok l'.
Proof.
  induction l as [|x l IH]; intros Hf; cbn [mapM_]; [by eexists|].
  destruct (Hf x) as [y ->]; [by left|]. destruct IH as [l' ->]; [intros z Hz; apply Hf; by right|].
  by eexists.
Qed.

(** Where the error of a loop comes from. *)
Lemma foldM_err {A S} (P : E -> Prop) (f : S -> A -> result E S) l s e :
  (forall s0 x e0, f s0 x = Err e0 -> P e0) -> foldM f l s = Err e -> P e.
Proof.
  intros Hf. revert s. induction l as [|x l IH]; intros s; cbn [foldM]; [done|].
  destruct (f s x) eqn:Hx; cbn [rbind]; [apply IH|]. intros [= <-]. by eapply Hf.
Qed.

Lemma mapM_err {A B} (P : E -> Prop) (f : A -> result E B) l e :
  (forall x e0, f x = Err e0 -> P e0) -> mapM_ f l = Err e -> P e.
Proof.
  intros Hf. induction l as [|x l IH]; cbn [mapM_]; [done|].
  destruct (f x) eqn:Hx; cbn [rbind]; [|intros [= <-]; by eapply Hf].
  destruct (mapM_ f l); cbn [rbind]; [done|]. intros [= <-]. by apply IH.
Qed.

(** Rule of invariants for a loop with early exit. *)
Lemma foldM_inv {A S} (I : S -> Prop) (f : S -> A -> result E S) l s s' :
  I s -> (forall s0 x s1, x ∈ l -> I s0 -> f s0 x = Ok s1 -> I s1) ->
  foldM f l s = Ok s' -> I s'.
Proof.
  revert s. induction l as [|x l IH]; simpl; intros s HI Hf H.
  - by injection H as <-.
  - apply rbind_ok in H as (s1 & H1 & H2).
    eapply IH; [| |exact H2].
    + by apply (Hf s x); [left| |].
    + intros s0 x0 s2 ???. by apply (Hf s0 x0); [right| |].
Qed.

Lemma foldM_app {A S} (f : S -> A -> result E S) l1 l2 s :
  foldM f (l1 ++ l2) s = rbind (foldM f l1 s) (foldM f l2).
Proof.
  revert s. induction l1 as [|x l1 IH]; simpl; intros s; [done|].
  destruct (f s x); simpl; auto.
Qed.

Lemma mapM_ok_Forall2 {A B} (f : A -> result E B) l l' :
  mapM_ f l = Ok l' <-> Forall2 (fun x y => f x = Ok y) l l'.
Proof.
  revert l'. induction l as [|x l IH]; simpl; intros l'.
  - split; [intros [= <-]; constructor | intros H; by inversion H].
  - split.
    + intros (y & Hy & (ys & Hys & [= <-])%rbind_ok)%rbind_ok.
      constructor; [done|]. by apply IH.
    + intros H; inversion H as [|? y ? ys Hy Hys]; subst.
      rewrite Hy; simpl. apply IH in Hys. by rewrite Hys.
Qed.
End Result.

Lemma eachM_ok {E A} (f : A -> result E unit) l :
  eachM f l = Ok tt <-> Forall (fun x => f x = Ok tt) l.
Proof.
  unfold eachM. induction l as [|x l IH]; simpl; [by split|].
  destruct (f x) as [[]|e] eqn:Hx; simpl; rewrite Forall_cons, Hx.
  - rewrite IH. tauto.
  - split; [discriminate | by intros [? _]].
Qed.

(** ** Facts on lists *)

Lemma existsb_false {A} (f : A -> bool) l :
  existsb f l = false <-> Forall (fun x => f x = false) l.
Proof.
  induction l as [|x l IH]; simpl; [by split|].
  rewrite orb_false_iff, Forall_cons, IH. done.
Qed.

Lemma forallb_Forall {A} (f : A -> bool) l :
  forallb f l = true <-> Forall (fun x => f x = true) l.
Proof.
  induction l as [|x l IH]; simpl; [by split|].
  rewrite andb_true_iff, Forall_cons, IH. done.
Qed.

Lemma existsb_elem_of {A} (f : A -> bool) l :
  existsb f l = true <-> exists x, x ∈ l /\ f x = true.
Proof.
  rewrite existsb_exists. split; intros (x & Hx & Hf); exists x; split; try done;
    by apply list_elem_of_In.
Qed.

(** ** Machine integers

    A Go [int] is 64 bits wide on every platform the tool is released for;
    [int64] arithmetic wraps around in two's complement. *)

Definition int64_min : Z := - 2 ^ 63.
Definition int64_max : Z := 2 ^ 63 - 1.
Definition wrap64 (z : Z) : Z := (z + 2 ^ 63) mod 2 ^ 64 - 2 ^ 63.
Definition wrap32 (z : Z) : Z := (z + 2 ^ 31) mod 2 ^ 32 - 2 ^ 31.

Lemma wrap64_id z : int64_min <= z <= int64_max -> wrap64 z = z.
Proof. unfold wrap64, int64_min, int64_max. intros. rewrite Z.mod_small; lia. Qed.

Lemma wrap64_range z : int64_min <= wrap64 z <= int64_max.
Proof.
  unfold wrap64, int64_min, int64_max.
  pose proof (Z.mod_pos_bound (z + 2 ^ 63) (2 ^ 64)). lia.
Qed.

Create HintDb arp.
#[export] Hint Resolve wrap64_range wrap64_id : arp.

(** Invert the success of a chain of binds, guards and mapped errors. *)
Ltac inv_ok :=
  repeat match goal with
  | H : rbind _ _ = Ok _ |- _ =>
      let x := fresh "x" in let Hx := fresh "Hx" in apply rbind_ok in H as (x & Hx & H)
  | H : guard_ _ _ = Ok _ |- _ => apply guard_ok in H
  | H : map_err _ _ = Ok _ |- _ => apply map_err_ok in H
  | H : Ok _ = Ok _ |- _ => injection H as H
  | H : Err _ = Ok _ |- _ => discriminate H
  end.

(** ** Sorting

    [slices.SortFunc]: the program only sorts with comparators under which
    the elements are pairwise different, where the sorted permutation is
    unique ([sort_unique]), so insertion sort gives the library's result. *)

Section Sort.
Context {A : Type} (cmp : A -> A -> comparison).

Fixpoint insert_by (x : A) (l : list A) : list A :=
  match l with
  | [] => [x]
  | y :: l' => match cmp x y with Gt => y :: insert_by x l' | _ => x :: l end
  end.

Definition SortFunc (l : list A) : list A := fold_right insert_by [] l.

Lemma insert_by_perm x l : insert_by x l ≡ₚ x :: l.
Proof.
  induction l as [|y l IH]; simpl; [done|].
  destruct (cmp x y); [done|done|]. rewrite IH. constructor.
Qed.

Lemma SortFunc_perm l : SortFunc l ≡ₚ l.
Proof. induction l as [|x l IH]; simpl; [done|]. by rewrite insert_by_perm, IH. Qed.

Definition lt_by (x y : A) : Prop := cmp x y = Lt.

Hypothesis cmp_antisym : forall x y, cmp y x = CompOpp (cmp x y).
Hypothesis cmp_trans : forall x y z, lt_by x y -> lt_by y z -> lt_by x z.

Lemma insert_by_sorted x l :
  Forall (fun y => cmp x y <> Eq) l -> StronglySorted lt_by l ->
  StronglySorted lt_by (insert_by x l).
Proof.
  induction l as [|y l IH]; simpl; intros Hne Hs; [by repeat constructor|].
  apply Forall_cons in Hne as [Hy Hne]. inversion Hs as [|? ? Hs' Hall]; subst.
  destruct (cmp x y) eqn:E; [done| |].
  - constructor; [done|]. constructor; [done|].
    eapply Forall_impl; [exact Hall|]. intros z Hz. by eapply cmp_trans.
  - constructor; [by apply IH|]. rewrite insert_by_perm. constructor; [|done].
    unfold lt_by. by rewrite cmp_antisym, E.
Qed.

(** Elements no two of which compare equal. *)
Definition distinct_by (l : list A) : Prop := ForallOrdPairs (fun x y => cmp x y <> Eq) l.

Lemma SortFunc_sorted l : distinct_by l -> StronglySorted lt_by (SortFunc l).
Proof.
  induction 1 as [|x l Hx Hl IH]; simpl; [constructor|].
  apply insert_by_sorted; [|done]. by rewrite SortFunc_perm.
Qed.

Lemma sorted_unique l1 l2 :
  StronglySorted lt_by l1 -> StronglySorted lt_by l2 -> l1 ≡ₚ l2 -> l1 = l2.
Proof.
  intros H1. revert l2. induction H1 as [|x l1 H1 IH Hx]; intros l2 H2 Hp.
  - by apply Permutation_nil in Hp as ->.
  - destruct H2 as [|y l2 H2 Hy]; [by apply Permutation_sym, Permutation_nil in Hp|].
    assert (x = y) as ->.
    { assert (Hin : x ∈ y :: l2) by (rewrite <- Hp; by left).
      assert (Hin' : y ∈ x :: l1) by (rewrite Hp; by left).
      apply elem_of_cons in Hin as [?|Hin]; [done|].
      apply elem_of_cons in Hin' as [?|Hin']; [done|].
      rewrite Forall_forall in Hx, Hy. specialize (Hx _ Hin'). specialize (Hy _ Hin).
      unfold lt_by in *. rewrite cmp_antisym, Hx in Hy. done. }
    f_equal. apply IH; [done|]. by apply Permutation_cons_inv in Hp.
Qed.

Lemma sort_unique l1 l2 :
  distinct_by l1 -> distinct_by l2 -> l1 ≡ₚ l2 -> SortFunc l1 = SortFunc l2.
Proof.
  intros H1 H2 Hp. apply sorted_unique; [by apply SortFunc_sorted..|].
  by rewrite !SortFunc_perm.
Qed.

Lemma sort_sorted_id l : StronglySorted lt_by l -> SortFunc l = l.
Proof.
  induction 1 as [|x l Hs IH Hx]; [done|]. simpl. rewrite IH.
  destruct l as [|y l]; [done|]. simpl. apply Forall_cons in Hx as [Hy _].
  by rewrite Hy.
Qed.
End Sort.

Lemma SortFunc_map {A B} (cmpA : A -> A -> comparison) (cmpB : B -> B -> comparison)
  (f : A -> B) (l : list A) :
  (forall x y, cmpB (f x) (f y) = cmpA x y) ->
  SortFunc cmpB (map f l) = map f (SortFunc cmpA l).
Proof.
  intros Hf. induction l as [|x l IH]; simpl; [done|]. rewrite IH.
  generalize (SortFunc cmpA l). intros l'. induction l' as [|y l' IH']; simpl; [done|].
  rewrite Hf. destruct (cmpA x y); simpl; [done|done|]. by rewrite IH'.
Qed.
