(* ===== verification/GoStrings.v ===== *)
(** * Go strings

    A Go [string] is a byte sequence; here it is a Rocq [string], whose
    characters are the 256 bytes.  The functions of Go's [strings],
    [unicode/utf8] and [unicode/utf16] packages that the program calls are
    written out on bytes; a rune is its code point as a [Z]. *)

From S2P Require Import Prelude.

Definition byte_val (c : ascii) : Z := Z.of_N (N_of_ascii c).
Definition byte_of (z : Z) : ascii := ascii_of_N (Z.to_N z).

Definition byte_string (z : Z) : string := String (byte_of z) EmptyString.

Definition slen (s : string) : Z := Z.of_nat (String.length s).

(** ** Prefixes, suffixes and substrings *)

Fixpoint HasPrefix (s prefix : string) {struct prefix} : bool :=
  match prefix, s with
  | EmptyString, _ => true
  | String a p, String b t => Ascii.eqb a b && HasPrefix t p
  | String _ _, EmptyString => false
  end.

Fixpoint sdrop (n : nat) (s : string) : string :=
  match n, s with
  | S n', String _ t => sdrop n' t
  | _, _ => s
  end.

Fixpoint stake (n : nat) (s : string) : string :=
  match n, s with
  | S n', String c t => String c (stake n' t)
  | _, _ => EmptyString
  end.

Definition TrimPrefix (s prefix : string) : string :=
  if HasPrefix s prefix then sdrop (String.length prefix) s else s.

Definition HasSuffix (s suffix : string) : bool :=
  (String.length suffix <=? String.length s)%nat &&
  String.eqb (sdrop (String.length s - String.length suffix) s) suffix.

Definition TrimSuffix (s suffix : string) : string :=
  if HasSuffix s suffix
  then stake (String.length s - String.length suffix) s else s.

Fixpoint Contains (s sub : string) : bool :=
  HasPrefix s sub ||
  match s with
  | EmptyString => false
  | String _ t => Contains t sub
  end.

Fixpoint sexists (f : ascii -> bool) (s : string) : bool :=
  match s with
  | EmptyString => false
  | String c t => f c || sexists f t
  end.

Definition sforall (f : ascii -> bool) (s : string) : bool :=
  negb (sexists (fun c => negb (f c)) s).

(** [strings.IndexByte]: the first position of a byte. *)
Fixpoint IndexByte (s : string) (c : ascii) : option nat :=
  match s with
  | EmptyString => None
  | String d t => if Ascii.eqb d c then Some O else option_map S (IndexByte t c)
  end.

Definition has_byte (s : string) (c : ascii) : bool := sexists (Ascii.eqb c) s.

(** [strings.ContainsAny] for a set of one-byte characters. *)
Definition ContainsAny (s : string) (chars : string) : bool :=
  sexists (has_byte chars) s.

(** [strings.Split] on a one-byte separator. *)
Fixpoint Split (s : string) (c : ascii) : list string :=
  match s with
  | EmptyString => [EmptyString]
  | String d t =>
      if Ascii.eqb d c then EmptyString :: Split t c
      else match Split t c with
           | w :: ws => String d w :: ws
           | [] => [String d EmptyString]
           end
  end.

Fixpoint Join (ws : list string) (sep : string) : string :=
  match ws with
  | [] => EmptyString
  | [w] => w
  | w :: rest => w +:+ sep +:+ Join rest sep
  end.

(** [strings.ReplaceAll] with a non-empty pattern; the fuel is the length of
    the subject, which every step shortens. *)
Fixpoint replace_fuel (fuel : nat) (s old new : string) : string :=
  match fuel with
  | O => s
  | S fuel' =>
      match s with
      | EmptyString => EmptyString
      | String c t =>
          if HasPrefix s old
          then new +:+ replace_fuel fuel' (sdrop (String.length old) s) old new
          else String c (replace_fuel fuel' t old new)
      end
  end.
Definition ReplaceAll (s old new : string) : string :=
  replace_fuel (S (String.length s)) s old new.

(** [strings.TrimSpace]/[strings.Trim] for a set of one-byte characters. *)
Fixpoint trim_left (set : string) (s : string) : string :=
  match s with
  | EmptyString => EmptyString
  | String c t => if has_byte set c then trim_left set t else s
  end.

Fixpoint trim_right (set : string) (s : string) : string :=
  match s with
  | EmptyString => EmptyString
  | String c t =>
      match trim_right set t with
      | EmptyString => if has_byte set c then EmptyString else String c EmptyString
      | t' => String c t'
      end
  end.

Definition Trim (s set : string) : string := trim_right set (trim_left set s).

(** [strings.Compare] and Go's [<] on strings: lexicographic on bytes. *)
Fixpoint Compare (a b : string) : comparison :=
  match a, b with
  | EmptyString, EmptyString => Eq
  | EmptyString, String _ _ => Lt
  | String _ _, EmptyString => Gt
  | String c a', String d b' =>
      match byte_val c ?= byte_val d with
      | Eq => Compare a' b'
      | r => r
      end
  end.

Definition str_ltb (a b : string) : bool :=
  match Compare a b with Lt => true | _ => false end.

(** ** UTF-8 *)

Definition RuneError : Z := 65533.
Definition MaxRune : Z := 1114111.

Definition in_range (lo hi b : Z) : bool := (lo <=? b) && (b <=? hi).

Definition IsSurrogate (r : Z) : bool := in_range 55296 57343 r.

Definition scalar (r : Z) : bool := in_range 0 MaxRune r && negb (IsSurrogate r).

(** Accepted range of the second byte for a given first byte. *)
Definition second_lo (b0 : Z) : Z :=
  if b0 =? 224 then 160 else if b0 =? 240 then 144 else 128.
Definition second_hi (b0 : Z) : Z :=
  if b0 =? 237 then 159 else if b0 =? 244 then 143 else 191.

(** [utf8.DecodeRuneInString]: the first rune and its width in bytes. *)
Definition DecodeRune (s : string) : Z * nat :=
  match s with
  | EmptyString => (RuneError, O)
  | String c0 s1 =>
      let b0 := byte_val c0 in
      if b0 <? 128 then (b0, 1%nat)
      else if (b0 <? 194) || (244 <? b0) then (RuneError, 1%nat)
      else
        match s1 with
        | EmptyString => (RuneError, 1%nat)
        | String c1 s2 =>
            let b1 := byte_val c1 in
            if negb (in_range (second_lo b0) (second_hi b0) b1) then (RuneError, 1%nat)
            else if b0 <? 224 then ((b0 - 192) * 64 + (b1 - 128), 2%nat)
            else
              match s2 with
              | EmptyString => (RuneError, 1%nat)
              | String c2 s3 =>
                  let b2 := byte_val c2 in
                  if negb (in_range 128 191 b2) then (RuneError, 1%nat)
                  else if b0 <? 240
                  then ((b0 - 224) * 4096 + (b1 - 128) * 64 + (b2 - 128), 3%nat)
                  else
                    match s3 with
                    | EmptyString => (RuneError, 1%nat)
                    | String c3 _ =>
                        let b3 := byte_val c3 in
                        if negb (in_range 128 191 b3) then (RuneError, 1%nat)
                        else ((b0 - 240) * 262144 + (b1 - 128) * 4096
                              + (b2 - 128) * 64 + (b3 - 128), 4%nat)
                    end
              end
        end
  end.

(** [utf8.AppendRune]/[WriteRune]. *)
Definition EncodeRune (r0 : Z) : string :=
  let r := if scalar r0 then r0 else RuneError in
  if r <? 128 then byte_string r
  else if r <? 2048
  then String (byte_of (192 + r / 64)) (byte_string (128 + r mod 64))
  else if r <? 65536
  then String (byte_of (224 + r / 4096))
         (String (byte_of (128 + (r / 64) mod 64)) (byte_string (128 + r mod 64)))
  else String (byte_of (240 + r / 262144))
         (String (byte_of (128 + (r / 4096) mod 64))
            (String (byte_of (128 + (r / 64) mod 64)) (byte_string (128 + r mod 64)))).

(** A decoded rune with its width; an invalid byte decodes as
    [(RuneError, 1)]. *)
Fixpoint decode_fuel (fuel : nat) (s : string) : list (Z * nat) :=
  match fuel, s with
  | _, EmptyString => []
  | O, _ => []
  | S fuel', _ =>
      let '(r, w) := DecodeRune s in (r, w) :: decode_fuel fuel' (sdrop w s)
  end.
Definition decode_runes (s : string) : list (Z * nat) := decode_fuel (String.length s) s.

(** [[]rune(s)], also the values of [for _, r := range s]. *)
Definition runes (s : string) : list Z := map fst (decode_runes s).

Definition invalid_rune (p : Z * nat) : bool := (fst p =? RuneError) && (snd p =? 1)%nat.

(** [utf8.ValidString]. *)
Definition ValidString (s : string) : bool :=
  forallb (fun p => negb (invalid_rune p)) (decode_runes s).

Definition RuneCountInString (s : string) : Z := Z.of_nat (length (runes s)).

Fixpoint concat_str (l : list string) : string :=
  match l with
  | [] => EmptyString
  | w :: l' => w +:+ concat_str l'
  end.

(** [string([]rune)]. *)
Definition of_runes (l : list Z) : string := concat_str (map EncodeRune l).

(** The effect of [json.Marshal] on a string, once decoded again: every
    invalid byte becomes U+FFFD. *)
Definition ToValidUTF8 (s : string) : string := of_runes (runes s).

(** [utf16.Encode]. *)
Definition utf16_rune (r : Z) : list Z :=
  if scalar r then
    if r <? 65536 then [r]
    else [55296 + (r - 65536) / 1024; 56320 + (r - 65536) mod 1024]
  else [RuneError].
Definition utf16_Encode (l : list Z) : list Z := concat (map utf16_rune l).

(** [slices.Compare] on integers. *)
Fixpoint list_compare (a b : list Z) : comparison :=
  match a, b with
  | [], [] => Eq
  | [], _ :: _ => Lt
  | _ :: _, [] => Gt
  | x :: a', y :: b' =>
      match x ?= y with Eq => list_compare a' b' | r => r end
  end.

(** ** Case mapping

    [strings.ToLower] and [strings.ToUpper] on an ASCII string map letters;
    on any other string they map every rune with Go's Unicode tables, which
    the model takes as arguments, and turn invalid bytes into U+FFFD. *)

Definition ascii_lower (z : Z) : Z := if in_range 65 90 z then z + 32 else z.
Definition ascii_upper (z : Z) : Z := if in_range 97 122 z then z - 32 else z.

Definition is_ascii (s : string) : bool := sforall (fun c => byte_val c <? 128) s.

Record UnicodeTables := {
  unicode_ToLower : Z -> Z;
  unicode_ToUpper : Z -> Z
}.

(** Tables that map nothing beyond ASCII. *)
Definition ascii_tables : UnicodeTables :=
  {| unicode_ToLower := fun r => r; unicode_ToUpper := fun r => r |}.

Definition rune_lower (u : UnicodeTables) (r : Z) : Z :=
  if r <? 128 then ascii_lower r else unicode_ToLower u r.
Definition rune_upper (u : UnicodeTables) (r : Z) : Z :=
  if r <? 128 then ascii_upper r else unicode_ToUpper u r.

Definition ToLower (u : UnicodeTables) (s : string) : string :=
  of_runes (map (rune_lower u) (runes s)).
Definition ToUpper (u : UnicodeTables) (s : string) : string :=
  of_runes (map (rune_upper u) (runes s)).

(** ** Decimal numbers *)

Fixpoint digits_fuel (fuel : nat) (n : Z) (acc : string) : string :=
  match fuel with
  | O => acc
  | S fuel' =>
      let acc' := String (byte_of (48 + n mod 10)) acc in
      if n <? 10 then acc' else digits_fuel fuel' (n / 10) acc'
  end.

(** [strconv.FormatInt(n, 10)]: 64-bit values have at most 20 digits. *)
Definition FormatInt (n : Z) : string :=
  if n <? 0 then String "-"%char (digits_fuel 20 (- n) EmptyString)
  else digits_fuel 20 n EmptyString.

Definition is_digit (c : ascii) : bool := in_range 48 57 (byte_val c).

Fixpoint parse_digits (s : string) (acc : Z) : option Z :=
  match s with
  | EmptyString => Some acc
  | String c t =>
      if is_digit c then parse_digits t (acc * 10 + (byte_val c - 48)) else None
  end.

(** [strconv.ParseInt(s, 10, 64)]; base 10 admits no underscore. *)
Definition ParseInt (s : string) : option Z :=
  let in64 (v : Z) := if (int64_min <=? v) && (v <=? int64_max) then Some v else None in
  match s with
  | EmptyString => None
  | String c t =>
      let body := if Ascii.eqb c "-" || Ascii.eqb c "+" then t else s in
      match body with
      | EmptyString => None
      | _ =>
          match parse_digits body 0 with
          | Some v => in64 (if Ascii.eqb c "-" then - v else v)
          | None => None
          end
      end
  end.

(** ** Bytes *)

Lemma byte_val_range c : 0 <= byte_val c < 256.
Proof.
  unfold byte_val. pose proof (N_ascii_bounded c). lia.
Qed.

Lemma byte_val_of z : 0 <= z < 256 -> byte_val (byte_of z) = z.
Proof.
  intros Hz. unfold byte_val, byte_of. rewrite N_ascii_embedding; lia.
Qed.

Lemma byte_of_val c : byte_of (byte_val c) = c.
Proof.
  unfold byte_val, byte_of. rewrite N2Z.id. apply ascii_N_embedding.
Qed.

Lemma byte_of_eq z c : z = byte_val c -> byte_of z = c.
Proof. intros ->. apply byte_of_val. Qed.

Lemma byte_val_inj c d : byte_val c = byte_val d -> c = d.
Proof. intros H. rewrite <- (byte_of_val c), H. apply byte_of_val. Qed.

Lemma ascii_eqb_val c d : Ascii.eqb c d = (byte_val c =? byte_val d).
Proof.
  destruct (Ascii.eqb_spec c d) as [->|Hne]; symmetry.
  - apply Z.eqb_refl.
  - apply Z.eqb_neq. intros H. by apply byte_val_inj in H.
Qed.

Lemma ascii_eqb_true c d : Ascii.eqb c d = true <-> c = d.
Proof. apply Ascii.eqb_eq. Qed.

#[export] Hint Resolve byte_val_range : arp.

(** Evaluate the byte value of literal characters. *)
Ltac byte_consts :=
  repeat match goal with
  | |- context [byte_val (Ascii ?a ?b ?c ?d ?e ?f ?g ?h)] =>
      let v := eval vm_compute in (byte_val (Ascii a b c d e f g h)) in
      change (byte_val (Ascii a b c d e f g h)) with v
  | H : context [byte_val (Ascii ?a ?b ?c ?d ?e ?f ?g ?h)] |- _ =>
      let v := eval vm_compute in (byte_val (Ascii a b c d e f g h)) in
      change (byte_val (Ascii a b c d e f g h)) with v in H
  end.

(** ** Concatenation *)

Lemma str_app_nil_r s : s +:+ EmptyString = s.
Proof. induction s; simpl; congruence. Qed.

Lemma str_app_assoc (a b c : string) : (a +:+ b) +:+ c = a +:+ (b +:+ c).
Proof. induction a; simpl; congruence. Qed.

Lemma str_app_length (a b : string) :
  String.length (a +:+ b) = (String.length a + String.length b)%nat.
Proof. induction a; simpl; congruence. Qed.

Lemma str_app_inv_l (a b c : string) : a +:+ b = a +:+ c -> b = c.
Proof. induction a; simpl; intros H; [done|injection H; auto]. Qed.

Lemma stake_sdrop n s : stake n s +:+ sdrop n s = s.
Proof. revert s. induction n; intros [|c s]; simpl; congruence. Qed.

Lemma sdrop_length n s : String.length (sdrop n s) = (String.length s - n)%nat.
Proof. revert s. induction n; intros [|c s]; simpl; auto. Qed.

Lemma stake_length n s : String.length (stake n s) = min n (String.length s).
Proof. revert s. induction n; intros [|c s]; simpl; auto. Qed.

Lemma sdrop_app a b : sdrop (String.length a) (a +:+ b) = b.
Proof. induction a; simpl; auto. Qed.

Lemma stake_short n s : (String.length s <= n)%nat -> stake n s = s.
Proof.
  revert n. induction s as [|c s IH]; intros [|n] H; cbn in *; try done; [lia|]. by rewrite IH by lia.
Qed.

Lemma sdrop_short n s : (String.length s <= n)%nat -> sdrop n s = EmptyString.
Proof.
  revert n. induction s as [|c s IH]; intros [|n] H; cbn in *; try done; [lia|]. apply IH. lia.
Qed.

Lemma stake_app a b : stake (String.length a) (a +:+ b) = a.
Proof. induction a; simpl; auto; congruence. Qed.

Lemma HasPrefix_iff s p : HasPrefix s p = true <-> exists t, s = p +:+ t.
Proof.
  revert s. induction p as [|a p IH]; intros s; simpl.
  - split; [intros _; by exists s|done].
  - destruct s as [|b s]; [split; [done|by intros [t ?]]|].
    rewrite andb_true_iff, Ascii.eqb_eq, IH. split.
    + intros [-> [t ->]]. by exists t.
    + intros [t [= -> ->]]. split; [done|by exists t].
Qed.

Lemma TrimPrefix_app p t : TrimPrefix (p +:+ t) p = t.
Proof.
  unfold TrimPrefix. rewrite (proj2 (HasPrefix_iff _ _)) by eauto. apply sdrop_app.
Qed.

Lemma sexists_app f a b : sexists f (a +:+ b) = sexists f a || sexists f b.
Proof. induction a; simpl; [done|]. by rewrite IHa, orb_assoc. Qed.

Lemma sforall_cons f c s : sforall f (String c s) = f c && sforall f s.
Proof. unfold sforall. simpl. by rewrite negb_orb, negb_involutive. Qed.

Lemma sforall_app f a b : sforall f (a +:+ b) = sforall f a && sforall f b.
Proof. unfold sforall. by rewrite sexists_app, negb_orb. Qed.

Lemma sforall_impl (f g : ascii -> bool) s :
  (forall c, f c = true -> g c = true) -> sforall f s = true -> sforall g s = true.
Proof.
  intros Hfg. induction s as [|c s IH]; [done|].
  rewrite !sforall_cons, !andb_true_iff. intros [Hc Hs]. auto.
Qed.

Lemma sforall_sexists_false (f : ascii -> bool) s :
  sforall (fun c => negb (f c)) s = negb (sexists f s).
Proof.
  induction s as [|c s IH]; [done|]. rewrite sforall_cons, IH. simpl. by rewrite negb_orb.
Qed.

(** ** Splitting and joining *)

Lemma Split_nonempty s c : Split s c <> [].
Proof. destruct s; simpl; [done|]. destruct (Ascii.eqb a c); [done|]. by destruct (Split s c). Qed.

Lemma Join_Split s c : Join (Split s c) (String c EmptyString) = s.
Proof.
  induction s as [|d s IH]; [done|]. simpl.
  destruct (Ascii.eqb_spec d c) as [->|Hne].
  - destruct (Split s c) as [|w ws] eqn:HS; [by apply Split_nonempty in HS|].
    rewrite <- IH. done.
  - destruct (Split s c) as [|w ws] eqn:HS; [by apply Split_nonempty in HS|].
    rewrite <- IH. by destruct ws.
Qed.

Lemma Split_no_sep s c : Forall (fun w => has_byte w c = false) (Split s c).
Proof.
  induction s as [|d s IH]; simpl.
  - by constructor.
  - destruct (Ascii.eqb_spec d c) as [->|Hne]; [by constructor|].
    destruct (Split s c) as [|w ws] eqn:HS; [by apply Split_nonempty in HS|].
    apply Forall_cons in IH as [Hw Hws]. constructor; [|done].
    unfold has_byte in *. simpl. rewrite Hw, orb_false_r.
    apply Ascii.eqb_neq. congruence.
Qed.

Lemma Split_app_sep w s c :
  has_byte w c = false -> Split (w +:+ String c s) c = w :: Split s c.
Proof.
  unfold has_byte. induction w as [|d w IH]; simpl.
  - by rewrite Ascii.eqb_refl.
  - intros [Hd Hw]%orb_false_iff.
    rewrite (Ascii.eqb_sym d c), Hd, IH by done. done.
Qed.

Lemma Split_single w c : has_byte w c = false -> Split w c = [w].
Proof.
  unfold has_byte. induction w as [|d w IH]; simpl; [done|].
  intros [Hd Hw]%orb_false_iff. by rewrite (Ascii.eqb_sym d c), Hd, IH.
Qed.

Lemma Split_app a b c : Split (a +:+ String c b) c = Split a c ++ Split b c.
Proof.
  induction a as [|d a IH]; simpl; [by rewrite Ascii.eqb_refl|].
  destruct (Ascii.eqb d c); [by rewrite IH|]. rewrite IH.
  pose proof (Split_nonempty a c). by destruct (Split a c).
Qed.

(** [strings.Split] recovers the parts of a join of separator-free parts. *)
Lemma Split_Join ws c :
  ws <> [] -> Forall (fun w => has_byte w c = false) ws ->
  Split (Join ws (String c EmptyString)) c = ws.
Proof.
  induction ws as [|w ws IH]; [done|]. intros _ [Hw Hws]%Forall_cons.
  destruct ws as [|w' ws'].
  - simpl. by apply Split_single.
  - change (Join (w :: w' :: ws') (String c EmptyString))
      with (w +:+ String c (Join (w' :: ws') (String c EmptyString))).
    rewrite Split_app_sep by done. f_equal. by apply IH.
Qed.

(** ** The order on strings *)

Lemma Compare_refl s : Compare s s = Eq.
Proof. induction s; simpl; [done|]. by rewrite Z.compare_refl. Qed.

Lemma Compare_eq a b : Compare a b = Eq -> a = b.
Proof.
  revert b. induction a as [|c a IH]; intros [|d b]; simpl; try done.
  destruct (Z.compare_spec (byte_val c) (byte_val d)) as [H| |]; try done.
  intros HC. apply byte_val_inj in H as ->. f_equal. by apply IH.
Qed.

Lemma Compare_antisym a b : Compare b a = CompOpp (Compare a b).
Proof.
  revert b. induction a as [|c a IH]; intros [|d b]; simpl; try done.
  rewrite (Z.compare_antisym (byte_val c) (byte_val d)).
  destruct (byte_val c ?= byte_val d); simpl; auto.
Qed.

Lemma Compare_trans a b c : Compare a b = Lt -> Compare b c = Lt -> Compare a c = Lt.
Proof.
  revert b c. induction a as [|x a IH]; intros [|y b] [|z c]; simpl; try done.
  destruct (Z.compare_spec (byte_val x) (byte_val y)) as [Hxy|Hxy|Hxy]; try done;
  destruct (Z.compare_spec (byte_val y) (byte_val z)) as [Hyz|Hyz|Hyz]; try done;
  destruct (Z.compare_spec (byte_val x) (byte_val z)); try done; try lia.
  intros; by eapply IH.
Qed.

(** ** UTF-8 round trips *)

Lemma in_range_iff lo hi b : in_range lo hi b = true <-> lo <= b <= hi.
Proof. unfold in_range. rewrite andb_true_iff, !Z.leb_le. lia. Qed.

Lemma in_range_false lo hi b : in_range lo hi b = false <-> b < lo \/ hi < b.
Proof. unfold in_range. rewrite andb_false_iff, !Z.leb_gt. lia. Qed.

Lemma scalar_iff r : scalar r = true <-> 0 <= r <= 1114111 /\ ~ (55296 <= r <= 57343).
Proof.
  unfold scalar, IsSurrogate, MaxRune.
  rewrite andb_true_iff, negb_true_iff, in_range_iff, in_range_false. lia.
Qed.

(** Linear arithmetic with division and remainder by constants. *)
Ltac dlia := Z.to_euclidean_division_equations; lia.

(** Evaluate the integer tests of the decoder from arithmetic facts. *)
Ltac ztest :=
  repeat match goal with
  | |- context [?a <? ?b] =>
      first [ rewrite (proj2 (Z.ltb_lt a b)) by dlia
            | rewrite (proj2 (Z.ltb_ge a b)) by dlia ]
  | |- context [?a =? ?b] =>
      first [ rewrite (proj2 (Z.eqb_eq a b)) by dlia
            | rewrite (proj2 (Z.eqb_neq a b)) by dlia ]
  | |- context [in_range ?a ?b ?c] =>
      first [ rewrite (proj2 (in_range_iff a b c)) by dlia
            | rewrite (proj2 (in_range_false a b c)) by dlia ]
  end.

Lemma EncodeRune_scalar r :
  scalar r = true ->
  EncodeRune r =
    if r <? 128 then byte_string r
    else if r <? 2048
    then String (byte_of (192 + r / 64)) (byte_string (128 + r mod 64))
    else if r <? 65536
    then String (byte_of (224 + r / 4096))
           (String (byte_of (128 + (r / 64) mod 64)) (byte_string (128 + r mod 64)))
    else String (byte_of (240 + r / 262144))
           (String (byte_of (128 + (r / 4096) mod 64))
              (String (byte_of (128 + (r / 64) mod 64)) (byte_string (128 + r mod 64)))).
Proof. intros Hr. unfold EncodeRune. by rewrite Hr. Qed.

(** Decoding the encoding of a scalar value gives it back, whatever follows. *)
Lemma DecodeRune_EncodeRune r t :
  scalar r = true ->
  DecodeRune (EncodeRune r +:+ t) = (r, String.length (EncodeRune r)).
Proof.
  intros Hr. rewrite EncodeRune_scalar by done. apply scalar_iff in Hr.
  destruct (Z.ltb_spec r 128); [|destruct (Z.ltb_spec r 2048);
    [|destruct (Z.ltb_spec r 65536)]];
    unfold byte_string, DecodeRune; cbn [String.append String.length];
    cbv zeta; rewrite ?byte_val_of by dlia.
  - ztest. done.
  - unfold second_lo, second_hi. ztest. simpl. f_equal. dlia.
  - assert (Hq : 224 <= 224 + r / 4096 <= 239) by dlia.
    assert (Hsec : in_range (second_lo (224 + r / 4096)) (second_hi (224 + r / 4096))
                     (128 + (r / 64) mod 64) = true).
    { apply in_range_iff. unfold second_lo, second_hi.
      destruct (Z.eqb_spec (224 + r / 4096) 224); destruct (Z.eqb_spec (224 + r / 4096) 240);
      destruct (Z.eqb_spec (224 + r / 4096) 237); destruct (Z.eqb_spec (224 + r / 4096) 244); dlia. }
    rewrite Hsec. ztest. simpl. f_equal. dlia.
  - assert (Hq : 240 <= 240 + r / 262144 <= 244) by dlia.
    assert (Hsec : in_range (second_lo (240 + r / 262144)) (second_hi (240 + r / 262144))
                     (128 + (r / 4096) mod 64) = true).
    { apply in_range_iff. unfold second_lo, second_hi.
      destruct (Z.eqb_spec (240 + r / 262144) 224); destruct (Z.eqb_spec (240 + r / 262144) 240);
      destruct (Z.eqb_spec (240 + r / 262144) 237); destruct (Z.eqb_spec (240 + r / 262144) 244); dlia. }
    rewrite Hsec. ztest. simpl. f_equal. dlia.
Qed.

Lemma EncodeRune_length r : (1 <= String.length (EncodeRune r) <= 4)%nat.
Proof.
  unfold EncodeRune. repeat case_match; simpl; lia.
Qed.

Lemma DecodeRune_width s :
  s <> EmptyString -> (1 <= snd (DecodeRune s) <= String.length s)%nat.
Proof.
  destruct s as [|c0 [|c1 [|c2 [|c3 s]]]]; [done|..]; intros _;
    unfold DecodeRune; repeat case_match; simpl; lia.
Qed.

(** A rune decoded from well-formed bytes is a scalar value, and encoding it
    gives the consumed bytes back. *)
Lemma EncodeRune_DecodeRune s r w :
  s <> EmptyString -> DecodeRune s = (r, w) -> invalid_rune (r, w) = false ->
  scalar r = true /\ EncodeRune r = stake w s.
Proof.
  destruct s as [|c0 s1]; [done|]. intros _. unfold DecodeRune, invalid_rune; simpl.
  pose proof (byte_val_range c0).
  destruct (Z.ltb_spec (byte_val c0) 128) as [H0|H0].
  { intros [= <- <-] _. assert (Hs : scalar (byte_val c0) = true) by (apply scalar_iff; lia).
    split; [done|]. rewrite EncodeRune_scalar by done. ztest. unfold byte_string.
    by rewrite byte_of_val. }
  destruct ((byte_val c0 <? 194) || (244 <? byte_val c0)) eqn:E0; [by intros [= <- <-]|].
  apply orb_false_iff in E0 as [E0a%Z.ltb_ge E0b%Z.ltb_ge].
  destruct s1 as [|c1 s2]; [by intros [= <- <-]|].
  destruct (in_range (second_lo (byte_val c0)) (second_hi (byte_val c0)) (byte_val c1)) eqn:E1;
    [|by intros [= <- <-]].
  apply in_range_iff in E1. unfold second_lo, second_hi in E1. simpl.
  assert (Hb1 : 128 <= byte_val c1 <= 191).
  { destruct (Z.eqb_spec (byte_val c0) 224); destruct (Z.eqb_spec (byte_val c0) 240);
      destruct (Z.eqb_spec (byte_val c0) 237); destruct (Z.eqb_spec (byte_val c0) 244); lia. }
  destruct (Z.ltb_spec (byte_val c0) 224) as [H1|H1].
  { intros [= <- <-] _.
    set (r := (byte_val c0 - 192) * 64 + (byte_val c1 - 128)).
    assert (Hs : scalar r = true) by (apply scalar_iff; unfold r; lia).
    split; [done|]. rewrite EncodeRune_scalar by done. unfold r. ztest.
    unfold byte_string. simpl.
    f_equal; [|f_equal]; apply byte_of_eq; dlia. }
  destruct s2 as [|c2 s3]; [by intros [= <- <-]|].
  destruct (in_range 128 191 (byte_val c2)) eqn:E2; [|by intros [= <- <-]].
  apply in_range_iff in E2. simpl.
  destruct (Z.ltb_spec (byte_val c0) 240) as [H2|H2].
  { intros [= <- <-] _.
    set (r := (byte_val c0 - 224) * 4096 + (byte_val c1 - 128) * 64 + (byte_val c2 - 128)).
    assert (Hb : 2048 <= r < 65536 /\ ~ (55296 <= r <= 57343)).
    { unfold r. destruct (Z.eqb_spec (byte_val c0) 224); destruct (Z.eqb_spec (byte_val c0) 240);
        destruct (Z.eqb_spec (byte_val c0) 237); destruct (Z.eqb_spec (byte_val c0) 244); lia. }
    assert (Hs : scalar r = true) by (apply scalar_iff; lia).
    split; [done|]. rewrite EncodeRune_scalar by done. ztest. unfold r, byte_string. simpl.
    f_equal; [|f_equal; [|f_equal]]; apply byte_of_eq; dlia. }
  destruct s3 as [|c3 s4]; [by intros [= <- <-]|].
  destruct (in_range 128 191 (byte_val c3)) eqn:E3; [|by intros [= <- <-]].
  apply in_range_iff in E3. simpl. intros [= <- <-] _.
  set (r := (byte_val c0 - 240) * 262144 + (byte_val c1 - 128) * 4096
            + (byte_val c2 - 128) * 64 + (byte_val c3 - 128)).
  assert (Hb : 65536 <= r <= 1114111).
  { unfold r. destruct (Z.eqb_spec (byte_val c0) 224); destruct (Z.eqb_spec (byte_val c0) 240);
      destruct (Z.eqb_spec (byte_val c0) 237); destruct (Z.eqb_spec (byte_val c0) 244); lia. }
  assert (Hs : scalar r = true) by (apply scalar_iff; lia).
  split; [done|]. rewrite EncodeRune_scalar by done. ztest. unfold r, byte_string. simpl.
  f_equal; [|f_equal; [|f_equal; [|f_equal]]]; apply byte_of_eq; dlia.
Qed.

Lemma decode_fuel_enough n s :
  (String.length s <= n)%nat -> decode_fuel n s = decode_runes s.
Proof.
  unfold decode_runes. revert s. induction n as [n IH] using lt_wf_ind. intros s Hn.
  destruct s as [|c s]; [by destruct n|]. destruct n as [|n]; [simpl in Hn; lia|].
  cbn [decode_fuel String.length]. pose proof (DecodeRune_width (String c s)) as Hw.
  destruct (DecodeRune (String c s)) as [r w]; cbn [snd] in Hw.
  assert (Hl : (String.length (sdrop w (String c s)) <= String.length s)%nat).
  { rewrite sdrop_length. specialize (Hw ltac:(done)). simpl in *. lia. }
  simpl in Hn. rewrite (IH n) by lia.
  destruct (decide (n = String.length s)) as [->|]; [by rewrite (IH (String.length s)) by lia|].
  rewrite <- (IH (String.length s)) by lia. done.
Qed.

Lemma decode_runes_cons s :
  s <> EmptyString ->
  decode_runes s = DecodeRune s :: decode_runes (sdrop (snd (DecodeRune s)) s).
Proof.
  intros Hs. unfold decode_runes at 1. destruct s as [|c s]; [done|].
  pose proof (DecodeRune_width (String c s) Hs) as Hw.
  cbn [decode_fuel String.length]. destruct (DecodeRune (String c s)) as [r w]; cbn [snd] in *.
  f_equal. apply decode_fuel_enough. rewrite sdrop_length. simpl. lia.
Qed.

Lemma decode_runes_EncodeRune r t :
  scalar r = true ->
  decode_runes (EncodeRune r +:+ t) = (r, String.length (EncodeRune r)) :: decode_runes t.
Proof.
  intros Hr. pose proof (EncodeRune_length r) as Hl.
  rewrite decode_runes_cons; [|destruct (EncodeRune r); simpl in *; [lia|done]].
  rewrite DecodeRune_EncodeRune by done. simpl. by rewrite sdrop_app.
Qed.

Lemma EncodeRune_RuneError r : scalar r = false -> EncodeRune r = EncodeRune RuneError.
Proof. intros Hr. unfold EncodeRune. by rewrite Hr. Qed.

Lemma not_invalid_scalar r :
  scalar r = true -> invalid_rune (r, String.length (EncodeRune r)) = false.
Proof.
  intros Hr. unfold invalid_rune; simpl. destruct (Z.eqb_spec r RuneError) as [->|]; [|done].
  reflexivity.
Qed.

Lemma runes_EncodeRune r t :
  scalar r = true -> runes (EncodeRune r +:+ t) = r :: runes t.
Proof. intros Hr. unfold runes. by rewrite decode_runes_EncodeRune. Qed.

(** Decoding is a left inverse of encoding on scalar values. *)
Lemma runes_of_runes l : Forall (fun r => scalar r = true) l -> runes (of_runes l) = l.
Proof.
  unfold of_runes. induction l as [|r l IH]; intros Hl; [done|].
  apply Forall_cons in Hl as [Hr Hl]. simpl. by rewrite runes_EncodeRune, IH.
Qed.

Lemma ValidString_EncodeRune r t :
  ValidString (EncodeRune r +:+ t) = ValidString t.
Proof.
  unfold ValidString. destruct (scalar r) eqn:Hr.
  - rewrite decode_runes_EncodeRune by done. cbn [forallb].
    by rewrite not_invalid_scalar.
  - rewrite EncodeRune_RuneError, decode_runes_EncodeRune by done. done.
Qed.

Lemma ValidString_of_runes l : ValidString (of_runes l) = true.
Proof.
  unfold of_runes. induction l as [|r l IH]; [done|]. simpl. by rewrite ValidString_EncodeRune.
Qed.

(** Strong induction on a string by the width of its first rune. *)
Lemma rune_ind (P : string -> Prop) :
  P EmptyString ->
  (forall s, s <> EmptyString -> P (sdrop (snd (DecodeRune s)) s) -> P s) ->
  forall s, P s.
Proof.
  intros H0 Hstep s. remember (String.length s) as n eqn:Hn. revert s Hn.
  induction n as [n IH] using lt_wf_ind. intros s ->.
  destruct (decide (s = EmptyString)) as [->|Hs]; [done|].
  apply Hstep; [done|]. eapply IH; [|reflexivity].
  pose proof (DecodeRune_width s Hs). rewrite sdrop_length. lia.
Qed.

Lemma ValidString_cons s :
  s <> EmptyString ->
  ValidString s = negb (invalid_rune (DecodeRune s))
                  && ValidString (sdrop (snd (DecodeRune s)) s).
Proof. intros Hs. unfold ValidString. by rewrite (decode_runes_cons s Hs). Qed.

Lemma runes_cons s :
  s <> EmptyString ->
  runes s = fst (DecodeRune s) :: runes (sdrop (snd (DecodeRune s)) s).
Proof. intros Hs. unfold runes. by rewrite (decode_runes_cons s Hs). Qed.

(** On valid UTF-8, decoding to runes loses nothing. *)
Lemma of_runes_runes s : ValidString s = true -> of_runes (runes s) = s.
Proof.
  induction s as [|s Hs IH] using rune_ind; [done|].
  rewrite ValidString_cons, runes_cons by done.
  intros [Hv Ht]%andb_true_iff. apply negb_true_iff in Hv.
  destruct (DecodeRune s) as [r w] eqn:HD. cbn [fst snd] in *.
  destruct (EncodeRune_DecodeRune s r w Hs HD Hv) as [_ He].
  unfold of_runes in *. simpl. rewrite IH, He by done. apply stake_sdrop.
Qed.

Lemma runes_scalar s : ValidString s = true -> Forall (fun r => scalar r = true) (runes s).
Proof.
  induction s as [|s Hs IH] using rune_ind; [by constructor|].
  rewrite ValidString_cons, runes_cons by done.
  intros [Hv Ht]%andb_true_iff. apply negb_true_iff in Hv.
  destruct (DecodeRune s) as [r w] eqn:HD. cbn [fst snd] in *.
  constructor; [|auto]. by destruct (EncodeRune_DecodeRune s r w Hs HD Hv).
Qed.

Lemma runes_inj a b :
  ValidString a = true -> ValidString b = true -> runes a = runes b -> a = b.
Proof. intros Ha Hb H. by rewrite <- (of_runes_runes a), <- (of_runes_runes b), H. Qed.

Lemma ToValidUTF8_valid s : ValidString (ToValidUTF8 s) = true.
Proof. apply ValidString_of_runes. Qed.

Lemma ToValidUTF8_id s : ValidString s = true -> ToValidUTF8 s = s.
Proof. apply of_runes_runes. Qed.

Lemma concat_str_app a b : concat_str (a ++ b) = concat_str a +:+ concat_str b.
Proof. induction a as [|w a IH]; simpl; [done|]. by rewrite IH, str_app_assoc. Qed.

Lemma of_runes_app a b : of_runes (a ++ b) = of_runes a +:+ of_runes b.
Proof. unfold of_runes. by rewrite map_app, concat_str_app. Qed.

(** ** Order of the UTF-16 code units *)

Lemma list_compare_refl a : list_compare a a = Eq.
Proof. induction a; simpl; [done|]. by rewrite Z.compare_refl. Qed.

Lemma list_compare_eq a b : list_compare a b = Eq -> a = b.
Proof.
  revert b. induction a as [|x a IH]; intros [|y b]; simpl; try done.
  destruct (Z.compare_spec x y) as [->| |]; try done. intros. f_equal. by apply IH.
Qed.

Lemma list_compare_antisym a b : list_compare b a = CompOpp (list_compare a b).
Proof.
  revert b. induction a as [|x a IH]; intros [|y b]; simpl; try done.
  rewrite (Z.compare_antisym x y). destruct (x ?= y); simpl; auto.
Qed.

Lemma list_compare_trans a b c :
  list_compare a b = Lt -> list_compare b c = Lt -> list_compare a c = Lt.
Proof.
  revert b c. induction a as [|x a IH]; intros [|y b] [|z c]; simpl; try done.
  destruct (Z.compare_spec x y); try done; destruct (Z.compare_spec y z); try done;
  destruct (Z.compare_spec x z); try done; try lia.
  intros; by eapply IH.
Qed.

Lemma utf16_Encode_inj a b :
  Forall (fun r => scalar r = true) a -> Forall (fun r => scalar r = true) b ->
  utf16_Encode a = utf16_Encode b -> a = b.
Proof.
  unfold utf16_Encode. revert b. induction a as [|x a IH]; intros b Ha Hb.
  - destruct b as [|y b]; [done|]. apply Forall_cons in Hb as [Hy _]. simpl.
    unfold utf16_rune. rewrite Hy. by case_match.
  - apply Forall_cons in Ha as [Hx Ha]. destruct b as [|y b].
    + simpl. unfold utf16_rune. rewrite Hx. by case_match.
    + apply Forall_cons in Hb as [Hy Hb]. simpl. unfold utf16_rune. rewrite Hx, Hy.
      apply scalar_iff in Hx, Hy.
      destruct (Z.ltb_spec x 65536), (Z.ltb_spec y 65536); simpl; intros He.
      * injection He as H1 H2. f_equal; auto.
      * injection He as H1 H2. exfalso; dlia.
      * injection He as H1 H2. exfalso; dlia.
      * injection He as H1 H2 H3. f_equal; [dlia|auto].
Qed.

(** ** Decimal round trip *)

Lemma parse_digits_app a b acc :
  parse_digits (a +:+ b) acc =
    match parse_digits a acc with Some v => parse_digits b v | None => None end.
Proof.
  revert acc. induction a as [|c a IH]; intros acc; simpl; [done|].
  by destruct (is_digit c).
Qed.

(** The digits of [n], most significant first. *)
Fixpoint digits_of (fuel : nat) (n : Z) : string :=
  match fuel with
  | O => EmptyString
  | S fuel' =>
      (if n <? 10 then EmptyString else digits_of fuel' (n / 10))
      +:+ byte_string (48 + n mod 10)
  end.

Lemma digits_fuel_of fuel n acc : digits_fuel fuel n acc = digits_of fuel n +:+ acc.
Proof.
  revert n acc. induction fuel as [|fuel IH]; intros n acc; [done|].
  cbn [digits_fuel digits_of]. rewrite str_app_assoc.
  destruct (n <? 10); [done|]. by rewrite IH.
Qed.

Lemma is_digit_of d : 0 <= d <= 9 -> is_digit (byte_of (48 + d)) = true.
Proof.
  intros Hd. unfold is_digit. rewrite byte_val_of by lia. apply in_range_iff. lia.
Qed.

Lemma parse_digits_of fuel n :
  0 <= n < 10 ^ Z.of_nat fuel -> parse_digits (digits_of fuel n) 0 = Some n.
Proof.
  revert n. induction fuel as [|fuel IH]; intros n Hn; [simpl in *; f_equal; lia|].
  rewrite Nat2Z.inj_succ, Z.pow_succ_r in Hn by lia.
  cbn [digits_of]. rewrite parse_digits_app.
  assert (Hd : 0 <= n mod 10 <= 9) by dlia.
  assert (Hl : forall v, parse_digits (byte_string (48 + n mod 10)) v = Some (v * 10 + n mod 10)).
  { intros v. unfold byte_string. simpl. rewrite is_digit_of, byte_val_of by lia. f_equal. lia. }
  destruct (Z.ltb_spec n 10) as [H|H].
  - change (parse_digits EmptyString 0) with (Some 0). cbv match. rewrite Hl. f_equal. dlia.
  - rewrite IH by dlia. cbv match. rewrite Hl. f_equal. dlia.
Qed.

Lemma digits_of_nonempty fuel n : (0 < fuel)%nat -> digits_of fuel n <> EmptyString.
Proof.
  destruct fuel; [lia|]. intros _. simpl. by destruct (if n <? 10 then _ else _).
Qed.

Lemma digits_of_length fuel n : (String.length (digits_of fuel n) <= fuel)%nat.
Proof.
  revert n. induction fuel as [|fuel IH]; intros n; [done|]. cbn [digits_of]. rewrite str_app_length.
  destruct (n <? 10); cbn [String.length byte_string]; [lia|]. specialize (IH (n / 10)). lia.
Qed.

Lemma digits_of_digits fuel n : 0 <= n -> sforall is_digit (digits_of fuel n) = true.
Proof.
  revert n. induction fuel as [|fuel IH]; intros n Hn; [done|].
  cbn [digits_of]. rewrite sforall_app. apply andb_true_iff. split.
  - destruct (n <? 10); [done|]. apply IH. dlia.
  - unfold byte_string. rewrite sforall_cons. rewrite is_digit_of by dlia. done.
Qed.

(** A positive number prints without leading zeros. *)
Lemma digits_of_head fuel n :
  0 < n < 10 ^ Z.of_nat fuel ->
  exists c t, digits_of fuel n = String c t /\ 49 <= byte_val c <= 57.
Proof.
  revert n. induction fuel as [|fuel IH]; intros n Hn; [simpl in Hn; lia|].
  rewrite Nat2Z.inj_succ, Z.pow_succ_r in Hn by lia. cbn [digits_of].
  destruct (Z.ltb_spec n 10).
  - exists (byte_of (48 + n mod 10)), EmptyString. split; [done|].
    rewrite byte_val_of by dlia. dlia.
  - destruct (IH (n / 10)) as (c & t & -> & Hc); [dlia|].
    exists c. eexists. split; [reflexivity|done].
Qed.

Lemma digit_not_sign c : is_digit c = true -> Ascii.eqb c "-" = false /\ Ascii.eqb c "+" = false.
Proof.
  unfold is_digit. rewrite in_range_iff. intros H.
  split; rewrite ascii_eqb_val; apply Z.eqb_neq; intros He;
    [change (byte_val "-") with 45 in He|change (byte_val "+") with 43 in He]; lia.
Qed.

(** Parsing the decimal form of a 64-bit integer gives it back. *)
Lemma ParseInt_FormatInt n : int64_min <= n <= int64_max -> ParseInt (FormatInt n) = Some n.
Proof.
  unfold int64_min, int64_max. intros Hn. unfold FormatInt.
  destruct (Z.ltb_spec n 0) as [H|H]; rewrite digits_fuel_of, str_app_nil_r.
  - unfold ParseInt. rewrite Ascii.eqb_refl. cbn [orb].
    pose proof (digits_of_nonempty 20 (- n) ltac:(lia)) as Hne.
    rewrite parse_digits_of by (cbn; lia).
    destruct (digits_of 20 (- n)); [done|].
    unfold int64_min, int64_max.
    rewrite 2!(proj2 (Z.leb_le _ _)) by lia. simpl. f_equal. lia.
  - pose proof (digits_of_nonempty 20 n ltac:(lia)) as Hne.
    pose proof (digits_of_digits 20 n H) as Hd.
    pose proof (parse_digits_of 20 n ltac:(cbn; lia)) as Hp.
    destruct (digits_of 20 n) as [|c t]; [done|].
    rewrite sforall_cons in Hd. apply andb_true_iff in Hd as [Hc _].
    apply digit_not_sign in Hc as [Hm Hpl].
    unfold ParseInt. rewrite Hm, Hpl. cbn [orb]. rewrite Hp.
    unfold int64_min, int64_max.
    by rewrite 2!(proj2 (Z.leb_le _ _)) by lia.
Qed.
