(* ===== verification/GoPath.v ===== *)
(** * Go paths

    [path/filepath] as compiled for Unix (separator ['/'], no volume names)
    and [path.Match], on the byte strings of [GoStrings]. *)

From S2P Require Import Prelude GoStrings.

Definition slash : ascii := "/".
Definition sep : string := String slash EmptyString.

Definition IsAbs (p : string) : bool := HasPrefix p sep.

(** [filepath.Clean] as a stack of components; [stack] is in reverse. *)
Fixpoint clean_comps (rooted : bool) (stack cs : list string) : list string :=
  match cs with
  | [] => rev stack
  | c :: rest =>
      if (c =s EmptyString) || (c =s ".") then clean_comps rooted stack rest
      else if c =s ".." then
        match stack with
        | [] => if rooted then clean_comps rooted [] rest
                else clean_comps rooted [".."] rest
        | top :: below =>
            if top =s ".." then clean_comps rooted (".." :: stack) rest
            else clean_comps rooted below rest
        end
      else clean_comps rooted (c :: stack) rest
  end.

Definition abs_comps (p : string) : list string := clean_comps true [] (Split p slash).

Definition Clean (p : string) : string :=
  if IsAbs p then sep +:+ Join (abs_comps p) sep
  else match clean_comps false [] (Split p slash) with
       | [] => "."
       | cs => Join cs sep
       end.

(** [filepath.Join]: leading empty elements are ignored. *)
Fixpoint drop_empty (elems : list string) : list string :=
  match elems with
  | [] => []
  | e :: rest => if e =s EmptyString then drop_empty rest else elems
  end.
Definition JoinPath (elems : list string) : string :=
  match drop_empty elems with
  | [] => EmptyString
  | es => Clean (GoStrings.Join es sep)
  end.

(** [filepath.ToSlash]/[FromSlash] are the identity on Unix. *)
Definition FromSlash (p : string) : string := p.
Definition ToSlash (p : string) : string := p.

(** [filepath.Abs], given the working directory. *)
Definition Abs (wd p : string) : string :=
  if IsAbs p then Clean p else JoinPath [wd; p].

Definition path_comps (p : string) : list string :=
  let q := TrimPrefix p sep in
  if q =s EmptyString then [] else Split q slash.

Fixpoint strip_common (a b : list string) : list string * list string :=
  match a, b with
  | x :: a', y :: b' => if x =s y then strip_common a' b' else (a, b)
  | _, _ => (a, b)
  end.

(** [filepath.Rel]; [None] is its error. *)
Definition Rel (base targ : string) : option string :=
  let b := Clean base in
  let t := Clean targ in
  if t =s b then Some "."
  else if negb (Bool.eqb (IsAbs b) (IsAbs t)) then None
  else
    let bs := if b =s "." then [] else path_comps b in
    let '(bs', ts') := strip_common bs (path_comps t) in
    match bs' with
    | [] => Some (GoStrings.Join ts' sep)
    | c :: _ =>
        if c =s ".." then None
        else Some (GoStrings.Join (map (fun _ => "..") bs' ++ ts') sep)
    end.

Fixpoint last_comp (l : list string) (d : string) : string :=
  match l with [] => d | [x] => x | _ :: l' => last_comp l' d end.

(** [filepath.Base]. *)
Definition Base (p : string) : string :=
  if p =s EmptyString then "."
  else
    let q := trim_right sep p in
    if q =s EmptyString then sep else last_comp (Split q slash) EmptyString.

(** [filepath.Dir]: everything up to and including the last separator. *)
Fixpoint butlast (l : list string) : list string :=
  match l with [] => [] | [_] => [] | x :: l' => x :: butlast l' end.
Definition Dir (p : string) : string :=
  match butlast (Split p slash) with
  | [] => Clean EmptyString
  | ws => Clean (GoStrings.Join ws sep +:+ sep)
  end.

(** [filepath.Ext]: from the last dot of the last component. *)
Definition Ext (p : string) : string :=
  let base := last_comp (Split p slash) EmptyString in
  match Split base "." with
  | [] | [_] => EmptyString
  | ws => String "." (last_comp ws EmptyString)
  end.

(** ** [path.Match] *)

Inductive match_result := Matched (rest : string) | NoMatch | BadPattern.

(** The chunk before the next star outside a bracket, and the rest. *)
Fixpoint scan_to_star (inrange : bool) (p : string) : string * string :=
  match p with
  | EmptyString => (EmptyString, EmptyString)
  | String c t =>
      if Ascii.eqb c "\" then
        match t with
        | EmptyString => (p, EmptyString)
        | String d t' =>
            let '(a, r) := scan_to_star inrange t' in (String c (String d a), r)
        end
      else if Ascii.eqb c "*" && negb inrange then (EmptyString, p)
      else
        let inrange' := if Ascii.eqb c "[" then true
                        else if Ascii.eqb c "]" then false else inrange in
        let '(a, r) := scan_to_star inrange' t in (String c a, r)
  end.

Fixpoint skip_stars (p : string) : bool * string :=
  match p with
  | String c t => if Ascii.eqb c "*" then (true, snd (skip_stars t)) else (false, p)
  | EmptyString => (false, EmptyString)
  end.

Definition scanChunk (p : string) : bool * string * string :=
  let '(star, q) := skip_stars p in
  let '(chunk, rest) := scan_to_star false q in (star, chunk, rest).

(** One (possibly escaped) character of a class; [None] is [ErrBadPattern]. *)
Definition getEsc (chunk : string) : option (Z * string) :=
  match chunk with
  | EmptyString => None
  | String c t =>
      if Ascii.eqb c "-" || Ascii.eqb c "]" then None
      else
        let body := if Ascii.eqb c "\" then t else chunk in
        if body =s EmptyString then None
        else
          let '(r, w) := DecodeRune body in
          let rest := sdrop w body in
          if invalid_rune (r, w) || (rest =s EmptyString) then None
          else Some (r, rest)
  end.

Definition starts_with (c : ascii) (s : string) : bool :=
  match s with String d _ => Ascii.eqb d c | EmptyString => false end.

(** The ranges of a class up to the closing bracket. *)
Fixpoint class_ranges (fuel : nat) (first : bool) (r : Z) (found : bool) (chunk : string)
  : option (bool * string) :=
  match fuel with
  | O => None
  | S fuel' =>
      if starts_with "]" chunk && negb first then Some (found, sdrop 1 chunk)
      else
        match getEsc chunk with
        | None => None
        | Some (lo, chunk1) =>
            match (if starts_with "-" chunk1 then getEsc (sdrop 1 chunk1)
                   else Some (lo, chunk1)) with
            | None => None
            | Some (hi, chunk2) =>
                class_ranges fuel' false r (found || in_range lo hi r) chunk2
            end
        end
  end.

(** [matchChunk]; [s = None] once the match has failed and only the syntax of
    the chunk is still read.  The fuel is the length of the chunk. *)
Fixpoint matchChunk_fuel (fuel : nat) (chunk : string) (s : option string) : match_result :=
  match chunk with
  | EmptyString => match s with Some t => Matched t | None => NoMatch end
  | String c chunk1 =>
      match fuel with
      | O => BadPattern
      | S fuel' =>
          let s := match s with Some EmptyString => None | _ => s end in
          if Ascii.eqb c "[" then
            let '(r, s1) :=
              match s with
              | Some t => let '(r, w) := DecodeRune t in (r, Some (sdrop w t))
              | None => (0, None)
              end in
            let negated := starts_with "^" chunk1 in
            let chunk2 := if negated then sdrop 1 chunk1 else chunk1 in
            match class_ranges (S (String.length chunk2)) true r false chunk2 with
            | None => BadPattern
            | Some (found, chunk3) =>
                matchChunk_fuel fuel' chunk3 (if Bool.eqb found negated then None else s1)
            end
          else if Ascii.eqb c "?" then
            matchChunk_fuel fuel' chunk1
              (match s with
               | Some t => if starts_with slash t then None
                           else Some (sdrop (snd (DecodeRune t)) t)
               | None => None
               end)
          else
            let lit (c : ascii) (rest : string) :=
              matchChunk_fuel fuel' rest
                (match s with
                 | Some (String d t) => if Ascii.eqb c d then Some t else None
                 | _ => None
                 end) in
            if Ascii.eqb c "\" then
              match chunk1 with
              | EmptyString => BadPattern
              | String c' chunk2 => lit c' chunk2
              end
            else lit c chunk1
      end
  end.
Definition matchChunk (chunk s : string) : match_result :=
  matchChunk_fuel (String.length chunk) chunk (Some s).

(** The remaining chunks are only checked for syntax. *)
Fixpoint check_rest (fuel : nat) (p : string) : result unit bool :=
  match p, fuel with
  | EmptyString, _ => Ok false
  | _, O => Ok false
  | _, S fuel' =>
      let '(_, chunk, rest) := scanChunk p in
      match matchChunk chunk EmptyString with
      | BadPattern => Err tt
      | _ => check_rest fuel' rest
      end
  end.

Inductive star_result := StarAt (rest : string) | StarNone | StarBad.

(** Retry the chunk after skipping one more byte of the name, never a slash. *)
Fixpoint try_star (last : bool) (chunk name : string) : star_result :=
  match name with
  | EmptyString => StarNone
  | String c t =>
      if Ascii.eqb c slash then StarNone
      else
        match matchChunk chunk t with
        | Matched rest =>
            if last && negb (rest =s EmptyString) then try_star last chunk t
            else StarAt rest
        | BadPattern => StarBad
        | NoMatch => try_star last chunk t
        end
  end.

(** [path.Match]; [Err tt] is [ErrBadPattern]. *)
Fixpoint Match_fuel (fuel : nat) (p name : string) : result unit bool :=
  match p, fuel with
  | EmptyString, _ => Ok (name =s EmptyString)
  | _, O => Ok false
  | _, S fuel' =>
      let '(star, chunk, rest) := scanChunk p in
      if star && (chunk =s EmptyString) then Ok (negb (has_byte name slash))
      else
        let last := rest =s EmptyString in
        let fallback (_ : unit) :=
          if star then
            match try_star last chunk name with
            | StarAt t => Match_fuel fuel' rest t
            | StarBad => Err tt
            | StarNone => check_rest fuel' rest
            end
          else check_rest fuel' rest in
        match matchChunk chunk name with
        | Matched t =>
            if (t =s EmptyString) || negb last then Match_fuel fuel' rest t
            else fallback tt
        | BadPattern => Err tt
        | NoMatch => fallback tt
        end
  end.
Definition Match (p name : string) : result unit bool := Match_fuel (String.length p) p name.

Example match_class : Match "file?.[jt]s" "file1.js" = Ok true.
Proof. eval_goal. Qed.
Example match_star : Match "a*c*e" "abcde" = Ok true.
Proof. eval_goal. Qed.
Example match_bad : Match "[a" "probe" = Err tt.
Proof. eval_goal. Qed.
Example rel_parent : Rel "/a/b" "/a/c/d" = Some "../c/d".
Proof. eval_goal. Qed.
Example clean_dots : Clean "/a/./b/../c//d/" = "/a/c/d".
Proof. eval_goal. Qed.

(** ** Clean absolute paths *)

(** A path component that [Clean] keeps: not empty, not a dot, no separator. *)
Definition normal_comp (c : string) : Prop :=
  c <> EmptyString /\ c <> "." /\ c <> ".." /\ has_byte c slash = false.

Lemma clean_comps_normal stack cs :
  Forall normal_comp stack -> Forall (fun c => has_byte c slash = false) cs ->
  Forall normal_comp (clean_comps true stack cs).
Proof.
  revert stack. induction cs as [|c cs IH]; intros stack Hst Hcs; simpl.
  - by apply Forall_rev.
  - apply Forall_cons in Hcs as [Hc Hcs].
    destruct (c =s EmptyString) eqn:E1; simpl; [by apply IH|].
    destruct (c =s ".") eqn:E2; [by apply IH|].
    destruct (c =s "..") eqn:E3.
    + destruct stack as [|top below]; [by apply IH|].
      apply Forall_cons in Hst as [Htop Hbelow].
      rewrite (proj2 (String.eqb_neq top "..")) by apply Htop. by apply IH.
    + to_prop. apply IH; [constructor; [by repeat split|done]|done].
Qed.

Lemma abs_comps_normal p : Forall normal_comp (abs_comps p).
Proof. apply clean_comps_normal; [constructor|apply Split_no_sep]. Qed.

Lemma clean_comps_id b stack cs :
  Forall normal_comp cs -> clean_comps b stack cs = rev stack ++ cs.
Proof.
  revert stack. induction cs as [|c cs IH]; intros stack Hcs; simpl.
  - by rewrite app_nil_r.
  - apply Forall_cons in Hcs as [(H1 & H2 & H3 & _) Hcs].
    apply String.eqb_neq in H1, H2, H3. rewrite H1, H2, H3. simpl.
    rewrite IH by done. simpl. by rewrite <- app_assoc.
Qed.

Lemma normal_no_sep cs :
  Forall normal_comp cs -> Forall (fun w => has_byte w slash = false) cs.
Proof. intros H. eapply Forall_impl; [exact H|]. by intros c (_ & _ & _ & ?). Qed.

Lemma Split_sep_cons s : Split (sep +:+ s) slash = EmptyString :: Split s slash.
Proof. done. Qed.

Lemma abs_comps_cons cs :
  Forall normal_comp cs -> abs_comps (sep +:+ Join cs sep) = cs.
Proof.
  intros Hcs. unfold abs_comps. rewrite Split_sep_cons. simpl.
  destruct cs as [|c cs']; [done|].
  unfold sep. rewrite Split_Join; [|done|by apply normal_no_sep].
  by rewrite clean_comps_id.
Qed.

Lemma Clean_abs p : IsAbs p = true -> Clean p = sep +:+ Join (abs_comps p) sep.
Proof. intros H. unfold Clean. by rewrite H. Qed.

Lemma IsAbs_sep s : IsAbs (sep +:+ s) = true.
Proof. done. Qed.

(** A component of a cleaned path, be it relative. *)
Definition solid_comp (c : string) : Prop := c <> EmptyString /\ has_byte c slash = false.

Lemma clean_comps_solid b stack cs :
  Forall solid_comp stack -> Forall (fun c => has_byte c slash = false) cs ->
  Forall solid_comp (clean_comps b stack cs).
Proof.
  revert stack. induction cs as [|c cs IH]; intros stack Hst Hcs; simpl; [by apply Forall_rev|].
  apply Forall_cons in Hcs as [Hc Hcs].
  assert (Hdots : solid_comp "..") by done.
  destruct (String.eqb_spec c EmptyString) as [->|Hne]; [by apply IH|].
  destruct (c =s "."); [by apply IH|]. cbn [orb]. destruct (c =s "..").
  - destruct stack as [|top below]; [destruct b; apply IH; auto|].
    destruct (top =s ".."); apply IH; try done; [by constructor|]. by apply Forall_cons in Hst as [_ ?].
  - apply IH; [|done]. constructor; [by split|done].
Qed.

Lemma IsAbs_Clean_iff p : IsAbs (Clean p) = IsAbs p.
Proof.
  unfold Clean. destruct (IsAbs p) eqn:E; [done|].
  pose proof (clean_comps_solid false [] (Split p slash) (List.Forall_nil _) (Split_no_sep p slash)) as Hs.
  destruct (clean_comps false [] (Split p slash)) as [|c cs]; [done|].
  apply Forall_cons in Hs as [[Hne Hb] _]. destruct c as [|x c]; [done|].
  assert (Hx : Ascii.eqb slash x = false).
  { unfold has_byte in Hb. cbn [sexists] in Hb. by apply orb_false_iff in Hb as [Hb _]. }
  assert (Hj : exists t, Join (String x c :: cs) sep = String x t) by (destruct cs; cbn; eauto).
  destruct Hj as [t ->]. unfold IsAbs, sep. cbn [HasPrefix].
  by rewrite Ascii.eqb_sym, Hx || rewrite Hx.
Qed.

Lemma IsAbs_Clean p : IsAbs p = true -> IsAbs (Clean p) = true.
Proof. intros H. by rewrite Clean_abs. Qed.

Lemma abs_comps_Clean p : IsAbs p = true -> abs_comps (Clean p) = abs_comps p.
Proof. intros H. rewrite Clean_abs by done. apply abs_comps_cons, abs_comps_normal. Qed.

Lemma Clean_idemp p : IsAbs p = true -> Clean (Clean p) = Clean p.
Proof.
  intros H. rewrite (Clean_abs (Clean p)) by by apply IsAbs_Clean.
  by rewrite abs_comps_Clean, <- Clean_abs.
Qed.

Lemma Clean_eq_comps p q :
  IsAbs p = true -> IsAbs q = true -> Clean p = Clean q <-> abs_comps p = abs_comps q.
Proof.
  intros Hp Hq. split.
  - intros H. by rewrite <- (abs_comps_Clean p), <- (abs_comps_Clean q), H.
  - intros H. by rewrite !Clean_abs, H.
Qed.

Lemma Join_nonempty c cs s : c <> EmptyString -> Join (c :: cs) s <> EmptyString.
Proof. destruct c; [done|]. by destruct cs. Qed.

Lemma path_comps_Clean p : IsAbs p = true -> path_comps (Clean p) = abs_comps p.
Proof.
  intros H. rewrite Clean_abs by done. unfold path_comps. rewrite TrimPrefix_app.
  pose proof (abs_comps_normal p) as Hn. destruct (abs_comps p) as [|c cs]; [done|].
  rewrite (proj2 (String.eqb_neq _ _)).
  - unfold sep. apply Split_Join; [done|]. by apply normal_no_sep.
  - apply Join_nonempty. apply Forall_cons in Hn as [Hc _]. apply Hc.
Qed.

Lemma strip_common_spec a b a' b' :
  strip_common a b = (a', b') ->
  exists p, a = p ++ a' /\ b = p ++ b' /\
    match a', b' with x :: _, y :: _ => x <> y | _, _ => True end.
Proof.
  revert b a' b'. induction a as [|x a IH]; intros b a' b'; simpl.
  - intros [= <- <-]. by exists [].
  - destruct b as [|y b]; [intros [= <- <-]; by exists []|].
    destruct (x =s y) eqn:E.
    + intros H. to_prop. subst y. apply IH in H as (p & -> & -> & H).
      by exists (x :: p).
    + intros [= <- <-]. to_prop. by exists [].
Qed.

(** The guard the program applies to a [Rel] result. *)
Definition stays_inside (relative : string) : bool :=
  negb (IsAbs relative) && negb (relative =s "..")
  && negb (HasPrefix relative (".." +:+ sep)).

Lemma HasPrefix_Split_head s w t :
  has_byte w slash = false -> s = w +:+ sep +:+ t -> head (Split s slash) = Some w.
Proof. intros Hw ->. unfold sep. simpl. by rewrite Split_app_sep. Qed.

Lemma stays_inside_normal cs :
  cs <> [] -> Forall normal_comp cs -> stays_inside (Join cs sep) = true.
Proof.
  intros Hne Hcs.
  assert (HS : Split (Join cs sep) slash = cs) by (apply Split_Join; [done|by apply normal_no_sep]).
  destruct cs as [|c cs]; [done|]. apply Forall_cons in Hcs as [(H1 & H2 & H3 & H4) _].
  assert (Hh : forall w t, has_byte w slash = false ->
                           Join (c :: cs) sep = w +:+ sep +:+ t -> c = w).
  { intros w t Hw Hj. apply HasPrefix_Split_head in Hj; [|done].
    rewrite HS in Hj. by injection Hj. }
  unfold stays_inside, IsAbs. rewrite !andb_true_iff, !negb_true_iff. repeat split.
  - apply not_true_is_false. intros [t Ht]%HasPrefix_iff.
    by specialize (Hh EmptyString t eq_refl Ht).
  - apply String.eqb_neq. intros He. rewrite He in HS. vm_compute in HS. congruence.
  - apply not_true_is_false. intros [t Ht]%HasPrefix_iff.
    rewrite str_app_assoc in Ht. by specialize (Hh ".." t eq_refl Ht).
Qed.

Lemma stays_inside_dotdot (l t : list string) :
  stays_inside (Join ((".." :: map (fun _ => "..") l) ++ t) sep) = false.
Proof.
  unfold stays_inside. simpl.
  destruct (map (fun _ : string => "..") l ++ t) as [|w ws]; simpl; [done|].
  done.
Qed.

(** The containment test of the program on absolute paths: the components
    of the root are a prefix of the components of the target. *)
Theorem Rel_inside root target :
  IsAbs root = true -> IsAbs target = true ->
  match Rel root target with Some r => stays_inside r | None => false end = true
  <-> abs_comps root `prefix_of` abs_comps target.
Proof.
  intros Hr Ht. unfold Rel.
  destruct (Clean target =s Clean root) eqn:E; to_prop.
  { apply Clean_eq_comps in E; [|done..]. rewrite E. by split. }
  rewrite (IsAbs_Clean _ Hr), (IsAbs_Clean _ Ht). simpl.
  rewrite (proj2 (String.eqb_neq (Clean root) ".")).
  2: { intros H. pose proof (IsAbs_Clean _ Hr) as H'. by rewrite H in H'. }
  rewrite !path_comps_Clean by done.
  destruct (strip_common (abs_comps root) (abs_comps target)) as [bs ts] eqn:Hs.
  apply strip_common_spec in Hs as (p & Hb & Htc & Hd).
  pose proof (abs_comps_normal target) as Hnt. pose proof (abs_comps_normal root) as Hnr.
  destruct bs as [|b bs].
  - rewrite app_nil_r in Hb. rewrite Hb, Htc. split; [intros _; by exists ts|intros _].
    destruct ts as [|t ts].
    + exfalso. apply E, Clean_eq_comps; [done..|]. by rewrite Htc, app_nil_r, Hb.
    + apply stays_inside_normal; [done|]. rewrite Htc in Hnt. apply Forall_app in Hnt as [_ Hnt]. exact Hnt.
  - rewrite Hb in Hnr. apply Forall_app in Hnr as [_ [(_ & _ & Hbb & _) _]%Forall_cons].
    rewrite (proj2 (String.eqb_neq b "..")) by done.
    cbn [map]. rewrite (stays_inside_dotdot bs ts). split; [done|]. intros [k Hk]. exfalso.
    rewrite Hb, Htc, <- app_assoc in Hk. apply app_inv_head in Hk.
    destruct ts as [|t ts]; [done|]. by injection Hk as -> _.
Qed.


(** ** Joining below an absolute path *)

Lemma clean_comps_app stack l1 l2 :
  clean_comps true stack (l1 ++ l2) = clean_comps true (rev (clean_comps true stack l1)) l2.
Proof.
  revert stack. induction l1 as [|c l1 IH]; intros stack; simpl.
  - by rewrite rev_involutive.
  - destruct (_ || _); [by rewrite IH|]. destruct (c =s ".."); [|by rewrite IH].
    destruct stack as [|top below]; [by rewrite IH|].
    by destruct (top =s ".."); rewrite IH.
Qed.

Lemma IsAbs_app p q : IsAbs p = true -> IsAbs (p +:+ q) = true.
Proof. intros [t ->]%HasPrefix_iff. done. Qed.

Lemma IsAbs_nonempty p : IsAbs p = true -> p <> EmptyString.
Proof. by intros H ->. Qed.

Lemma JoinPath_two root p :
  IsAbs root = true -> JoinPath [root; p] = Clean (root +:+ sep +:+ p).
Proof.
  intros H. unfold JoinPath. simpl.
  by rewrite (proj2 (String.eqb_neq _ _)) by by apply IsAbs_nonempty.
Qed.

Lemma IsAbs_JoinPath root p : IsAbs root = true -> IsAbs (JoinPath [root; p]) = true.
Proof. intros H. rewrite JoinPath_two by done. by apply IsAbs_Clean, IsAbs_app. Qed.

Lemma IsAbs_Abs wd p : IsAbs wd = true -> IsAbs (Abs wd p) = true.
Proof.
  intros H. unfold Abs. destruct (IsAbs p) eqn:E; [by apply IsAbs_Clean|by apply IsAbs_JoinPath].
Qed.

Lemma Clean_Abs wd p : IsAbs wd = true -> Clean (Abs wd p) = Abs wd p.
Proof.
  intros H. unfold Abs. destruct (IsAbs p) eqn:E; [by apply Clean_idemp|].
  rewrite JoinPath_two by done. by apply Clean_idemp, IsAbs_app.
Qed.

(** Joining a relative path of ordinary components only appends them. *)
Lemma JoinPath_normal root p :
  IsAbs root = true -> Forall normal_comp (Split p slash) ->
  abs_comps (JoinPath [root; p]) = abs_comps root ++ Split p slash.
Proof.
  intros Hr Hp. rewrite JoinPath_two, abs_comps_Clean by (done || by apply IsAbs_app).
  unfold abs_comps, sep. cbn [String.append].
  by rewrite Split_app, clean_comps_app, clean_comps_id, rev_involutive.
Qed.
