(* ===== verification/GoSha256.v ===== *)
(** * SHA-256 and hexadecimal

    [crypto/sha256.Sum256] (FIPS 180-4) and [encoding/hex] on byte strings,
    executable; the message schedule is produced from a sliding window of
    sixteen words. *)

From S2P Require Import Prelude GoStrings.

(** The low 32 bits; as a mask it is cheap for the kernel to evaluate. *)
Definition w32 (z : Z) : Z := Z.land z 4294967295.
Definition add32 (a b : Z) : Z := w32 (a + b).
Definition rotr (n x : Z) : Z := Z.lor (Z.shiftr x n) (w32 (Z.shiftl x (32 - n))).
Definition bsig0 (x : Z) : Z := Z.lxor (rotr 2 x) (Z.lxor (rotr 13 x) (rotr 22 x)).
Definition bsig1 (x : Z) : Z := Z.lxor (rotr 6 x) (Z.lxor (rotr 11 x) (rotr 25 x)).
Definition ssig0 (x : Z) : Z := Z.lxor (rotr 7 x) (Z.lxor (rotr 18 x) (Z.shiftr x 3)).
Definition ssig1 (x : Z) : Z := Z.lxor (rotr 17 x) (Z.lxor (rotr 19 x) (Z.shiftr x 10)).
Definition choose (x y z : Z) : Z := Z.lxor (Z.land x y) (Z.land (4294967295 - x) z).
Definition majority (x y z : Z) : Z :=
  Z.lxor (Z.land x y) (Z.lxor (Z.land x z) (Z.land y z)).

Definition round_constants : list Z :=
  [1116352408; 1899447441; 3049323471; 3921009573; 961987163; 1508970993; 2453635748; 2870763221;
   3624381080; 310598401; 607225278; 1426881987; 1925078388; 2162078206; 2614888103; 3248222580;
   3835390401; 4022224774; 264347078; 604807628; 770255983; 1249150122; 1555081692; 1996064986;
   2554220882; 2821834349; 2952996808; 3210313671; 3336571891; 3584528711; 113926993; 338241895;
   666307205; 773529912; 1294757372; 1396182291; 1695183700; 1986661051; 2177026350; 2456956037;
   2730485921; 2820302411; 3259730800; 3345764771; 3516065817; 3600352804; 4094571909; 275423344;
   430227734; 506948616; 659060556; 883997877; 958139571; 1322822218; 1537002063; 1747873779;
   1955562222; 2024104815; 2227730452; 2361852424; 2428436474; 2756734187; 3204031479; 3329325298].

Record hash_state := HS { ha : Z; hb : Z; hc : Z; hd : Z; he : Z; hf : Z; hg : Z; hh : Z }.

Definition initial_state : hash_state :=
  HS 1779033703 3144134277 1013904242 2773480762 1359893119 2600822924 528734635 1541459225.

Definition round (s : hash_state) (k w : Z) : hash_state :=
  let t1 := add32 (hh s) (add32 (bsig1 (he s))
              (add32 (choose (he s) (hf s) (hg s)) (add32 k w))) in
  let t2 := add32 (bsig0 (ha s)) (majority (ha s) (hb s) (hc s)) in
  HS (add32 t1 t2) (ha s) (hb s) (hc s) (add32 (hd s) t1) (he s) (hf s) (hg s).

(** One round per constant; the window holds the next sixteen words. *)
Fixpoint rounds (ks window : list Z) (s : hash_state) : hash_state :=
  match ks, window with
  | k :: ks', w0 :: rest =>
      let next := add32 (ssig1 (nth 13 rest 0))
                    (add32 (nth 8 rest 0) (add32 (ssig0 (nth 0 rest 0)) w0)) in
      rounds ks' (rest ++ [next]) (round s k w0)
  | _, _ => s
  end.

Definition add_state (a b : hash_state) : hash_state :=
  HS (add32 (ha a) (ha b)) (add32 (hb a) (hb b)) (add32 (hc a) (hc b)) (add32 (hd a) (hd b))
     (add32 (he a) (he b)) (add32 (hf a) (hf b)) (add32 (hg a) (hg b)) (add32 (hh a) (hh b)).

Definition compress (s : hash_state) (block : list Z) : hash_state :=
  add_state s (rounds round_constants block s).

Fixpoint blocks (fuel : nat) (words : list Z) (s : hash_state) : hash_state :=
  match fuel, words with
  | S fuel', _ :: _ => blocks fuel' (drop 16 words) (compress s (take 16 words))
  | _, _ => s
  end.

Fixpoint byte_list (s : string) : list Z :=
  match s with EmptyString => [] | String c t => byte_val c :: byte_list t end.

Fixpoint be_words (l : list Z) : list Z :=
  match l with
  | a :: b :: c :: d :: rest => (a * 16777216 + b * 65536 + c * 256 + d) :: be_words rest
  | _ => []
  end.

Definition be_bytes (n : nat) (z : Z) : list Z :=
  map (fun i => (z / 256 ^ Z.of_nat i) mod 256) (rev (seq 0 n)).

Definition pad (l : list Z) : list Z :=
  let n := Z.of_nat (length l) in
  l ++ 128 :: replicate (Z.to_nat ((55 - n) mod 64)) 0 ++ be_bytes 8 (8 * n).

Definition state_words (s : hash_state) : list Z :=
  [ha s; hb s; hc s; hd s; he s; hf s; hg s; hh s].

Definition sha256_bytes (s : string) : list Z :=
  let words := be_words (pad (byte_list s)) in
  concat (map (be_bytes 4) (state_words (blocks (length words) words initial_state))).

Definition hex_digit (z : Z) : ascii := byte_of (if z <? 10 then 48 + z else 87 + z).

(** [hex.EncodeToString]. *)
Fixpoint hex (l : list Z) : string :=
  match l with
  | [] => EmptyString
  | b :: l' => String (hex_digit (b / 16)) (String (hex_digit (b mod 16)) (hex l'))
  end.

(** [hex.EncodeToString(sha256.Sum256(s)[:])]. *)
Definition sha256_hex (s : string) : string := hex (sha256_bytes s).

(** [fmt.Sprintf] with [%0nx], for a number of at most [n] hexadecimal digits. *)
Fixpoint hex_padded (n : nat) (z : Z) : string :=
  match n with
  | O => EmptyString
  | S n' => hex_padded n' (z / 16) +:+ String (hex_digit (z mod 16)) EmptyString
  end.

Definition is_lower_hex (c : ascii) : bool :=
  in_range 48 57 (byte_val c) || in_range 97 102 (byte_val c).

Lemma w32_mod z : w32 z = z mod 2 ^ 32.
Proof. exact (Z.land_ones z 32 ltac:(lia)). Qed.

Example sha256_abc :
  sha256_hex "abc" = "ba7816bf8f01cfea414140de5dae2223b00361a396177a9cb410ff61f20015ad".
Proof. eval_goal. Qed.

Lemma be_bytes_range n z : Forall (fun b => 0 <= b < 256) (be_bytes n z).
Proof.
  unfold be_bytes. apply Forall_map, Forall_true. intros i. by apply Z.mod_pos_bound.
Qed.

Lemma sha256_bytes_length s : length (sha256_bytes s) = 32%nat.
Proof. reflexivity. Qed.

Lemma sha256_bytes_range s : Forall (fun b => 0 <= b < 256) (sha256_bytes s).
Proof.
  unfold sha256_bytes. apply Forall_concat, Forall_map, Forall_true. intros; apply be_bytes_range.
Qed.

Lemma hex_length l : String.length (hex l) = (2 * length l)%nat.
Proof. induction l; simpl; lia. Qed.

Lemma hex_digit_lower z : 0 <= z < 16 -> is_lower_hex (hex_digit z) = true.
Proof.
  intros Hz. unfold is_lower_hex, hex_digit. destruct (Z.ltb_spec z 10);
    rewrite byte_val_of by lia; apply orb_true_iff; rewrite !in_range_iff; lia.
Qed.

Lemma hex_lower l :
  Forall (fun b => 0 <= b < 256) l -> sforall is_lower_hex (hex l) = true.
Proof.
  induction 1 as [|b l Hb _ IH]; [done|]. simpl. rewrite !sforall_cons, IH.
  rewrite !hex_digit_lower by dlia. done.
Qed.

Lemma sha256_hex_length s : String.length (sha256_hex s) = 64%nat.
Proof. unfold sha256_hex. by rewrite hex_length, sha256_bytes_length. Qed.

Lemma sha256_hex_lower s : sforall is_lower_hex (sha256_hex s) = true.
Proof. apply hex_lower, sha256_bytes_range. Qed.

#[export] Hint Resolve sha256_hex_length sha256_hex_lower : arp.

(** The digests are only used through the facts above. *)
#[global] Opaque sha256_hex.
