(* ===== verification/GoRegexp.v ===== *)
(** * Regular expressions ([regexp])

    The part of Go's regular expressions that the program and its schemas
    write: literals, classes with ranges, groups, alternatives and bounded
    repetitions, anchored at the ends of the text.  A pattern is parsed from
    its source text; matching takes derivatives, and [matches_iff] says that
    it decides the language of the expression.  A pattern outside this part of
    the syntax does not compile here. *)

From S2P Require Import Prelude GoStrings.

(** ** Expressions and their language *)

Inductive regexp :=
| Nothing
| Empty
| Class (negated : bool) (ranges : list (Z * Z))
| Concat (a b : regexp)
| Alternate (a b : regexp)
| Repeat (r : regexp) (least : nat) (extra : option nat).

Definition in_class (negated : bool) (ranges : list (Z * Z)) (r : Z) : bool :=
  xorb negated (existsb (fun p => in_range (fst p) (snd p) r) ranges).

(** [n] words of the language one after the other. *)
Fixpoint power (L : list Z -> Prop) (n : nat) (w : list Z) : Prop :=
  match n with
  | O => w = []
  | S n' => exists u v, w = u ++ v /\ L u /\ power L n' v
  end.

Definition within (extra : option nat) (n : nat) : Prop :=
  match extra with Some k => (n <= k)%nat | None => True end.

Fixpoint lang (r : regexp) (w : list Z) : Prop :=
  match r with
  | Nothing => False
  | Empty => w = []
  | Class negated ranges => exists c, w = [c] /\ in_class negated ranges c = true
  | Concat a b => exists u v, w = u ++ v /\ lang a u /\ lang b v
  | Alternate a b => lang a w \/ lang b w
  | Repeat a least extra => exists n, within extra n /\ power (lang a) (least + n) w
  end.

(** ** Matching *)

Fixpoint nullable (r : regexp) : bool :=
  match r with
  | Nothing | Class _ _ => false
  | Empty => true
  | Concat a b => nullable a && nullable b
  | Alternate a b => nullable a || nullable b
  | Repeat a least _ => (least =? 0)%nat || nullable a
  end.

Definition cat (a b : regexp) : regexp :=
  match a, b with
  | Nothing, _ | _, Nothing => Nothing
  | Empty, _ => b
  | _, Empty => a
  | _, _ => Concat a b
  end.

Definition alt (a b : regexp) : regexp :=
  match a, b with
  | Nothing, _ => b
  | _, Nothing => a
  | _, _ => Alternate a b
  end.

(** The derivative: what may follow the rune [c]. *)
Fixpoint der (c : Z) (r : regexp) : regexp :=
  match r with
  | Nothing | Empty => Nothing
  | Class negated ranges => if in_class negated ranges c then Empty else Nothing
  | Concat a b =>
      if nullable a then alt (cat (der c a) b) (der c b) else cat (der c a) b
  | Alternate a b => alt (der c a) (der c b)
  | Repeat a least extra =>
      match least, extra with
      | S m, _ => cat (der c a) (Repeat a m extra)
      | O, Some O => Nothing
      | O, Some (S k) => cat (der c a) (Repeat a O (Some k))
      | O, None => cat (der c a) (Repeat a O None)
      end
  end.

Fixpoint matches (r : regexp) (w : list Z) : bool :=
  match w with
  | [] => nullable r
  | c :: w' => matches (der c r) w'
  end.

(** ** Parsing a pattern *)

Definition rune_of (c : ascii) : Z := byte_val c.

Definition literal (r : Z) : regexp := Class false [(r, r)].

(** Punctuation may be escaped to stand for itself. *)
Definition is_punct (r : Z) : bool :=
  in_range 33 47 r || in_range 58 64 r || in_range 91 96 r || in_range 123 126 r.

Definition class_item (s : list Z) : option (Z * list Z) :=
  match s with
  | 92 :: c :: t => if is_punct c then Some (c, t) else None
  | 92 :: [] | [] => None
  | 91 :: 58 :: _ => None                                    (* [:name:] *)
  | c :: t => Some (c, t)
  end.

(** The ranges of a class up to its closing bracket. *)
Fixpoint parse_class (fuel : nat) (s : list Z) (ranges : list (Z * Z))
  : option (list (Z * Z) * list Z) :=
  match fuel, s with
  | O, _ => None
  | S _, 93 :: t => Some (ranges, t)
  | S fuel', _ =>
      match class_item s with
      | None => None
      | Some (lo, 45 :: 93 :: t) => Some (ranges ++ [(lo, lo); (45, 45)], t)
      | Some (lo, 45 :: t) =>
          match class_item t with
          | Some (hi, t') => if lo <=? hi then parse_class fuel' t' (ranges ++ [(lo, hi)]) else None
          | None => None
          end
      | Some (lo, t) => parse_class fuel' t (ranges ++ [(lo, lo)])
      end
  end.

Fixpoint parse_number (s : list Z) (acc : Z) (seen : bool) : option (nat * list Z) :=
  match s with
  | c :: t =>
      if in_range 48 57 c then parse_number t (acc * 10 + (c - 48)) true
      else if seen && (acc <=? 1000) then Some (Z.to_nat acc, s) else None
  | [] => None
  end.

(** A repetition operator after the piece [r], if there is one; a second
    operator, and the lazy ones, are not in this part of the syntax. *)
Definition parse_postfix (r : regexp) (s : list Z) : option (regexp * list Z) :=
  let result :=
    match s with
    | 42 :: t => Some (Repeat r 0 None, t)
    | 43 :: t => Some (Repeat r 1 None, t)
    | 63 :: t => Some (Repeat r 0 (Some 1%nat), t)
    | 123 :: t =>
        match parse_number t 0 false with
        | Some (m, 125 :: t') => Some (Repeat r m (Some 0%nat), t')
        | Some (m, 44 :: 125 :: t') => Some (Repeat r m None, t')
        | Some (m, 44 :: t') =>
            match parse_number t' 0 false with
            | Some (n, 125 :: t'') =>
                if (m <=? n)%nat then Some (Repeat r m (Some (n - m)%nat), t'') else None
            | _ => None
            end
        | _ => None
        end
    | _ => Some (r, s)
    end in
  match s, result with
  | (42 | 43 | 63 | 123) :: _, Some (_, (42 | 43 | 63 | 123) :: _) => None
  | _, _ => result
  end.

Fixpoint concat_all (l : list regexp) : regexp :=
  match l with [] => Empty | [r] => r | r :: l' => Concat r (concat_all l') end.
Fixpoint alternate_all (l : list regexp) : regexp :=
  match l with [] => Nothing | [r] => r | r :: l' => Alternate r (alternate_all l') end.

(** The alternatives up to a closing parenthesis or the end; [branch] holds
    the pieces of the current one. *)
Fixpoint parse_branches (fuel : nat) (s : list Z) (branch : list regexp) (branches : list regexp)
  : option (list regexp * list Z) :=
  match fuel with
  | O => None
  | S fuel' =>
      let piece (r : regexp) (t : list Z) :=
        match parse_postfix r t with
        | Some (r', t') => parse_branches fuel' t' (branch ++ [r']) branches
        | None => None
        end in
      let group (t : list Z) :=
        match parse_branches fuel' t [] [] with
        | Some (inner, 41 :: t') => piece (alternate_all inner) t'
        | _ => None
        end in
      match s with
      | [] | 41 :: _ => Some (branches ++ [concat_all branch], s)
      | 124 :: t => parse_branches fuel' t [] (branches ++ [concat_all branch])
      | 40 :: 63 :: 58 :: t => group t
      | 40 :: 63 :: _ => None
      | 40 :: t => group t
      | 91 :: 94 :: t =>
          match t, parse_class fuel' t [] with
          | 93 :: _, _ => None
          | _, Some (ranges, t') => piece (Class true ranges) t'
          | _, None => None
          end
      | 91 :: t =>
          match t, parse_class fuel' t [] with
          | 93 :: _, _ => None
          | _, Some (ranges, t') => piece (Class false ranges) t'
          | _, None => None
          end
      | 92 :: c :: t => if is_punct c then piece (literal c) t else None
      | 46 :: t => piece (Class true [(10, 10)]) t
      | (92 | 94 | 36 | 42 | 43 | 63 | 123) :: _ => None
      | c :: t => piece (literal c) t
      end
  end.

(** [^] at the beginning and [$] at the end of the pattern. *)
Record Regexp := { BeginText : bool; EndText : bool; Body : regexp }.

Fixpoint strip_end (s : list Z) : bool * list Z :=
  match s with
  | [] => (false, [])
  | [36] => (true, [])
  | 92 :: c :: t => let '(b, t') := strip_end t in (b, 92 :: c :: t')
  | c :: t => let '(b, t') := strip_end t in (b, c :: t')
  end.

(** [regexp.Compile]. *)
Definition Compile (pattern : string) : option Regexp :=
  let s := runes pattern in
  let '(begins, s1) := match s with 94 :: t => (true, t) | _ => (false, s) end in
  let '(ends, s2) := strip_end s1 in
  match parse_branches (S (length s2)) s2 [] [] with
  | Some (branches, []) =>
      if (begins || ends) && (1 <? length branches)%nat then None
      else Some {| BeginText := begins; EndText := ends; Body := alternate_all branches |}
  | _ => None
  end.

Definition anything : regexp := Repeat (Class true []) 0 None.

(** Without an anchor the match may start or end anywhere. *)
Definition search (re : Regexp) : regexp :=
  cat (if BeginText re then Empty else anything)
      (cat (Body re) (if EndText re then Empty else anything)).

(** [MatchString] of a compiled expression. *)
Definition Regexp_MatchString (re : Regexp) (s : string) : bool := matches (search re) (runes s).

(** [regexp.MustCompile(pattern).MatchString(s)]. *)
Definition MatchString (pattern s : string) : bool :=
  match Compile pattern with Some re => Regexp_MatchString re s | None => false end.

(** ** Matching decides the language *)

Section Language.
Implicit Types (L : list Z -> Prop) (r a b : regexp) (w u v : list Z).

Lemma power_pad L n w : L [] -> power L n w -> power L (S n) w.
Proof. intros HL Hw. by exists [], w. Qed.

(** The first nonempty factor can be taken to be the first one. *)
Lemma power_residual L n c w :
  power L (S n) (c :: w) <-> exists u v, w = u ++ v /\ L (c :: u) /\ power L n v.
Proof.
  split.
  - revert c w. induction n as [|n IH]; intros c w (u & v & Hw & Hu & Hv).
    + cbn [power] in Hv. subst v. rewrite app_nil_r in Hw. subst u. exists w, [].
      by rewrite app_nil_r.
    + destruct u as [|c' u].
      * cbn [app] in Hw. subst v. apply IH in Hv as (u & v & -> & Hcu & Hv).
        exists u, v. auto using power_pad.
      * injection Hw as -> ->. by exists u, v.
  - intros (u & v & -> & Hu & Hv). by exists (c :: u), v.
Qed.

Lemma power_nil L n : power L n [] <-> n = O \/ L [].
Proof.
  induction n as [|n IH]; cbn [power]; [intuition done|]. split.
  - intros (u & v & [-> ->]%eq_sym%app_eq_nil & Hu & _). by right.
  - intros [|HL]; [done|]. exists [], []. split; [done|]. split; [done|]. apply IH. by right.
Qed.

Lemma nullable_lang r : nullable r = true <-> lang r [].
Proof.
  induction r as [| |neg rs|a IHa b IHb|a IHa b IHb|a IHa m e]; cbn [nullable lang].
  - done.
  - done.
  - split; [done|]. by intros (c & ? & _).
  - rewrite andb_true_iff, IHa, IHb. split; [by exists [], []|].
    intros (u & v & [-> ->]%eq_sym%app_eq_nil & ?). done.
  - by rewrite orb_true_iff, IHa, IHb.
  - rewrite orb_true_iff, Nat.eqb_eq, IHa. split.
    + intros H. exists O. rewrite Nat.add_0_r, power_nil. split; [by destruct e; simpl; lia || done|done].
    + intros (n & _ & [Hn|HL]%power_nil); [left; lia|by right].
Qed.

Lemma lang_cat a b w : lang (cat a b) w <-> lang (Concat a b) w.
Proof.
  assert (Hn : forall x, ~ lang (Concat x Nothing) w) by (intros x (u & v & _ & _ & [])).
  assert (He : forall x, lang x w <-> lang (Concat x Empty) w).
  { intros x. cbn [lang]. split; [intros H; exists w, []; by rewrite app_nil_r|].
    intros (u & v & -> & Hu & ->). by rewrite app_nil_r. }
  destruct a; destruct b; cbn [cat]; try done; try apply He; try (split; [done|]; intros H; by apply Hn in H);
    cbn [lang]; (split; [intros H; try done; exists [], w; done | intros (u & v & -> & H & Hv); by subst]).
Qed.

Lemma lang_alt a b w : lang (alt a b) w <-> lang a w \/ lang b w.
Proof. destruct a, b; cbn [alt lang]; tauto. Qed.

Lemma lang_repeat_S a m e w :
  lang (Repeat a (S m) e) w <-> exists n, within e n /\ power (lang a) (S (m + n)) w.
Proof. reflexivity. Qed.

Lemma lang_der c r w : lang (der c r) w <-> lang r (c :: w).
Proof.
  revert w. induction r as [| |neg rs|a IHa b IHb|a IHa b IHb|a IHa m e]; intros w.
  - done.
  - done.
  - cbn [der]. destruct (in_class neg rs c) eqn:E; cbn [lang]; split.
    + intros ->. by exists c.
    + intros (c' & [= _ ->] & _). done.
    + done.
    + intros (c' & [= -> ->] & ?). congruence.
  - assert (Hl : lang (cat (der c a) b) w <-> exists u v, w = u ++ v /\ lang a (c :: u) /\ lang b v).
    { rewrite lang_cat. cbn [lang]. by setoid_rewrite IHa. }
    assert (Hc : lang (Concat a b) (c :: w) <->
                 (exists u v, w = u ++ v /\ lang a (c :: u) /\ lang b v) \/ (lang a [] /\ lang b (c :: w))).
    { cbn [lang]. split.
      - intros ([|c' u] & v & Hw & Hu & Hv); cbn [app] in Hw; [right; by subst v|].
        injection Hw as -> ->. left. by exists u, v.
      - intros [(u & v & -> & Hu & Hv)|[Hu Hv]]; [by exists (c :: u), v|by exists [], (c :: w)]. }
    rewrite Hc. cbn [der]. destruct (nullable a) eqn:E.
    + rewrite lang_alt, Hl, IHb. apply nullable_lang in E. tauto.
    + rewrite Hl. split; [by left|]. intros [|[E' _]]; [done|]. apply nullable_lang in E'. congruence.
  - cbn [der]. by rewrite lang_alt, IHa, IHb.
  - assert (Hstep : forall m' e', lang (cat (der c a) (Repeat a m' e')) w <->
              exists n, within e' n /\ power (lang a) (S (m' + n)) (c :: w)).
    { intros m' e'. rewrite lang_cat. cbn [lang]. setoid_rewrite power_residual. setoid_rewrite IHa. split.
      - intros (u & v & -> & Hu & n & Hn & Hv). exists n. split; [done|]. by exists u, v.
      - intros (n & Hn & u & v & -> & Hu & Hv). exists u, v. split; [done|]. split; [done|]. by exists n. }
    cbn [der]. destruct m as [|m]; [destruct e as [[|k]|]|].
    + split; [done|]. intros (n & Hn & Hp). cbn [within] in Hn. replace n with O in Hp by lia. done.
    + rewrite Hstep. cbn [lang within]. split.
      * intros (n & Hn & Hp). exists (S n). split; [lia|done].
      * intros ([|n] & Hn & Hp); [done|]. exists n. split; [lia|done].
    + rewrite Hstep. cbn [lang within]. split.
      * intros (n & Hn & Hp). by exists (S n).
      * intros ([|n] & Hn & Hp); [done|]. by exists n.
    + rewrite Hstep. done.
Qed.

(** Matching decides the language of the expression. *)
Lemma matches_iff r w : matches r w = true <-> lang r w.
Proof.
  revert r. induction w as [|c w IH]; intros r; cbn [matches]; [apply nullable_lang|].
  rewrite IH. apply lang_der.
Qed.

Lemma matches_ext r r' : (forall w, lang r w <-> lang r' w) -> forall w, matches r w = matches r' w.
Proof. intros H w. apply eq_true_iff_eq. by rewrite !matches_iff. Qed.
End Language.

(** ** Repeated classes *)

Section Classes.
Implicit Types (w : list Z).

Lemma lang_class neg rs w :
  lang (Class neg rs) w <-> length w = 1%nat /\ forallb (in_class neg rs) w = true.
Proof.
  cbn [lang]. split; [by intros (c & -> & H); cbn [length forallb]; rewrite H|].
  destruct w as [|c [|d w]]; [by intros []| |by intros []]. cbn [forallb]. rewrite andb_true_r.
  intros [_ H]. by exists c.
Qed.

Lemma power_class neg rs n w :
  power (lang (Class neg rs)) n w <-> length w = n /\ forallb (in_class neg rs) w = true.
Proof.
  revert w. induction n as [|n IH]; intros w; cbn [power].
  - split; [by intros ->|]. by intros [?%nil_length_inv _].
  - setoid_rewrite lang_class. setoid_rewrite IH. split.
    + intros (u & v & -> & [Hu Hfu] & Hv & Hfv). rewrite length_app, forallb_app, Hfu, Hfv. split; [lia|done].
    + destruct w as [|c w]; [by intros []|]. cbn [length forallb]. rewrite andb_true_iff.
      intros [[= Hn] [Hc Hw]]. exists [c], w. cbn [forallb length]. by rewrite Hc.
Qed.

Lemma matches_class_repeat neg rs m e w :
  matches (Repeat (Class neg rs) m e) w
  = (m <=? length w)%nat && match e with Some k => (length w <=? m + k)%nat | None => true end
    && forallb (in_class neg rs) w.
Proof.
  apply eq_true_iff_eq. rewrite matches_iff, !andb_true_iff, Nat.leb_le. cbn [lang].
  setoid_rewrite power_class. split.
  - intros (n & Hn & Hl & Hf). rewrite Hl, Hf. split; [|done]. split; [lia|].
    destruct e; [|done]. cbn [within] in Hn. apply Nat.leb_le. lia.
  - intros [[Hm Hk] Hf]. exists (length w - m)%nat. split; [|split; [lia|done]].
    destruct e; [|done]. apply Nat.leb_le in Hk. cbn [within]. lia.
Qed.

Lemma matches_class neg rs w :
  matches (Class neg rs) w = (length w =? 1)%nat && forallb (in_class neg rs) w.
Proof. apply eq_true_iff_eq. by rewrite matches_iff, lang_class, andb_true_iff, Nat.eqb_eq. Qed.

(** A class for the first rune, then another expression. *)
Lemma matches_class_concat neg rs b w :
  matches (Concat (Class neg rs) b) w
  = match w with [] => false | c :: t => in_class neg rs c && matches b t end.
Proof.
  destruct w as [|c w]; [done|]. cbn [matches der nullable].
  destruct (in_class neg rs c); cbn [andb].
  - apply matches_ext. intros u. rewrite lang_cat. cbn [lang]. split.
    + by intros (? & v & -> & -> & H).
    + intros H. by exists [], u.
  - assert (Hn : cat Nothing b = Nothing) by by destruct b. rewrite Hn.
    induction w as [|d w IH]; [done|]. exact IH.
Qed.
End Classes.

(** ** Texts of bytes

    The classes of the patterns hold runes below 128 only, where a rune is a
    byte: matching the runes of a text is matching its bytes. *)

Definition byte_runes (s : string) : list Z := map byte_val (String.list_ascii_of_string s).

Lemma DecodeRune_high c t : 128 <= byte_val c -> 128 <= fst (DecodeRune (String c t)).
Proof.
  intros Hc. destruct (DecodeRune (String c t)) as [r w] eqn:HD. cbn [fst].
  destruct (invalid_rune (r, w)) eqn:Hi.
  { unfold invalid_rune in Hi. destruct_hyps. cbn [fst] in *. to_prop. subst r. vm_compute. done. }
  destruct (EncodeRune_DecodeRune (String c t) r w ltac:(done) HD Hi) as [Hs He].
  destruct (Z.leb_spec 128 r) as [|Hr]; [done|]. exfalso.
  rewrite EncodeRune_scalar in He by done. rewrite (proj2 (Z.ltb_lt r 128) Hr) in He.
  apply scalar_iff in Hs. destruct w as [|w]; [done|]. cbn [stake] in He. injection He as He _.
  rewrite <- He, byte_val_of in Hc; lia.
Qed.

Lemma DecodeRune_low c t : byte_val c < 128 -> DecodeRune (String c t) = (byte_val c, 1%nat).
Proof. intros Hc. cbn [DecodeRune]. by rewrite (proj2 (Z.ltb_lt _ _) Hc). Qed.

Lemma runes_low c t : byte_val c < 128 -> runes (String c t) = byte_val c :: runes t.
Proof. intros Hc. by rewrite runes_cons, DecodeRune_low. Qed.

Lemma forallb_runes (P : Z -> bool) s :
  (forall r, P r = true -> 0 <= r < 128) -> forallb P (runes s) = sforall (fun c => P (byte_val c)) s.
Proof.
  intros HP. induction s as [|c s IH]; [done|]. rewrite sforall_cons.
  destruct (Z.ltb_spec (byte_val c) 128) as [Hc|Hc].
  - rewrite runes_low by done. cbn [forallb]. by rewrite IH.
  - assert (Hn : forall r, 128 <= r -> P r = false).
    { intros r Hr. destruct (P r) eqn:E; [|done]. apply HP in E. lia. }
    rewrite runes_cons by done. cbn [forallb]. rewrite !Hn by (done || by apply DecodeRune_high). done.
Qed.

Lemma runes_of_ascii s : is_ascii s = true -> runes s = byte_runes s.
Proof.
  unfold is_ascii. induction s as [|c s IH]; [done|]. rewrite sforall_cons. intros [Hc Hs]%andb_true_iff.
  apply Z.ltb_lt in Hc. rewrite runes_low by done. by rewrite IH.
Qed.

Lemma ascii_valid s : is_ascii s = true -> ValidString s = true.
Proof.
  unfold is_ascii. induction s as [|c s IH]; [done|]. rewrite sforall_cons. intros [Hc Hs]%andb_true_iff.
  apply Z.ltb_lt in Hc. rewrite ValidString_cons, DecodeRune_low by done. cbn [snd sdrop].
  rewrite (IH Hs), andb_true_r. unfold invalid_rune. cbn [fst snd]. unfold RuneError.
  by rewrite (proj2 (Z.eqb_neq (byte_val c) 65533)) by lia.
Qed.

Lemma byte_runes_length s : length (byte_runes s) = String.length s.
Proof. unfold byte_runes. rewrite length_map. induction s; cbn; lia. Qed.

Lemma length_runes_class (P : Z -> bool) s :
  (forall r, P r = true -> 0 <= r < 128) -> forallb P (runes s) = true -> length (runes s) = String.length s.
Proof.
  intros HP. rewrite (forallb_runes P) by done. intros H. rewrite runes_of_ascii; [apply byte_runes_length|].
  eapply sforall_impl; [|exact H]. intros c Hc%HP. apply Z.ltb_lt. lia.
Qed.

(** A class without negation has its runes in its ranges. *)
Definition ranges_ascii (ranges : list (Z * Z)) : bool :=
  forallb (fun p => (0 <=? fst p) && (snd p <? 128)) ranges.

Lemma ranges_ascii_bound ranges r :
  ranges_ascii ranges = true -> in_class false ranges r = true -> 0 <= r < 128.
Proof.
  unfold ranges_ascii, in_class. rewrite forallb_forall, xorb_false_l, existsb_exists. intros Ha (p & Hp & Hr). apply Ha in Hp. destruct_hyps. to_prop.
  apply in_range_iff in Hr. lia.
Qed.

(** [^[...]{m,m+k}$]. *)
Lemma class_text rs m k s :
  ranges_ascii rs = true ->
  matches (Repeat (Class false rs) m (Some k)) (runes s)
  = sforall (fun c => in_class false rs (byte_val c)) s
    && (m <=? String.length s)%nat && (String.length s <=? m + k)%nat.
Proof.
  intros Ha. pose proof (ranges_ascii_bound rs) as Hb.
  rewrite matches_class_repeat, <- (forallb_runes (in_class false rs)) by auto.
  destruct (forallb _ (runes s)) eqn:E.
  - erewrite length_runes_class by eauto. by rewrite andb_true_r.
  - by rewrite andb_false_r.
Qed.

(** [^[...][...]{0,k}$]. *)
Lemma label_text rs1 rs2 k s :
  ranges_ascii rs1 = true -> ranges_ascii rs2 = true ->
  matches (Concat (Class false rs1) (Repeat (Class false rs2) 0 (Some k))) (runes s)
  = match s with
    | EmptyString => false
    | String c t =>
        in_class false rs1 (byte_val c) && sforall (fun c => in_class false rs2 (byte_val c)) t
        && (String.length t <=? k)%nat
    end.
Proof.
  intros H1 H2. rewrite matches_class_concat. destruct s as [|c t]; [done|].
  destruct (Z.ltb_spec (byte_val c) 128) as [Hc|Hc].
  - rewrite runes_low by done. rewrite class_text by done. cbn [Nat.leb Nat.add].
    by rewrite andb_true_r, andb_assoc.
  - assert (Hn : forall r, 128 <= r -> in_class false rs1 r = false).
    { intros r Hr. destruct (in_class false rs1 r) eqn:E; [|done].
      apply ranges_ascii_bound in E; [lia|done]. }
    rewrite runes_cons by done. cbn [app]. rewrite !Hn by (done || by apply DecodeRune_high). done.
Qed.

Lemma MatchString_class pattern rs m k s :
  Compile pattern = Some {| BeginText := true; EndText := true; Body := Repeat (Class false rs) m (Some k) |} ->
  ranges_ascii rs = true ->
  MatchString pattern s
  = sforall (fun c => in_class false rs (byte_val c)) s
    && (m <=? String.length s)%nat && (String.length s <=? m + k)%nat.
Proof. intros Hp Ha. unfold MatchString. rewrite Hp. by apply class_text. Qed.

Lemma MatchString_label pattern rs1 rs2 k s :
  Compile pattern
  = Some {| BeginText := true; EndText := true;
            Body := Concat (Class false rs1) (Repeat (Class false rs2) 0 (Some k)) |} ->
  ranges_ascii rs1 = true -> ranges_ascii rs2 = true ->
  MatchString pattern s
  = match s with
    | EmptyString => false
    | String c t =>
        in_class false rs1 (byte_val c) && sforall (fun c => in_class false rs2 (byte_val c)) t
        && (String.length t <=? k)%nat
    end.
Proof. intros Hp H1 H2. unfold MatchString. rewrite Hp. by apply label_text. Qed.

Lemma sforall_ext (f g : ascii -> bool) s : (forall c, f c = g c) -> sforall f s = sforall g s.
Proof. intros H. induction s as [|c s IH]; [done|]. by rewrite !sforall_cons, H, IH. Qed.

Lemma len_leb s k : (String.length s <=? k)%nat = (slen s <=? Z.of_nat k).
Proof. unfold slen. apply eq_true_iff_eq. rewrite Nat.leb_le, Z.leb_le. lia. Qed.
Lemma leb_len s k : (k <=? String.length s)%nat = (Z.of_nat k <=? slen s).
Proof. unfold slen. apply eq_true_iff_eq. rewrite Nat.leb_le, Z.leb_le. lia. Qed.

(** Equality of two predicates on bytes, byte by byte. *)
Ltac byte_cases :=
  let c := fresh "c" in intros c; destruct c as [[] [] [] [] [] [] [] []]; reflexivity.

(** Inclusion of one predicate on bytes in another. *)
Ltac byte_implies :=
  let c := fresh "c" in intros c; destruct c as [[] [] [] [] [] [] [] []]; first [reflexivity | let H := fresh in intros H; discriminate H | intros _; reflexivity].

Lemma range_pattern pattern rs m k (f : ascii -> bool) s :
  Compile pattern = Some {| BeginText := true; EndText := true; Body := Repeat (Class false rs) m (Some k) |} ->
  ranges_ascii rs = true -> (forall c, in_class false rs (byte_val c) = f c) ->
  MatchString pattern s = sforall f s && (Z.of_nat m <=? slen s) && (slen s <=? Z.of_nat (m + k)).
Proof.
  intros Hp Ha Hf. rewrite (MatchString_class pattern rs m k) by done.
  by rewrite (sforall_ext _ f), len_leb, leb_len by done.
Qed.

Example pattern_search : MatchString "b+(?:c|d)" "xabbdz" = true.
Proof. eval_goal. Qed.
Example pattern_anchored : MatchString "^b+(?:c|d)$" "xabbdz" = false.
Proof. eval_goal. Qed.
Example pattern_unclosed : Compile "^(a" = None.
Proof. eval_goal. Qed.
