(* ===== verification/Model.v ===== *)
(** * The shared data model

    [internal/model/model.go] and [sdk/model/receipt.go]: one record per Go
    struct, fields in the order of the source.  A Go pointer that may be nil
    is an [option]; [int] and [int64] fields are [Z]; a value of type [any] is
    a JSON tree. *)

From S2P Require Import Prelude GoStrings.

(** A decoded JSON value: what [json.Decoder] with [UseNumber] stores in an
    [any].  A number keeps its text; the members of an object are listed in
    an arbitrary order, as a Go map iterates over them. *)
Inductive json : Type :=
| JNull
| JBool (b : bool)
| JNumber (text : string)
| JString (s : string)
| JArray (items : list json)
| JObject (members : list (string * json)).

Record Platform := { OS : string; Arch : string }.

Record Subject := { Subj_ID : string; DisplayName : string; Subj_Version : string }.

Record ArgumentFingerprint := { Position : Z; FP_SHA256 : string }.

Record LaunchExpectation := {
  Kind : string;
  Entrypoint : string;
  Launch_ArgumentFingerprints : list ArgumentFingerprint
}.

Record ArtifactExpectation := {
  Root : string;
  Include : list string;
  Exclude : list string;
  Art_SHA256 : string;
  MaxFiles : Z;
  MaxBytes : Z;
  MaxDurationMS : Z
}.

Record ExpectationPolicy := { AllowedRoots : list string; AllowSymlinks : bool }.

Record ExpectationSource := { Source_Kind : string; LocatorHash : string; Trust : string }.

Record Expectation := {
  Exp_SchemaVersion : string;
  Exp_Subject : Subject;
  Launch : LaunchExpectation;
  Artifact : ArtifactExpectation;
  Policy : ExpectationPolicy;
  Source : ExpectationSource;
  Exp_Extensions : list (string * json)
}.

Record ProcessIdentity := {
  PID : Z;
  CreatedAtUnixNano : string;
  BootIDHash : string
}.

Record ExecutableObservation := {
  Basename : string;
  PathHash : string;
  FileIDHash : string
}.

Record ArtifactObservation := {
  Obs_SHA256 : string;
  FileCount : Z;
  ByteCount : Z;
  DurationMS : Z;
  EntrypointFileIdentity : string
}.

Record Observation := {
  Obs_Process : option ProcessIdentity;
  Obs_Executable : option ExecutableObservation;
  Obs_Artifact : option ArtifactObservation;
  InaccessibleFields : list string
}.

Record Candidate := {
  Cand_Platform : Platform;
  Cand_Process : ProcessIdentity;
  Cand_Executable : ExecutableObservation;
  ParentPID : Z;
  ExecutablePath : string;
  DeclaredExecutablePath : string;
  ExecutableFileIdentity : string;
  ExecutableDeleted : bool;
  Cand_ArgumentFingerprints : list ArgumentFingerprint;
  Inaccessible : list string
}.

Record ExpectationProjection := {
  SourceKind : string;
  SourceLocatorHash : string;
  Proj_Trust : string;
  ExpectedVersion : string;
  ExpectedArtifactSHA256 : string
}.

Record HostAttribution := {
  Attr_HostID : string;
  Attr_BindingID : string;
  Attr_ConfigSourceHash : string;
  Attr_Confidence : string
}.

Record ToolInfo := {
  Tool_Name : string;
  Tool_Version : string;
  Tool_Commit : string;
  Toolchain : string
}.

Record EvidenceItem := { Ev_Type : string; Ev_Digest : string; Ev_ObservedAt : string }.

Record PrivacyProjection := {
  RedactionMode : string;
  HomeRedacted : bool;
  OmittedFields : list string
}.

Record Proof := {
  SchemaVersion : string;
  ProofID : string;
  ObservedAt : string;
  Tool : ToolInfo;
  Proof_Platform : Platform;
  Proof_Subject : Subject;
  Proof_Expectation : option ExpectationProjection;
  Proof_Observation : Observation;
  Proof_HostAttribution : option HostAttribution;
  Verdict : string;
  ProofLevel : string;
  ReasonCodes : list string;
  Evidence : list EvidenceItem;
  Proof_Privacy : PrivacyProjection;
  Limitations : list string;
  Proof_Extensions : list (string * json)
}.

(** ** [sdk/model]: the launch receipt *)

Record CommandObservation := {
  ExecutableBasename : string;
  ExecutablePathHash : string;
  Cmd_ArgumentFingerprints : list ArgumentFingerprint
}.

(** The artifact of a receipt has no entrypoint identity. *)
Record ReceiptArtifact := {
  RA_SHA256 : string;
  RA_FileCount : Z;
  RA_ByteCount : Z;
  RA_DurationMS : Z
}.

Record LaunchReceipt := {
  R_SchemaVersion : string;
  ReceiptID : string;
  R_CreatedAt : string;
  R_Tool : ToolInfo;
  R_Platform : Platform;
  R_Subject : option Subject;
  R_Process : ProcessIdentity;
  R_Command : CommandObservation;
  R_Expectation : option ExpectationProjection;
  R_Artifact : option ReceiptArtifact;
  R_ObservationOnly : bool;
  R_ReasonCodes : list string;
  R_Privacy : PrivacyProjection
}.

(** ** Decidable equality *)

#[global] Instance Platform_eq_dec : EqDecision Platform.
Proof. solve_decision. Defined.
#[global] Instance Subject_eq_dec : EqDecision Subject.
Proof. solve_decision. Defined.
#[global] Instance ArgumentFingerprint_eq_dec : EqDecision ArgumentFingerprint.
Proof. solve_decision. Defined.
#[global] Instance ProcessIdentity_eq_dec : EqDecision ProcessIdentity.
Proof. solve_decision. Defined.
#[global] Instance ExecutableObservation_eq_dec : EqDecision ExecutableObservation.
Proof. solve_decision. Defined.
#[global] Instance ArtifactObservation_eq_dec : EqDecision ArtifactObservation.
Proof. solve_decision. Defined.

(** ** Induction on JSON values *)

Section JsonInd.
Variable P : json -> Prop.
Hypothesis HNull : P JNull.
Hypothesis HBool : forall b, P (JBool b).
Hypothesis HNumber : forall t, P (JNumber t).
Hypothesis HString : forall s, P (JString s).
Hypothesis HArray : forall l, Forall P l -> P (JArray l).
Hypothesis HObject : forall m, Forall (fun kv => P (snd kv)) m -> P (JObject m).

Fixpoint json_nested_ind (v : json) : P v :=
  match v with
  | JNull => HNull
  | JBool b => HBool b
  | JNumber t => HNumber t
  | JString s => HString s
  | JArray l =>
      HArray l ((fix go (l : list json) : Forall P l :=
                   match l with
                   | [] => Forall_nil_2 _
                   | x :: r => Forall_cons_2 _ _ _ (json_nested_ind x) (go r)
                   end) l)
  | JObject m =>
      HObject m ((fix go (m : list (string * json)) : Forall (fun kv => P (snd kv)) m :=
                    match m with
                    | [] => Forall_nil_2 _
                    | kv :: r => Forall_cons_2 _ _ _ (json_nested_ind (snd kv)) (go r)
                    end) m)
  end.
End JsonInd.
