(* ===== verification/GoJson.v ===== *)
(** * The token reader of [encoding/json]

    [json.Decoder.Token] and [More] with [UseNumber], on a document held in
    memory: the state machine over [tokenState] and [tokenStack], the string
    unquoter (surrogate pairs, U+FFFD for invalid bytes), the number grammar
    and the literals. *)

From S2P Require Import Prelude GoStrings.

Inductive tstate :=
| TopValue | ArrayStart | ArrayValue | ArrayComma
| ObjectStart | ObjectKey | ObjectColon | ObjectValue | ObjectComma.

Record decoder := Dec { input : string; tokenState : tstate; tokenStack : list tstate }.

Inductive token :=
| TDelim (c : ascii)
| TString (s : string)
| TNumber (text : string)
| TBool (b : bool)
| TNull.

Inductive read_error := EOF | SyntaxError.

Definition NewDecoder (document : string) : decoder := Dec document TopValue [].

(** ** Lexing *)

Definition quote : ascii := ascii_of_N 34.
Definition backslash : ascii := ascii_of_N 92.

Definition is_space (c : ascii) : bool :=
  (byte_val c =? 32) || (byte_val c =? 9) || (byte_val c =? 13) || (byte_val c =? 10).

Fixpoint skip_space (s : string) : string :=
  match s with
  | String c t => if is_space c then skip_space t else s
  | EmptyString => EmptyString
  end.

Definition hex_val (c : ascii) : option Z :=
  let b := byte_val c in
  if in_range 48 57 b then Some (b - 48)
  else if in_range 97 102 b then Some (b - 87)
  else if in_range 65 70 b then Some (b - 55)
  else None.

Definition hex4 (s : string) : option (Z * string) :=
  match s with
  | String a (String b (String c (String d t))) =>
      match hex_val a, hex_val b, hex_val c, hex_val d with
      | Some x, Some y, Some z, Some w => Some (x * 4096 + y * 256 + z * 16 + w, t)
      | _, _, _, _ => None
      end
  | _ => None
  end.

(** A following [\uXXXX] escape. *)
Definition getu4 (s : string) : option (Z * string) :=
  match s with
  | String a (String b t) =>
      if Ascii.eqb a backslash && Ascii.eqb b "u" then hex4 t else None
  | _ => None
  end.

(** [utf16.DecodeRune]. *)
Definition utf16_DecodeRune (r1 r2 : Z) : Z :=
  if in_range 55296 56319 r1 && in_range 56320 57343 r2
  then (r1 - 55296) * 1024 + (r2 - 56320) + 65536 else RuneError.

Definition simple_escape (c : ascii) : option Z :=
  if Ascii.eqb c quote || Ascii.eqb c backslash || Ascii.eqb c "/" then Some (byte_val c)
  else if Ascii.eqb c "b" then Some 8
  else if Ascii.eqb c "f" then Some 12
  else if Ascii.eqb c "n" then Some 10
  else if Ascii.eqb c "r" then Some 13
  else if Ascii.eqb c "t" then Some 9
  else None.

(** The contents of a string after its opening quote, and what follows the
    closing quote.  Every step consumes a byte of the fuel's measure. *)
Fixpoint unquote (fuel : nat) (s : string) : option (string * string) :=
  match fuel, s with
  | O, _ | _, EmptyString => None
  | S fuel', String c t =>
      let emit (r : Z) (rest : string) :=
        match unquote fuel' rest with
        | Some (v, rest') => Some (EncodeRune r +:+ v, rest')
        | None => None
        end in
      if Ascii.eqb c quote then Some (EmptyString, t)
      else if Ascii.eqb c backslash then
        match t with
        | EmptyString => None
        | String e t' =>
            if Ascii.eqb e "u" then
              match hex4 t' with
              | None => None
              | Some (r, t'') =>
                  if IsSurrogate r then
                    match getu4 t'' with
                    | Some (r2, t3) =>
                        let d := utf16_DecodeRune r r2 in
                        if d =? RuneError then emit RuneError t'' else emit d t3
                    | None => emit RuneError t''
                    end
                  else emit r t''
              end
            else
              match simple_escape e with
              | Some r => emit r t'
              | None => None
              end
        end
      else if byte_val c <? 32 then None
      else let '(r, w) := DecodeRune s in emit r (sdrop w s)
  end.

Fixpoint span_digits (s : string) : string * string :=
  match s with
  | String c t =>
      if is_digit c then let '(a, r) := span_digits t in (String c a, r)
      else (EmptyString, s)
  | EmptyString => (EmptyString, EmptyString)
  end.

Definition lex_int (s : string) : option (string * string) :=
  match s with
  | String c t =>
      if Ascii.eqb c "0" then Some ("0", t)
      else if is_digit c then Some (span_digits s) else None
  | EmptyString => None
  end.

Definition lex_frac (s : string) : option (string * string) :=
  match s with
  | String c t =>
      if Ascii.eqb c "." then
        match span_digits t with
        | (EmptyString, _) => None
        | (ds, r) => Some (String c ds, r)
        end
      else Some (EmptyString, s)
  | EmptyString => Some (EmptyString, s)
  end.

Definition lex_exp (s : string) : option (string * string) :=
  match s with
  | String c t =>
      if Ascii.eqb c "e" || Ascii.eqb c "E" then
        let '(sign, t') :=
          match t with
          | String d t' => if Ascii.eqb d "+" || Ascii.eqb d "-"
                           then (String d EmptyString, t') else (EmptyString, t)
          | EmptyString => (EmptyString, t)
          end in
        match span_digits t' with
        | (EmptyString, _) => None
        | (ds, r) => Some (String c (sign +:+ ds), r)
        end
      else Some (EmptyString, s)
  | EmptyString => Some (EmptyString, s)
  end.

Definition lex_number (s : string) : option (string * string) :=
  let '(sign, t) :=
    match s with
    | String c t => if Ascii.eqb c "-" then ("-", t) else (EmptyString, s)
    | EmptyString => (EmptyString, s)
    end in
  match lex_int t with
  | None => None
  | Some (i, t1) =>
      match lex_frac t1 with
      | None => None
      | Some (f, t2) =>
          match lex_exp t2 with
          | None => None
          | Some (e, t3) => Some (sign +:+ i +:+ f +:+ e, t3)
          end
      end
  end.

(** A scalar at the head of the input. *)
Definition lex_scalar (s : string) : option (token * string) :=
  match s with
  | EmptyString => None
  | String c t =>
      if Ascii.eqb c quote then
        match unquote (String.length t) t with
        | Some (v, r) => Some (TString v, r)
        | None => None
        end
      else if HasPrefix s "true" then Some (TBool true, sdrop 4 s)
      else if HasPrefix s "false" then Some (TBool false, sdrop 5 s)
      else if HasPrefix s "null" then Some (TNull, sdrop 4 s)
      else match lex_number s with
           | Some (n, r) => Some (TNumber n, r)
           | None => None
           end
  end.

(** ** The token state machine *)

Definition value_allowed (st : tstate) : bool :=
  match st with TopValue | ArrayStart | ArrayValue | ObjectValue => true | _ => false end.

Definition value_end (st : tstate) : tstate :=
  match st with
  | ArrayStart | ArrayValue => ArrayComma
  | ObjectValue => ObjectComma
  | st => st
  end.

Definition open_delim (d : decoder) (t : string) (c : ascii) (st : tstate)
  : result read_error (token * decoder) :=
  if value_allowed (tokenState d)
  then Ok (TDelim c, Dec t st (tokenState d :: tokenStack d))
  else Err SyntaxError.

Definition close_delim (d : decoder) (t : string) (c : ascii)
  : result read_error (token * decoder) :=
  match tokenStack d with
  | st :: stack => Ok (TDelim c, Dec t (value_end st) stack)
  | [] => Err SyntaxError
  end.

Definition scalar_token (d : decoder) : result read_error (token * decoder) :=
  if value_allowed (tokenState d) then
    match lex_scalar (input d) with
    | Some (tok, rest) => Ok (tok, Dec rest (value_end (tokenState d)) (tokenStack d))
    | None => Err SyntaxError
    end
  else Err SyntaxError.

(** [Decoder.Token]; a comma or a colon is consumed and the loop continues,
    so the length of the input bounds the iterations. *)
Fixpoint Token_fuel (fuel : nat) (d0 : decoder) : result read_error (token * decoder) :=
  match fuel with
  | O => Err EOF
  | S fuel' =>
      let d := Dec (skip_space (input d0)) (tokenState d0) (tokenStack d0) in
      match input d with
      | EmptyString => Err EOF
      | String c t =>
          if Ascii.eqb c "[" then open_delim d t c ArrayStart
          else if Ascii.eqb c "]" then
            match tokenState d with
            | ArrayStart | ArrayComma => close_delim d t c
            | _ => Err SyntaxError
            end
          else if Ascii.eqb c "{" then open_delim d t c ObjectStart
          else if Ascii.eqb c "}" then
            match tokenState d with
            | ObjectStart | ObjectComma => close_delim d t c
            | _ => Err SyntaxError
            end
          else if Ascii.eqb c ":" then
            match tokenState d with
            | ObjectColon => Token_fuel fuel' (Dec t ObjectValue (tokenStack d))
            | _ => Err SyntaxError
            end
          else if Ascii.eqb c "," then
            match tokenState d with
            | ArrayComma => Token_fuel fuel' (Dec t ArrayValue (tokenStack d))
            | ObjectComma => Token_fuel fuel' (Dec t ObjectKey (tokenStack d))
            | _ => Err SyntaxError
            end
          else if Ascii.eqb c quote then
            match tokenState d with
            | ObjectStart | ObjectKey =>
                match lex_scalar (input d) with
                | Some (tok, rest) => Ok (tok, Dec rest ObjectColon (tokenStack d))
                | None => Err SyntaxError
                end
            | _ => scalar_token d
            end
          else scalar_token d
      end
  end.
Definition Token (d : decoder) : result read_error (token * decoder) :=
  Token_fuel (S (String.length (input d))) d.

(** [Decoder.More]. *)
Definition More (d : decoder) : bool :=
  match skip_space (input d) with
  | EmptyString => false
  | String c _ => negb (Ascii.eqb c "]") && negb (Ascii.eqb c "}")
  end.

Definition remaining (d : decoder) : nat := String.length (input d).
