(* ===== verification/Canonical.v ===== *)
(** * Canonical JSON ([internal/canonical/canonical.go])

    The canonical form whose SHA-256 is the identity of a Proof, a launch
    receipt and an artifact tree.  [Marshal] takes the JSON tree of the Go
    value ([json.Marshal] followed by a [UseNumber] decode leaves exactly
    that tree, with invalid UTF-8 replaced). *)

From S2P Require Import Prelude GoStrings Model.

Definition maxSafeInteger : Z := 9007199254740991.

Inductive canonical_error :=
| NotAnInteger
| OutsideSafeRange
| NotMinimal
| InvalidUTF8.

Definition appendInteger (value : string) : result canonical_error string :=
  if ContainsAny value ".eE" || (value =s "-0") || HasPrefix value "+"
  then Err NotAnInteger
  else
    match ParseInt value with
    | None => Err OutsideSafeRange
    | Some parsed =>
        if (parsed <? - maxSafeInteger) || (maxSafeInteger <? parsed)
        then Err OutsideSafeRange
        else if negb (FormatInt parsed =s value) then Err NotMinimal
        else Ok value
    end.

(** [fmt.Fprintf("%04x")] for a rune below 0x20. *)
Definition hex_low (z : Z) : ascii := byte_of (if z <? 10 then 48 + z else 87 + z).
Definition u_escape (r : Z) : string :=
  String (byte_of 92) ("u00" +:+ String (hex_low (r / 16)) (String (hex_low (r mod 16)) EmptyString)).

Definition escaped (c : string) : string := String (byte_of 92) c.

(** The bytes written for one rune of a string. *)
Definition append_rune (character : Z) : string :=
  if (character =? 34) || (character =? 92) then escaped (EncodeRune character)
  else if character =? 8 then escaped "b"
  else if character =? 9 then escaped "t"
  else if character =? 10 then escaped "n"
  else if character =? 12 then escaped "f"
  else if character =? 13 then escaped "r"
  else if character <? 32 then u_escape character
  else EncodeRune character.

Definition quoted (body : string) : string := byte_string 34 +:+ body +:+ byte_string 34.

Definition appendString (value : string) : result canonical_error string :=
  if negb (ValidString value) then Err InvalidUTF8
  else Ok (quoted (concat_str (map append_rune (runes value)))).

Definition compareUTF16 (left right : string) : comparison :=
  list_compare (utf16_Encode (runes left)) (utf16_Encode (runes right)).

Definition by_key {V : Type} (x y : string * V) : comparison :=
  compareUTF16 (fst x) (fst y).

Definition member (kv : string * result canonical_error string)
  : result canonical_error string :=
  let! k := appendString (fst kv) in
  let! v := snd kv in
  Ok (k +:+ ":" +:+ v).

Fixpoint appendValue (value : json) : result canonical_error string :=
  match value with
  | JNull => Ok "null"
  | JBool typed => Ok (if typed then "true" else "false")
  | JString typed => appendString typed
  | JNumber typed => appendInteger typed
  | JArray typed =>
      let! parts := mapM_ (fun r => r) (map appendValue typed) in
      Ok ("[" +:+ Join parts "," +:+ "]")
  | JObject typed =>
      let keys := SortFunc by_key (map (fun kv => (fst kv, appendValue (snd kv))) typed) in
      let! parts := mapM_ member keys in
      Ok ("{" +:+ Join parts "," +:+ "}")
  end.

(** Members of a decoded object: a repeated key keeps its last value. *)
Fixpoint last_wins (m : list (string * json)) : list (string * json) :=
  match m with
  | [] => []
  | (k, v) :: rest =>
      if existsb (fun kv => fst kv =s k) rest then last_wins rest
      else (k, v) :: last_wins rest
  end.

(** The tree left by [json.Marshal] and the following decode. *)
Fixpoint normalize (value : json) : json :=
  match value with
  | JString s => JString (ToValidUTF8 s)
  | JArray l => JArray (map normalize l)
  | JObject m => JObject (last_wins (map (fun kv => (ToValidUTF8 (fst kv), normalize (snd kv))) m))
  | v => v
  end.

Definition Marshal (value : json) : result canonical_error string :=
  appendValue (normalize value).

Example key_order :
  Marshal (JObject [(of_runes [65535], JNumber "1"); (of_runes [65536], JNumber "2")])
  = Ok ("{" +:+ quoted (of_runes [65536]) +:+ ":2," +:+ quoted (of_runes [65535]) +:+ ":1}").
Proof. eval_goal. Qed.
Example float_refused : Marshal (JArray [JNumber "1.0"]) = Err NotAnInteger.
Proof. eval_goal. Qed.

(** ** Integers *)

Lemma sexists_digits s f :
  sforall is_digit s = true -> (forall c, is_digit c = true -> f c = false) ->
  sexists f s = false.
Proof.
  intros Hs Hf. induction s as [|c s IH]; [done|].
  rewrite sforall_cons in Hs. apply andb_true_iff in Hs as [Hc Hs]. simpl.
  by rewrite Hf, IH.
Qed.

Lemma digit_byte c : is_digit c = true -> 48 <= byte_val c <= 57.
Proof. apply in_range_iff. Qed.

Lemma digit_no_point c : is_digit c = true -> has_byte ".eE" c = false.
Proof.
  intros Hc%digit_byte. unfold has_byte. cbn [sexists]. rewrite !ascii_eqb_val.
  byte_consts. ztest. done.
Qed.

Lemma FormatInt_sign n :
  0 <= Z.abs n <= int64_max ->
  exists ds, FormatInt n = (if n <? 0 then "-" else EmptyString) +:+ ds
             /\ sforall is_digit ds = true /\ ds <> EmptyString
             /\ parse_digits ds 0 = Some (Z.abs n).
Proof.
  unfold int64_max. intros Hn. exists (digits_of 20 (Z.abs n)). repeat split.
  - unfold FormatInt. rewrite !digits_fuel_of, !str_app_nil_r.
    destruct (Z.ltb_spec n 0); [rewrite Z.abs_neq by lia|rewrite Z.abs_eq by lia]; reflexivity.
  - apply digits_of_digits; lia.
  - apply digits_of_nonempty; lia.
  - apply parse_digits_of. cbn. lia.
Qed.

Lemma ContainsAny_app a b set : ContainsAny (a +:+ b) set = ContainsAny a set || ContainsAny b set.
Proof. apply sexists_app. Qed.

(** Numbers accepted by the canonical encoder: the minimal decimal form of an
    integer in the I-JSON safe range, and nothing else. *)
Theorem appendInteger_spec value out :
  appendInteger value = Ok out <->
  out = value /\ exists n, - maxSafeInteger <= n <= maxSafeInteger /\ value = FormatInt n.
Proof.
  unfold appendInteger. split.
  - destruct (_ || _ || _); [done|]. destruct (ParseInt value) as [n|]; [|done].
    destruct (_ || _) eqn:E; [done|]. apply orb_false_iff in E as [E1 E2].
    destruct (FormatInt n =s value) eqn:E3; [|done]. simpl. intros [= <-]. to_prop.
    split; [done|]. exists n. split; [lia|done].
  - intros (-> & n & Hn & ->). unfold maxSafeInteger in Hn.
    rewrite ParseInt_FormatInt by (unfold int64_min, int64_max; lia).
    destruct (FormatInt_sign n) as (ds & Hf & Hd & Hne & Hp); [unfold int64_max; lia|].
    assert (Hfirst : (ContainsAny (FormatInt n) ".eE" || (FormatInt n =s "-0")
                      || HasPrefix (FormatInt n) "+") = false).
    { rewrite Hf, ContainsAny_app. apply orb_false_iff; split; [apply orb_false_iff; split|].
      - change (ContainsAny ds ".eE") with (sexists (has_byte ".eE") ds).
        rewrite (sexists_digits ds _ Hd digit_no_point). by destruct (n <? 0).
      - apply String.eqb_neq. destruct (Z.ltb_spec n 0); [|by destruct ds as [|c ds];
          [done|intros [= -> ->]]].
        intros [= ->]. change (Some 0 = Some (Z.abs n)) in Hp. injection Hp. lia.
      - destruct (n <? 0); [done|]. destruct ds as [|c ds]; [done|].
        cbn [HasPrefix String.append]. rewrite sforall_cons in Hd. apply andb_true_iff in Hd as [Hc _].
        apply digit_not_sign in Hc as [_ Hc]. by rewrite Ascii.eqb_sym, Hc. }
    rewrite Hfirst. unfold maxSafeInteger.
    rewrite 2!(proj2 (Z.ltb_ge _ _)) by lia. simpl. by rewrite String.eqb_refl.
Qed.

(** ** Strings *)

Lemma compareUTF16_refl s : compareUTF16 s s = Eq.
Proof. apply list_compare_refl. Qed.

Lemma compareUTF16_antisym a b : compareUTF16 b a = CompOpp (compareUTF16 a b).
Proof. apply list_compare_antisym. Qed.

Lemma compareUTF16_trans a b c :
  compareUTF16 a b = Lt -> compareUTF16 b c = Lt -> compareUTF16 a c = Lt.
Proof. apply list_compare_trans. Qed.

Lemma appendString_ok s : ValidString s = true ->
  appendString s = Ok (quoted (concat_str (map append_rune (runes s)))).
Proof. unfold appendString. by intros ->. Qed.

(** ** The accepted trees *)

(** A number the encoder accepts. *)
Definition canonical_number (t : string) : bool := is_ok (appendInteger t).

Fixpoint encodable (v : json) : bool :=
  match v with
  | JNull | JBool _ => true
  | JNumber t => canonical_number t
  | JString s => ValidString s
  | JArray l => forallb encodable l
  | JObject m => forallb (fun kv => ValidString (fst kv) && encodable (snd kv)) m
  end.

(** The members of every object have pairwise different keys, as those of a
    Go map do. *)
Fixpoint distinct_keys (v : json) : bool :=
  match v with
  | JArray l => forallb distinct_keys l
  | JObject m => bool_decide (NoDup (map fst m)) && forallb (fun kv => distinct_keys (snd kv)) m
  | _ => true
  end.

(** The same tree with the members of every object in UTF-16 key order. *)
Fixpoint canon (v : json) : json :=
  match v with
  | JArray l => JArray (map canon l)
  | JObject m => JObject (SortFunc by_key (map (fun kv => (fst kv, canon (snd kv))) m))
  | v => v
  end.

Lemma mapM_is_ok {E A B} (f : A -> result E B) l :
  is_ok (mapM_ f l) = forallb (fun x => is_ok (f x)) l.
Proof.
  induction l as [|x l IH]; [done|]. simpl.
  destruct (f x); simpl; [|done]. rewrite <- IH. by destruct (mapM_ f l).
Qed.

Lemma forallb_perm {A} (f : A -> bool) l l' : l ≡ₚ l' -> forallb f l = forallb f l'.
Proof.
  induction 1; simpl; [done|congruence|by destruct (f x), (f y)|congruence].
Qed.

Lemma forallb_map {A B} (g : A -> B) (f : B -> bool) l :
  forallb f (map g l) = forallb (fun x => f (g x)) l.
Proof. induction l; simpl; congruence. Qed.

Lemma forallb_ext_Forall {A} (f g : A -> bool) l :
  Forall (fun x => f x = g x) l -> forallb f l = forallb g l.
Proof. induction 1; simpl; congruence. Qed.

Lemma member_is_ok kv : is_ok (member kv) = ValidString (fst kv) && is_ok (snd kv).
Proof.
  unfold member, appendString. destruct (ValidString (fst kv)); simpl; [|done].
  by destruct (snd kv).
Qed.

Lemma is_ok_bind_pure {E A B} (c : result E A) (g : A -> B) :
  is_ok (let! x := c in Ok (g x)) = is_ok c.
Proof. by destruct c. Qed.

Lemma appendValue_is_ok v : is_ok (appendValue v) = encodable v.
Proof.
  induction v as [| | | |l IH|m IH] using json_nested_ind; simpl; try done.
  - unfold appendString. by destruct (ValidString s).
  - rewrite is_ok_bind_pure, mapM_is_ok, forallb_map. by apply forallb_ext_Forall.
  - rewrite is_ok_bind_pure, mapM_is_ok, (forallb_perm _ _ _ (SortFunc_perm _ _)), forallb_map.
    apply forallb_ext_Forall. eapply Forall_impl; [exact IH|]. intros kv H.
    by rewrite member_is_ok; simpl; rewrite H.
Qed.

Lemma keys_distinct {V : Type} (m : list (string * V)) :
  Forall (fun kv => ValidString (fst kv) = true) m -> NoDup (map fst m) ->
  distinct_by by_key m.
Proof.
  induction m as [|[k v] m IH]; simpl; intros Hv Hn; [constructor|].
  apply Forall_cons in Hv as [Hk Hv]. apply NoDup_cons in Hn as [Hin Hn].
  constructor; [|by apply IH].
  rewrite Forall_forall in Hv |- *. intros [k' v'] Hx Heq. apply Hin.
  apply list_compare_eq, utf16_Encode_inj, runes_inj in Heq; simpl in *.
  - subst. apply list_elem_of_fmap. by exists (k', v').
  - done.
  - by apply (Hv (k', v')).
  - by apply runes_scalar.
  - by apply runes_scalar, (Hv (k', v')).
Qed.

Lemma by_key_antisym {V : Type} (x y : string * V) : by_key y x = CompOpp (by_key x y).
Proof. apply compareUTF16_antisym. Qed.

Lemma by_key_trans {V : Type} (x y z : string * V) :
  lt_by by_key x y -> lt_by by_key y z -> lt_by by_key x z.
Proof. apply compareUTF16_trans. Qed.

Lemma SortFunc_idemp {V : Type} (m : list (string * V)) :
  distinct_by by_key m -> SortFunc by_key (SortFunc by_key m) = SortFunc by_key m.
Proof.
  intros H. apply sort_sorted_id, SortFunc_sorted; [apply by_key_antisym|apply by_key_trans|done].
Qed.

Lemma map_keys {V W : Type} (f : V -> W) (m : list (string * V)) :
  map fst (map (fun kv => (fst kv, f (snd kv))) m) = map fst m.
Proof. rewrite map_map. done. Qed.

Lemma obj_distinct {W : Type} (f : json -> W) m :
  encodable (JObject m) = true -> distinct_keys (JObject m) = true ->
  distinct_by by_key (map (fun kv => (fst kv, f (snd kv))) m).
Proof.
  simpl. rewrite andb_true_iff, forallb_Forall, bool_decide_eq_true. intros He [Hd _].
  apply keys_distinct; [|by rewrite map_keys].
  apply Forall_fmap. eapply Forall_impl; [exact He|].
  intros kv [H _]%andb_true_iff. exact H.
Qed.

Lemma appendValue_canon v :
  encodable v = true -> distinct_keys v = true -> appendValue (canon v) = appendValue v.
Proof.
  induction v as [| | | |l IH|m IH] using json_nested_ind; try done; intros He Hd.
  - simpl in *. rewrite map_map. do 2 f_equal. apply map_ext_in.
    rewrite forallb_Forall in He, Hd. rewrite Forall_forall in IH, He, Hd.
    intros x Hx%list_elem_of_In. by apply IH; [|apply He|apply Hd].
  - assert (Hmap : map (fun kv => (fst kv, appendValue (canon (snd kv)))) m
                   = map (fun kv => (fst kv, appendValue (snd kv))) m).
    { simpl in He, Hd. apply andb_true_iff in Hd as [_ Hd].
      rewrite forallb_Forall in He, Hd. rewrite Forall_forall in IH, He, Hd.
      apply map_ext_in. intros kv Hkv%list_elem_of_In. f_equal.
      apply IH; [done| |by apply Hd]. apply He in Hkv. by apply andb_true_iff in Hkv as [_ ?]. }
    cbn [canon appendValue].
    rewrite <- (SortFunc_map by_key by_key (fun kv => (fst kv, appendValue (snd kv)))) by done.
    rewrite map_map. cbn [fst snd]. rewrite Hmap, SortFunc_idemp; [done|].
    by apply obj_distinct.
Qed.

(** The order in which a Go map hands out its members does not matter. *)
Lemma canon_perm m1 m2 :
  encodable (JObject m1) = true -> distinct_keys (JObject m1) = true -> m1 ≡ₚ m2 ->
  canon (JObject m1) = canon (JObject m2).
Proof.
  intros He Hd Hp.
  assert (He' : encodable (JObject m2) = true)
    by (simpl in *; by rewrite <- (forallb_perm _ _ _ Hp)).
  assert (Hd' : distinct_keys (JObject m2) = true).
  { simpl in *. rewrite <- (forallb_perm _ _ _ Hp).
    apply andb_true_iff in Hd as [Hn Hd]. rewrite Hd, andb_true_r.
    rewrite bool_decide_eq_true in *. by rewrite <- Hp. }
  simpl. f_equal. apply sort_unique; [apply by_key_antisym|apply by_key_trans|by apply obj_distinct..|].
  by rewrite Hp.
Qed.

Lemma last_wins_in k m : k ∈ map fst (last_wins m) <-> k ∈ map fst m.
Proof.
  induction m as [|[k0 v] m IH]; simpl; [done|].
  destruct (existsb _ m) eqn:E; simpl; rewrite !elem_of_cons, ?IH; [|done].
  split; [tauto|]. intros [->|H]; [|done].
  apply existsb_elem_of in E as ([k1 v1] & Hin & Heq). simpl in Heq. to_prop. subst.
  apply list_elem_of_fmap. by exists (k0, v1).
Qed.

Lemma last_wins_nodup m : NoDup (map fst (last_wins m)).
Proof.
  induction m as [|[k v] m IH]; simpl; [constructor|].
  destruct (existsb _ m) eqn:E; simpl; [done|]. constructor; [|done].
  rewrite last_wins_in. intros ([k' v'] & Hk & Hin)%list_elem_of_fmap. simpl in Hk. subst.
  apply existsb_false in E. rewrite Forall_forall in E. specialize (E _ Hin). simpl in E.
  by rewrite String.eqb_refl in E.
Qed.

Lemma last_wins_sub x m : x ∈ last_wins m -> x ∈ m.
Proof.
  induction m as [|[k v] m IH]; simpl; [done|].
  destruct (existsb _ m); rewrite ?elem_of_cons; tauto.
Qed.

Lemma normalize_distinct v : distinct_keys (normalize v) = true.
Proof.
  induction v as [| | | |l IH|m IH] using json_nested_ind; try done; simpl.
  - rewrite forallb_map. by apply forallb_Forall.
  - apply andb_true_iff. split; [apply bool_decide_eq_true, last_wins_nodup|].
    apply forallb_Forall, Forall_forall. intros x Hx%last_wins_sub.
    apply list_elem_of_fmap in Hx as (y & -> & Hy). rewrite Forall_forall in IH. by apply IH.
Qed.
