(* ===== verification/Contract.v ===== *)
(** * Contract validation ([internal/contract/validator.go])

    [decodeOne] reads exactly one JSON document and refuses repeated object
    keys; [validateProofSemantics] and [validateLaunchReceiptSemantics] check
    the rules the JSON schemas cannot express, with the reason-code registry
    of [contracts/decision-registry.json] transcribed as [decisions].  The
    schema engine is third-party code: [schema_ok] below stands for it. *)

From S2P Require Import Prelude GoStrings Model GoJson.

(** ** Decoding one document *)

Inductive decode_error :=
| TokenError (e : read_error)
| KeyNotString
| DuplicateKey (key : string)
| UnterminatedObject
| UnterminatedArray
| UnexpectedDelimiter
| TrailingData
| OutOfFuel.

Definition next_token (d : decoder) : result decode_error (token * decoder) :=
  map_err TokenError (Token d).

(** The closing [decoder.Token()] of a composite. *)
Definition closing (c : ascii) (err : decode_error) (d : decoder) : result decode_error decoder :=
  match Token d with
  | Ok (TDelim c', d') => if Ascii.eqb c' c then Ok d' else Err err
  | _ => Err err
  end.

(** [decodeValue], with its two loops; the fuel bounds the calls, and
    [decodeValue_terminates] shows [2 * length + 1] is enough. *)
Fixpoint decodeValue (fuel : nat) (d : decoder) : result decode_error (json * decoder) :=
  match fuel with
  | O => Err OutOfFuel
  | S fuel' =>
      let! (tok, d1) := next_token d in
      match tok with
      | TDelim c =>
          if Ascii.eqb c "{" then
            let! (object, d2) := decode_members fuel' d1 [] in
            let! d3 := closing "}" UnterminatedObject d2 in
            Ok (JObject object, d3)
          else if Ascii.eqb c "[" then
            let! (array, d2) := decode_items fuel' d1 [] in
            let! d3 := closing "]" UnterminatedArray d2 in
            Ok (JArray array, d3)
          else Err UnexpectedDelimiter
      | TString s => Ok (JString s, d1)
      | TNumber t => Ok (JNumber t, d1)
      | TBool b => Ok (JBool b, d1)
      | TNull => Ok (JNull, d1)
      end
  end
with decode_members (fuel : nat) (d : decoder) (object : list (string * json))
  : result decode_error (list (string * json) * decoder) :=
  match fuel with
  | O => Err OutOfFuel
  | S fuel' =>
      if More d then
        let! (keyToken, d1) := next_token d in
        match keyToken with
        | TString key =>
            if existsb (fun kv => fst kv =s key) object then Err (DuplicateKey key)
            else
              let! (value, d2) := decodeValue fuel' d1 in
              decode_members fuel' d2 (object ++ [(key, value)])
        | _ => Err KeyNotString
        end
      else Ok (object, d)
  end
with decode_items (fuel : nat) (d : decoder) (array : list json)
  : result decode_error (list json * decoder) :=
  match fuel with
  | O => Err OutOfFuel
  | S fuel' =>
      if More d then
        let! (value, d1) := decodeValue fuel' d in
        decode_items fuel' d1 (array ++ [value])
      else Ok (array, d)
  end.

Definition decode_fuel_for (d : decoder) : nat := (2 * remaining d + 2)%nat.

Definition decodeOne (document : string) : result decode_error json :=
  let decoder := NewDecoder document in
  let! (value, d) := decodeValue (decode_fuel_for decoder) decoder in
  match Token d with
  | Err EOF => Ok value
  | _ => Err TrailingData
  end.

Example decode_nested :
  decodeOne "[1, [true,null], []]"
  = Ok (JArray [JNumber "1"; JArray [JBool true; JNull]; JArray []]).
Proof. eval_goal. Qed.
Example decode_trailing : decodeOne "1 2" = Err TrailingData.
Proof. eval_goal. Qed.

(** ** The decision registry *)

Record ReasonEntry := { Code : string; AllowedVerdicts : list string }.

Record decisionRegistry := {
  DefaultMinimumProofLevel : string;
  MinimumProofOverrides : list (string * string);
  ProofLevels : list (string * Z);
  RegistryReasonCodes : list ReasonEntry
}.

Definition reason (c : string) (allowed : list string) : ReasonEntry :=
  {| Code := c; AllowedVerdicts := allowed |}.

Definition decisions : decisionRegistry := {|
  DefaultMinimumProofLevel := "PROCESS_OBSERVED";
  MinimumProofOverrides := [
    ("ARTIFACT_MISMATCH", "ARTIFACT_OBSERVED");
    ("ARTIFACT_VERSION_MISMATCH", "ARTIFACT_OBSERVED");
    ("ARTIFACT_CHANGED_DURING_READ", "CONFIG_BOUND");
    ("ARTIFACT_SCAN_LIMIT_EXCEEDED", "CONFIG_BOUND");
    ("ARTIFACT_INACCESSIBLE", "CONFIG_BOUND");
    ("ARTIFACT_PATH_ESCAPE", "CONFIG_BOUND");
    ("ARTIFACT_SYMLINK_REJECTED", "CONFIG_BOUND");
    ("ARTIFACT_NORMALIZATION_COLLISION", "CONFIG_BOUND");
    ("ARTIFACT_UNSUPPORTED_TYPE", "CONFIG_BOUND");
    ("POSSIBLE_STALE_AFTER_REPLACEMENT", "CONFIG_BOUND");
    ("STALE_WITNESS_RECEIPT", "LAUNCH_WITNESSED");
    ("RUNTIME_OUTSIDE_ALLOWED_ROOT", "CONFIG_BOUND");
    ("MULTIPLE_ACTIVE_DIGESTS", "ARTIFACT_OBSERVED");
    ("WITNESS_EXPECTATION_MISSING", "LAUNCH_WITNESSED");
    ("DYNAMIC_DEPENDENCIES_UNPROVEN", "ARTIFACT_OBSERVED")];
  ProofLevels := [("PROCESS_OBSERVED", 1); ("CONFIG_BOUND", 2);
                  ("ARTIFACT_OBSERVED", 3); ("LAUNCH_WITNESSED", 4)];
  RegistryReasonCodes := [
    reason "MATCH_CONFIRMED" ["MATCHED"];
    reason "PROCESS_NOT_FOUND" ["NOT_RUNNING"; "UNKNOWN"];
    reason "PROCESS_IDENTITY_CHANGED" ["UNKNOWN"];
    reason "PROCESS_INACCESSIBLE" ["UNKNOWN"];
    reason "EXPECTATION_MISSING" ["UNKNOWN"];
    reason "EXPECTATION_INVALID" ["UNKNOWN"];
    reason "EXPECTATION_UNTRUSTED" ["MATCHED"; "UNKNOWN"];
    reason "EXPECTATION_AMBIGUOUS" ["CONFLICT"; "UNKNOWN"];
    reason "ARTIFACT_MISMATCH" ["STALE"; "CONFLICT"];
    reason "ARTIFACT_VERSION_MISMATCH" ["STALE"; "CONFLICT"];
    reason "ARTIFACT_CHANGED_DURING_READ" ["UNKNOWN"];
    reason "ARTIFACT_SCAN_LIMIT_EXCEEDED" ["UNKNOWN"];
    reason "ARTIFACT_INACCESSIBLE" ["UNKNOWN"];
    reason "ARTIFACT_PATH_ESCAPE" ["LEAKED"; "UNKNOWN"];
    reason "ARTIFACT_SYMLINK_REJECTED" ["UNKNOWN"];
    reason "ARTIFACT_NORMALIZATION_COLLISION" ["UNKNOWN"; "CONFLICT"];
    reason "ARTIFACT_UNSUPPORTED_TYPE" ["UNKNOWN"];
    reason "POSSIBLE_STALE_AFTER_REPLACEMENT" ["UNKNOWN"];
    reason "STALE_WITNESS_RECEIPT" ["STALE"];
    reason "RUNTIME_OUTSIDE_ALLOWED_ROOT" ["LEAKED"];
    reason "MULTIPLE_ACTIVE_DIGESTS" ["CONFLICT"];
    reason "HOST_BINDING_AMBIGUOUS" ["CONFLICT"; "UNKNOWN"];
    reason "HOST_CONFIG_INACCESSIBLE" ["UNKNOWN"];
    reason "HOST_CONFIG_INVALID" ["UNKNOWN"];
    reason "WITNESS_EXPECTATION_MISSING" ["UNKNOWN"];
    reason "DYNAMIC_DEPENDENCIES_UNPROVEN" ["MATCHED"; "UNKNOWN"];
    reason "PLATFORM_EVIDENCE_UNAVAILABLE" ["UNKNOWN"];
    reason "SCAN_CANCELLED" ["UNKNOWN"]]
|}.

(** ** Proof and receipt semantics *)

Inductive semantic_error :=
| WrongType  (* a failed Go type assertion: excluded by the schema *)
| MissingExpectation
| NeedsProcessAndExecutable
| NeedsArtifact
| NotRunningWithObservation
| UnknownReason (code : string)
| ReasonNotAllowed (code : string)
| NeedsStrongerLevel (code : string)
| ObservationOnlyRule
| ExpectationBoundRule.

(** A Go map lookup: a missing key reads as [nil], as a JSON null does. *)
Fixpoint field (m : list (string * json)) (k : string) : json :=
  match m with
  | [] => JNull
  | (k', v) :: rest => if k' =s k then v else field rest k
  end.

Definition is_nil (v : json) : bool := match v with JNull => true | _ => false end.

Definition as_string (v : json) : result semantic_error string :=
  match v with JString s => Ok s | _ => Err WrongType end.
Definition as_object (v : json) : result semantic_error (list (string * json)) :=
  match v with JObject m => Ok m | _ => Err WrongType end.
Definition as_bool (v : json) : result semantic_error bool :=
  match v with JBool b => Ok b | _ => Err WrongType end.

Definition stringArray (v : json) : result semantic_error (list string) :=
  match v with JArray raw => mapM_ as_string raw | _ => Err WrongType end.

Definition contains (values : list string) (target : string) : bool :=
  existsb (fun value => value =s target) values.

Definition assoc {V} (m : list (string * V)) (k : string) : option V :=
  match find (fun kv => fst kv =s k) m with Some kv => Some (snd kv) | None => None end.

(** A Go [map[string]int] read: a missing key gives 0. *)
Definition proofOrder (r : decisionRegistry) (level : string) : Z :=
  default 0 (assoc (ProofLevels r) level).

Definition rule_minimum (r : decisionRegistry) (code : string) : Z :=
  proofOrder r (default (DefaultMinimumProofLevel r) (assoc (MinimumProofOverrides r) code)).

Definition find_rule (r : decisionRegistry) (code : string) : option ReasonEntry :=
  find (fun e => Code e =s code) (RegistryReasonCodes r).

Definition check_reason (r : decisionRegistry) (verdict proofLevel code : string)
  : result semantic_error unit :=
  match find_rule r code with
  | None => Err (UnknownReason code)
  | Some rule =>
      check! contains (AllowedVerdicts rule) verdict else ReasonNotAllowed code in
      check! negb (proofOrder r proofLevel <? rule_minimum r code)
        else NeedsStrongerLevel code in
      Ok tt
  end.

Definition validateProofSemantics (proof : list (string * json)) : result semantic_error unit :=
  let! verdict := as_string (field proof "verdict") in
  let! proofLevel := as_string (field proof "proof_level") in
  let! observation := as_object (field proof "observation") in
  let! reasonCodes := stringArray (field proof "reason_codes") in
  let! limitations := stringArray (field proof "limitations") in
  let observed k := negb (is_nil (field observation k)) in
  check! negb (is_nil (field proof "expectation")
               && (negb (verdict =s "UNKNOWN") || negb (contains reasonCodes "EXPECTATION_MISSING")))
    else MissingExpectation in
  check! negb (((verdict =s "MATCHED") || (verdict =s "STALE") || (verdict =s "LEAKED"))
               && (negb (observed "process") || negb (observed "executable")))
    else NeedsProcessAndExecutable in
  check! negb ((verdict =s "MATCHED") && negb (observed "artifact")) else NeedsArtifact in
  check! negb ((verdict =s "NOT_RUNNING")
               && (observed "process" || observed "executable" || observed "artifact"))
    else NotRunningWithObservation in
  eachM (check_reason decisions verdict proofLevel) (reasonCodes ++ limitations).

Definition validateLaunchReceiptSemantics (value : list (string * json))
  : result semantic_error unit :=
  let! observationOnly := as_bool (field value "observation_only") in
  let! reasons := stringArray (field value "reason_codes") in
  let absent k := is_nil (field value k) in
  if observationOnly : bool then
    check! absent "subject" && absent "expectation" && absent "artifact"
           && contains reasons "WITNESS_EXPECTATION_MISSING"
      else ObservationOnlyRule in Ok tt
  else
    check! negb (absent "subject") && negb (absent "expectation") && negb (absent "artifact")
           && (length reasons =? 0)%nat
      else ExpectationBoundRule in Ok tt.

(** ** The public entry points *)

Inductive validate_error :=
| DecodeFailed (e : decode_error)
| SchemaFailed (schema : string)
| SemanticsFailed (e : semantic_error).

Section Validate.
(** [jsonschema.Schema.Validate] on the embedded schema of that name. *)
Variable schema_ok : string -> json -> bool.

Definition validate_schema (name : string) (value : json) : result validate_error unit :=
  guard_ (schema_ok name value) (SchemaFailed name).

Definition validateValue (name document : string) : result validate_error json :=
  let! value := map_err DecodeFailed (decodeOne document) in
  let! _ := validate_schema name value in
  Ok value.

Definition validate (name document : string) : result validate_error unit :=
  let! _ := validateValue name document in Ok tt.

Definition expectation_schema : string := "agent-runtime-expectation-1.0.schema.json".
Definition host_profile_schema : string := "agent-runtime-host-profile-1.0.schema.json".
Definition receipt_schema : string := "agent-runtime-launch-receipt-1.0.schema.json".
Definition proof_schema : string := "agent-runtime-proof-1.0.schema.json".

Definition ValidateExpectation (document : string) : result validate_error unit :=
  validate expectation_schema document.

Definition ValidateHostProfile (document : string) : result validate_error unit :=
  validate host_profile_schema document.

Definition receipt_semantics (value : json) : result validate_error unit :=
  map_err SemanticsFailed (let! m := as_object value in validateLaunchReceiptSemantics m).

Definition proof_semantics (value : json) : result validate_error unit :=
  map_err SemanticsFailed (let! m := as_object value in validateProofSemantics m).

Definition ValidateLaunchReceipt (document : string) : result validate_error unit :=
  let! value := validateValue receipt_schema document in receipt_semantics value.

Definition ValidateProof (document : string) : result validate_error unit :=
  let! value := validateValue proof_schema document in proof_semantics value.

(** The same validators on a document the program has just encoded: decoding
    the output of [json.Marshal] gives the tree [normalize] describes. *)
Definition ValidateLaunchReceipt_tree (value : json) : result validate_error unit :=
  let! _ := validate_schema receipt_schema value in receipt_semantics value.
Definition ValidateProof_tree (value : json) : result validate_error unit :=
  let! _ := validate_schema proof_schema value in proof_semantics value.
Definition ValidateExpectation_tree (value : json) : result validate_error unit :=
  validate_schema expectation_schema value.
End Validate.
