(* ===== verification/RoundTrip.v ===== *)
(** * Decoding terminates and inverts the canonical form

    The decoder of [Contract] consumes a byte with every token, so the fuel
    of [decodeOne] never runs out; and it reads the output of the canonical
    encoder back to the encoded tree, members sorted.  Two trees therefore
    have the same canonical bytes exactly when they differ in member order
    only. *)

From S2P Require Import Prelude GoStrings Model GoJson Canonical Contract.

(** ** Every token consumes input *)

Lemma skip_space_length s : (String.length (skip_space s) <= String.length s)%nat.
Proof. induction s as [|c s IH]; simpl; [done|]. destruct (is_space c); simpl; lia. Qed.

Lemma hex4_length s r t : hex4 s = Some (r, t) -> (String.length t < String.length s)%nat.
Proof.
  unfold hex4. destruct s as [|a [|b [|c [|d s]]]]; try done.
  destruct (hex_val a), (hex_val b), (hex_val c), (hex_val d); try done.
  intros [= _ ->]. simpl. lia.
Qed.

Lemma getu4_length s r t : getu4 s = Some (r, t) -> (String.length t < String.length s)%nat.
Proof.
  unfold getu4. destruct s as [|a [|b s]]; try done. destruct (_ && _); [|done].
  intros H%hex4_length. simpl. lia.
Qed.

Lemma unquote_length fuel s v t :
  unquote fuel s = Some (v, t) -> (String.length t < String.length s)%nat.
Proof.
  revert s v t. induction fuel as [|fuel IH]; intros s v t; [done|].
  destruct s as [|c s]; [done|].
  assert (Hemit : forall r rest,
    (String.length rest <= String.length s)%nat ->
    match unquote fuel rest with
    | Some (v, rest') => Some (EncodeRune r +:+ v, rest') | None => None end = Some (v, t) ->
    (String.length t < String.length (String c s))%nat).
  { intros r rest Hle H. destruct (unquote fuel rest) as [[v' t']|] eqn:E; [|done].
    injection H as _ <-. apply IH in E. simpl. lia. }
  pose proof (DecodeRune_width (String c s)) as Hw.
  cbn [unquote]. destruct (Ascii.eqb c quote); [intros [= _ <-]; simpl; lia|].
  destruct (Ascii.eqb c backslash).
  - destruct s as [|e s]; [done|]. destruct (Ascii.eqb e "u").
    + destruct (hex4 s) as [[r s2]|] eqn:E; [|done]. apply hex4_length in E.
      destruct (IsSurrogate r); [|apply Hemit; simpl; lia].
      destruct (getu4 s2) as [[r2 s3]|] eqn:E2; [|apply Hemit; simpl; lia].
      apply getu4_length in E2.
      destruct (_ =? RuneError); apply Hemit; simpl; lia.
    + destruct (simple_escape e); [|done]. apply Hemit; simpl; lia.
  - destruct (byte_val c <? 32); [done|].
    destruct (DecodeRune (String c s)) as [r w] eqn:E. apply Hemit.
    rewrite sdrop_length. simpl in *. specialize (Hw ltac:(done)). lia.
Qed.

Lemma span_digits_length s a r :
  span_digits s = (a, r) -> String.length s = (String.length a + String.length r)%nat.
Proof.
  revert a r. induction s as [|c s IH]; simpl; intros a r; [by intros [= <- <-]|].
  destruct (is_digit c); [|by intros [= <- <-]].
  destruct (span_digits s) as [a' r'] eqn:E. intros [= <- <-]. simpl.
  by rewrite (IH a' r').
Qed.

Lemma lex_int_length s a r :
  lex_int s = Some (a, r) -> (String.length r < String.length s)%nat.
Proof.
  unfold lex_int. destruct s as [|c s]; [done|].
  destruct (Ascii.eqb c "0"); [intros [= _ <-]; simpl; lia|].
  destruct (is_digit c) eqn:Hd; [|done]. intros [= H]. cbn [span_digits] in H. rewrite Hd in H.
  destruct (span_digits s) as [a' r'] eqn:E. apply span_digits_length in E.
  injection H as _ <-. simpl. lia.
Qed.

Lemma lex_frac_length s a r :
  lex_frac s = Some (a, r) -> (String.length r <= String.length s)%nat.
Proof.
  unfold lex_frac. destruct s as [|c s]; [by intros [= _ <-]|].
  destruct (Ascii.eqb c "."); [|by intros [= _ <-]].
  destruct (span_digits s) as [[|d ds] r'] eqn:E; [done|]. intros [= _ <-].
  apply span_digits_length in E. simpl in *. lia.
Qed.

Lemma lex_exp_length s a r :
  lex_exp s = Some (a, r) -> (String.length r <= String.length s)%nat.
Proof.
  unfold lex_exp. destruct s as [|c s]; [by intros [= _ <-]|].
  destruct (_ || _); [|by intros [= _ <-]].
  destruct s as [|d s].
  - simpl. done.
  - destruct (_ || _).
    + destruct (span_digits s) as [[|x ds] r'] eqn:E; [done|]. intros [= _ <-].
      apply span_digits_length in E. simpl in *. lia.
    + destruct (span_digits (String d s)) as [[|x ds] r'] eqn:E; [done|]. intros [= _ <-].
      apply span_digits_length in E. simpl in *. lia.
Qed.

Lemma lex_number_length s n r :
  lex_number s = Some (n, r) -> (String.length r < String.length s)%nat.
Proof.
  unfold lex_number. intros H.
  assert (Hs : exists sign t, (String.length t <= String.length s)%nat /\
    match lex_int t with
    | None => None
    | Some (i, t1) => match lex_frac t1 with
                      | None => None
                      | Some (f, t2) => match lex_exp t2 with
                                        | None => None
                                        | Some (e, t3) => Some (sign +:+ i +:+ f +:+ e, t3)
                                        end end end = Some (n, r)).
  { destruct s as [|c s]; [by exists EmptyString, EmptyString|].
    destruct (Ascii.eqb c "-"); [exists "-", s|exists EmptyString, (String c s)]; split; try done.
    simpl. lia. }
  destruct Hs as (sign & t & Hle & H').
  destruct (lex_int t) as [[i t1]|] eqn:E1; [|done]. apply lex_int_length in E1.
  destruct (lex_frac t1) as [[f t2]|] eqn:E2; [|done]. apply lex_frac_length in E2.
  destruct (lex_exp t2) as [[e t3]|] eqn:E3; [|done]. apply lex_exp_length in E3.
  injection H' as _ <-. lia.
Qed.

Lemma lex_scalar_length s tok r :
  lex_scalar s = Some (tok, r) -> (String.length r < String.length s)%nat.
Proof.
  unfold lex_scalar. destruct s as [|c s]; [done|].
  destruct (Ascii.eqb c quote).
  - destruct (unquote _ s) as [[v t]|] eqn:E; [|done]. intros [= _ <-].
    apply unquote_length in E. simpl. lia.
  - assert (Hn : forall n, (String.length (sdrop (S n) (String c s)) < String.length (String c s))%nat)
      by (intros n; rewrite sdrop_length; cbn [String.length]; lia).
    destruct (HasPrefix _ _).
    { intros H. replace r with (sdrop 4 (String c s)) by congruence. apply Hn. }
    destruct (HasPrefix _ _).
    { intros H. replace r with (sdrop 5 (String c s)) by congruence. apply Hn. }
    destruct (HasPrefix _ _).
    { intros H. replace r with (sdrop 4 (String c s)) by congruence. apply Hn. }
    destruct (lex_number _) as [[n t]|] eqn:E; [|done]. intros [= _ <-].
    by apply lex_number_length in E.
Qed.

Lemma Token_remaining fuel d tok d' :
  Token_fuel fuel d = Ok (tok, d') -> (remaining d' < remaining d)%nat.
Proof.
  unfold remaining. revert d. induction fuel as [|fuel IH]; intros d; [done|].
  pose proof (skip_space_length (input d)) as Hsp. cbn [Token_fuel].
  unfold open_delim, close_delim, scalar_token. cbn [input tokenState tokenStack].
  destruct (skip_space (input d)) as [|c t]; [done|]. cbn [String.length] in Hsp.
  assert (Hlex : forall st stk,
    match lex_scalar (String c t) with
    | Some (tok, rest) => Ok (tok, Dec rest st stk) | None => Err SyntaxError end = Ok (tok, d') ->
    (String.length (input d') < String.length (input d))%nat).
  { intros st stk H. destruct (lex_scalar _) as [[tk r]|] eqn:E; [|done].
    apply lex_scalar_length in E. injection H as _ <-. simpl in *. lia. }
  assert (Hrec : forall st, Token_fuel fuel (Dec t st (tokenStack d)) = Ok (tok, d') ->
    (String.length (input d') < String.length (input d))%nat).
  { intros st H%IH. simpl in H. lia. }
  repeat match goal with
  | |- context [if Ascii.eqb ?a ?b then _ else _] => destruct (Ascii.eqb a b)
  end; destruct (tokenState d); cbn [value_allowed]; try done; try apply Hlex; try apply Hrec;
    try (destruct (tokenStack d); [done|]); intros [= _ <-]; simpl; lia.
Qed.

(** ** Termination *)

Lemma next_token_remaining d tok d' :
  next_token d = Ok (tok, d') -> (remaining d' < remaining d)%nat.
Proof. intros H%map_err_ok. by apply Token_remaining in H. Qed.

Lemma closing_remaining c e d d' : closing c e d = Ok d' -> (remaining d' < remaining d)%nat.
Proof.
  unfold closing. destruct (Token d) as [[tok d0]|] eqn:E; [|done].
  destruct tok; try done. destruct (Ascii.eqb _ _); [|done]. intros [= <-].
  by apply Token_remaining in E.
Qed.

Lemma decode_remaining fuel :
  (forall d v d', decodeValue fuel d = Ok (v, d') -> (remaining d' < remaining d)%nat) /\
  (forall d o v d', decode_members fuel d o = Ok (v, d') -> (remaining d' <= remaining d)%nat) /\
  (forall d o v d', decode_items fuel d o = Ok (v, d') -> (remaining d' <= remaining d)%nat).
Proof.
  induction fuel as [|fuel (IHv & IHm & IHi)]; [done|]. repeat split; simpl.
  - intros d v d' H. apply rbind_ok in H as ([tok d1] & H1%next_token_remaining & H).
    destruct tok; try (injection H as _ <-; done).
    destruct (Ascii.eqb _ _); [|destruct (Ascii.eqb _ _); [|done]];
      apply rbind_ok in H as ([o d2] & H2 & H); apply rbind_ok in H as (d3 & H3 & H);
      apply closing_remaining in H3; injection H as _ <-;
      [apply IHm in H2 | apply IHi in H2]; lia.
  - intros d o v d' H. destruct (More d); [|by injection H as _ <-].
    apply rbind_ok in H as ([tok d1] & H1%next_token_remaining & H).
    destruct tok; try done. destruct (existsb _ _); [done|].
    apply rbind_ok in H as ([w d2] & H2%IHv & H%IHm). lia.
  - intros d o v d' H. destruct (More d); [|by injection H as _ <-].
    apply rbind_ok in H as ([w d2] & H2%IHv & H%IHi). lia.
Qed.

Lemma map_err_err {E F A} (f : E -> F) (c : result E A) e :
  map_err f c = Err e -> exists e0, e = f e0.
Proof. destruct c; simpl; intros [= <-]. by eexists. Qed.

Lemma closing_not_fuel c e d : e <> OutOfFuel -> closing c e d <> Err OutOfFuel.
Proof.
  unfold closing. destruct (Token d) as [[[] ?]|]; try congruence.
  by destruct (Ascii.eqb _ _); congruence.
Qed.

Lemma next_token_not_fuel d : next_token d <> Err OutOfFuel.
Proof. intros (e & He)%map_err_err. done. Qed.

(** The decoder never runs out of fuel: [decodeValue] and its loops need at
    most two calls for each byte that is left. *)
Lemma decode_enough fuel :
  (forall d, (2 * remaining d + 1 <= fuel)%nat -> decodeValue fuel d <> Err OutOfFuel) /\
  (forall d o, (2 * remaining d + 2 <= fuel)%nat -> decode_members fuel d o <> Err OutOfFuel) /\
  (forall d o, (2 * remaining d + 2 <= fuel)%nat -> decode_items fuel d o <> Err OutOfFuel).
Proof.
  induction fuel as [|fuel (IHv & IHm & IHi)]; [repeat split; intros; lia|].
  pose proof (decode_remaining fuel) as (Rv & _ & _).
  repeat split; intros d; [|intros o|intros o]; intros Hf H; simpl in H.
  - apply rbind_err in H as [H|([tok d1] & H1%next_token_remaining & H)];
      [by apply next_token_not_fuel in H|].
    destruct tok; try done.
    destruct (Ascii.eqb _ _); [|destruct (Ascii.eqb _ _); [|done]];
      (apply rbind_err in H as [H|([o d2] & H2 & H)];
         [first [apply IHm in H | apply IHi in H]; [done|lia]|]);
      (apply rbind_err in H as [H|(d3 & H3 & H)]; [by apply closing_not_fuel in H|done]).
  - destruct (More d); [|done].
    apply rbind_err in H as [H|([tok d1] & H1%next_token_remaining & H)];
      [by apply next_token_not_fuel in H|].
    destruct tok; try done. destruct (existsb _ _); [done|].
    apply rbind_err in H as [H|([w d2] & H2%Rv & H)]; [apply IHv in H|apply IHm in H]; lia || done.
  - destruct (More d); [|done].
    apply rbind_err in H as [H|([w d2] & H2%Rv & H)]; [apply IHv in H|apply IHi in H]; lia || done.
Qed.

(** ** Lexing what the encoder writes *)

(** What may follow a number in the canonical form. *)
Definition delimiter (c : ascii) : bool :=
  Ascii.eqb c "," || Ascii.eqb c "]" || Ascii.eqb c "}".
Definition delimited (rest : string) : bool :=
  match rest with EmptyString => true | String c _ => delimiter c end.

Lemma delimiter_cases c : delimiter c = true -> c = ","%char \/ c = "]"%char \/ c = "}"%char.
Proof. unfold delimiter. rewrite !orb_true_iff, !ascii_eqb_true. tauto. Qed.

Lemma span_digits_app ds rest :
  sforall is_digit ds = true -> delimited rest = true -> span_digits (ds +:+ rest) = (ds, rest).
Proof.
  intros Hd Hr. induction ds as [|c ds IH].
  - destruct rest as [|c rest]; [done|].
    by destruct (delimiter_cases c Hr) as [->|[->| ->]].
  - rewrite sforall_cons in Hd. apply andb_true_iff in Hd as [Hc Hd].
    cbn [String.append span_digits]. by rewrite Hc, IH.
Qed.

Lemma lex_int_digits n rest :
  0 <= n < 10 ^ 20 -> delimited rest = true ->
  lex_int (digits_of 20 n +:+ rest) = Some (digits_of 20 n, rest).
Proof.
  intros Hn Hr. destruct (decide (n = 0)) as [->|Hne]; [done|].
  pose proof (digits_of_digits 20 n ltac:(lia)) as Hd.
  destruct (digits_of_head 20 n) as (c & t & Heq & Hc); [change (Z.of_nat 20) with 20; lia|].
  rewrite Heq in *. unfold lex_int. cbn [String.append].
  rewrite ascii_eqb_val. byte_consts. ztest.
  assert (Hdc : is_digit c = true) by (apply in_range_iff; lia). rewrite Hdc.
  change (String c (t +:+ rest)) with (String c t +:+ rest). by rewrite span_digits_app.
Qed.

Lemma lex_frac_delimited rest : delimited rest = true -> lex_frac rest = Some (EmptyString, rest).
Proof.
  destruct rest as [|c rest]; [done|]. by intros [->|[->| ->]]%delimiter_cases.
Qed.

Lemma lex_exp_delimited rest : delimited rest = true -> lex_exp rest = Some (EmptyString, rest).
Proof.
  destruct rest as [|c rest]; [done|]. by intros [->|[->| ->]]%delimiter_cases.
Qed.

Lemma FormatInt_digits n :
  FormatInt n = (if n <? 0 then "-" else EmptyString) +:+ digits_of 20 (Z.abs n).
Proof.
  unfold FormatInt. rewrite !digits_fuel_of, !str_app_nil_r.
  destruct (Z.ltb_spec n 0); [rewrite Z.abs_neq by lia|rewrite Z.abs_eq by lia]; reflexivity.
Qed.

Lemma lex_number_FormatInt n rest :
  Z.abs n < 10 ^ 20 -> delimited rest = true ->
  lex_number (FormatInt n +:+ rest) = Some (FormatInt n, rest).
Proof.
  intros Hn Hr. rewrite FormatInt_digits.
  pose proof (lex_int_digits (Z.abs n) rest ltac:(lia) Hr) as Hi.
  pose proof (digits_of_digits 20 (Z.abs n) ltac:(lia)) as Hd.
  pose proof (digits_of_nonempty 20 (Z.abs n) ltac:(lia)) as Hne.
  destruct (n <? 0); unfold lex_number.
  - cbn [String.append]. change (Ascii.eqb "-" "-") with true. cbv iota beta zeta match.
    rewrite Hi, lex_frac_delimited, lex_exp_delimited by done.
    by rewrite str_app_nil_r.
  - destruct (digits_of 20 (Z.abs n)) as [|c t]; [done|].
    rewrite sforall_cons in Hd. apply andb_true_iff in Hd as [Hc _].
    apply digit_not_sign in Hc as [Hm _]. cbn [String.append] in *. rewrite Hm.
    rewrite Hi, lex_frac_delimited, lex_exp_delimited by done. cbn [String.append].
    by rewrite str_app_nil_r.
Qed.

(** The first byte of an encoded rune that needs no escape. *)
Lemma EncodeRune_head r :
  scalar r = true -> 32 <= r -> r <> 34 -> r <> 92 ->
  exists c t, EncodeRune r = String c t /\ Ascii.eqb c quote = false
              /\ Ascii.eqb c backslash = false /\ (byte_val c <? 32) = false.
Proof.
  intros Hs H1 H2 H3. rewrite EncodeRune_scalar by done. apply scalar_iff in Hs.
  assert (Hz : forall z t, 32 <= z < 256 -> z <> 34 -> z <> 92 ->
    exists c t', String (byte_of z) t = String c t' /\ Ascii.eqb c quote = false
              /\ Ascii.eqb c backslash = false /\ (byte_val c <? 32) = false).
  { intros z t Hz H4 H5. exists (byte_of z), t. rewrite !ascii_eqb_val, byte_val_of by lia.
    change (byte_val quote) with 34. change (byte_val backslash) with 92.
    repeat split; ztest; done. }
  unfold byte_string. repeat case_match; apply Hz; to_prop; dlia.
Qed.

Lemma unquote_step fuel s r rest v t :
  EncodeRune r = s -> scalar r = true -> 32 <= r -> r <> 34 -> r <> 92 ->
  unquote fuel rest = Some (v, t) ->
  unquote (S fuel) (s +:+ rest) = Some (s +:+ v, t).
Proof.
  intros <- Hs H1 H2 H3 H.
  pose proof (DecodeRune_EncodeRune r rest Hs) as Hdec.
  pose proof (sdrop_app (EncodeRune r) rest) as Hdrop.
  destruct (EncodeRune_head r Hs H1 H2 H3) as (c & t0 & He & Hq & Hb & Hc).
  rewrite He in *. cbn [String.append] in *. cbn [unquote].
  rewrite Hq, Hb, Hc, Hdec. rewrite Hdrop, H. by rewrite He.
Qed.

Lemma unquote_escape fuel e r rest v t :
  Ascii.eqb e "u" = false -> simple_escape e = Some r ->
  unquote fuel rest = Some (v, t) ->
  unquote (S fuel) (String backslash (String e rest)) = Some (EncodeRune r +:+ v, t).
Proof. intros H1 H2 H. cbn [unquote]. by rewrite H1, H2, H. Qed.

Lemma hex_val_low x : 0 <= x < 16 -> hex_val (hex_low x) = Some x.
Proof.
  intros Hx. unfold hex_val, hex_low. destruct (Z.ltb_spec x 10); rewrite byte_val_of by lia;
    ztest; f_equal; lia.
Qed.

Lemma unquote_u_escape fuel r rest v t :
  0 <= r < 32 -> unquote fuel rest = Some (v, t) ->
  unquote (S fuel) (u_escape r +:+ rest) = Some (EncodeRune r +:+ v, t).
Proof.
  intros Hr H. unfold u_escape. cbn [String.append unquote].
  change (Ascii.eqb (byte_of 92) quote) with false.
  change (Ascii.eqb (byte_of 92) backslash) with true.
  change (Ascii.eqb "u" "u") with true. cbv iota.
  unfold hex4. change (hex_val "0") with (Some 0). rewrite !hex_val_low by dlia.
  replace (0 * 4096 + 0 * 256 + r / 16 * 16 + r mod 16) with r by dlia.
  unfold IsSurrogate. ztest. by rewrite H.
Qed.

(** One rune of the body of a canonical string is unquoted to itself. *)
Lemma unquote_rune fuel r rest v t :
  scalar r = true -> unquote fuel rest = Some (v, t) ->
  unquote (S fuel) (append_rune r +:+ rest) = Some (EncodeRune r +:+ v, t).
Proof.
  intros Hs H. unfold append_rune.
  destruct (Z.eqb_spec r 34) as [->|?]; [by apply (unquote_escape fuel quote)|].
  destruct (Z.eqb_spec r 92) as [->|?]; [by apply (unquote_escape fuel backslash)|].
  destruct (Z.eqb_spec r 8) as [->|?]; [by apply (unquote_escape fuel "b")|].
  destruct (Z.eqb_spec r 9) as [->|?]; [by apply (unquote_escape fuel "t")|].
  destruct (Z.eqb_spec r 10) as [->|?]; [by apply (unquote_escape fuel "n")|].
  destruct (Z.eqb_spec r 12) as [->|?]; [by apply (unquote_escape fuel "f")|].
  destruct (Z.eqb_spec r 13) as [->|?]; [by apply (unquote_escape fuel "r")|].
  pose proof (proj1 (scalar_iff r) Hs). cbn [orb].
  destruct (Z.ltb_spec r 32); [apply unquote_u_escape; [lia|done]|].
  by apply unquote_step with r.
Qed.

Lemma append_rune_length r : (1 <= String.length (append_rune r))%nat.
Proof.
  unfold append_rune, escaped, u_escape.
  repeat case_match; cbn [String.length String.append]; try lia;
    pose proof (EncodeRune_length r); lia.
Qed.

Lemma unquote_body rs fuel rest :
  Forall (fun r => scalar r = true) rs ->
  (String.length (concat_str (map append_rune rs)) < fuel)%nat ->
  unquote fuel (concat_str (map append_rune rs) +:+ byte_string 34 +:+ rest)
  = Some (of_runes rs, rest).
Proof.
  intros Hrs. revert fuel. induction Hrs as [|r rs Hr Hrs IH]; simpl; intros fuel Hf.
  - destruct fuel; [lia|]. reflexivity.
  - rewrite str_app_length in Hf. pose proof (append_rune_length r).
    destruct fuel as [|fuel]; [lia|]. rewrite str_app_assoc.
    unfold of_runes. simpl. apply unquote_rune; [done|]. apply IH. lia.
Qed.

Lemma lex_scalar_string s out rest :
  appendString s = Ok out -> lex_scalar (out +:+ rest) = Some (TString s, rest).
Proof.
  unfold appendString. destruct (ValidString s) eqn:Hv; [|done]. cbn [negb]. intros [= <-].
  unfold quoted, byte_string. cbn [String.append]. unfold lex_scalar.
  change (Ascii.eqb (byte_of 34) quote) with true. cbv iota.
  rewrite str_app_assoc.
  change (String (byte_of 34) EmptyString +:+ rest) with (byte_string 34 +:+ rest).
  rewrite unquote_body; [by rewrite of_runes_runes|by apply runes_scalar|].
  rewrite !str_app_length. simpl. lia.
Qed.

(** ** Reading canonical documents *)

(** A byte that starts a JSON value of the canonical form. *)
Definition value_byte (c : ascii) : bool :=
  negb (is_space c) && negb (Ascii.eqb c "]") && negb (Ascii.eqb c "}")
  && negb (Ascii.eqb c ":") && negb (Ascii.eqb c ",").

Definition scalar_byte (c : ascii) : bool :=
  value_byte c && negb (Ascii.eqb c "[") && negb (Ascii.eqb c "{").

Definition starts (f : ascii -> bool) (s : string) : bool :=
  match s with String c _ => f c | EmptyString => false end.

Lemma digit_scalar_byte c : is_digit c = true -> scalar_byte c = true.
Proof.
  intros Hc%digit_byte. unfold scalar_byte, value_byte, is_space.
  rewrite !ascii_eqb_val. byte_consts. ztest. done.
Qed.

Lemma FormatInt_starts n : starts scalar_byte (FormatInt n) = true.
Proof.
  rewrite FormatInt_digits. destruct (n <? 0); [done|].
  pose proof (digits_of_digits 20 (Z.abs n) ltac:(lia)) as Hd.
  pose proof (digits_of_nonempty 20 (Z.abs n) ltac:(lia)) as Hne.
  cbn [String.append]. destruct (digits_of _ _) as [|c t]; [done|].
  rewrite sforall_cons in Hd. apply andb_true_iff in Hd as [Hc _]. by apply digit_scalar_byte.
Qed.

Lemma scalar_Token out rest tok st stk :
  starts scalar_byte out = true -> value_allowed st = true ->
  lex_scalar (out +:+ rest) = Some (tok, rest) ->
  Token (Dec (out +:+ rest) st stk) = Ok (tok, Dec rest (value_end st) stk).
Proof.
  destruct out as [|c out]; [done|]. cbn [starts String.append].
  unfold scalar_byte, value_byte. intros Hb Hst Hlex. destruct_hyps.
  unfold Token. cbn [Token_fuel input tokenState tokenStack skip_space].
  repeat match goal with H : _ = false |- _ => rewrite H; clear H end.
  unfold scalar_token. cbn [tokenState tokenStack input]. rewrite Hst, Hlex.
  by destruct (Ascii.eqb c quote), st.
Qed.

Lemma key_Token s out rest st stk :
  appendString s = Ok out -> st = ObjectStart \/ st = ObjectKey ->
  Token (Dec (out +:+ rest) st stk) = Ok (TString s, Dec rest ObjectColon stk).
Proof.
  intros Ho Hst. pose proof (lex_scalar_string s out rest Ho) as Hlex.
  unfold appendString in Ho. destruct (ValidString s); [|done]. injection Ho as <-.
  unfold quoted, byte_string in *. cbn [String.append] in *.
  unfold Token. cbn [Token_fuel input tokenState tokenStack].
  change (skip_space (String (byte_of 34) ?x)) with (String (byte_of 34) x).
  cbv iota. rewrite Hlex. by destruct Hst as [-> | ->].
Qed.

(** A value may be preceded by the separator its context calls for. *)
Inductive separator : string -> tstate -> tstate -> Prop :=
| SepNone st : value_allowed st = true -> separator EmptyString st st
| SepItem : separator "," ArrayComma ArrayValue
| SepColon : separator ":" ObjectColon ObjectValue.

Lemma separator_Token pre st0 st s stk :
  separator pre st0 st -> Token (Dec (pre +:+ s) st0 stk) = Token (Dec s st stk).
Proof. by intros []. Qed.

Lemma separator_allowed pre st0 st : separator pre st0 st -> value_allowed st = true.
Proof. by intros []. Qed.

Lemma decodeValue_Token fuel d1 d2 :
  Token d1 = Token d2 -> decodeValue fuel d1 = decodeValue fuel d2.
Proof. destruct fuel; [done|]. simpl. unfold next_token. by intros ->. Qed.

Lemma appendValue_starts v out : appendValue v = Ok out -> starts value_byte out = true.
Proof.
  destruct v; simpl.
  - by intros [= <-].
  - by intros [= <-]; destruct b.
  - intros [-> (n & _ & ->)]%appendInteger_spec. pose proof (FormatInt_starts n) as H.
    destruct (FormatInt n); [done|]. simpl in *. unfold scalar_byte in H. by destruct_hyps.
  - unfold appendString. destruct (ValidString s); [|done]. by intros [= <-].
  - intros (parts & _ & [= <-])%rbind_ok. done.
  - intros (parts & _ & [= <-])%rbind_ok. done.
Qed.

Lemma starts_length f s : starts f s = true -> (1 <= String.length s)%nat.
Proof. destruct s; simpl; [done|lia]. Qed.

Lemma More_value out rest st stk :
  starts value_byte out = true -> More (Dec (out +:+ rest) st stk) = true.
Proof.
  destruct out as [|c out]; [done|]. cbn [starts]. unfold value_byte. intros H. destruct_hyps.
  unfold More. cbn [input String.append skip_space].
  repeat match goal with H : _ = false |- _ => rewrite H; clear H end. done.
Qed.

(** What reading the canonical bytes of [v] has to give in any context. *)
Definition reads_back (v : json) : Prop :=
  forall out pre st0 st stk rest fuel,
    appendValue v = Ok out -> separator pre st0 st -> delimited rest = true ->
    (2 * String.length out + 1 <= fuel)%nat ->
    decodeValue fuel (Dec (pre +:+ out +:+ rest) st0 stk)
    = Ok (canon v, Dec rest (value_end st) stk).

Lemma scalar_reads_back v tok :
  canon v = v ->
  (forall out rest, appendValue v = Ok out -> delimited rest = true ->
     starts scalar_byte out = true /\ lex_scalar (out +:+ rest) = Some (tok, rest)) ->
  match tok with
  | TString s => v = JString s | TNumber t => v = JNumber t
  | TBool b => v = JBool b | TNull => v = JNull | TDelim _ => False
  end -> reads_back v.
Proof.
  intros Hc Hlex Htok out pre st0 st stk rest fuel Ho Hsep Hr Hf.
  destruct (Hlex out rest Ho Hr) as [Hs Hl].
  destruct fuel as [|fuel]; [lia|].
  rewrite (decodeValue_Token _ _ _ (separator_Token _ _ _ _ _ Hsep)).
  cbn [decodeValue]. unfold next_token.
  rewrite (scalar_Token _ _ _ _ _ Hs (separator_allowed _ _ _ Hsep) Hl). cbn [map_err rbind].
  rewrite Hc. destruct tok; done || by subst.
Qed.

Lemma number_reads_back t : reads_back (JNumber t).
Proof.
  apply (scalar_reads_back _ (TNumber t)); [done| |done].
  intros out rest [-> (n & Hn & ->)]%appendInteger_spec Hr.
  pose proof (FormatInt_starts n) as Hs. split; [done|].
  pose proof (lex_number_FormatInt n rest ltac:(unfold maxSafeInteger in Hn; lia) Hr) as Hl.
  unfold lex_scalar. rewrite Hl.
  rewrite FormatInt_digits in *. destruct (n <? 0); [done|].
  pose proof (digits_of_digits 20 (Z.abs n) ltac:(lia)) as Hd. cbn [String.append] in *.
  destruct (digits_of 20 (Z.abs n)) as [|c ds]; [done|].
  rewrite sforall_cons in Hd. apply andb_true_iff in Hd as [Hc%digit_byte _].
  cbn [String.append HasPrefix]. rewrite !ascii_eqb_val.
  change (byte_val quote) with 34. byte_consts. ztest. done.
Qed.

Lemma string_reads_back s : reads_back (JString s).
Proof.
  apply (scalar_reads_back _ (TString s)); [done| |done].
  intros out rest Ho _. split; [|by apply lex_scalar_string].
  simpl in Ho. unfold appendString in Ho. destruct (ValidString s); [|done]. by injection Ho as <-.
Qed.

Definition seps (parts : list string) : string := concat_str (map (fun p => "," +:+ p) parts).

Lemma Join_seps p parts : Join (p :: parts) "," = p +:+ seps parts.
Proof.
  revert p. induction parts as [|q parts IH]; intros p; [by rewrite str_app_nil_r|].
  change (Join (p :: q :: parts) ",") with (p +:+ "," +:+ Join (q :: parts) ",").
  by rewrite IH.
Qed.

Lemma seps_delimited parts (c : ascii) rest :
  delimiter c = true -> delimited (seps parts +:+ String c rest) = true.
Proof. by destruct parts. Qed.

Lemma seps_cons p parts s : seps (p :: parts) +:+ s = "," +:+ p +:+ seps parts +:+ s.
Proof. unfold seps. simpl. by rewrite str_app_assoc. Qed.

Lemma seps_length p parts :
  String.length (seps (p :: parts)) = S (String.length p + String.length (seps parts)).
Proof. unfold seps. simpl. by rewrite str_app_length. Qed.

Lemma item_step v p pre st0 st stk rest fuel acc :
  reads_back v -> appendValue v = Ok p -> separator pre st0 st ->
  st0 <> ObjectColon -> value_end st = ArrayComma -> delimited rest = true ->
  (2 * String.length p + 1 <= fuel)%nat ->
  decode_items (S fuel) (Dec (pre +:+ p +:+ rest) st0 stk) acc
  = decode_items fuel (Dec rest ArrayComma stk) (acc ++ [canon v]).
Proof.
  intros Hv Hp Hsep Hst He Hr Hf. cbn [decode_items].
  assert (Hm : More (Dec (pre +:+ p +:+ rest) st0 stk) = true).
  { destruct Hsep; [|done|done]. cbn [String.append].
    by apply More_value, (appendValue_starts v). }
  rewrite Hm, (Hv p pre st0 st stk rest fuel) by done. cbn [rbind]. by rewrite He.
Qed.

Lemma items_tail l parts stk rest fuel acc :
  Forall reads_back l -> Forall2 (fun v p => appendValue v = Ok p) l parts ->
  (2 * String.length (seps parts) + 2 <= fuel)%nat ->
  decode_items fuel (Dec (seps parts +:+ String "]" rest) ArrayComma stk) acc
  = Ok (acc ++ map canon l, Dec (String "]" rest) ArrayComma stk).
Proof.
  intros Hl Hp. revert fuel acc. induction Hp as [|v p l parts Hv Hp IH]; intros fuel acc Hf.
  - destruct fuel; [lia|]. simpl. by rewrite app_nil_r.
  - apply Forall_cons in Hl as [Hb Hl]. rewrite seps_length in Hf.
    pose proof (starts_length _ _ (appendValue_starts _ _ Hv)).
    destruct fuel as [|fuel]; [lia|]. rewrite seps_cons.
    rewrite (item_step v p "," ArrayComma ArrayValue); try done; [|constructor|by apply seps_delimited|lia].
    rewrite IH by (done || lia). simpl. by rewrite <- app_assoc.
Qed.

Lemma array_reads_back l : Forall reads_back l -> reads_back (JArray l).
Proof.
  intros Hl out pre st0 st stk rest fuel Ho Hsep Hr Hf.
  simpl in Ho. apply rbind_ok in Ho as (parts & Hparts & [= <-]).
  apply mapM_ok_Forall2, Forall2_fmap_l in Hparts. cbn beta in Hparts.
  cbn [String.append String.length] in Hf. rewrite str_app_length in Hf. cbn [String.length] in Hf.
  rewrite (decodeValue_Token _ _ _ (separator_Token _ _ _ _ _ Hsep)).
  pose proof (separator_allowed _ _ _ Hsep) as Hst.
  destruct fuel as [|fuel]; [lia|]. cbn [decodeValue].
  assert (Hopen : Token (Dec (String "[" (Join parts "," +:+ "]") +:+ rest) st stk)
    = Ok (TDelim "[", Dec (Join parts "," +:+ String "]" rest) ArrayStart (st :: stk))).
  { cbn [String.append]. rewrite str_app_assoc. unfold Token.
    cbn [Token_fuel skip_space input]. change (is_space "[") with false. cbv iota.
    unfold open_delim. cbn [tokenState tokenStack]. by rewrite Hst. }
  unfold next_token. rewrite Hopen. cbn [map_err rbind].
  change (Ascii.eqb "[" "{") with false. change (Ascii.eqb "[" "[") with true. cbv iota.
  assert (Hitems : exists st', (st' = ArrayStart \/ st' = ArrayComma) /\
    decode_items fuel (Dec (Join parts "," +:+ String "]" rest) ArrayStart (st :: stk)) []
    = Ok (map canon l, Dec (String "]" rest) st' (st :: stk))).
  { destruct Hparts as [|v p l parts Hv Hp].
    - exists ArrayStart. split; [by left|]. destruct fuel; [lia|]. done.
    - exists ArrayComma. split; [by right|]. apply Forall_cons in Hl as [Hb Hl].
      rewrite Join_seps, str_app_length in Hf.
      pose proof (starts_length _ _ (appendValue_starts _ _ Hv)).
      destruct fuel as [|fuel]; [lia|]. rewrite Join_seps, str_app_assoc.
      change (p +:+ ?x) with (EmptyString +:+ p +:+ x).
      rewrite (item_step v p EmptyString ArrayStart ArrayStart); try done;
        [|by constructor|by apply seps_delimited|lia].
      by rewrite (items_tail l) by (done || lia). }
  destruct Hitems as (st' & Hst' & ->). cbn [rbind]. unfold closing.
  assert (Hclose : Token (Dec (String "]" rest) st' (st :: stk))
                   = Ok (TDelim "]", Dec rest (value_end st) stk)) by (by destruct Hst' as [-> | ->]).
  rewrite Hclose. done.
Qed.

(** Objects. *)
Inductive key_separator : string -> tstate -> Prop :=
| KeyFirst : key_separator EmptyString ObjectStart
| KeyNext : key_separator "," ObjectComma.

Definition member_text (kv : string * json) (p : string) : Prop :=
  exists k v, appendString (fst kv) = Ok k /\ appendValue (snd kv) = Ok v /\ p = k +:+ ":" +:+ v.

Lemma appendString_starts s k : appendString s = Ok k -> starts value_byte k = true.
Proof. exact (appendValue_starts (JString s) k). Qed.

Lemma member_step kv p pre st0 stk rest fuel acc :
  reads_back (snd kv) -> member_text kv p -> key_separator pre st0 ->
  existsb (fun kv' => fst kv' =s fst kv) acc = false -> delimited rest = true ->
  (2 * String.length p + 1 <= fuel)%nat ->
  decode_members (S fuel) (Dec (pre +:+ p +:+ rest) st0 stk) acc
  = decode_members fuel (Dec rest ObjectComma stk) (acc ++ [(fst kv, canon (snd kv))]).
Proof.
  intros Hv (k & v & Hk & Ho & ->) Hsep Hfresh Hr Hf. cbn [decode_members].
  rewrite !str_app_length in Hf. cbn [String.length] in Hf.
  rewrite !str_app_assoc.
  assert (Hm : More (Dec (pre +:+ k +:+ ":" +:+ v +:+ rest) st0 stk) = true).
  { destruct Hsep; [|done]. apply (More_value k). by apply (appendString_starts (fst kv)). }
  assert (Hkey : Token (Dec (pre +:+ k +:+ ":" +:+ v +:+ rest) st0 stk)
                 = Ok (TString (fst kv), Dec (":" +:+ v +:+ rest) ObjectColon stk)).
  { destruct Hsep.
    - apply (key_Token _ k); [done|by left].
    - transitivity (Token (Dec (k +:+ ":" +:+ v +:+ rest) ObjectKey stk)); [done|].
      apply (key_Token _ k); [done|by right]. }
  unfold next_token. rewrite Hm, Hkey. cbn [map_err rbind]. rewrite Hfresh.
  by rewrite (Hv v ":" ObjectColon ObjectValue stk rest fuel) by (done || constructor || lia).
Qed.

Lemma fresh_key (kv : string * json) acc :
  fst kv ∉ map fst acc -> existsb (fun kv' : string * json => fst kv' =s fst kv) acc = false.
Proof.
  intros Hn. apply existsb_false, Forall_forall. intros x Hx. apply String.eqb_neq.
  intros He. apply Hn. rewrite <- He. apply list_elem_of_fmap. by exists x.
Qed.

Definition canon_member (kv : string * json) : string * json := (fst kv, canon (snd kv)).

Lemma members_tail m parts stk rest fuel acc :
  Forall (fun kv => reads_back (snd kv)) m -> Forall2 member_text m parts ->
  NoDup (map fst acc ++ map fst m) ->
  (2 * String.length (seps parts) + 2 <= fuel)%nat ->
  decode_members fuel (Dec (seps parts +:+ String "}" rest) ObjectComma stk) acc
  = Ok (acc ++ map canon_member m, Dec (String "}" rest) ObjectComma stk).
Proof.
  intros Hl Hp. revert fuel acc. induction Hp as [|kv p m parts Hv Hp IH]; intros fuel acc Hn Hf.
  - destruct fuel; [lia|]. simpl. by rewrite app_nil_r.
  - apply Forall_cons in Hl as [Hb Hl]. rewrite seps_length in Hf.
    assert (1 <= String.length p)%nat.
    { destruct Hv as (k & v & Hk%appendString_starts%starts_length & _ & ->).
      rewrite str_app_length. lia. }
    destruct fuel as [|fuel]; [lia|]. rewrite seps_cons. simpl in Hn.
    assert (Hfresh : fst kv ∉ map fst acc).
    { apply NoDup_app in Hn as (_ & Hd & _). intros Hin%Hd. apply Hin. by left. }
    rewrite (member_step kv p "," ObjectComma); try done; [|constructor|by apply fresh_key|by apply seps_delimited|lia].
    rewrite IH; try done; [|rewrite map_app, <- app_assoc; exact Hn|lia].
    simpl. by rewrite <- app_assoc.
Qed.

Lemma sorted_members m :
  SortFunc by_key (map (fun kv => (fst kv, appendValue (snd kv))) m)
  = map (fun kv => (fst kv, appendValue (snd kv))) (SortFunc by_key m).
Proof. by apply SortFunc_map. Qed.

Lemma canon_object m : canon (JObject m) = JObject (map canon_member (SortFunc by_key m)).
Proof. simpl. f_equal. by apply SortFunc_map. Qed.

Lemma member_text_ok kv p :
  member (fst kv, appendValue (snd kv)) = Ok p <-> member_text kv p.
Proof.
  unfold member, member_text. simpl. split.
  - intros (k & Hk & (v & Hv & [= <-])%rbind_ok)%rbind_ok. by exists k, v.
  - intros (k & v & -> & -> & ->). done.
Qed.

Lemma object_reads_back m :
  NoDup (map fst m) -> Forall (fun kv => reads_back (snd kv)) m -> reads_back (JObject m).
Proof.
  intros Hn Hl out pre st0 st stk rest fuel Ho Hsep Hr Hf. rewrite canon_object.
  cbn [appendValue] in Ho. rewrite sorted_members in Ho.
  rewrite <- (SortFunc_perm by_key m) in Hn, Hl. set (sm := SortFunc by_key m) in *.
  apply rbind_ok in Ho as (parts & Hparts & [= <-]).
  apply mapM_ok_Forall2, Forall2_fmap_l in Hparts.
  assert (Hp : Forall2 member_text sm parts)
    by (eapply Forall2_impl; [exact Hparts|]; intros; by apply member_text_ok).
  clear Hparts. clearbody sm. cbn [String.append String.length] in Hf.
  rewrite str_app_length in Hf. cbn [String.length] in Hf.
  rewrite (decodeValue_Token _ _ _ (separator_Token _ _ _ _ _ Hsep)).
  pose proof (separator_allowed _ _ _ Hsep) as Hst.
  destruct fuel as [|fuel]; [lia|]. cbn [decodeValue].
  assert (Hopen : Token (Dec (String "{" (Join parts "," +:+ "}") +:+ rest) st stk)
    = Ok (TDelim "{", Dec (Join parts "," +:+ String "}" rest) ObjectStart (st :: stk))).
  { cbn [String.append]. rewrite str_app_assoc. unfold Token.
    cbn [Token_fuel skip_space input]. change (is_space "{") with false. cbv iota.
    unfold open_delim. cbn [tokenState tokenStack]. by rewrite Hst. }
  unfold next_token. rewrite Hopen. cbn [map_err rbind].
  change (Ascii.eqb "{" "{") with true. cbv iota.
  assert (Hmem : exists st', (st' = ObjectStart \/ st' = ObjectComma) /\
    decode_members fuel (Dec (Join parts "," +:+ String "}" rest) ObjectStart (st :: stk)) []
    = Ok (map canon_member sm, Dec (String "}" rest) st' (st :: stk))).
  { destruct Hp as [|kv p sm parts Hv Hp].
    - exists ObjectStart. split; [by left|]. destruct fuel; [lia|]. done.
    - exists ObjectComma. split; [by right|]. apply Forall_cons in Hl as [Hb Hl].
      rewrite Join_seps, str_app_length in Hf.
      destruct fuel as [|fuel]; [lia|]. rewrite Join_seps, str_app_assoc.
      change (p +:+ ?x) with (EmptyString +:+ p +:+ x).
      rewrite (member_step kv p EmptyString ObjectStart); try done;
        [|constructor|by apply seps_delimited|lia].
      rewrite (members_tail sm); try done.
      destruct Hv as (k & v & Hk%appendString_starts%starts_length & _ & ->).
      rewrite str_app_length in Hf. lia. }
  destruct Hmem as (st' & Hst' & ->). cbn [rbind]. unfold closing.
  assert (Hclose : Token (Dec (String "}" rest) st' (st :: stk))
                   = Ok (TDelim "}", Dec rest (value_end st) stk)) by (by destruct Hst' as [-> | ->]).
  rewrite Hclose. done.
Qed.

Lemma canonical_reads_back v : distinct_keys v = true -> reads_back v.
Proof.
  induction v as [| |t|s|l IH|m IH] using json_nested_ind; intros Hd.
  - apply (scalar_reads_back _ TNull); [done| |done]. by intros out rest [= <-].
  - apply (scalar_reads_back _ (TBool b)); [done| |done]. intros out rest [= <-]. by destruct b.
  - apply number_reads_back.
  - apply string_reads_back.
  - apply array_reads_back. simpl in Hd. apply forallb_Forall in Hd.
    rewrite Forall_forall in *. auto.
  - simpl in Hd. apply andb_true_iff in Hd as [Hn%bool_decide_eq_true Hd].
    apply object_reads_back; [done|]. apply forallb_Forall in Hd.
    rewrite Forall_forall in *. auto.
Qed.

(** ** The properties *)

Lemma decodeOne_reads v out :
  distinct_keys v = true -> appendValue v = Ok out -> decodeOne out = Ok (canon v).
Proof.
  intros Hd Ho. unfold decodeOne, NewDecoder.
  pose proof (canonical_reads_back v Hd out EmptyString TopValue TopValue [] EmptyString
                (decode_fuel_for (Dec out TopValue [])) Ho) as H.
  cbn [String.append] in H. rewrite str_app_nil_r in H.
  rewrite H; [done|by constructor|done|]. unfold decode_fuel_for, remaining. simpl. lia.
Qed.

(** C24: reading a document always ends: the fuel given to the decoder, two
    steps per byte, is never used up, so [decodeOne] answers on every input. *)
Theorem decodeOne_terminates document : decodeOne document <> Err OutOfFuel.
Proof.
  unfold decodeOne. intros H. apply rbind_err in H as [H|([v d] & _ & H)].
  - apply (decode_enough (decode_fuel_for (NewDecoder document))) in H; [done|].
    unfold decode_fuel_for. lia.
  - by destruct (Token d) as [|[]].
Qed.

(** C23: the strict decoder inverts the canonical encoder: decoding the bytes
    [Marshal] writes gives the marshalled tree back, members sorted by UTF-16
    key order, numbers and strings intact, and no trailing data. *)
Theorem Marshal_decodeOne v out :
  Marshal v = Ok out -> decodeOne out = Ok (canon (normalize v)).
Proof. intros H. by apply decodeOne_reads; [apply normalize_distinct|]. Qed.

Lemma Marshal_decodeOne_witness :
  decodeOne ("{" +:+ quoted "a" +:+ ":1," +:+ quoted "b" +:+ ":[true]}")
  = Ok (canon (normalize (JObject [("b", JArray [JBool true]); ("a", JNumber "1")]))).
Proof. apply Marshal_decodeOne. vm_compute. reflexivity. Defined.

(** C22: the canonical bytes identify the value: two encodable trees without
    repeated keys have the same canonical bytes exactly when they are the
    same up to the order of object members (which Go maps do not fix). *)
Theorem canonical_bytes_identify v1 v2 out1 out2 :
  distinct_keys v1 = true -> distinct_keys v2 = true ->
  appendValue v1 = Ok out1 -> appendValue v2 = Ok out2 ->
  (out1 = out2 <-> canon v1 = canon v2).
Proof.
  intros Hd1 Hd2 H1 H2. split.
  - intros <-. pose proof (decodeOne_reads v1 out1 Hd1 H1).
    pose proof (decodeOne_reads v2 out1 Hd2 H2). congruence.
  - intros Hc.
    assert (He1 : encodable v1 = true) by (rewrite <- appendValue_is_ok; by rewrite H1).
    assert (He2 : encodable v2 = true) by (rewrite <- appendValue_is_ok; by rewrite H2).
    apply appendValue_canon in He1; [|done]. apply appendValue_canon in He2; [|done].
    rewrite Hc in He1. congruence.
Qed.

Lemma canonical_bytes_identify_witness :
  let v1 := JObject [("b", JNull); ("a", JNumber "1")] in
  let v2 := JObject [("a", JNumber "1"); ("b", JNull)] in
  let out := "{" +:+ quoted "a" +:+ ":1," +:+ quoted "b" +:+ ":null}" in
  (out = out <-> canon v1 = canon v2).
Proof.
  cbv zeta. apply canonical_bytes_identify; vm_compute; reflexivity.
Defined.

(** The encoder accepts exactly the trees of valid UTF-8 strings and
    safe-range integers in minimal decimal form; on anything else it returns
    an error, never partial bytes. *)
Theorem appendValue_accepts v :
  (exists out, appendValue v = Ok out) <-> encodable v = true.
Proof. rewrite <- appendValue_is_ok. symmetry. apply is_ok_true. Qed.

(** A number reaches a canonical document exactly when it is the minimal
    decimal form of an integer between -(2^53-1) and 2^53-1, and then it is
    copied unchanged. *)
Theorem appendInteger_accepts value out :
  appendInteger value = Ok out <->
  out = value /\ exists n, - maxSafeInteger <= n <= maxSafeInteger /\ value = FormatInt n.
Proof. apply appendInteger_spec. Qed.
