(* ===== verification/Wire.v ===== *)
(** * The wire form of the contract types

    What [json.Marshal] writes for the structs of [Model] ([*_json], the
    members in the order of the struct tags) and what a strict
    [json.Decoder] ([DisallowUnknownFields]) reads into them ([*_of], on the
    tree [decodeOne] builds).  Every slice the program encodes is non-nil,
    so an empty list is written [[]]. *)

From S2P Require Import Prelude GoStrings Model.

(** ** Encoding *)

Definition ints (n : Z) : json := JNumber (FormatInt n).
Definition strs (l : list string) : json := JArray (map JString l).
Definition nullable {A} (f : A -> json) (o : option A) : json :=
  match o with Some a => f a | None => JNull end.
Definition omitempty (k v : string) : list (string * json) :=
  if v =s EmptyString then [] else [(k, JString v)].

Definition Platform_json (p : Platform) : json :=
  JObject [("os", JString (OS p)); ("arch", JString (Arch p))].

Definition Subject_json (s : Subject) : json :=
  JObject [("id", JString (Subj_ID s)); ("display_name", JString (DisplayName s));
           ("version", JString (Subj_Version s))].

Definition ArgumentFingerprint_json (f : ArgumentFingerprint) : json :=
  JObject [("position", ints (Position f)); ("sha256", JString (FP_SHA256 f))].

Definition ToolInfo_json (t : ToolInfo) : json :=
  JObject [("name", JString (Tool_Name t)); ("version", JString (Tool_Version t));
           ("commit", JString (Tool_Commit t)); ("toolchain", JString (Toolchain t))].

Definition ProcessIdentity_json (p : ProcessIdentity) : json :=
  JObject [("pid", ints (PID p)); ("created_at_unix_nano", JString (CreatedAtUnixNano p));
           ("boot_id_hash", JString (BootIDHash p))].

Definition ExecutableObservation_json (e : ExecutableObservation) : json :=
  JObject ([("basename", JString (Basename e)); ("path_hash", JString (PathHash e))]
           ++ omitempty "file_id_hash" (FileIDHash e)).

Definition ArtifactObservation_json (a : ArtifactObservation) : json :=
  JObject [("sha256", JString (Obs_SHA256 a)); ("file_count", ints (FileCount a));
           ("byte_count", ints (ByteCount a)); ("duration_ms", ints (DurationMS a))].

Definition Observation_json (o : Observation) : json :=
  JObject [("process", nullable ProcessIdentity_json (Obs_Process o));
           ("executable", nullable ExecutableObservation_json (Obs_Executable o));
           ("artifact", nullable ArtifactObservation_json (Obs_Artifact o));
           ("inaccessible_fields", strs (InaccessibleFields o))].

Definition ExpectationProjection_json (e : ExpectationProjection) : json :=
  JObject [("source_kind", JString (SourceKind e));
           ("source_locator_hash", JString (SourceLocatorHash e));
           ("trust", JString (Proj_Trust e));
           ("expected_version", JString (ExpectedVersion e));
           ("expected_artifact_sha256", JString (ExpectedArtifactSHA256 e))].

Definition HostAttribution_json (h : HostAttribution) : json :=
  JObject ([("host_id", JString (Attr_HostID h))]
           ++ omitempty "binding_id" (Attr_BindingID h)
           ++ [("config_source_hash", JString (Attr_ConfigSourceHash h));
               ("confidence", JString (Attr_Confidence h))]).

Definition EvidenceItem_json (e : EvidenceItem) : json :=
  JObject ([("type", JString (Ev_Type e))] ++ omitempty "digest" (Ev_Digest e)
           ++ [("observed_at", JString (Ev_ObservedAt e))]).

Definition PrivacyProjection_json (p : PrivacyProjection) : json :=
  JObject [("redaction_mode", JString (RedactionMode p)); ("home_redacted", JBool (HomeRedacted p));
           ("omitted_fields", strs (OmittedFields p))].

Definition extensions_json (m : list (string * json)) : list (string * json) :=
  match m with [] => [] | _ => [("extensions", JObject m)] end.

Definition Proof_members (p : Proof) : list (string * json) :=
  [("schema_version", JString (SchemaVersion p))]
  ++ omitempty "proof_id" (ProofID p)
  ++ [("observed_at", JString (ObservedAt p));
      ("tool", ToolInfo_json (Tool p));
      ("platform", Platform_json (Proof_Platform p));
      ("subject", Subject_json (Proof_Subject p));
      ("expectation", nullable ExpectationProjection_json (Proof_Expectation p));
      ("observation", Observation_json (Proof_Observation p));
      ("host_attribution", nullable HostAttribution_json (Proof_HostAttribution p));
      ("verdict", JString (Verdict p));
      ("proof_level", JString (ProofLevel p));
      ("reason_codes", strs (ReasonCodes p));
      ("evidence", JArray (map EvidenceItem_json (Evidence p)));
      ("privacy", PrivacyProjection_json (Proof_Privacy p));
      ("limitations", strs (Limitations p))]
  ++ extensions_json (Proof_Extensions p).
Definition Proof_json (p : Proof) : json := JObject (Proof_members p).

Definition CommandObservation_json (c : CommandObservation) : json :=
  JObject [("executable_basename", JString (ExecutableBasename c));
           ("executable_path_hash", JString (ExecutablePathHash c));
           ("argument_fingerprints",
             JArray (map ArgumentFingerprint_json (Cmd_ArgumentFingerprints c)))].

Definition ReceiptArtifact_json (a : ReceiptArtifact) : json :=
  JObject [("sha256", JString (RA_SHA256 a)); ("file_count", ints (RA_FileCount a));
           ("byte_count", ints (RA_ByteCount a)); ("duration_ms", ints (RA_DurationMS a))].

Definition LaunchReceipt_members (r : LaunchReceipt) : list (string * json) :=
  [("schema_version", JString (R_SchemaVersion r))]
  ++ omitempty "receipt_id" (ReceiptID r)
  ++ [("created_at", JString (R_CreatedAt r));
      ("tool", ToolInfo_json (R_Tool r));
      ("platform", Platform_json (R_Platform r));
      ("subject", nullable Subject_json (R_Subject r));
      ("process", ProcessIdentity_json (R_Process r));
      ("command", CommandObservation_json (R_Command r));
      ("expectation", nullable ExpectationProjection_json (R_Expectation r));
      ("artifact", nullable ReceiptArtifact_json (R_Artifact r));
      ("observation_only", JBool (R_ObservationOnly r));
      ("reason_codes", strs (R_ReasonCodes r));
      ("privacy", PrivacyProjection_json (R_Privacy r))].
Definition LaunchReceipt_json (r : LaunchReceipt) : json := JObject (LaunchReceipt_members r).

Definition LaunchExpectation_json (l : LaunchExpectation) : json :=
  JObject [("kind", JString (Kind l)); ("entrypoint", JString (Entrypoint l));
           ("argument_fingerprints",
             JArray (map ArgumentFingerprint_json (Launch_ArgumentFingerprints l)))].

Definition ArtifactExpectation_json (a : ArtifactExpectation) : json :=
  JObject [("root", JString (Root a)); ("include", strs (Include a)); ("exclude", strs (Exclude a));
           ("sha256", JString (Art_SHA256 a)); ("max_files", ints (MaxFiles a));
           ("max_bytes", ints (MaxBytes a)); ("max_duration_ms", ints (MaxDurationMS a))].

Definition ExpectationPolicy_json (p : ExpectationPolicy) : json :=
  JObject [("allowed_roots", strs (AllowedRoots p)); ("allow_symlinks", JBool (AllowSymlinks p))].

Definition ExpectationSource_json (s : ExpectationSource) : json :=
  JObject [("kind", JString (Source_Kind s)); ("locator_hash", JString (LocatorHash s));
           ("trust", JString (Trust s))].

Definition Expectation_json (e : Expectation) : json :=
  JObject ([("schema_version", JString (Exp_SchemaVersion e));
            ("subject", Subject_json (Exp_Subject e));
            ("launch", LaunchExpectation_json (Launch e));
            ("artifact", ArtifactExpectation_json (Artifact e));
            ("policy", ExpectationPolicy_json (Policy e));
            ("source", ExpectationSource_json (Source e))]
           ++ extensions_json (Exp_Extensions e)).

(** ** Decoding into structs

    A JSON null leaves a field at its zero value; an unknown member is an
    error; the keys are those of the schema, so the case-insensitive match of
    [encoding/json] never applies. *)

Inductive wire_error := WrongField (key : string) | UnknownField (key : string).

Section Fields.
Variable m : list (string * json).

Fixpoint get_in (l : list (string * json)) (k : string) : json :=
  match l with
  | [] => JNull
  | (k', v) :: rest => if k' =s k then v else get_in rest k
  end.
Definition get (k : string) : json := get_in m k.

Definition get_string (k : string) : result wire_error string :=
  match get k with JString s => Ok s | JNull => Ok EmptyString | _ => Err (WrongField k) end.

Definition get_int (k : string) : result wire_error Z :=
  match get k with
  | JNumber t => match ParseInt t with Some n => Ok n | None => Err (WrongField k) end
  | JNull => Ok 0
  | _ => Err (WrongField k)
  end.

Definition get_bool (k : string) : result wire_error bool :=
  match get k with JBool b => Ok b | JNull => Ok false | _ => Err (WrongField k) end.

Definition get_list {A} (f : json -> result wire_error A) (k : string)
  : result wire_error (list A) :=
  match get k with JArray l => mapM_ f l | JNull => Ok [] | _ => Err (WrongField k) end.

Definition get_ptr {A} (f : json -> result wire_error A) (k : string)
  : result wire_error (option A) :=
  match get k with JNull => Ok None | v => let! a := f v in Ok (Some a) end.

Definition get_map (k : string) : result wire_error (list (string * json)) :=
  match get k with JObject o => Ok o | JNull => Ok [] | _ => Err (WrongField k) end.
End Fields.

Definition string_of (v : json) : result wire_error string :=
  match v with JString s => Ok s | JNull => Ok EmptyString | _ => Err (WrongField EmptyString) end.

(** A struct value: only known members, or null for the zero struct. *)
Definition struct_of {A} (known : list string) (f : list (string * json) -> result wire_error A)
  (v : json) : result wire_error A :=
  match v with
  | JObject m =>
      let! _ := eachM (fun kv => guard_ (existsb (String.eqb (fst kv)) known)
                                   (UnknownField (fst kv))) m in
      f m
  | JNull => f []
  | _ => Err (WrongField EmptyString)
  end.

Definition Platform_of : json -> result wire_error Platform :=
  struct_of ["os"; "arch"] (fun m =>
    let! o := get_string m "os" in let! a := get_string m "arch" in
    Ok {| OS := o; Arch := a |}).

Definition Subject_of : json -> result wire_error Subject :=
  struct_of ["id"; "display_name"; "version"] (fun m =>
    let! i := get_string m "id" in let! d := get_string m "display_name" in
    let! v := get_string m "version" in
    Ok {| Subj_ID := i; DisplayName := d; Subj_Version := v |}).

Definition ArgumentFingerprint_of : json -> result wire_error ArgumentFingerprint :=
  struct_of ["position"; "sha256"] (fun m =>
    let! p := get_int m "position" in let! s := get_string m "sha256" in
    Ok {| Position := p; FP_SHA256 := s |}).

Definition ToolInfo_of : json -> result wire_error ToolInfo :=
  struct_of ["name"; "version"; "commit"; "toolchain"] (fun m =>
    let! n := get_string m "name" in let! v := get_string m "version" in
    let! c := get_string m "commit" in let! t := get_string m "toolchain" in
    Ok {| Tool_Name := n; Tool_Version := v; Tool_Commit := c; Toolchain := t |}).

Definition ProcessIdentity_of : json -> result wire_error ProcessIdentity :=
  struct_of ["pid"; "created_at_unix_nano"; "boot_id_hash"] (fun m =>
    let! p := get_int m "pid" in let! c := get_string m "created_at_unix_nano" in
    let! b := get_string m "boot_id_hash" in
    Ok {| PID := p; CreatedAtUnixNano := c; BootIDHash := b |}).

Definition ExecutableObservation_of : json -> result wire_error ExecutableObservation :=
  struct_of ["basename"; "path_hash"; "file_id_hash"] (fun m =>
    let! b := get_string m "basename" in let! p := get_string m "path_hash" in
    let! f := get_string m "file_id_hash" in
    Ok {| Basename := b; PathHash := p; FileIDHash := f |}).

(** The entrypoint identity is not part of the wire form. *)
Definition ArtifactObservation_of : json -> result wire_error ArtifactObservation :=
  struct_of ["sha256"; "file_count"; "byte_count"; "duration_ms"] (fun m =>
    let! s := get_string m "sha256" in let! f := get_int m "file_count" in
    let! b := get_int m "byte_count" in let! d := get_int m "duration_ms" in
    Ok {| Obs_SHA256 := s; FileCount := f; ByteCount := b; DurationMS := d;
          EntrypointFileIdentity := EmptyString |}).

Definition Observation_of : json -> result wire_error Observation :=
  struct_of ["process"; "executable"; "artifact"; "inaccessible_fields"] (fun m =>
    let! p := get_ptr m ProcessIdentity_of "process" in
    let! e := get_ptr m ExecutableObservation_of "executable" in
    let! a := get_ptr m ArtifactObservation_of "artifact" in
    let! i := get_list m string_of "inaccessible_fields" in
    Ok {| Obs_Process := p; Obs_Executable := e; Obs_Artifact := a; InaccessibleFields := i |}).

Definition ExpectationProjection_of : json -> result wire_error ExpectationProjection :=
  struct_of ["source_kind"; "source_locator_hash"; "trust"; "expected_version";
             "expected_artifact_sha256"] (fun m =>
    let! k := get_string m "source_kind" in let! l := get_string m "source_locator_hash" in
    let! t := get_string m "trust" in let! v := get_string m "expected_version" in
    let! a := get_string m "expected_artifact_sha256" in
    Ok {| SourceKind := k; SourceLocatorHash := l; Proj_Trust := t; ExpectedVersion := v;
          ExpectedArtifactSHA256 := a |}).

Definition HostAttribution_of : json -> result wire_error HostAttribution :=
  struct_of ["host_id"; "binding_id"; "config_source_hash"; "confidence"] (fun m =>
    let! h := get_string m "host_id" in let! b := get_string m "binding_id" in
    let! c := get_string m "config_source_hash" in let! f := get_string m "confidence" in
    Ok {| Attr_HostID := h; Attr_BindingID := b; Attr_ConfigSourceHash := c;
          Attr_Confidence := f |}).

Definition EvidenceItem_of : json -> result wire_error EvidenceItem :=
  struct_of ["type"; "digest"; "observed_at"] (fun m =>
    let! t := get_string m "type" in let! d := get_string m "digest" in
    let! o := get_string m "observed_at" in
    Ok {| Ev_Type := t; Ev_Digest := d; Ev_ObservedAt := o |}).

Definition PrivacyProjection_of : json -> result wire_error PrivacyProjection :=
  struct_of ["redaction_mode"; "home_redacted"; "omitted_fields"] (fun m =>
    let! r := get_string m "redaction_mode" in let! h := get_bool m "home_redacted" in
    let! o := get_list m string_of "omitted_fields" in
    Ok {| RedactionMode := r; HomeRedacted := h; OmittedFields := o |}).

Definition proof_fields : list string :=
  ["schema_version"; "proof_id"; "observed_at"; "tool"; "platform"; "subject"; "expectation";
   "observation"; "host_attribution"; "verdict"; "proof_level"; "reason_codes"; "evidence";
   "privacy"; "limitations"; "extensions"].

Definition Proof_of : json -> result wire_error Proof :=
  struct_of proof_fields (fun m =>
    let! sv := get_string m "schema_version" in
    let! id := get_string m "proof_id" in
    let! at_ := get_string m "observed_at" in
    let! tool := ToolInfo_of (get m "tool") in
    let! plat := Platform_of (get m "platform") in
    let! subj := Subject_of (get m "subject") in
    let! exp := get_ptr m ExpectationProjection_of "expectation" in
    let! obs := Observation_of (get m "observation") in
    let! host := get_ptr m HostAttribution_of "host_attribution" in
    let! verdict := get_string m "verdict" in
    let! level := get_string m "proof_level" in
    let! reasons := get_list m string_of "reason_codes" in
    let! evidence := get_list m EvidenceItem_of "evidence" in
    let! priv := PrivacyProjection_of (get m "privacy") in
    let! lims := get_list m string_of "limitations" in
    let! ext := get_map m "extensions" in
    Ok {| SchemaVersion := sv; ProofID := id; ObservedAt := at_; Tool := tool;
          Proof_Platform := plat; Proof_Subject := subj; Proof_Expectation := exp;
          Proof_Observation := obs; Proof_HostAttribution := host; Verdict := verdict;
          ProofLevel := level; ReasonCodes := reasons; Evidence := evidence;
          Proof_Privacy := priv; Limitations := lims; Proof_Extensions := ext |}).

Definition CommandObservation_of : json -> result wire_error CommandObservation :=
  struct_of ["executable_basename"; "executable_path_hash"; "argument_fingerprints"] (fun m =>
    let! b := get_string m "executable_basename" in
    let! p := get_string m "executable_path_hash" in
    let! f := get_list m ArgumentFingerprint_of "argument_fingerprints" in
    Ok {| ExecutableBasename := b; ExecutablePathHash := p; Cmd_ArgumentFingerprints := f |}).

Definition ReceiptArtifact_of : json -> result wire_error ReceiptArtifact :=
  struct_of ["sha256"; "file_count"; "byte_count"; "duration_ms"] (fun m =>
    let! s := get_string m "sha256" in let! f := get_int m "file_count" in
    let! b := get_int m "byte_count" in let! d := get_int m "duration_ms" in
    Ok {| RA_SHA256 := s; RA_FileCount := f; RA_ByteCount := b; RA_DurationMS := d |}).

Definition receipt_fields : list string :=
  ["schema_version"; "receipt_id"; "created_at"; "tool"; "platform"; "subject"; "process";
   "command"; "expectation"; "artifact"; "observation_only"; "reason_codes"; "privacy"].

Definition LaunchReceipt_of : json -> result wire_error LaunchReceipt :=
  struct_of receipt_fields (fun m =>
    let! sv := get_string m "schema_version" in
    let! id := get_string m "receipt_id" in
    let! at_ := get_string m "created_at" in
    let! tool := ToolInfo_of (get m "tool") in
    let! plat := Platform_of (get m "platform") in
    let! subj := get_ptr m Subject_of "subject" in
    let! proc := ProcessIdentity_of (get m "process") in
    let! cmd := CommandObservation_of (get m "command") in
    let! exp := get_ptr m ExpectationProjection_of "expectation" in
    let! art := get_ptr m ReceiptArtifact_of "artifact" in
    let! only := get_bool m "observation_only" in
    let! reasons := get_list m string_of "reason_codes" in
    let! priv := PrivacyProjection_of (get m "privacy") in
    Ok {| R_SchemaVersion := sv; ReceiptID := id; R_CreatedAt := at_; R_Tool := tool;
          R_Platform := plat; R_Subject := subj; R_Process := proc; R_Command := cmd;
          R_Expectation := exp; R_Artifact := art; R_ObservationOnly := only;
          R_ReasonCodes := reasons; R_Privacy := priv |}).

Definition LaunchExpectation_of : json -> result wire_error LaunchExpectation :=
  struct_of ["kind"; "entrypoint"; "argument_fingerprints"] (fun m =>
    let! k := get_string m "kind" in let! e := get_string m "entrypoint" in
    let! f := get_list m ArgumentFingerprint_of "argument_fingerprints" in
    Ok {| Kind := k; Entrypoint := e; Launch_ArgumentFingerprints := f |}).

Definition ArtifactExpectation_of : json -> result wire_error ArtifactExpectation :=
  struct_of ["root"; "include"; "exclude"; "sha256"; "max_files"; "max_bytes"; "max_duration_ms"]
   (fun m =>
    let! r := get_string m "root" in
    let! i := get_list m string_of "include" in let! e := get_list m string_of "exclude" in
    let! s := get_string m "sha256" in let! f := get_int m "max_files" in
    let! b := get_int m "max_bytes" in let! d := get_int m "max_duration_ms" in
    Ok {| Root := r; Include := i; Exclude := e; Art_SHA256 := s; MaxFiles := f; MaxBytes := b;
          MaxDurationMS := d |}).

Definition ExpectationPolicy_of : json -> result wire_error ExpectationPolicy :=
  struct_of ["allowed_roots"; "allow_symlinks"] (fun m =>
    let! r := get_list m string_of "allowed_roots" in let! s := get_bool m "allow_symlinks" in
    Ok {| AllowedRoots := r; AllowSymlinks := s |}).

Definition ExpectationSource_of : json -> result wire_error ExpectationSource :=
  struct_of ["kind"; "locator_hash"; "trust"] (fun m =>
    let! k := get_string m "kind" in let! l := get_string m "locator_hash" in
    let! t := get_string m "trust" in
    Ok {| Source_Kind := k; LocatorHash := l; Trust := t |}).

Definition Expectation_of : json -> result wire_error Expectation :=
  struct_of ["schema_version"; "subject"; "launch"; "artifact"; "policy"; "source"; "extensions"]
   (fun m =>
    let! sv := get_string m "schema_version" in
    let! s := Subject_of (get m "subject") in
    let! l := LaunchExpectation_of (get m "launch") in
    let! a := ArtifactExpectation_of (get m "artifact") in
    let! p := ExpectationPolicy_of (get m "policy") in
    let! o := ExpectationSource_of (get m "source") in
    let! x := get_map m "extensions" in
    Ok {| Exp_SchemaVersion := sv; Exp_Subject := s; Launch := l; Artifact := a; Policy := p;
          Source := o; Exp_Extensions := x |}).

(** ** Round trips *)

Definition in_int64 (z : Z) : Prop := int64_min <= z <= int64_max.

Lemma ParseInt_ints n : in_int64 n -> ParseInt (FormatInt n) = Some n.
Proof. apply ParseInt_FormatInt. Qed.

Lemma mapM_round {A} (f : A -> json) (g : json -> result wire_error A) l :
  Forall (fun x => g (f x) = Ok x) l -> mapM_ g (map f l) = Ok l.
Proof. induction 1 as [|x l Hx Hl IH]; simpl; [done|]. by rewrite Hx, IH. Qed.

Lemma mapM_strs l : mapM_ string_of (map JString l) = Ok l.
Proof. apply mapM_round. by apply Forall_true. Qed.

(** Evaluate a struct decoder on the members its encoder wrote. *)
Ltac wire :=
  repeat match goal with
  | |- context [omitempty _ ?v] =>
      unfold omitempty; destruct (String.eqb_spec v EmptyString) as [->|]
  end;
  cbn -[ParseInt FormatInt mapM_];
  repeat match goal with
  | H : in_int64 ?n |- context [ParseInt (FormatInt ?n)] =>
      rewrite (ParseInt_ints n H); cbn -[ParseInt FormatInt mapM_]
  | |- context [mapM_ string_of (map JString ?l)] =>
      rewrite (mapM_strs l); cbn -[ParseInt FormatInt mapM_]
  end.

Lemma Platform_round p : Platform_of (Platform_json p) = Ok p.
Proof. destruct p. by wire. Qed.
Lemma Subject_round s : Subject_of (Subject_json s) = Ok s.
Proof. destruct s. by wire. Qed.
Lemma ToolInfo_round t : ToolInfo_of (ToolInfo_json t) = Ok t.
Proof. destruct t. by wire. Qed.
Lemma ArgumentFingerprint_round f :
  in_int64 (Position f) -> ArgumentFingerprint_of (ArgumentFingerprint_json f) = Ok f.
Proof. destruct f. simpl. intros. by wire. Qed.
Lemma ProcessIdentity_round p :
  in_int64 (PID p) -> ProcessIdentity_of (ProcessIdentity_json p) = Ok p.
Proof. destruct p. simpl. intros. by wire. Qed.
Lemma ExecutableObservation_round e :
  ExecutableObservation_of (ExecutableObservation_json e) = Ok e.
Proof. destruct e. unfold ExecutableObservation_json. simpl. by wire. Qed.
Lemma ExpectationProjection_round e :
  ExpectationProjection_of (ExpectationProjection_json e) = Ok e.
Proof. destruct e. by wire. Qed.
Lemma HostAttribution_round h : HostAttribution_of (HostAttribution_json h) = Ok h.
Proof. destruct h. unfold HostAttribution_json. simpl. by wire. Qed.
Lemma EvidenceItem_round e : EvidenceItem_of (EvidenceItem_json e) = Ok e.
Proof. destruct e. unfold EvidenceItem_json. simpl. by wire. Qed.
Lemma PrivacyProjection_round p : PrivacyProjection_of (PrivacyProjection_json p) = Ok p.
Proof. destruct p. by wire. Qed.

(** The wire form of an artifact observation has no entrypoint identity. *)
Definition drop_identity (a : ArtifactObservation) : ArtifactObservation :=
  {| Obs_SHA256 := Obs_SHA256 a; FileCount := FileCount a; ByteCount := ByteCount a;
     DurationMS := DurationMS a; EntrypointFileIdentity := EmptyString |}.

Definition artifact_ints (a : ArtifactObservation) : Prop :=
  in_int64 (FileCount a) /\ in_int64 (ByteCount a) /\ in_int64 (DurationMS a).

Lemma ArtifactObservation_round a :
  artifact_ints a -> ArtifactObservation_of (ArtifactObservation_json a) = Ok (drop_identity a).
Proof. destruct a. unfold artifact_ints. simpl. intros (?&?&?). by wire. Qed.

Lemma get_ptr_round {A B} (f : A -> json) (g : json -> result wire_error B) (h : A -> B) o m k :
  (forall a, o = Some a -> g (f a) = Ok (h a) /\ f a <> JNull) ->
  get m k = nullable f o -> get_ptr m g k = Ok (option_map h o).
Proof.
  unfold get_ptr. intros Ho ->. destruct o as [a|]; [|done]. simpl.
  destruct (Ho a eq_refl) as [Hg Hn]. destruct (f a); try done; by rewrite Hg.
Qed.

Definition observation_ints (o : Observation) : Prop :=
  (forall p, Obs_Process o = Some p -> in_int64 (PID p)) /\
  (forall a, Obs_Artifact o = Some a -> artifact_ints a).

Definition strip_observation (o : Observation) : Observation :=
  {| Obs_Process := Obs_Process o; Obs_Executable := Obs_Executable o;
     Obs_Artifact := option_map drop_identity (Obs_Artifact o);
     InaccessibleFields := InaccessibleFields o |}.

Lemma option_map_id {A} (o : option A) : option_map (fun x => x) o = o.
Proof. by destruct o. Qed.

Lemma Observation_round o :
  observation_ints o -> Observation_of (Observation_json o) = Ok (strip_observation o).
Proof.
  intros [Hp Ha]. destruct o as [p e a i]. simpl in *.
  unfold Observation_json, Observation_of, struct_of. cbn [eachM foldM].
  cbn -[get_ptr get_list ProcessIdentity_of ExecutableObservation_of ArtifactObservation_of
        nullable strip_observation].
  rewrite (get_ptr_round ProcessIdentity_json ProcessIdentity_of (fun x => x) p), option_map_id;
    [|intros x ->; by rewrite ProcessIdentity_round by auto|done].
  rewrite (get_ptr_round ExecutableObservation_json ExecutableObservation_of (fun x => x) e), option_map_id;
    [|intros x ->; by rewrite ExecutableObservation_round|done].
  rewrite (get_ptr_round ArtifactObservation_json ArtifactObservation_of drop_identity a);
    [|intros x ->; by rewrite ArtifactObservation_round by auto|done].
  cbn -[mapM_]. by rewrite mapM_strs.
Qed.

Definition strip_proof (p : Proof) : Proof :=
  {| SchemaVersion := SchemaVersion p; ProofID := ProofID p; ObservedAt := ObservedAt p;
     Tool := Tool p; Proof_Platform := Proof_Platform p; Proof_Subject := Proof_Subject p;
     Proof_Expectation := Proof_Expectation p;
     Proof_Observation := strip_observation (Proof_Observation p);
     Proof_HostAttribution := Proof_HostAttribution p; Verdict := Verdict p;
     ProofLevel := ProofLevel p; ReasonCodes := ReasonCodes p; Evidence := Evidence p;
     Proof_Privacy := Proof_Privacy p; Limitations := Limitations p;
     Proof_Extensions := Proof_Extensions p |}.

Lemma strip_Proof_json p : Proof_json (strip_proof p) = Proof_json p.
Proof.
  destruct p as [???????[? ? [a|] ?]????????]; [|done].
  by destruct a.
Qed.

Lemma get_list_round {A} (f : A -> json) (g : json -> result wire_error A) l m k :
  Forall (fun x => g (f x) = Ok x) l -> get m k = JArray (map f l) -> get_list m g k = Ok l.
Proof. intros Hl Hg. unfold get_list. by rewrite Hg, mapM_round. Qed.

Lemma get_strs l m k : get m k = strs l -> get_list m string_of k = Ok l.
Proof. intros H. apply (get_list_round JString); [by apply Forall_true|done]. Qed.

Lemma get_ptr_same {A} (f : A -> json) (g : json -> result wire_error A) o m k :
  (forall a, o = Some a -> g (f a) = Ok a /\ f a <> JNull) ->
  get m k = nullable f o -> get_ptr m g k = Ok o.
Proof. intros H Hk. by rewrite (get_ptr_round f g (fun x => x) o), option_map_id. Qed.

(** Rewrite the next field of a struct decoder whose members are known. *)
Ltac field_as t := first [rewrite t | erewrite t]; cbn [rbind].

Lemma Proof_round p :
  observation_ints (Proof_Observation p) -> Proof_of (Proof_json p) = Ok (strip_proof p).
Proof.
  intros Ho. destruct p as [sv id at_ tool plat subj exp obs host ver lev rs ev pr lims ext].
  simpl in Ho. unfold Proof_json, Proof_of, struct_of, Proof_members.
  cbn [SchemaVersion ProofID ObservedAt Tool Proof_Platform Proof_Subject Proof_Expectation
       Proof_Observation Proof_HostAttribution Verdict ProofLevel ReasonCodes Evidence
       Proof_Privacy Limitations Proof_Extensions].
  match goal with |- context [eachM ?f ?m] =>
    assert (Hk : eachM f m = Ok tt) by (unfold omitempty, extensions_json;
      destruct (id =s EmptyString), ext; reflexivity);
    rewrite Hk; clear Hk; cbn [rbind]; set (ms := m)
  end.
  assert (Hid : get_string ms "proof_id" = Ok id) by
    (subst ms; unfold omitempty, extensions_json;
     destruct (String.eqb_spec id EmptyString) as [->|], ext; reflexivity).
  assert (Hext : get_map ms "extensions" = Ok ext) by
    (subst ms; unfold omitempty, extensions_json; destruct (id =s EmptyString), ext; reflexivity).
  assert (Hget : forall k v, In (k, v) [
      ("schema_version", JString sv); ("observed_at", JString at_); ("tool", ToolInfo_json tool);
      ("platform", Platform_json plat); ("subject", Subject_json subj);
      ("expectation", nullable ExpectationProjection_json exp);
      ("observation", Observation_json obs);
      ("host_attribution", nullable HostAttribution_json host);
      ("verdict", JString ver); ("proof_level", JString lev); ("reason_codes", strs rs);
      ("evidence", JArray (map EvidenceItem_json ev)); ("privacy", PrivacyProjection_json pr);
      ("limitations", strs lims)] -> get ms k = v).
  { intros k v Hin. subst ms. unfold omitempty.
    repeat (destruct Hin as [[= <- <-]|Hin]; [destruct (id =s EmptyString); reflexivity|]).
    destruct Hin. }
  clearbody ms.
  assert (Hs : forall k s, get ms k = JString s -> get_string ms k = Ok s)
    by (intros k s H; unfold get_string; by rewrite H).
  rewrite (Hs "schema_version" sv), Hid, (Hs "observed_at" at_) by (apply Hget; simpl; tauto).
  cbn [rbind].
  rewrite (Hget "tool" (ToolInfo_json tool)), ToolInfo_round by (simpl; tauto). cbn [rbind].
  rewrite (Hget "platform" (Platform_json plat)), Platform_round by (simpl; tauto). cbn [rbind].
  rewrite (Hget "subject" (Subject_json subj)), Subject_round by (simpl; tauto). cbn [rbind].
  rewrite (get_ptr_same ExpectationProjection_json ExpectationProjection_of exp);
    [|intros x ->; by rewrite ExpectationProjection_round|apply Hget; simpl; tauto]. cbn [rbind].
  rewrite (Hget "observation" (Observation_json obs)), Observation_round by (done || simpl; tauto).
  cbn [rbind].
  rewrite (get_ptr_same HostAttribution_json HostAttribution_of host);
    [|intros x ->; by rewrite HostAttribution_round|apply Hget; simpl; tauto]. cbn [rbind].
  rewrite (Hs "verdict" ver), (Hs "proof_level" lev) by (apply Hget; simpl; tauto). cbn [rbind].
  rewrite (get_strs rs) by (apply Hget; simpl; tauto). cbn [rbind].
  rewrite (get_list_round EvidenceItem_json EvidenceItem_of ev);
    [|apply Forall_true; apply EvidenceItem_round|apply Hget; simpl; tauto]. cbn [rbind].
  rewrite (Hget "privacy" (PrivacyProjection_json pr)), PrivacyProjection_round by (simpl; tauto).
  cbn [rbind]. rewrite (get_strs lims) by (apply Hget; simpl; tauto). cbn [rbind].
  by rewrite Hext.
Qed.

(** ** The text [json.Marshal] writes

    Compact, members in order, [<], [>], [&], U+2028 and U+2029 escaped,
    invalid bytes as U+FFFD. *)

Definition low_hex (z : Z) : ascii := byte_of (if z <? 10 then 48 + z else 87 + z).
Definition bs : string := byte_string 92.

Definition marshal_rune (p : Z * nat) : string :=
  let r := fst p in
  if invalid_rune p then bs +:+ "ufffd"
  else if (r =? 34) || (r =? 92) then bs +:+ EncodeRune r
  else if r =? 8 then bs +:+ "b"
  else if r =? 12 then bs +:+ "f"
  else if r =? 10 then bs +:+ "n"
  else if r =? 13 then bs +:+ "r"
  else if r =? 9 then bs +:+ "t"
  else if (r <? 32) || (r =? 60) || (r =? 62) || (r =? 38)
  then bs +:+ "u00" +:+ String (low_hex (r / 16)) (String (low_hex (r mod 16)) EmptyString)
  else if r =? 8232 then bs +:+ "u2028"
  else if r =? 8233 then bs +:+ "u2029"
  else EncodeRune r.

Definition marshal_string (s : string) : string :=
  byte_string 34 +:+ concat_str (map marshal_rune (decode_runes s)) +:+ byte_string 34.

Fixpoint json_text (v : json) : string :=
  match v with
  | JNull => "null"
  | JBool b => if b then "true" else "false"
  | JNumber t => t
  | JString s => marshal_string s
  | JArray l => "[" +:+ Join (map json_text l) "," +:+ "]"
  | JObject m =>
      "{" +:+ Join (map (fun kv => marshal_string (fst kv) +:+ ":" +:+ json_text (snd kv)) m) ","
      +:+ "}"
  end.
