(* ===== verification/Expectation.v ===== *)
(** * Expectations ([internal/expectation])

    Loading and resolving the manifest that says what should be running:
    [match.go] (the include/exclude patterns) and [load.go] (resolution of the
    declared roots, containment of the artifact root and of the entrypoint). *)

From S2P Require Import Prelude GoStrings GoPath Model GoJson Contract Wire Canonical.

(** ** Patterns ([match.go]) *)

Definition bad_segment (segment : string) : bool :=
  (segment =s EmptyString) || (segment =s ".") || (segment =s "..").

(** [validateRelativeSlashPath(value) == nil]. *)
Definition validateRelativeSlashPath (value : string) : bool :=
  if (value =s EmptyString) || HasPrefix value "/" || Contains value (byte_string 92) then false
  else forallb (fun segment => negb (bad_segment segment)) (Split value slash).

(** [validatePattern(pattern) == nil]. *)
Definition validatePattern (pattern : string) : bool :=
  validateRelativeSlashPath pattern
  && forallb (fun segment => (segment =s "**") || is_ok (Match segment "probe"))
       (Split pattern slash).

Fixpoint matchSegments (pattern candidate : list string) : bool :=
  match pattern with
  | [] => match candidate with [] => true | _ => false end
  | p :: pattern' =>
      if p =s "**" then
        (fix skip (candidate : list string) : bool :=
           if matchSegments pattern' candidate then true
           else match candidate with
                | [] => false
                | _ :: candidate' => skip candidate'
                end) candidate
      else
        match candidate with
        | [] => false
        | c :: candidate' =>
            match Match p c with
            | Ok matched => matched && matchSegments pattern' candidate'
            | Err _ => false
            end
        end
  end.

Definition matchPattern (pattern candidate : string) : bool :=
  if negb (validatePattern pattern) || negb (validateRelativeSlashPath candidate) then false
  else matchSegments (Split pattern slash) (Split candidate slash).

(** ** Resolution ([load.go]) *)

Definition maxExpectationBytes : Z := 1048576.

Record Resolved := {
  Res_Value : Expectation;
  ManifestPath : string;
  ArtifactRoot : string;
  Res_AllowedRoots : list string
}.

(** [Resolved.Includes]. *)
Definition Includes (resolved : Resolved) (relativeSlashPath : string) : bool :=
  if negb (validateRelativeSlashPath relativeSlashPath) then false
  else
    let artifact := Artifact (Res_Value resolved) in
    if negb (existsb (fun p => matchPattern p relativeSlashPath) (Include artifact)) then false
    else negb (existsb (fun p => matchPattern p relativeSlashPath) (Exclude artifact)).

Inductive load_error :=
| PathUnresolved (path : string)
| ReadFailed
| TooLarge
| ContractFailed (e : validate_error)
| StructDecodeFailed (e : wire_error)
| DuplicatePosition (p : Z)
| InvalidEntrypoint
| InvalidPattern (pattern : string)
| InlineRelativeRoot
| InlineRelativeAllowedRoot
| RootTraversesSymlink
| RootOutsideAllowed
| EntrypointEscapes.

(** The operating system, as the program sees it through [os] and
    [path/filepath]. *)
Record PathOS := {
  EvalSymlinks : string -> option string;
  UserHomeDir : option string;
  WorkingDir : string;
  ReadFile : string -> option string
}.

Section Load.
Variable schema_ok : string -> json -> bool.
Variable os : PathOS.

Definition require_path {A} (path : string) (o : option A) : result load_error A :=
  match o with Some a => Ok a | None => Err (PathUnresolved path) end.

Definition pathWithin (root target : string) : bool :=
  match Rel (Clean root) (Clean target) with
  | None => false
  | Some relative =>
      if IsAbs relative then false
      else negb (relative =s "..") && negb (HasPrefix relative (".." +:+ sep))
  end.

Definition home_declared (declared : string) : bool :=
  (declared =s "$HOME") || HasPrefix declared "$HOME/"
  || (declared =s "%USERPROFILE%") || HasPrefix declared "%USERPROFILE%/".

Definition declaredAbsolute (value : string) : bool := IsAbs value || home_declared value.

Definition expandDeclaredPath (base declared : string) : result load_error string :=
  let! declared :=
    if home_declared declared then
      let! home := require_path declared (UserHomeDir os) in
      match IndexByte declared "/" with
      | Some separator => Ok (JoinPath [home; FromSlash (sdrop (S separator) declared)])
      | None => Ok home
      end
    else Ok declared in
  let declared :=
    if negb (IsAbs declared) then JoinPath [base; FromSlash declared] else declared in
  Ok (Abs (WorkingDir os) (Clean declared)).

Definition resolveExistingPath (base declared : string) : result load_error string :=
  let! resolved := expandDeclaredPath base declared in
  require_path resolved (EvalSymlinks os resolved).

Definition check_position (positions : list Z) (fingerprint : ArgumentFingerprint)
  : result load_error (list Z) :=
  let p := Position fingerprint in
  if existsb (Z.eqb p) positions then Err (DuplicatePosition p) else Ok (p :: positions).

Definition validateSemantics (value : Expectation) : result load_error unit :=
  let! _ := foldM check_position (Launch_ArgumentFingerprints (Launch value)) [] in
  check! validateRelativeSlashPath (Entrypoint (Launch value)) else InvalidEntrypoint in
  eachM (fun pattern => guard_ (validatePattern pattern) (InvalidPattern pattern))
    (Include (Artifact value) ++ Exclude (Artifact value)).

Definition resolve (value : Expectation) (base manifestPath : string)
  : result load_error Resolved :=
  let! allowedRoots := mapM_ (resolveExistingPath base) (AllowedRoots (Policy value)) in
  let! declaredRoot := expandDeclaredPath base (Root (Artifact value)) in
  let! artifactRoot := require_path declaredRoot (EvalSymlinks os declaredRoot) in
  check! AllowSymlinks (Policy value) || (Clean declaredRoot =s artifactRoot)
    else RootTraversesSymlink in
  check! existsb (fun allowedRoot => pathWithin allowedRoot artifactRoot) allowedRoots
    else RootOutsideAllowed in
  let entrypoint := JoinPath [artifactRoot; FromSlash (Entrypoint (Launch value))] in
  check! pathWithin artifactRoot entrypoint else EntrypointEscapes in
  Ok {| Res_Value := value; ManifestPath := manifestPath; ArtifactRoot := artifactRoot;
        Res_AllowedRoots := allowedRoots |}.

Definition readBounded (path : string) : result load_error string :=
  match ReadFile os path with
  | None => Err ReadFailed
  | Some contents =>
      (* [io.LimitReader] stops one byte past the limit *)
      let contents := stake (Z.to_nat (maxExpectationBytes + 1)) contents in
      if maxExpectationBytes <? slen contents then Err TooLarge else Ok contents
  end.

Definition Load (inputPath : string) : result load_error Resolved :=
  let manifestPath := Abs (WorkingDir os) inputPath in
  let! manifestPath := require_path manifestPath (EvalSymlinks os manifestPath) in
  let! document := readBounded manifestPath in
  let! _ := map_err ContractFailed (ValidateExpectation schema_ok document) in
  let! tree := map_err (fun e => ContractFailed (DecodeFailed e)) (decodeOne document) in
  let! value := map_err StructDecodeFailed (Expectation_of tree) in
  let! _ := validateSemantics value in
  resolve value (Dir manifestPath) manifestPath.

Definition ResolveInline (value : Expectation) : result load_error Resolved :=
  let! _ := map_err ContractFailed
    (ValidateExpectation_tree schema_ok (normalize (Expectation_json value))) in
  let! _ := validateSemantics value in
  check! declaredAbsolute (Root (Artifact value)) else InlineRelativeRoot in
  check! forallb declaredAbsolute (AllowedRoots (Policy value)) else InlineRelativeAllowedRoot in
  resolve value EmptyString EmptyString.
End Load.

(** ** Patterns against their meaning *)

(** The reference reading of a pattern: [**] stands for any number of path
    segments, any other segment for one segment that [path.Match] accepts. *)
Inductive glob : list string -> list string -> Prop :=
| glob_nil : glob [] []
| glob_stars_none ps cs : glob ps cs -> glob ("**" :: ps) cs
| glob_stars_more ps c cs : glob ("**" :: ps) cs -> glob ("**" :: ps) (c :: cs)
| glob_segment p ps c cs :
    p <> "**" -> Match p c = Ok true -> glob ps cs -> glob (p :: ps) (c :: cs).

Lemma matchSegments_stars ps cs :
  matchSegments ("**" :: ps) cs =
    matchSegments ps cs || match cs with [] => false | _ :: cs' => matchSegments ("**" :: ps) cs' end.
Proof. destruct cs; simpl; by destruct (matchSegments ps _). Qed.

Lemma matchSegments_glob ps cs : matchSegments ps cs = true <-> glob ps cs.
Proof.
  split.
  - revert cs. induction ps as [|p ps IH]; intros cs.
    + destruct cs; [constructor|done].
    + destruct (String.eqb_spec p "**") as [->|Hp].
      * induction cs as [|c cs IHc]; rewrite matchSegments_stars; intros [H|H]%orb_true_iff;
          [by apply glob_stars_none, IH|done|by apply glob_stars_none, IH|].
        by apply glob_stars_more, IHc.
      * simpl. apply String.eqb_neq in Hp as He. rewrite He.
        destruct cs as [|c cs]; [done|]. destruct (Match p c) as [[]|] eqn:E; [|done|done].
        simpl. intros H%IH. by constructor.
  - induction 1 as [|ps cs _ IH|ps c cs _ IH|p ps c cs Hp Hm _ IH].
    + done.
    + by rewrite matchSegments_stars, IH.
    + by rewrite matchSegments_stars, IH, orb_true_r.
    + apply String.eqb_neq in Hp. simpl. by rewrite Hp, Hm.
Qed.

(** C21: the pattern matcher decides the declarative reading of the patterns:
    a well-formed candidate path matches a well-formed pattern exactly when
    its segments are in the [glob] relation. *)
Theorem matchPattern_glob pattern candidate :
  matchPattern pattern candidate = true <->
  validatePattern pattern = true /\ validateRelativeSlashPath candidate = true
  /\ glob (Split pattern slash) (Split candidate slash).
Proof.
  unfold matchPattern. rewrite <- matchSegments_glob.
  destruct (validatePattern pattern), (validateRelativeSlashPath candidate); simpl;
    intuition congruence.
Qed.

(** ** Containment *)

Lemma pathWithin_prefix root target :
  IsAbs root = true -> IsAbs target = true ->
  pathWithin root target = true <-> abs_comps root `prefix_of` abs_comps target.
Proof.
  intros Hr Ht. rewrite <- (abs_comps_Clean root), <- (abs_comps_Clean target) by done.
  rewrite <- Rel_inside by by apply IsAbs_Clean.
  unfold pathWithin, stays_inside. destruct (Rel _ _) as [r|]; [|done].
  destruct (IsAbs r); simpl; [done|]. by rewrite andb_true_iff.
Qed.

Lemma bad_segment_normal s :
  bad_segment s = false -> has_byte s slash = false -> normal_comp s.
Proof.
  unfold bad_segment. intros [[H1 H2]%orb_false_iff H3]%orb_false_iff Hs. to_prop.
  by repeat split.
Qed.

Lemma relative_normal p :
  validateRelativeSlashPath p = true -> Forall normal_comp (Split p slash).
Proof.
  unfold validateRelativeSlashPath. destruct (_ || _); [done|]. rewrite forallb_Forall.
  intros Hb. pose proof (Split_no_sep p slash) as Hs. rewrite Forall_forall in *.
  intros s Hin. apply bad_segment_normal; [|by apply Hs]. apply negb_true_iff. by apply Hb.
Qed.

(** What the operating system promises ([filepath.EvalSymlinks] cleans its
    result and maps an absolute path to an absolute one; [os.Getwd] is
    absolute). *)
Class PathLaws (os : PathOS) : Prop := {
  EvalSymlinks_abs p q : IsAbs p = true -> EvalSymlinks os p = Some q -> IsAbs q = true;
  EvalSymlinks_clean p q : EvalSymlinks os p = Some q -> Clean q = q;
  WorkingDir_abs : IsAbs (WorkingDir os) = true
}.

Lemma require_path_ok {A} path (o : option A) a : require_path path o = Ok a <-> o = Some a.
Proof. destruct o; simpl; split; congruence. Qed.

Section Contained.
Context (os : PathOS) `{!PathLaws os}.

Lemma expandDeclaredPath_abs base declared p :
  expandDeclaredPath os base declared = Ok p -> IsAbs p = true.
Proof.
  unfold expandDeclaredPath. intros H. apply rbind_ok in H as (d & _ & [= <-]).
  apply IsAbs_Abs, WorkingDir_abs.
Qed.

Lemma expandDeclaredPath_clean base declared p :
  expandDeclaredPath os base declared = Ok p -> Clean p = p.
Proof.
  unfold expandDeclaredPath. intros H. apply rbind_ok in H as (d & _ & [= <-]).
  apply Clean_Abs, WorkingDir_abs.
Qed.

Lemma resolveExistingPath_abs base declared p :
  resolveExistingPath os base declared = Ok p -> IsAbs p = true.
Proof.
  unfold resolveExistingPath. intros (q & Hq%expandDeclaredPath_abs & Hp)%rbind_ok.
  apply require_path_ok in Hp. by apply EvalSymlinks_abs in Hp.
Qed.

(** The facts a resolved expectation carries. *)
Definition contained (r : Resolved) : Prop :=
  IsAbs (ArtifactRoot r) = true /\
  Forall (fun root => IsAbs root = true) (Res_AllowedRoots r) /\
  Exists (fun root => abs_comps root `prefix_of` abs_comps (ArtifactRoot r)) (Res_AllowedRoots r) /\
  abs_comps (ArtifactRoot r) `prefix_of`
    abs_comps (JoinPath [ArtifactRoot r; Entrypoint (Launch (Res_Value r))]).

Lemma resolve_contained_lemma value base mp r :
  resolve os value base mp = Ok r ->
  Res_Value r = value /\ contained r /\
  (AllowSymlinks (Policy value) = false ->
   exists declared, expandDeclaredPath os base (Root (Artifact value)) = Ok declared
                    /\ ArtifactRoot r = Clean declared
                    /\ EvalSymlinks os declared = Some (Clean declared)).
Proof.
  unfold resolve. intros H. inv_ok. subst r. simpl.
  rename x into roots, x0 into declared, x1 into root.
  apply require_path_ok in Hx1. to_prop.
  pose proof (expandDeclaredPath_abs _ _ _ Hx0) as Habs.
  pose proof (EvalSymlinks_abs _ _ Habs Hx1) as Hroot.
  assert (Hroots : Forall (fun root => IsAbs root = true) roots).
  { apply mapM_ok_Forall2 in Hx. eapply Forall2_Forall_r; [exact Hx|].
    apply Forall_true. intros y x. apply resolveExistingPath_abs. }
  split; [done|]. split.
  - unfold contained. simpl. split; [done|]. split; [done|]. split.
    + apply existsb_elem_of in Hx3 as (a & Ha & Hw). apply Exists_exists. exists a. split; [done|].
      rewrite Forall_forall in Hroots. apply pathWithin_prefix; auto.
    + apply pathWithin_prefix; [done|by apply IsAbs_JoinPath|done].
  - intros Hsym. rewrite Hsym in Hx2. simpl in Hx2. to_prop. subst root.
    exists declared. done.
Qed.
End Contained.

Section LoadFacts.
Context (schema_ok : string -> json -> bool) (os : PathOS) `{!PathLaws os}.

Lemma check_position_inv ps f ps' :
  NoDup ps -> check_position ps f = Ok ps' -> NoDup ps' /\ ps' = Position f :: ps.
Proof.
  unfold check_position. intros Hn. destruct (existsb _ ps) eqn:E; [done|]. intros [= <-].
  split; [|done]. constructor; [|done]. intros Hin.
  apply existsb_false in E. rewrite Forall_forall in E.
  specialize (E _ Hin). by rewrite Z.eqb_refl in E.
Qed.

Lemma check_positions l ps :
  NoDup ps -> is_ok (foldM check_position l ps) = true <->
              NoDup (map Position l ++ ps).
Proof.
  revert ps. induction l as [|f l IH]; simpl; intros ps Hn; [done|].
  destruct (check_position ps f) as [ps'|e] eqn:E; simpl.
  - apply check_position_inv in E as [Hn' ->]; [|done]. rewrite IH by done.
    by rewrite <- Permutation_middle.
  - split; [done|]. intros H. exfalso. unfold check_position in E.
    destruct (existsb _ ps) eqn:Ex; [|done].
    apply existsb_elem_of in Ex as (p & Hp & Heq%Z.eqb_eq). subst p.
    apply NoDup_cons in H as [H _]. apply H, elem_of_app. by right.
Qed.

Lemma resolve_value value base mp r : resolve os value base mp = Ok r -> Res_Value r = value.
Proof. unfold resolve. intros H. inv_ok. by subst r. Qed.

Lemma validateSemantics_entry value u :
  validateSemantics value = Ok u -> validateRelativeSlashPath (Entrypoint (Launch value)) = true.
Proof. unfold validateSemantics. intros H. by inv_ok. Qed.
End LoadFacts.

(** The semantic validation of a manifest accepts exactly those whose
    argument positions are pairwise different, whose entrypoint is a clean
    relative slash path and whose patterns are all well formed. *)
Theorem validateSemantics_spec value :
  validateSemantics value = Ok tt <->
  NoDup (map Position (Launch_ArgumentFingerprints (Launch value)))
  /\ validateRelativeSlashPath (Entrypoint (Launch value)) = true
  /\ Forall (fun p => validatePattern p = true) (Include (Artifact value) ++ Exclude (Artifact value)).
Proof.
  pose proof (check_positions (Launch_ArgumentFingerprints (Launch value)) [] ltac:(constructor)) as Hp.
  rewrite app_nil_r in Hp. rewrite <- Hp. unfold validateSemantics.
  rewrite rbind_ok. setoid_rewrite rbind_ok. setoid_rewrite guard_ok. rewrite is_ok_true.
  setoid_rewrite eachM_ok. setoid_rewrite guard_ok. split.
  - intros (ps & Hps & [] & He & Hf). eauto.
  - intros ([ps Hps] & He & Hf). exists ps. split; [done|]. by exists tt.
Qed.

(** C20: a manifest the loader accepts is contained: every path is absolute,
    the artifact root lies component by component under one of the allowed
    roots, the entrypoint lies under the artifact root with exactly its
    declared segments below it, and unless the policy allows symbolic links
    the root is its own symbolic-link resolution. *)
Theorem Load_contained schema_ok os `{!PathLaws os} inputPath r :
  Load schema_ok os inputPath = Ok r ->
  contained r
  /\ abs_comps (JoinPath [ArtifactRoot r; Entrypoint (Launch (Res_Value r))])
     = abs_comps (ArtifactRoot r) ++ Split (Entrypoint (Launch (Res_Value r))) slash
  /\ (AllowSymlinks (Policy (Res_Value r)) = false ->
      EvalSymlinks os (ArtifactRoot r) = Some (ArtifactRoot r)).
Proof.
  unfold Load. intros H. inv_ok.
  destruct (resolve_contained_lemma os _ _ _ _ H) as (Hv & Hc & Hs).
  split; [done|]. split.
  - apply JoinPath_normal; [apply Hc|]. apply relative_normal. rewrite Hv.
    by eapply validateSemantics_entry.
  - rewrite Hv. intros Hp. destruct (Hs Hp) as (d & Hd & -> & He).
    by rewrite (expandDeclaredPath_clean os _ _ _ Hd) in *.
Qed.

(** An expectation sent inline by a protocol client is contained in the
    same way, and no relative root is ever resolved against a working
    directory: every declared root is absolute or home-relative. *)
Theorem ResolveInline_contained schema_ok os `{!PathLaws os} value r :
  ResolveInline schema_ok os value = Ok r ->
  contained r /\ Res_Value r = value /\
  declaredAbsolute (Root (Artifact value)) = true /\
  Forall (fun root => declaredAbsolute root = true) (AllowedRoots (Policy value)).
Proof.
  unfold ResolveInline. intros H. inv_ok.
  destruct (resolve_contained_lemma os _ _ _ _ H) as (Hv & Hc & _).
  split; [done|]. split; [done|]. split; [done|]. by apply forallb_Forall.
Qed.

(** A file selected by the include and exclude patterns stays inside the
    artifact root: joining it appends exactly its segments, no dot-dot or
    empty segment ever moves the path elsewhere. *)
Theorem Includes_inside resolved p :
  IsAbs (ArtifactRoot resolved) = true -> Includes resolved p = true ->
  abs_comps (JoinPath [ArtifactRoot resolved; p])
  = abs_comps (ArtifactRoot resolved) ++ Split p slash.
Proof.
  intros Hr. unfold Includes. destruct (validateRelativeSlashPath p) eqn:E; [|done].
  intros _. apply JoinPath_normal; [done|]. by apply relative_normal.
Qed.

(** ** Concrete inputs *)

Definition sample_expectation : Expectation := {|
  Exp_SchemaVersion := "agent-runtime-expectation/1.0";
  Exp_Subject := {| Subj_ID := "example"; DisplayName := "Example"; Subj_Version := "1.0.0" |};
  Launch := {| Kind := "native"; Entrypoint := "bin/runtime"; Launch_ArgumentFingerprints := [] |};
  Artifact := {| Root := "/opt/app"; Include := ["**"]; Exclude := ["tmp/*"]; Art_SHA256 := "aa";
                 MaxFiles := 10; MaxBytes := 1000; MaxDurationMS := 1000 |};
  Policy := {| AllowedRoots := ["/opt"]; AllowSymlinks := false |};
  Source := {| Source_Kind := "user-file"; LocatorHash := "bbbbbbbbbbbbbbbbbbbbbbbbbbbbbbbbbbbbbbbbbbbbbbbbbbbbbbbbbbbbbbbb"; Trust := "declared" |};
  Exp_Extensions := [] |}.

(** A file system without symbolic links. *)
Definition plain_os : PathOS := {|
  EvalSymlinks p := if IsAbs p then Some (Clean p) else None;
  UserHomeDir := Some "/home/u"; WorkingDir := "/work";
  ReadFile _ := match Marshal (Expectation_json sample_expectation) with
                | Ok document => Some document | Err _ => None end |}.

#[export] Instance plain_laws : PathLaws plain_os.
Proof.
  split; simpl.
  - intros p q Hp. rewrite Hp. intros [= <-]. by apply IsAbs_Clean.
  - intros p q. destruct (IsAbs p) eqn:E; [|done]. intros [= <-]. by apply Clean_idemp.
  - done.
Qed.

Definition sample_resolved : Resolved := {|
  Res_Value := sample_expectation; ManifestPath := EmptyString;
  ArtifactRoot := "/opt/app"; Res_AllowedRoots := ["/opt"] |}.

Lemma ResolveInline_contained_witness :
  contained sample_resolved /\ Res_Value sample_resolved = sample_expectation /\
  declaredAbsolute (Root (Artifact sample_expectation)) = true /\
  Forall (fun root => declaredAbsolute root = true) (AllowedRoots (Policy sample_expectation)).
Proof.
  apply (ResolveInline_contained (fun _ _ => true) plain_os). vm_compute. reflexivity.
Defined.

Lemma Includes_inside_witness :
  Includes sample_resolved "bin/runtime" = true /\ Includes sample_resolved "tmp/x" = false /\
  abs_comps (JoinPath [ArtifactRoot sample_resolved; "bin/runtime"])
  = abs_comps (ArtifactRoot sample_resolved) ++ Split "bin/runtime" slash.
Proof.
  split; [vm_compute; reflexivity|]. split; [vm_compute; reflexivity|].
  apply (Includes_inside sample_resolved "bin/runtime"); vm_compute; reflexivity.
Defined.

Lemma Load_contained_witness :
  let r := {| Res_Value := sample_expectation; ManifestPath := "/etc/m.json";
              ArtifactRoot := "/opt/app"; Res_AllowedRoots := ["/opt"] |} in
  contained r
  /\ abs_comps (JoinPath [ArtifactRoot r; Entrypoint (Launch (Res_Value r))])
     = abs_comps (ArtifactRoot r) ++ Split (Entrypoint (Launch (Res_Value r))) slash
  /\ (AllowSymlinks (Policy (Res_Value r)) = false ->
      EvalSymlinks plain_os (ArtifactRoot r) = Some (ArtifactRoot r)).
Proof.
  cbv zeta. apply (Load_contained (fun _ _ => true) plain_os "/etc/m.json").
  vm_compute. reflexivity.
Defined.
