(* ===== verification/Process.v ===== *)
(** * Process observation ([internal/process], Linux build)

    The identity of a running process and its image: [Snapshot], [List] and
    [Revalidate] of [observer_linux.go] over an abstract operating system,
    and the identity comparison they share ([process.go]).  The error types
    of the whole program are declared here, since every package wraps its
    failures in one of them. *)

From S2P Require Import Prelude GoStrings GoPath GoSha256 Model.

(** ** Errors ([errors.go] of [process], [hostprofile] and [artifact]) *)

Inductive ErrorKind := ErrorNotFound | ErrorInaccessible | ErrorIdentityChanged | ErrorInternal.

#[global] Instance ErrorKind_eq_dec : EqDecision ErrorKind.
Proof. solve_decision. Defined.

(** A Go [error]: the three typed errors [errors.As] looks for, or another. *)
Inductive go_error :=
| ProcessError (kind : ErrorKind)
| HostError (code : string)
| ArtifactError (reason : string)
| OtherError (text : string).

(** ** The operating system *)

Inductive sys_error := NotExist | Permission | OtherSys.

Record ProcOS := {
  BootID : option string;                       (* /proc/sys/kernel/random/boot_id *)
  GOOS : string;
  GOARCH : string;
  NewProcess : Z -> option sys_error;           (* gopsutil, by int32 PID *)
  CreateTime : Z -> result sys_error Z;         (* milliseconds *)
  Ppid : Z -> Z;                                (* 0 on error *)
  CmdlineSlice : Z -> option (list string);
  Uids : Z -> option (list Z);
  Pids : result sys_error (list Z);
  Geteuid : Z;
  Readlink : string -> result sys_error string;
  StatIdentity : string -> result sys_error (option (Z * Z))  (* device and inode *)
}.

Definition nul : string := byte_string 0.

(** [hashIdentifier], also [hashValue] of [hostprofile]. *)
Definition hashIdentifier (domain value : string) : string :=
  "sha256:" +:+ sha256_hex (domain +:+ nul +:+ value).

Definition SameIdentity (left right : Candidate) : bool :=
  if negb (bool_decide (Cand_Process left = Cand_Process right)) then false
  else
    let l := Cand_Executable left in
    let r := Cand_Executable right in
    if negb (FileIDHash l =s EmptyString) || negb (FileIDHash r =s EmptyString)
    then FileIDHash l =s FileIDHash r
    else PathHash l =s PathHash r.

Definition classifyPortableError (err : sys_error) : go_error :=
  match err with
  | NotExist => ProcessError ErrorNotFound
  | Permission => ProcessError ErrorInaccessible
  | OtherSys => ProcessError ErrorInternal
  end.

Definition no_platform : Platform := {| OS := EmptyString; Arch := EmptyString |}.
Definition no_executable : ExecutableObservation :=
  {| Basename := EmptyString; PathHash := EmptyString; FileIDHash := EmptyString |}.

(** [model.Candidate{}]. *)
Definition zero_candidate : Candidate := {|
  Cand_Platform := no_platform;
  Cand_Process := {| PID := 0; CreatedAtUnixNano := EmptyString; BootIDHash := EmptyString |};
  Cand_Executable := no_executable; ParentPID := 0; ExecutablePath := EmptyString;
  DeclaredExecutablePath := EmptyString; ExecutableFileIdentity := EmptyString;
  ExecutableDeleted := false; Cand_ArgumentFingerprints := []; Inaccessible := [] |}.

Definition set_inaccessible (c : Candidate) (fields : list string) : Candidate := {|
  Cand_Platform := Cand_Platform c; Cand_Process := Cand_Process c;
  Cand_Executable := Cand_Executable c; ParentPID := ParentPID c;
  ExecutablePath := ExecutablePath c; DeclaredExecutablePath := DeclaredExecutablePath c;
  ExecutableFileIdentity := ExecutableFileIdentity c; ExecutableDeleted := ExecutableDeleted c;
  Cand_ArgumentFingerprints := Cand_ArgumentFingerprints c; Inaccessible := fields |}.

Definition set_arguments (c : Candidate) (fps : list ArgumentFingerprint) : Candidate := {|
  Cand_Platform := Cand_Platform c; Cand_Process := Cand_Process c;
  Cand_Executable := Cand_Executable c; ParentPID := ParentPID c;
  ExecutablePath := ExecutablePath c; DeclaredExecutablePath := DeclaredExecutablePath c;
  ExecutableFileIdentity := ExecutableFileIdentity c; ExecutableDeleted := ExecutableDeleted c;
  Cand_ArgumentFingerprints := fps; Inaccessible := Inaccessible c |}.

(** Fingerprints of arguments: positions count from one. *)
Fixpoint fingerprints_from (index : Z) (arguments : list string) : list ArgumentFingerprint :=
  match arguments with
  | [] => []
  | argument :: rest =>
      {| Position := index + 1; FP_SHA256 := hashIdentifier "arp:host-argument:v1" argument |}
      :: fingerprints_from (index + 1) rest
  end.

(** [strings.TrimSpace] on the ASCII white space of a kernel file. *)
Definition TrimSpace (s : string) : string :=
  Trim s (of_runes [9; 10; 11; 12; 13; 32]).

Section Observer.
Variable os : ProcOS.

(** The state of the observer: [NewObserver]. *)
Definition bootHash : string :=
  match BootID os with
  | None => hashIdentifier "arp:boot:v1" "unavailable"
  | Some id => hashIdentifier "arp:boot:v1" (TrimSpace id)
  end.

Definition observeArguments (pid : Z) (candidate : Candidate) : Candidate :=
  let inaccessible :=
    set_inaccessible candidate (Inaccessible candidate ++ ["process.arguments"]) in
  match NewProcess os (wrap32 pid) with
  | Some _ => inaccessible
  | None =>
      match CmdlineSlice os (wrap32 pid) with
      | None | Some [] => inaccessible
      | Some (_ :: arguments) => set_arguments candidate (fingerprints_from 0 arguments)
      end
  end.

Definition observed_process (pid createdMS : Z) : Candidate := {|
  Cand_Platform := {| OS := GOOS os; Arch := GOARCH os |};
  Cand_Process := {| PID := pid; CreatedAtUnixNano := FormatInt (wrap64 (createdMS * 1000000));
                     BootIDHash := bootHash |};
  Cand_Executable := no_executable; ParentPID := Ppid os (wrap32 pid);
  ExecutablePath := EmptyString; DeclaredExecutablePath := EmptyString;
  ExecutableFileIdentity := EmptyString; ExecutableDeleted := false;
  Cand_ArgumentFingerprints := []; Inaccessible := [] |}.

Definition procExecutable (pid : Z) : string := JoinPath ["/proc"; FormatInt pid; "exe"].

Definition linuxFileIdentity (id : Z * Z) : string :=
  FormatInt (fst id) +:+ ":" +:+ FormatInt (snd id).

Definition with_image (c : Candidate) (executable cleanPath identity : string) (deleted : bool)
  : Candidate := {|
  Cand_Platform := Cand_Platform c; Cand_Process := Cand_Process c;
  Cand_Executable := {| Basename := Base cleanPath;
                        PathHash := hashIdentifier "arp:path:v1" cleanPath;
                        FileIDHash := hashIdentifier "arp:file-id:v1" identity |};
  ParentPID := ParentPID c; ExecutablePath := executable; DeclaredExecutablePath := cleanPath;
  ExecutableFileIdentity := identity; ExecutableDeleted := deleted;
  Cand_ArgumentFingerprints := Cand_ArgumentFingerprints c; Inaccessible := Inaccessible c |}.

Definition with_deleted (c : Candidate) (deleted : bool) (fields : list string) : Candidate := {|
  Cand_Platform := Cand_Platform c; Cand_Process := Cand_Process c;
  Cand_Executable := Cand_Executable c; ParentPID := ParentPID c;
  ExecutablePath := ExecutablePath c; DeclaredExecutablePath := DeclaredExecutablePath c;
  ExecutableFileIdentity := ExecutableFileIdentity c; ExecutableDeleted := deleted;
  Cand_ArgumentFingerprints := Cand_ArgumentFingerprints c; Inaccessible := fields |}.

(** [Snapshot]: on some failures the partial candidate is returned next to
    the error.  [cancelled] is [ctx.Err() != nil]. *)
Definition Snapshot (cancelled : bool) (pid : Z) : Candidate * option go_error :=
  if cancelled then (zero_candidate, Some (ProcessError ErrorInternal))
  else if pid <=? 0 then (zero_candidate, Some (ProcessError ErrorNotFound))
  else
    match NewProcess os (wrap32 pid) with
    | Some err => (zero_candidate, Some (classifyPortableError err))
    | None =>
        match CreateTime os (wrap32 pid) with
        | Err err => (zero_candidate, Some (classifyPortableError err))
        | Ok createdMS =>
            let candidate := observed_process pid createdMS in
            match Readlink os (procExecutable pid) with
            | Err err => (set_inaccessible candidate ["process.image"],
                          Some (classifyPortableError err))
            | Ok linkedPath =>
                let cleanPath := TrimSuffix linkedPath " (deleted)" in
                let deleted := negb (cleanPath =s linkedPath) in
                match StatIdentity os (procExecutable pid) with
                | Err err =>
                    (with_deleted candidate deleted ["process.image.file_identity"],
                     Some (classifyPortableError err))
                | Ok None =>
                    (with_deleted candidate deleted [], Some (ProcessError ErrorInternal))
                | Ok (Some id) =>
                    let candidate := with_image candidate (procExecutable pid) cleanPath
                                       (linuxFileIdentity id) deleted in
                    (observeArguments pid candidate, None)
                end
            end
        end
    end.

(** One PID of [List]: skipped, a candidate, or an error that ends the scan. *)
Definition list_step (pid : Z) : result go_error (option Candidate) :=
  match NewProcess os (wrap32 pid) with
  | Some _ => Ok None
  | None =>
      match Uids os (wrap32 pid) with
      | None | Some [] => Ok None
      | Some (u :: _) =>
          if negb (u =? Geteuid os) then Ok None
          else match Snapshot false pid with
               | (candidate, None) => Ok (Some candidate)
               | (_, Some (ProcessError ErrorNotFound))
               | (_, Some (ProcessError ErrorInaccessible)) => Ok None
               | (_, Some err) => Err err
               end
      end
  end.

Fixpoint list_loop (cancelled : nat -> bool) (step : nat) (limit : nat) (pids : list Z)
  (found : list Candidate) : result go_error (list Candidate) :=
  match pids with
  | [] => Ok found
  | pid :: rest =>
      if cancelled step then Err (ProcessError ErrorInternal)
      else
        let! c := list_step pid in
        match c with
        | None => list_loop cancelled (S step) limit rest found
        | Some candidate =>
            let found := found ++ [candidate] in
            if (length found =? limit)%nat then Ok found
            else list_loop cancelled (S step) limit rest found
        end
  end.

(** [List]; [cancelled i] is the state of the context at its [i]th test. *)
Definition List (cancelled : nat -> bool) (limit : Z) : result go_error (list Candidate) :=
  if cancelled O then Err (ProcessError ErrorInternal)
  else
    let limit := if limit <=? 0 then 1000 else limit in
    match Pids os with
    | Err err => Err (classifyPortableError err)
    | Ok pids => list_loop cancelled 1 (Z.to_nat limit) (SortFunc Z.compare pids) []
    end.

Definition Revalidate (cancelled : bool) (expected : Candidate) : result go_error unit :=
  match Snapshot cancelled (PID (Cand_Process expected)) with
  | (_, Some err) => Err err
  | (actual, None) =>
      if negb (SameIdentity expected actual) then Err (ProcessError ErrorIdentityChanged)
      else Ok tt
  end.
End Observer.

#[global] Arguments Snapshot : simpl never.

(** ** Properties *)

(** The evidence that identifies a process: its identity, and its image by
    file identity or, where none was observed, by path. *)
Definition identity_of (c : Candidate) : ProcessIdentity * (string + string) :=
  (Cand_Process c,
   let e := Cand_Executable c in
   if FileIDHash e =s EmptyString then inr (PathHash e) else inl (FileIDHash e)).

Lemma same_identity left right :
  SameIdentity left right = true <-> identity_of left = identity_of right.
Proof.
  unfold SameIdentity, identity_of. case_bool_decide as Hp; simpl.
  - destruct (String.eqb_spec (FileIDHash (Cand_Executable left)) EmptyString) as [El|El];
    destruct (String.eqb_spec (FileIDHash (Cand_Executable right)) EmptyString) as [Er|Er]; simpl;
    rewrite String.eqb_eq; rewrite ?Hp; try rewrite El; try rewrite Er;
    split; intros H; try congruence; try (injection H; congruence).
  - split; [done|]. intros [= H _]. done.
Qed.

(** Two snapshots are the same process exactly when PID, creation time
    and boot agree and so does the image evidence: file identity if either
    side has one, the path only if neither has.  In particular the test is
    an equivalence, and a recycled PID with another creation time fails it. *)
Theorem SameIdentity_spec left right :
  SameIdentity left right = true <-> identity_of left = identity_of right.
Proof. apply same_identity. Qed.

(** A successful revalidation means that a fresh snapshot of the same PID
    succeeded and shows the same process: same creation time, same boot and
    same image evidence as the candidate that was judged. *)
Theorem Revalidate_sound os cancelled expected :
  Revalidate os cancelled expected = Ok tt <->
  cancelled = false /\ exists actual,
    Snapshot os false (PID (Cand_Process expected)) = (actual, None)
    /\ identity_of expected = identity_of actual.
Proof.
  unfold Revalidate. split.
  - destruct cancelled; [done|].
    destruct (Snapshot os false _) as [actual [err|]] eqn:E; [done|].
    destruct (SameIdentity expected actual) eqn:Hs; [|done]. intros _. split; [done|].
    exists actual. split; [done|]. by apply same_identity.
  - intros (-> & actual & -> & H). apply same_identity in H. by rewrite H.
Qed.

(** Every branch of [Snapshot] that succeeds. *)
Lemma Snapshot_ok_inv os cancelled pid c :
  Snapshot os cancelled pid = (c, None) ->
  cancelled = false /\ 0 < pid /\ exists createdMS linked id,
    NewProcess os (wrap32 pid) = None /\ CreateTime os (wrap32 pid) = Ok createdMS
    /\ Readlink os (procExecutable pid) = Ok linked
    /\ StatIdentity os (procExecutable pid) = Ok (Some id)
    /\ c = observeArguments os pid
             (with_image (observed_process os pid createdMS) (procExecutable pid)
                (TrimSuffix linked " (deleted)") (linuxFileIdentity id)
                (negb (TrimSuffix linked " (deleted)" =s linked))).
Proof.
  unfold Snapshot. destruct cancelled; [done|]. destruct (Z.leb_spec pid 0); [done|].
  destruct (NewProcess os _) eqn:E1; [done|]. destruct (CreateTime os _) as [ms|] eqn:E2; [|done].
  destruct (Readlink os _) as [linked|] eqn:E3; [|done].
  destruct (StatIdentity os _) as [[id|]|] eqn:E4; [|done|done]. intros [= <-].
  split; [done|]. split; [lia|]. by exists ms, linked, id.
Qed.

Lemma observeArguments_identity os pid c :
  Cand_Process (observeArguments os pid c) = Cand_Process c
  /\ Cand_Executable (observeArguments os pid c) = Cand_Executable c.
Proof. unfold observeArguments. by repeat case_match. Qed.

Lemma list_step_ok os pid c :
  list_step os pid = Ok (Some c) ->
  Snapshot os false pid = (c, None) /\
  exists us, Uids os (wrap32 pid) = Some (Geteuid os :: us).
Proof.
  unfold list_step. destruct (NewProcess os _); [done|].
  destruct (Uids os _) as [[|u us]|] eqn:E; [done| |done].
  destruct (Z.eqb_spec u (Geteuid os)) as [->|]; cbn [negb]; [|done].
  destruct (Snapshot os false pid) as [c' [[[]| | |]|]]; try done. intros [= ->]. eauto.
Qed.

Lemma list_loop_ok os cancelled limit pids step found cs :
  (length found < limit)%nat ->
  list_loop os cancelled step limit pids found = Ok cs ->
  exists new, cs = found ++ new /\ (length cs <= limit)%nat /\
    exists sub, sub `sublist_of` pids /\
      Forall2 (fun pid c => Snapshot os false pid = (c, None) /\
                 exists us, Uids os (wrap32 pid) = Some (Geteuid os :: us)) sub new.
Proof.
  revert step found. induction pids as [|pid pids IH]; cbn [list_loop]; intros step found Hl.
  - intros [= <-]. exists []. rewrite app_nil_r. split; [done|]. split; [lia|].
    exists []. by repeat constructor.
  - destruct (cancelled step); [done|]. destruct (list_step os pid) as [[c|]|e] eqn:E; cbn [rbind]; [| |done].
    + apply list_step_ok in E. destruct (Nat.eqb_spec (length (found ++ [c])) limit) as [He|He].
      * intros [= <-]. exists [c]. split; [done|]. split; [lia|].
        exists [pid]. split; [apply sublist_skip, sublist_nil_l|by constructor].
      * rewrite length_app in He. simpl in He. intros H.
        apply IH in H as (new & -> & Hle & sub & Hs & Hf); [|rewrite length_app; simpl; lia].
        exists (c :: new). rewrite <- app_assoc. split; [done|]. split; [rewrite <- app_assoc in Hle; done|].
        exists (pid :: sub). split; [by constructor|by constructor].
    + intros H. apply IH in H as (new & -> & Hle & sub & Hs & Hf); [|done].
      exists new. split; [done|]. split; [done|]. exists sub. split; [by constructor|done].
Qed.

(** A scan returns at most [limit] candidates (1000 for a non-positive
    limit); each is a complete snapshot of a listed PID owned by the
    effective user, and no PID is reported more often than the system listed
    it. *)
Theorem List_sound os cancelled limit cs pids :
  Pids os = Ok pids -> List os cancelled limit = Ok cs ->
  (Z.of_nat (length cs) <= if limit <=? 0 then 1000 else limit) /\
  exists sub, sub ⊆+ pids /\
    Forall2 (fun pid c => Snapshot os false pid = (c, None) /\ PID (Cand_Process c) = pid /\
               exists us, Uids os (wrap32 pid) = Some (Geteuid os :: us)) sub cs.
Proof.
  unfold List. intros Hp. rewrite Hp. destruct (cancelled O); [done|]. intros H.
  apply list_loop_ok in H as (new & -> & Hle & sub & Hs & Hf);
    [|simpl; destruct (Z.leb_spec limit 0); lia].
  simpl in *. split; [destruct (Z.leb_spec limit 0); lia|].
  exists sub. split.
  - rewrite <- (SortFunc_perm Z.compare pids). by apply sublist_submseteq.
  - eapply Forall2_impl; [exact Hf|]. intros pid c [Hsn Hu]. split; [done|]. split; [|done].
    apply Snapshot_ok_inv in Hsn as (_ & _ & ms & l & id & _ & _ & _ & _ & ->).
    by rewrite (proj1 (observeArguments_identity _ _ _)).
Qed.

Definition one_process : ProcOS := {|
  BootID := Some "boot"; GOOS := "linux"; GOARCH := "amd64"; NewProcess _ := None;
  CreateTime _ := Ok 5; Ppid _ := 1; CmdlineSlice _ := Some ["/bin/a"];
  Uids pid := Some [if pid =? 7 then 1000 else 0]; Pids := Ok [9; 7]; Geteuid := 1000;
  Readlink _ := Ok "/bin/a"; StatIdentity _ := Ok (Some (1, 2)) |}.

Lemma List_sound_witness :
  let cs := [fst (Snapshot one_process false 7)] in
  (Z.of_nat (length cs) <= if 5 <=? 0 then 1000 else 5) /\
  exists sub, sub ⊆+ [9; 7] /\
    Forall2 (fun pid c => Snapshot one_process false pid = (c, None) /\ PID (Cand_Process c) = pid /\
               exists us, Uids one_process (wrap32 pid) = Some (Geteuid one_process :: us)) sub cs.
Proof. cbv zeta. apply (List_sound one_process (fun _ => false)); reflexivity. Defined.
