(* ===== verification/Observers.v ===== *)
(** * The process observers of macOS and Windows ([observer_darwin.go], [observer_windows.go])

    The other two builds of the observer, in a module each, and what the
    three builds promise in common.  macOS asks [libproc], by the C functions
    at the head of [observer_darwin.go]; Windows asks the process handle.
    Both share [observeArguments] and [SameIdentity] with Linux
    ([Process.v]), whose record of the operating system also holds what
    [gopsutil] answers here.  What the C library and [x/sys/windows] answer
    is a record of functions; [path/filepath] of the Windows build is a
    parameter as well, since the development's paths are Unix paths. *)

From S2P Require Import Prelude GoStrings GoPath GoSha256 Model Process.

Definition wrap_u32 (z : Z) : Z := z mod 2 ^ 32.
Definition wrap_u64 (z : Z) : Z := z mod 2 ^ 64.

(** ** The scan of [List], on macOS and Windows

    [visit] is the body of the loop for one identifier, given the state of
    the context at the test in [Snapshot]; [cancelled] is the state of the
    context at the successive places it is tested. *)
Fixpoint scan (visit : bool -> Z -> result go_error (option Candidate)) (cancelled : nat -> bool)
  (step limit : nat) (pids : list Z) (found : list Candidate) : result go_error (list Candidate) :=
  match pids with
  | [] => Ok found
  | pid :: rest =>
      if cancelled step then Err (ProcessError ErrorInternal)
      else
        let! c := visit (cancelled (S step)) pid in
        match c with
        | None => scan visit cancelled (S (S step)) limit rest found
        | Some candidate =>
            let found := found ++ [candidate] in
            if (length found =? limit)%nat then Ok found
            else scan visit cancelled (S (S step)) limit rest found
        end
  end.

(** A snapshot that fails because the process is gone or closed to us is
    skipped; any other failure ends the scan. *)
Definition keep_snapshot (r : Candidate * option go_error) : result go_error (option Candidate) :=
  match r with
  | (candidate, None) => Ok (Some candidate)
  | (_, Some (ProcessError ErrorNotFound)) | (_, Some (ProcessError ErrorInaccessible)) => Ok None
  | (_, Some err) => Err err
  end.

(** [Revalidate], the same in every build. *)
Definition revalidate_with (snapshot : Z -> Candidate * option go_error) (expected : Candidate)
  : result go_error unit :=
  match snapshot (PID (Cand_Process expected)) with
  | (_, Some err) => Err err
  | (actual, None) =>
      if negb (SameIdentity expected actual) then Err (ProcessError ErrorIdentityChanged) else Ok tt
  end.

Definition with_loaded_image (c : Candidate) (path base normalized identity : string) : Candidate := {|
  Cand_Platform := Cand_Platform c; Cand_Process := Cand_Process c;
  Cand_Executable := {| Basename := base; PathHash := hashIdentifier "arp:path:v1" normalized;
                        FileIDHash := hashIdentifier "arp:file-id:v1" identity |};
  ParentPID := ParentPID c; ExecutablePath := path; DeclaredExecutablePath := path;
  ExecutableFileIdentity := identity; ExecutableDeleted := ExecutableDeleted c;
  Cand_ArgumentFingerprints := Cand_ArgumentFingerprints c; Inaccessible := Inaccessible c |}.

(** ** macOS *)

Module Darwin.
(** [struct proc_bsdinfo] and [struct proc_regionwithpathinfo], the fields
    that are read. *)
Record bsdinfo := {
  pbi_start_tvsec : Z; pbi_start_tvusec : Z;       (* uint64 *)
  pbi_ppid : Z; pbi_uid : Z                        (* uint32 *)
}.

Record region := {
  pri_protection : Z; pri_address : Z; pri_size : Z;
  vst_dev : Z; vst_ino : Z; vip_path : string
}.

(** What a call of [libproc] answers: its result, what it wrote, [errno]. *)
Record answer (T : Type) := { returned : Z; written : T; errno : Z }.

Arguments returned {T}. Arguments written {T}. Arguments errno {T}.

Record LibProc := {
  sizeof_bsdinfo : Z;
  sizeof_region : Z;
  proc_bsdinfo : Z -> answer bsdinfo;              (* PROC_PIDTBSDINFO, by C int *)
  proc_pidpath : Z -> answer string;
  proc_region : Z -> Z -> answer region;           (* PROC_PIDREGIONPATHINFO, at an address *)
  proc_listallpids : Z * list Z;                   (* the count, and the buffer *)
  geteuid : Z;
  kern_boottime : option (Z * Z)
}.

Definition ENOTSUP : Z := 45.
Definition VM_PROT_EXECUTE : Z := 4.

Definition classifyDarwinError (errorNumber : Z) : go_error :=
  if (errorNumber =? 3) || (errorNumber =? 2) then ProcessError ErrorNotFound
  else if (errorNumber =? 1) || (errorNumber =? 13) || (errorNumber =? 22) || (errorNumber =? ENOTSUP)
  then ProcessError ErrorInaccessible
  else ProcessError ErrorInternal.

Section Observer.
Variable os : ProcOS.
Variable lib : LibProc.

Definition darwinBootHash : string :=
  match kern_boottime lib with
  | None => hashIdentifier "arp:boot:v1" "unavailable"
  | Some (sec, usec) => hashIdentifier "arp:boot:v1" (FormatInt sec +:+ ":" +:+ FormatInt usec)
  end.

(** [arp_pid_bsdinfo] sets the error number only when nothing was written. *)
Definition darwinBSDInfo (pid : Z) : result Z bsdinfo :=
  let a := proc_bsdinfo lib (wrap32 pid) in
  if returned a =? sizeof_bsdinfo lib then Ok (written a)
  else Err (if returned a <=? 0 then errno a else 0).

Definition darwinPIDPath (pid : Z) : result Z string :=
  let a := proc_pidpath lib (wrap32 pid) in
  if returned a <=? 0 then Err (errno a) else Ok (written a).

(** A region that maps a file for execution. *)
Definition executable_file (r : region) : bool :=
  negb (Z.land (pri_protection r) VM_PROT_EXECUTE =? 0) && negb (vst_ino r =? 0)
  && negb (vip_path r =s EmptyString).

(** [arp_pid_executable_identity]: [count] rounds of the loop are left. *)
Fixpoint region_loop (count : nat) (pid address : Z) : result Z (Z * Z) :=
  match count with
  | O => Err ENOTSUP
  | S count' =>
      let a := proc_region lib pid address in
      if negb (returned a =? sizeof_region lib)
      then Err (if (returned a <=? 0) && negb (errno a =? 0) then errno a else ENOTSUP)
      else if executable_file (written a) then Ok (vst_dev (written a), vst_ino (written a))
      else
        let next := wrap_u64 (pri_address (written a) + pri_size (written a)) in
        if next <=? address then Err ENOTSUP else region_loop count' pid next
  end.

Definition darwinLoadedExecutableIdentity (pid : Z) : result Z string :=
  match region_loop (Z.to_nat 65536) (wrap32 pid) 0 with
  | Err e => Err e
  | Ok (device, inode) => Ok (FormatInt device +:+ ":" +:+ FormatInt inode)
  end.

Definition created_nanoseconds (info : bsdinfo) : Z :=
  wrap_u64 (wrap_u64 (pbi_start_tvsec info * 1000000000) + wrap_u64 (pbi_start_tvusec info * 1000)).

Definition observed_process (pid : Z) (info : bsdinfo) : Candidate := {|
  Cand_Platform := {| OS := GOOS os; Arch := GOARCH os |};
  Cand_Process := {| PID := pid; CreatedAtUnixNano := FormatInt (created_nanoseconds info);
                     BootIDHash := darwinBootHash |};
  Cand_Executable := no_executable; ParentPID := pbi_ppid info;
  ExecutablePath := EmptyString; DeclaredExecutablePath := EmptyString;
  ExecutableFileIdentity := EmptyString; ExecutableDeleted := false;
  Cand_ArgumentFingerprints := []; Inaccessible := [] |}.

Definition Snapshot (cancelled : bool) (pid : Z) : Candidate * option go_error :=
  if cancelled then (zero_candidate, Some (ProcessError ErrorInternal))
  else if pid <=? 0 then (zero_candidate, Some (ProcessError ErrorNotFound))
  else
    match darwinBSDInfo pid with
    | Err e => (zero_candidate, Some (classifyDarwinError e))
    | Ok info =>
        let candidate := observed_process pid info in
        match darwinPIDPath pid with
        | Err e => (set_inaccessible candidate ["process.image"], Some (classifyDarwinError e))
        | Ok path =>
            match darwinLoadedExecutableIdentity pid with
            | Err e => (set_inaccessible candidate ["process.image.file_identity"],
                        Some (classifyDarwinError e))
            | Ok identity =>
                (observeArguments os pid
                   (with_loaded_image candidate path (Base path) path identity), None)
            end
        end
    end.

Definition owned (pid : Z) : bool :=
  (0 <? pid) && match darwinBSDInfo pid with Ok info => pbi_uid info =? geteuid lib | Err _ => false end.

Definition visit (cancelled : bool) (pid : Z) : result go_error (option Candidate) :=
  if owned pid then keep_snapshot (Snapshot cancelled pid) else Ok None.

(** [left.Process.PID - right.Process.PID]. *)
Definition comparePID (left right : Candidate) : comparison :=
  Z.compare (wrap64 (PID (Cand_Process left) - PID (Cand_Process right))) 0.

(** The buffer holds 65536 identifiers, C integers. *)
Definition listed : list Z :=
  take (Z.to_nat (Z.min (fst (proc_listallpids lib)) 65536)) (map wrap32 (snd (proc_listallpids lib))).

(** [List]: the candidates are sorted after the scan. *)
Definition List (cancelled : nat -> bool) (limit : Z) : result go_error (list Candidate) :=
  if cancelled O then Err (ProcessError ErrorInternal)
  else
    let limit := if limit <=? 0 then 1000 else limit in
    if fst (proc_listallpids lib) <? 0 then Err (ProcessError ErrorInternal)
    else
      let! found := scan visit cancelled 1 (Z.to_nat limit) listed [] in
      Ok (SortFunc comparePID found).

Definition Revalidate (cancelled : bool) (expected : Candidate) : result go_error unit :=
  revalidate_with (Snapshot cancelled) expected.
End Observer.
End Darwin.

(** ** Windows *)

Module Windows.
(** A Windows error code, or a name that holds a NUL. *)
Inductive win_error := Code (code : Z) | InvalidName.

(** [windows.Filetime]. *)
Record Filetime := { LowDateTime : Z; HighDateTime : Z }.

Record Win := {
  OpenProcess : Z -> option win_error;             (* by uint32 *)
  GetProcessTimes : Z -> result win_error Filetime;
  Nanoseconds : Filetime -> Z;                     (* since the Unix epoch *)
  ProcessImageName : Z -> result win_error string; (* QueryFullProcessImageName, as UTF-8 *)
  CreateFile : string -> option win_error;         (* for its attributes *)
  FileIdInfo : string -> option (Z * list Z);      (* volume serial number and file ID *)
  FileInformation : string -> result win_error (Z * Z * Z);  (* volume, index high, index low *)
  EnumProcesses : result win_error (list Z * Z);   (* the buffer, and the bytes written *)
  CurrentTokenUser : option string;                (* as the string of a SID *)
  ProcessTokenUser : Z -> option string;
  TickCount64 : Z;
  NowUnixMilli : Z;
  win_Clean : string -> string;                    (* filepath.Clean and Base of Windows *)
  win_Base : string -> string
}.

Definition classifyWindowsError (e : win_error) : go_error :=
  match e with
  | Code 87 | Code 1168 => ProcessError ErrorNotFound
  | Code 5 | Code 1314 => ProcessError ErrorInaccessible
  | _ => ProcessError ErrorInternal
  end.

Section Observer.
Variable os : ProcOS.
Variable u : UnicodeTables.
Variable win : Win.

Definition windowsBootHash : string :=
  let bootUnixSecond := Z.quot (wrap64 (NowUnixMilli win - wrap64 (TickCount64 win))) 1000 in
  hashIdentifier "arp:boot:v1" (FormatInt bootUnixSecond).

Definition currentProcessSID : string := default EmptyString (CurrentTokenUser win).

Definition processSID (pid : Z) : string :=
  match OpenProcess win pid with
  | Some _ => EmptyString
  | None => default EmptyString (ProcessTokenUser win pid)
  end.

Definition windowsFileIdentity (path : string) : result win_error string :=
  match CreateFile win path with
  | Some e => Err e
  | None =>
      match FileIdInfo win path with
      | Some (volume, id) => Ok (hex_padded 16 volume +:+ ":" +:+ hex id)
      | None =>
          match FileInformation win path with
          | Err e => Err e
          | Ok (volume, high, low) =>
              Ok (hex_padded 8 volume +:+ ":" +:+ hex_padded 8 high +:+ hex_padded 8 low)
          end
      end
  end.

Definition parentPID (pid : Z) : Z :=
  match NewProcess os (wrap32 pid) with Some _ => 0 | None => Ppid os (wrap32 pid) end.

Definition observed_process (pid : Z) (creation : Filetime) : Candidate := {|
  Cand_Platform := {| OS := GOOS os; Arch := GOARCH os |};
  Cand_Process := {| PID := pid; CreatedAtUnixNano := FormatInt (Nanoseconds win creation);
                     BootIDHash := windowsBootHash |};
  Cand_Executable := no_executable; ParentPID := parentPID pid;
  ExecutablePath := EmptyString; DeclaredExecutablePath := EmptyString;
  ExecutableFileIdentity := EmptyString; ExecutableDeleted := false;
  Cand_ArgumentFingerprints := []; Inaccessible := [] |}.

Definition Snapshot (cancelled : bool) (pid : Z) : Candidate * option go_error :=
  if cancelled then (zero_candidate, Some (ProcessError ErrorInternal))
  else if pid <=? 0 then (zero_candidate, Some (ProcessError ErrorNotFound))
  else
    let handle := wrap_u32 pid in
    match OpenProcess win handle with
    | Some e => (zero_candidate, Some (classifyWindowsError e))
    | None =>
        match GetProcessTimes win handle with
        | Err e => (zero_candidate, Some (classifyWindowsError e))
        | Ok creation =>
            let candidate := observed_process pid creation in
            match ProcessImageName win handle with
            | Err e => (set_inaccessible candidate ["process.image"], Some (classifyWindowsError e))
            | Ok path =>
                match windowsFileIdentity path with
                | Err e => (set_inaccessible candidate ["process.image.file_identity"],
                            Some (classifyWindowsError e))
                | Ok identity =>
                    let normalizedPath := ToLower u (win_Clean win path) in
                    (observeArguments os pid
                       (with_loaded_image candidate path (win_Base win path) normalizedPath identity), None)
                end
            end
        end
    end.

Definition owned (pid : Z) : bool :=
  negb (pid =? 0) && negb (currentProcessSID =s EmptyString) && (processSID pid =s currentProcessSID).

Definition visit (cancelled : bool) (pid : Z) : result go_error (option Candidate) :=
  if owned pid then keep_snapshot (Snapshot cancelled pid) else Ok None.

(** [pids[:returned/uint32(unsafe.Sizeof(pids[0]))]]. *)
Definition listed (pids : list Z) (returned : Z) : list Z := take (Z.to_nat (returned / 4)) pids.

Definition List (cancelled : nat -> bool) (limit : Z) : result go_error (list Candidate) :=
  if cancelled O then Err (ProcessError ErrorInternal)
  else
    let limit := if limit <=? 0 then 1000 else limit in
    match EnumProcesses win with
    | Err e => Err (classifyWindowsError e)
    | Ok (pids, returned) =>
        scan visit cancelled 1 (Z.to_nat limit) (SortFunc Z.compare (listed pids returned)) []
    end.

Definition Revalidate (cancelled : bool) (expected : Candidate) : result go_error unit :=
  revalidate_with (Snapshot cancelled) expected.
End Observer.
End Windows.

#[global] Arguments Darwin.Snapshot : simpl never.
#[global] Arguments Windows.Snapshot : simpl never.

(** ** Lists in the order of a key *)

Section Keyed.
Context {A : Type} (key : A -> Z) (cmp : A -> A -> comparison).

Definition ordered (l : list A) : Prop := StronglySorted Z.le (map key l).

Lemma ordered_cons x l : ordered (x :: l) <-> ordered l /\ Forall (fun y => key x <= key y) l.
Proof.
  unfold ordered. cbn [map]. split.
  - intros H. inversion H as [|? ? Hs Hx]; subst. split; [done|]. exact (proj1 (List.Forall_map _ _ _) Hx).
  - intros [Hs Hx]. constructor; [done|]. exact (proj2 (List.Forall_map _ _ _) Hx).
Qed.

Lemma insert_ordered x l :
  (forall y, y ∈ l -> cmp x y = Z.compare (key x) (key y)) -> ordered l -> ordered (insert_by cmp x l).
Proof.
  induction l as [|y l IH]; cbn [insert_by]; intros Hc Hl; [by apply ordered_cons|].
  rewrite Hc by by left. pose proof Hl as [Hl' Hy]%ordered_cons.
  assert (Hle : key x <= key y -> ordered (x :: y :: l)).
  { intros Hxy. apply ordered_cons. split; [done|]. constructor; [done|].
    eapply Forall_impl; [exact Hy|]. cbv beta. intros z Hz. lia. }
  destruct (Z.compare_spec (key x) (key y)) as [E|E|E]; [apply Hle; lia|apply Hle; lia|].
  apply ordered_cons. split; [apply IH; [|done]; intros z Hz; apply Hc; by right|].
  rewrite insert_by_perm. constructor; [lia|done].
Qed.

Lemma SortFunc_ordered l :
  (forall x y, x ∈ l -> y ∈ l -> cmp x y = Z.compare (key x) (key y)) -> ordered (SortFunc cmp l).
Proof.
  induction l as [|x l IH]; [constructor|]. intros Hc.
  apply (insert_ordered x (SortFunc cmp l)).
  - intros y Hy. rewrite SortFunc_perm in Hy. apply Hc; [by left|by right].
  - apply IH. intros y z Hy Hz. apply Hc; by right.
Qed.
End Keyed.

Lemma sublist_sorted (l1 l2 : list Z) : l1 `sublist_of` l2 -> StronglySorted Z.le l2 -> StronglySorted Z.le l1.
Proof.
  induction 1 as [|x l1 l2 Hs IH|x l1 l2 Hs IH]; intros H; [constructor| |]; inversion H; subst; [|auto].
  constructor; [auto|]. apply List.Forall_forall. intros y Hy.
  apply (proj1 (List.Forall_forall _ _) ltac:(eassumption)). apply list_elem_of_In, (elem_of_sublist l1);
    [by apply list_elem_of_In|done].
Qed.

(** ** The loaded executable of a macOS process *)

Section Regions.
Context (lib : Darwin.LibProc) (pid : Z).

(** The region [libproc] region_at at an address. *)
Definition region_at (address : Z) (r : Darwin.region) : Prop :=
  Darwin.returned (Darwin.proc_region lib pid address) = Darwin.sizeof_region lib
  /\ Darwin.written (Darwin.proc_region lib pid address) = r.

Definition region_end (r : Darwin.region) : Z := wrap_u64 (Darwin.pri_address r + Darwin.pri_size r).

(** A walk over regions that map no executable file, each beyond the last. *)
Inductive passes : Z -> list Darwin.region -> Z -> Prop :=
| passes_none address : passes address [] address
| passes_region address r rest final :
    region_at address r -> Darwin.executable_file r = false -> address < region_end r ->
    passes (region_end r) rest final -> passes address (r :: rest) final.

Lemma passes_increases address skipped final :
  passes address skipped final -> address + Z.of_nat (length skipped) <= final.
Proof. induction 1; cbn [length]; lia. Qed.

Lemma region_loop_found count address device inode :
  Darwin.region_loop lib count pid address = Ok (device, inode) <->
  exists skipped final r,
    passes address skipped final /\ (length skipped < count)%nat /\ region_at final r
    /\ Darwin.executable_file r = true /\ device = Darwin.vst_dev r /\ inode = Darwin.vst_ino r.
Proof.
  revert address. induction count as [|count IH]; intros address; cbn [Darwin.region_loop].
  { split; [done|]. intros (? & ? & ? & _ & ? & _). lia. }
  set (a := Darwin.proc_region lib pid address).
  destruct (Z.eqb_spec (Darwin.returned a) (Darwin.sizeof_region lib)) as [Hr|Hr]; cbn [negb].
  2:{ split; [done|]. intros (skipped & final & r & Hp & _ & [Hd _] & _).
      destruct Hp as [address|address r' rest final [Hd' _]]; by destruct Hr. }
  assert (Hd : region_at address (Darwin.written a)) by done.
  destruct (Darwin.executable_file (Darwin.written a)) eqn:He.
  - split.
    + intros [= <- <-]. exists [], address, (Darwin.written a). split; [constructor|].
      split; [cbn; lia|]. done.
    + intros (skipped & final & r & Hp & _ & [_ Hw] & _ & -> & ->).
      destruct Hp as [address|address r' rest final [_ Hw'] Hn]; [by rewrite <- Hw|].
      subst r'. unfold a in He. congruence.
  - fold (region_end (Darwin.written a)). destruct (Z.leb_spec (region_end (Darwin.written a)) address) as [Hle|Hlt].
    + split; [done|]. intros (skipped & final & r & Hp & _ & [_ Hw] & Hx & _).
      destruct Hp as [address|address r' rest final [_ Hw'] Hn Hlt]; subst; unfold a in *; [congruence|lia].
    + rewrite IH. split.
      * intros (skipped & final & r & Hp & Hl & H). exists (Darwin.written a :: skipped), final, r.
        split; [by apply passes_region|]. split; [cbn; lia|done].
      * intros (skipped & final & r & Hp & Hl & [Hd1 Hw] & Hx & H).
        destruct Hp as [address|address r' rest final [_ Hw'] Hn Hlt' Hp]; subst; unfold a in *; [congruence|].
        exists rest, final, (Darwin.written (Darwin.proc_region lib pid final)).
        split; [done|]. cbn in Hl. split; [lia|]. done.
Qed.
End Regions.

(** ** The contract of an observer

    What the rest of the program relies on, whichever build it runs in. *)

Record platform := {
  P_Snapshot : bool -> Z -> Candidate * option go_error;
  P_List : (nat -> bool) -> Z -> result go_error (list Candidate);
  P_Revalidate : bool -> Candidate -> result go_error unit;
  P_Listed : list Z;                   (* the identifiers the system lists *)
  P_Owned : Z -> Prop                  (* the process runs as the current user *)
}.

(** The parts of a candidate that identify it are all there. *)
Definition identified (c : Candidate) : Prop :=
  CreatedAtUnixNano (Cand_Process c) <> EmptyString
  /\ BootIDHash (Cand_Process c) <> EmptyString
  /\ FileIDHash (Cand_Executable c) <> EmptyString.

(** [cs] are snapshots of some of the processes [pids], in this order. *)
Definition snapshots_of (p : platform) (pids : list Z) (cs : list Candidate) : Prop :=
  Forall2 (fun pid c => P_Snapshot p false pid = (c, None) /\ P_Owned p pid) pids cs.

Definition inventory_limit (limit : Z) : Z := if limit <=? 0 then 1000 else limit.

Class ObserverContract (p : platform) : Prop := {
  snapshot_contract cancelled pid c :
    P_Snapshot p cancelled pid = (c, None) ->
    cancelled = false /\ 0 < pid /\ PID (Cand_Process c) = pid /\ identified c;
  list_contract cancelled limit cs :
    P_List p cancelled limit = Ok cs ->
    Z.of_nat (length cs) <= inventory_limit limit
    /\ ordered (fun c => PID (Cand_Process c)) cs
    /\ exists pids, pids ⊆+ P_Listed p /\ snapshots_of p pids cs;
  revalidate_contract cancelled expected :
    P_Revalidate p cancelled expected = Ok tt <->
    cancelled = false /\ exists actual,
      P_Snapshot p false (PID (Cand_Process expected)) = (actual, None)
      /\ identity_of expected = identity_of actual
}.

Definition linux (os : ProcOS) : platform := {|
  P_Snapshot := Snapshot os; P_List := List os; P_Revalidate := Revalidate os;
  P_Listed := match Pids os with Ok pids => pids | Err _ => [] end;
  P_Owned pid := exists others, Uids os (wrap32 pid) = Some (Geteuid os :: others) |}.

Definition macos (os : ProcOS) (lib : Darwin.LibProc) : platform := {|
  P_Snapshot := Darwin.Snapshot os lib; P_List := Darwin.List os lib;
  P_Revalidate := Darwin.Revalidate os lib; P_Listed := Darwin.listed lib;
  P_Owned pid := Darwin.owned lib pid = true |}.

Definition windows (os : ProcOS) (u : UnicodeTables) (win : Windows.Win) : platform := {|
  P_Snapshot := Windows.Snapshot os u win; P_List := Windows.List os u win;
  P_Revalidate := Windows.Revalidate os u win;
  P_Listed := match Windows.EnumProcesses win with
              | Ok (pids, returned) => Windows.listed pids returned | Err _ => [] end;
  P_Owned pid := Windows.owned win pid = true |}.

(** The build for macOS without cgo: every operation fails, and so the contract
    of an observer holds of it because nothing succeeds. *)
Definition unsupportedObserver : platform := {|
  P_Snapshot _ _ := (zero_candidate, Some (ProcessError ErrorInternal));
  P_List _ _ := Err (ProcessError ErrorInternal);
  P_Revalidate _ _ := Err (ProcessError ErrorInternal);
  P_Listed := []; P_Owned _ := False |}.

#[global] Instance unsupported_contract : ObserverContract unsupportedObserver.
Proof.
  split; try done. intros cancelled expected. split; [done|]. intros (_ & actual & Hs & _). discriminate Hs.
Qed.

(** ** What the builds share *)

Lemma hashIdentifier_nonempty domain value : hashIdentifier domain value <> EmptyString.
Proof. done. Qed.

Lemma FormatInt_nonempty n : FormatInt n <> EmptyString.
Proof.
  unfold FormatInt. destruct (Z.ltb_spec n 0); [done|]. rewrite digits_fuel_of, str_app_nil_r.
  apply digits_of_nonempty. lia.
Qed.

#[export] Hint Resolve hashIdentifier_nonempty FormatInt_nonempty : arp.

Lemma keep_snapshot_ok r c : keep_snapshot r = Ok (Some c) -> r = (c, None).
Proof. destruct r as [c' [[[]| | |]|]]; cbn; try done. by intros [= ->]. Qed.

Lemma ordered_snapshots (key : Candidate -> Z) pids cs :
  StronglySorted Z.le pids -> Forall2 (fun pid c => key c = pid) pids cs -> ordered key cs.
Proof.
  intros Hs Hf. unfold ordered. replace (map key cs) with pids; [done|]. clear Hs.
  induction Hf as [|pid c pids cs <- _ IH]; [done|]. cbn. by rewrite IH.
Qed.

Lemma pids_sorted pids : StronglySorted Z.le (SortFunc Z.compare pids).
Proof. rewrite <- (map_id (SortFunc _ _)). by apply (SortFunc_ordered (fun z => z)). Qed.

Section Scan.
Context (p : platform) (visit : bool -> Z -> result go_error (option Candidate)).
Hypothesis visit_ok : forall cancelled pid c,
  visit cancelled pid = Ok (Some c) -> P_Snapshot p false pid = (c, None) /\ P_Owned p pid.

Lemma scan_ok cancelled limit pids step found cs :
  (length found < limit)%nat -> scan visit cancelled step limit pids found = Ok cs ->
  exists new, cs = found ++ new /\ (length cs <= limit)%nat
    /\ exists sub, sub `sublist_of` pids /\ snapshots_of p sub new.
Proof using visit_ok.
  revert step found. induction pids as [|pid pids IH]; cbn [scan]; intros step found Hl.
  - intros [= <-]. exists []. rewrite app_nil_r. split; [done|]. split; [lia|].
    exists []. by repeat constructor.
  - destruct (cancelled step); [done|].
    destruct (visit (cancelled (S step)) pid) as [[c|]|e] eqn:E; cbn [rbind]; [| |done].
    + apply visit_ok in E. destruct (Nat.eqb_spec (length (found ++ [c])) limit) as [He|He].
      * intros [= <-]. exists [c]. split; [done|]. split; [lia|].
        exists [pid]. split; [apply sublist_skip, sublist_nil_l|constructor; [done|constructor]].
      * rewrite length_app in He. cbn in He. intros H.
        apply IH in H as (new & -> & Hle & sub & Hs & Hf); [|rewrite length_app; cbn; lia].
        exists (c :: new). rewrite <- app_assoc in *. split; [done|]. split; [done|].
        exists (pid :: sub). split; by constructor.
    + intros H. apply IH in H as (new & -> & Hle & sub & Hs & Hf); [|done].
      exists new. split; [done|]. split; [done|]. exists sub. split; [by constructor|done].
Qed.

Lemma scan_from_start cancelled limit pids cs :
  scan visit cancelled 1 (Z.to_nat (if limit <=? 0 then 1000 else limit)) pids [] = Ok cs ->
  Z.of_nat (length cs) <= inventory_limit limit
  /\ exists sub, sub `sublist_of` pids /\ snapshots_of p sub cs.
Proof using visit_ok.
  intros H. apply scan_ok in H as (new & -> & Hl & H); [|cbn; destruct (Z.leb_spec limit 0); lia].
  split; [|done]. unfold inventory_limit. destruct (Z.leb_spec limit 0); lia.
Qed.
End Scan.

Lemma revalidate_with_ok (snapshot : bool -> Z -> Candidate * option go_error) cancelled expected :
  (forall pid, snd (snapshot true pid) <> None) ->
  revalidate_with (snapshot cancelled) expected = Ok tt <->
  cancelled = false /\ exists actual,
    snapshot false (PID (Cand_Process expected)) = (actual, None)
    /\ identity_of expected = identity_of actual.
Proof.
  intros Hc. unfold revalidate_with. split.
  - destruct cancelled.
    { specialize (Hc (PID (Cand_Process expected))). by destruct (snapshot true _) as [? [?|]]. }
    destruct (snapshot false _) as [actual [e|]] eqn:E; [done|].
    destruct (SameIdentity expected actual) eqn:Hs; [|done]. intros _. split; [done|].
    exists actual. split; [done|]. by apply same_identity.
  - intros (-> & actual & -> & H). apply same_identity in H. by rewrite H.
Qed.

(** ** The three builds keep the contract *)

Lemma identified_process (c c' : Candidate) :
  Cand_Process c = Cand_Process c' -> Cand_Executable c = Cand_Executable c' -> identified c' -> identified c.
Proof. unfold identified. by intros -> ->. Qed.

#[global] Instance linux_contract os : ObserverContract (linux os).
Proof.
  assert (Hsnap : forall cancelled pid c, Snapshot os cancelled pid = (c, None) ->
            cancelled = false /\ 0 < pid /\ PID (Cand_Process c) = pid /\ identified c).
  { intros cancelled pid c (-> & Hp & ms & l & id & _ & _ & _ & _ & ->)%Snapshot_ok_inv.
    destruct (observeArguments_identity os pid (with_image (observed_process os pid ms)
      (procExecutable pid) (TrimSuffix l " (deleted)") (linuxFileIdentity id)
      (negb (TrimSuffix l " (deleted)" =s l)))) as [Hq Hx].
    split; [done|]. split; [done|]. split; [by rewrite Hq|].
    eapply identified_process; [exact Hq|exact Hx|]. split; [apply FormatInt_nonempty|]. split; [|done].
    cbn. unfold bootHash. by destruct (BootID os). }
  split; cbn [linux P_Snapshot P_List P_Revalidate P_Listed P_Owned]; [exact Hsnap| |apply Revalidate_sound].
  intros cancelled limit cs. unfold List. destruct (cancelled O); [done|].
  destruct (Pids os) as [pids|e]; [|done]. intros H.
  apply list_loop_ok in H as (new & -> & Hle & sub & Hs & Hf);
    [|cbn; destruct (Z.leb_spec limit 0); lia]. cbn [app] in *.
  split; [unfold inventory_limit; destruct (Z.leb_spec limit 0); lia|]. split.
  - eapply ordered_snapshots; [eapply sublist_sorted; [exact Hs|apply pids_sorted]|].
    eapply Forall2_impl; [exact Hf|]. intros pid c [(_ & _ & Hc & _)%Hsnap _]. exact Hc.
  - exists sub. split; [|exact Hf]. rewrite <- (SortFunc_perm Z.compare pids). by apply sublist_submseteq.
Qed.

Lemma Darwin_Snapshot_ok os lib cancelled pid c :
  Darwin.Snapshot os lib cancelled pid = (c, None) ->
  cancelled = false /\ 0 < pid /\ exists info path identity,
    Darwin.darwinBSDInfo lib pid = Ok info /\ Darwin.darwinPIDPath lib pid = Ok path
    /\ Darwin.darwinLoadedExecutableIdentity lib pid = Ok identity
    /\ c = observeArguments os pid
             (with_loaded_image (Darwin.observed_process os lib pid info) path (Base path) path identity).
Proof.
  unfold Darwin.Snapshot. destruct cancelled; [done|]. destruct (Z.leb_spec pid 0); [done|].
  destruct (Darwin.darwinBSDInfo lib pid) as [info|] eqn:E1; [|done].
  destruct (Darwin.darwinPIDPath lib pid) as [path|] eqn:E2; [|done].
  destruct (Darwin.darwinLoadedExecutableIdentity lib pid) as [identity|] eqn:E3; [|done].
  intros [= <-]. split; [done|]. split; [lia|]. by exists info, path, identity.
Qed.

Lemma loaded_image_identified os pid process path base normalized identity :
  CreatedAtUnixNano (Cand_Process process) <> EmptyString -> BootIDHash (Cand_Process process) <> EmptyString ->
  let c := observeArguments os pid (with_loaded_image process path base normalized identity) in
  PID (Cand_Process c) = PID (Cand_Process process) /\ identified c.
Proof.
  intros Hc Hb c.
  destruct (observeArguments_identity os pid (with_loaded_image process path base normalized identity)) as [Hq Hx].
  fold c in Hq, Hx. split; [by rewrite Hq|]. by eapply identified_process; [exact Hq|exact Hx|].
Qed.

(** Sorting after the scan: identifiers are positive C integers. *)
Lemma comparePID_compare x y :
  int64_min <= PID (Cand_Process x) - PID (Cand_Process y) <= int64_max ->
  Darwin.comparePID x y = Z.compare (PID (Cand_Process x)) (PID (Cand_Process y)).
Proof.
  intros H. unfold Darwin.comparePID. rewrite wrap64_id by apply H. symmetry. apply Z.compare_sub.
Qed.

Lemma wrap32_range z : - 2 ^ 31 <= wrap32 z < 2 ^ 31.
Proof. unfold wrap32. pose proof (Z.mod_pos_bound (z + 2 ^ 31) (2 ^ 32)). lia. Qed.

Lemma listed_sublist (n : nat) (pids : list Z) : take n pids ⊆+ pids.
Proof. rewrite <- (take_drop n pids) at 2. apply submseteq_inserts_r. done. Qed.

#[global] Instance macos_contract os lib : ObserverContract (macos os lib).
Proof.
  assert (Hsnap : forall cancelled pid c, Darwin.Snapshot os lib cancelled pid = (c, None) ->
            cancelled = false /\ 0 < pid /\ PID (Cand_Process c) = pid /\ identified c).
  { intros cancelled pid c (-> & Hp & info & path & identity & _ & _ & _ & ->)%Darwin_Snapshot_ok.
    split; [done|]. split; [done|]. apply loaded_image_identified; cbn; [apply FormatInt_nonempty|].
    unfold Darwin.darwinBootHash. by destruct (Darwin.kern_boottime lib) as [[]|]. }
  split; cbn [macos P_Snapshot P_List P_Revalidate P_Listed P_Owned]; [exact Hsnap| |].
  2:{ intros cancelled expected. by apply (revalidate_with_ok (Darwin.Snapshot os lib)). }
  intros cancelled limit cs. unfold Darwin.List. destruct (cancelled O); [done|].
  destruct (fst (Darwin.proc_listallpids lib) <? 0); [done|].
  destruct (scan _ _ _ _ _ _) as [found|e] eqn:E; [|done]. cbn [rbind]. intros [= <-].
  apply (scan_from_start (macos os lib)) in E as (Hl & sub & Hs & Hf).
  2:{ intros c pid candidate. unfold Darwin.visit. destruct (Darwin.owned lib pid) eqn:Ho; [|done].
      intros Hk%keep_snapshot_ok. pose proof (Hsnap _ _ _ Hk) as (-> & _). done. }
  pose proof (SortFunc_perm Darwin.comparePID found) as Hp.
  split; [by rewrite Hp|]. split.
  - apply SortFunc_ordered. intros x y Hx Hy. apply comparePID_compare.
    assert (Hr : forall z, z ∈ found -> 0 < PID (Cand_Process z) < 2 ^ 31).
    { intros z (i & Hi)%list_elem_of_lookup. eapply Forall2_lookup_r in Hf as (pid & Hpid & Hz & _); [|exact Hi].
      cbn [macos P_Snapshot] in Hz. apply Hsnap in Hz as (_ & Hz & -> & _). split; [done|].
      assert (Hin : pid ∈ Darwin.listed lib) by (eapply elem_of_sublist; [by eapply list_elem_of_lookup_2|exact Hs]).
      unfold Darwin.listed in Hin. apply (elem_of_submseteq _ (map wrap32 (snd (Darwin.proc_listallpids lib)))) in Hin;
        [|apply listed_sublist].
      apply list_elem_of_fmap in Hin as (raw & -> & _). apply wrap32_range. }
    specialize (Hr x Hx) as Hrx. specialize (Hr y Hy). unfold int64_min, int64_max. lia.
  - apply Forall2_flip in Hf. eapply Permutation_Forall2 in Hf as (pids & Hpids & Hf);
      [|symmetry; exact Hp].
    exists pids. split; [rewrite <- Hpids; by apply sublist_submseteq|]. by apply Forall2_flip.
Qed.

Lemma Windows_Snapshot_ok os u win cancelled pid c :
  Windows.Snapshot os u win cancelled pid = (c, None) ->
  cancelled = false /\ 0 < pid /\ exists creation path identity,
    Windows.GetProcessTimes win (wrap_u32 pid) = Ok creation
    /\ Windows.ProcessImageName win (wrap_u32 pid) = Ok path
    /\ Windows.windowsFileIdentity win path = Ok identity
    /\ c = observeArguments os pid
             (with_loaded_image (Windows.observed_process os win pid creation) path
                (Windows.win_Base win path) (ToLower u (Windows.win_Clean win path)) identity).
Proof.
  unfold Windows.Snapshot. destruct cancelled; [done|]. destruct (Z.leb_spec pid 0); [done|].
  destruct (Windows.OpenProcess _ _); [done|].
  destruct (Windows.GetProcessTimes _ _) as [creation|] eqn:E1; [|done].
  destruct (Windows.ProcessImageName _ _) as [path|] eqn:E2; [|done].
  destruct (Windows.windowsFileIdentity _ _) as [identity|] eqn:E3; [|done].
  intros [= <-]. split; [done|]. split; [lia|]. by exists creation, path, identity.
Qed.

#[global] Instance windows_contract os u win : ObserverContract (windows os u win).
Proof.
  assert (Hsnap : forall cancelled pid c, Windows.Snapshot os u win cancelled pid = (c, None) ->
            cancelled = false /\ 0 < pid /\ PID (Cand_Process c) = pid /\ identified c).
  { intros cancelled pid c (-> & Hp & creation & path & identity & _ & _ & _ & ->)%Windows_Snapshot_ok.
    split; [done|]. split; [done|]. apply loaded_image_identified; cbn; [apply FormatInt_nonempty|done]. }
  split; cbn [windows P_Snapshot P_List P_Revalidate P_Listed P_Owned]; [exact Hsnap| |].
  2:{ intros cancelled expected. by apply (revalidate_with_ok (Windows.Snapshot os u win)). }
  intros cancelled limit cs. unfold Windows.List. destruct (cancelled O); [done|].
  destruct (Windows.EnumProcesses win) as [[pids returned]|]; [|done]. intros H.
  apply (scan_from_start (windows os u win)) in H as (Hl & sub & Hs & Hf).
  2:{ intros c pid candidate. unfold Windows.visit. destruct (Windows.owned win pid) eqn:Ho; [|done].
      intros Hk%keep_snapshot_ok. pose proof (Hsnap _ _ _ Hk) as (-> & _). done. }
  split; [done|]. split.
  - eapply ordered_snapshots; [eapply sublist_sorted; [exact Hs|apply pids_sorted]|].
    eapply Forall2_impl; [exact Hf|]. cbn [windows P_Snapshot]. intros pid c [(_ & _ & Hc & _)%Hsnap _]. exact Hc.
  - exists sub. split; [|exact Hf]. rewrite <- (SortFunc_perm Z.compare (Windows.listed pids returned)). by apply sublist_submseteq.
Qed.

(** ** Properties *)

(** C28: every build of the observer keeps the same contract (the one for macOS
    without cgo by failing always).  A snapshot that
    succeeds is of the positive identifier asked for, and has a creation time,
    a boot and a file identity.  A scan returns at most [limit] candidates
    (1000 for a non-positive limit), in the order of their identifiers, each a
    snapshot of a listed process that runs as the current user, no process
    more often than the system listed it.  A revalidation succeeds exactly if
    a fresh snapshot of the same identifier shows the same process and image. *)
Theorem observers_keep_contract :
  (forall os, ObserverContract (linux os))
  /\ (forall os lib, ObserverContract (macos os lib))
  /\ (forall os u win, ObserverContract (windows os u win))
  /\ ObserverContract unsupportedObserver.
Proof.
  split; [apply linux_contract|]. split; [apply macos_contract|].
  split; [apply windows_contract|apply unsupported_contract].
Qed.

(** The loaded executable of a macOS process is the first region of its
    address space that maps a file for execution: the loop succeeds exactly if
    a walk of fewer than 65536 regions, each strictly beyond the one before
    (also where the address computation wraps around) and none of them such a
    mapping, reaches one, and its device and inode are the answer. *)
Theorem loaded_executable_first lib pid device inode :
  Darwin.region_loop lib (Z.to_nat 65536) pid 0 = Ok (device, inode) <->
  exists skipped address r,
    passes lib pid 0 skipped address /\ (length skipped < Z.to_nat 65536)%nat
    /\ region_at lib pid address r /\ Darwin.executable_file r = true
    /\ device = Darwin.vst_dev r /\ inode = Darwin.vst_ino r.
Proof. apply region_loop_found. Qed.

(** A process identifier that does not fit the C interface is truncated: the
    macOS observer then reports another process under the identifier that was
    asked for, and revalidation agrees. *)
Definition renamed (pid : Z) (c : Candidate) : Candidate := {|
  Cand_Platform := Cand_Platform c;
  Cand_Process := {| PID := pid; CreatedAtUnixNano := CreatedAtUnixNano (Cand_Process c);
                     BootIDHash := BootIDHash (Cand_Process c) |};
  Cand_Executable := Cand_Executable c; ParentPID := ParentPID c;
  ExecutablePath := ExecutablePath c; DeclaredExecutablePath := DeclaredExecutablePath c;
  ExecutableFileIdentity := ExecutableFileIdentity c; ExecutableDeleted := ExecutableDeleted c;
  Cand_ArgumentFingerprints := Cand_ArgumentFingerprints c; Inaccessible := Inaccessible c |}.

Lemma wrap32_again pid k : wrap32 (pid + k * 2 ^ 32) = wrap32 pid.
Proof. unfold wrap32. f_equal. rewrite <- (Z_mod_plus_full (pid + 2 ^ 31) k). f_equal. lia. Qed.

Lemma BSDInfo_again lib pid k : Darwin.darwinBSDInfo lib (pid + k * 2 ^ 32) = Darwin.darwinBSDInfo lib pid.
Proof. unfold Darwin.darwinBSDInfo. by rewrite wrap32_again. Qed.

Lemma PIDPath_again lib pid k : Darwin.darwinPIDPath lib (pid + k * 2 ^ 32) = Darwin.darwinPIDPath lib pid.
Proof. unfold Darwin.darwinPIDPath. by rewrite wrap32_again. Qed.

Lemma Identity_again lib pid k :
  Darwin.darwinLoadedExecutableIdentity lib (pid + k * 2 ^ 32) = Darwin.darwinLoadedExecutableIdentity lib pid.
Proof. unfold Darwin.darwinLoadedExecutableIdentity. by rewrite wrap32_again. Qed.

(** A finding on macOS: the snapshot of an identifier is, but for the
    identifier itself, the snapshot of the process whose identifier has the
    same low 32 bits.  A proof for identifier [pid + 2^32] therefore region_at
    process [pid], which the caller did not name. *)
Theorem Darwin_Snapshot_truncates os lib pid k c :
  0 < pid -> 0 <= k -> Darwin.Snapshot os lib false pid = (c, None) ->
  Darwin.Snapshot os lib false (pid + k * 2 ^ 32) = (renamed (pid + k * 2 ^ 32) c, None).
Proof.
  intros Hp Hk (_ & _ & info & path & identity & H1 & H2 & H3 & ->)%Darwin_Snapshot_ok.
  unfold Darwin.Snapshot. destruct (Z.leb_spec (pid + k * 2 ^ 32) 0); [lia|].
  rewrite BSDInfo_again, PIDPath_again, Identity_again, H1, H2, H3. cbv iota zeta.
  unfold observeArguments. rewrite wrap32_again.
  destruct (NewProcess os (wrap32 pid)); [reflexivity|].
  by destruct (CmdlineSlice os (wrap32 pid)) as [[|]|].
Qed.

Definition sample_libproc : Darwin.LibProc := {|
  Darwin.sizeof_bsdinfo := 136; Darwin.sizeof_region := 1272;
  Darwin.proc_bsdinfo pid :=
    {| Darwin.returned := if pid =? 7 then 136 else 0; Darwin.errno := 3;
       Darwin.written := {| Darwin.pbi_start_tvsec := 5; Darwin.pbi_start_tvusec := 1;
                            Darwin.pbi_ppid := 1; Darwin.pbi_uid := 501 |} |};
  Darwin.proc_pidpath _ := {| Darwin.returned := 10; Darwin.written := "/opt/app/a"; Darwin.errno := 0 |};
  Darwin.proc_region _ address :=
    {| Darwin.returned := 1272; Darwin.errno := 0;
       Darwin.written := {| Darwin.pri_protection := if address =? 0 then 3 else 5;
                            Darwin.pri_address := address; Darwin.pri_size := 4096;
                            Darwin.vst_dev := 1; Darwin.vst_ino := 14; Darwin.vip_path := "/opt/app/a" |} |};
  Darwin.proc_listallpids := (2, [9; 7]); Darwin.geteuid := 501; Darwin.kern_boottime := Some (1, 2) |}.

Lemma Darwin_Snapshot_truncates_witness :
  exists c, PID (Cand_Process c) = 7
    /\ Darwin.Snapshot one_process sample_libproc false (7 + 1 * 2 ^ 32) = (renamed (7 + 1 * 2 ^ 32) c, None).
Proof.
  exists (fst (Darwin.Snapshot one_process sample_libproc false 7)). split; [vm_compute; reflexivity|].
  apply (Darwin_Snapshot_truncates one_process sample_libproc 7 1); [lia|lia|].
  apply pair_eq. split; [reflexivity|]. vm_compute. reflexivity.
Defined.
