(* ===== verification/Evaluator.v ===== *)
(** * Verdicts ([internal/evaluator/evaluator.go])

    [Evaluate] turns the collected evidence into a decision.  The theorems
    say when it may answer [MATCHED], [STALE] or [LEAKED], and that every
    decision it takes satisfies the decision registry of [Contract]. *)

From S2P Require Import Prelude GoStrings GoPath Model Contract Expectation Process.

Record Input := {
  In_Candidate : option Candidate;
  In_Expectation : option Resolved;
  In_Artifact : option ArtifactObservation;
  In_ProcessError : option go_error;
  In_ArtifactError : option go_error;
  In_HostError : option go_error;
  KnownPriorDigests : list string       (* the keys mapped to true *)
}.

Record Decision := {
  D_Verdict : string;
  D_ProofLevel : string;
  D_ReasonCodes : list string;
  D_Limitations : list string
}.

(** [decision(verdict, level, reason)]. *)
Definition decision (verdict level reason : string) : Decision :=
  {| D_Verdict := verdict; D_ProofLevel := level; D_ReasonCodes := [reason]; D_Limitations := [] |}.

Definition add_limitation (d : Decision) (l : string) : Decision :=
  {| D_Verdict := D_Verdict d; D_ProofLevel := D_ProofLevel d; D_ReasonCodes := D_ReasonCodes d;
     D_Limitations := D_Limitations d ++ [l] |}.

(** The empty string is "no reason". *)
Definition hostReason (value : option go_error) : string :=
  match value with
  | Some (HostError code) =>
      if code =s "HOST_PROCESS_NOT_RUNNING" then "PROCESS_NOT_FOUND"
      else if (code =s "HOST_PROCESS_AMBIGUOUS") || (code =s "HOST_BINDING_AMBIGUOUS")
      then "HOST_BINDING_AMBIGUOUS"
      else if code =s "HOST_CONFIG_INVALID" then "HOST_CONFIG_INVALID"
      else if code =s "HOST_CONFIG_INACCESSIBLE" then "HOST_CONFIG_INACCESSIBLE"
      else EmptyString
  | _ => EmptyString
  end.

Definition processReason (value : option go_error) : string :=
  match value with
  | Some (ProcessError ErrorNotFound) => "PROCESS_NOT_FOUND"
  | Some (ProcessError ErrorInaccessible) => "PROCESS_INACCESSIBLE"
  | Some (ProcessError ErrorIdentityChanged) => "PROCESS_IDENTITY_CHANGED"
  | _ => EmptyString
  end.

Definition withinAny (roots : list string) (target : string) : bool :=
  if target =s EmptyString then false
  else existsb (fun root =>
         match Rel (Clean root) (Clean target) with
         | Some relative => negb (IsAbs relative) && negb (relative =s "..")
                            && negb (HasPrefix relative (".." +:+ sep))
         | None => false
         end) roots.

(** On Unix the comparison is exact. *)
Definition equivalentPath (left right : string) : bool := Clean left =s Clean right.

Definition optional (reason : string) : list string :=
  if reason =s EmptyString then [] else [reason].

Definition missing_expectation (input : Input) : Decision :=
  {| D_Verdict := "UNKNOWN"; D_ProofLevel := "PROCESS_OBSERVED";
     D_ReasonCodes := ["EXPECTATION_MISSING"] ++ optional (hostReason (In_HostError input))
                      ++ optional (processReason (In_ProcessError input));
     D_Limitations := ["EXPECTATION_MISSING"] |}.

Definition host_decision (err : go_error) : Decision :=
  match err with
  | HostError code =>
      if code =s "HOST_PROCESS_NOT_RUNNING"
      then decision "NOT_RUNNING" "CONFIG_BOUND" "PROCESS_NOT_FOUND"
      else if (code =s "HOST_PROCESS_AMBIGUOUS") || (code =s "HOST_BINDING_AMBIGUOUS")
      then decision "CONFLICT" "CONFIG_BOUND" "HOST_BINDING_AMBIGUOUS"
      else if code =s "HOST_CONFIG_INVALID"
      then decision "UNKNOWN" "CONFIG_BOUND" "HOST_CONFIG_INVALID"
      else decision "UNKNOWN" "CONFIG_BOUND" "HOST_CONFIG_INACCESSIBLE"
  | _ => decision "UNKNOWN" "CONFIG_BOUND" "HOST_CONFIG_INACCESSIBLE"
  end.

Definition process_decision (err : go_error) : Decision :=
  match err with
  | ProcessError ErrorNotFound => decision "NOT_RUNNING" "CONFIG_BOUND" "PROCESS_NOT_FOUND"
  | ProcessError ErrorIdentityChanged =>
      decision "UNKNOWN" "CONFIG_BOUND" "PROCESS_IDENTITY_CHANGED"
  | _ => decision "UNKNOWN" "CONFIG_BOUND" "PROCESS_INACCESSIBLE"
  end.

Definition artifact_decision (err : go_error) : Decision :=
  match err with
  | ArtifactError reason =>
      if negb (reason =s EmptyString) then decision "UNKNOWN" "CONFIG_BOUND" reason
      else decision "UNKNOWN" "CONFIG_BOUND" "ARTIFACT_INACCESSIBLE"
  | _ => decision "UNKNOWN" "CONFIG_BOUND" "ARTIFACT_INACCESSIBLE"
  end.

Definition expected_executable (resolved : Resolved) : string :=
  JoinPath [ArtifactRoot resolved; FromSlash (Entrypoint (Launch (Res_Value resolved)))].

Definition is_native (resolved : Resolved) : bool := Kind (Launch (Res_Value resolved)) =s "native".
Definition is_untrusted (resolved : Resolved) : bool :=
  Trust (Source (Res_Value resolved)) =s "untrusted".

(** The comparison of the digests, once the image is accounted for. *)
Definition compare_digest (input : Input) (resolved : Resolved) (artifact : ArtifactObservation)
  : Decision :=
  if negb (Obs_SHA256 artifact =s Art_SHA256 (Artifact (Res_Value resolved))) then
    if contains (KnownPriorDigests input) (Obs_SHA256 artifact)
    then decision "STALE" "ARTIFACT_OBSERVED" "ARTIFACT_MISMATCH"
    else decision "UNKNOWN" "ARTIFACT_OBSERVED" "POSSIBLE_STALE_AFTER_REPLACEMENT"
  else if negb (is_native resolved) then
    let result := decision "UNKNOWN" "ARTIFACT_OBSERVED" "PLATFORM_EVIDENCE_UNAVAILABLE" in
    let result := if is_untrusted resolved
                  then add_limitation result "EXPECTATION_UNTRUSTED" else result in
    add_limitation result "DYNAMIC_DEPENDENCIES_UNPROVEN"
  else
    let result := decision "MATCHED" "ARTIFACT_OBSERVED" "MATCH_CONFIRMED" in
    if is_untrusted resolved then add_limitation result "EXPECTATION_UNTRUSTED" else result.

Definition artifact_checks (input : Input) (resolved : Resolved) (candidate : Candidate) : Decision :=
  match In_ArtifactError input with
  | Some err => artifact_decision err
  | None =>
      match In_Artifact input with
      | None => decision "UNKNOWN" "CONFIG_BOUND" "ARTIFACT_INACCESSIBLE"
      | Some artifact =>
          if is_native resolved
             && ((ExecutableFileIdentity candidate =s EmptyString)
                 || (EntrypointFileIdentity artifact =s EmptyString))
          then decision "UNKNOWN" "ARTIFACT_OBSERVED" "PLATFORM_EVIDENCE_UNAVAILABLE"
          else if is_native resolved
                  && negb (ExecutableFileIdentity candidate =s EntrypointFileIdentity artifact)
          then decision "UNKNOWN" "ARTIFACT_OBSERVED" "POSSIBLE_STALE_AFTER_REPLACEMENT"
          else if is_native resolved
                  && (0 <? length (Launch_ArgumentFingerprints (Launch (Res_Value resolved))))%nat
          then decision "UNKNOWN" "ARTIFACT_OBSERVED" "PLATFORM_EVIDENCE_UNAVAILABLE"
          else compare_digest input resolved artifact
      end
  end.

Definition Evaluate (input : Input) : Decision :=
  match In_Expectation input with
  | None => missing_expectation input
  | Some resolved =>
      match In_HostError input with
      | Some err => host_decision err
      | None =>
          match In_ProcessError input with
          | Some err => process_decision err
          | None =>
              match In_Candidate input with
              | None => decision "UNKNOWN" "CONFIG_BOUND" "PROCESS_INACCESSIBLE"
              | Some candidate =>
                  if is_native resolved
                     && negb (withinAny (Res_AllowedRoots resolved) (DeclaredExecutablePath candidate))
                  then decision "LEAKED" "CONFIG_BOUND" "RUNTIME_OUTSIDE_ALLOWED_ROOT"
                  else if is_native resolved
                          && negb (equivalentPath (expected_executable resolved)
                                     (DeclaredExecutablePath candidate))
                  then decision "UNKNOWN" "CONFIG_BOUND" "HOST_BINDING_AMBIGUOUS"
                  else artifact_checks input resolved candidate
              end
          end
      end
  end.

(** ** When is a verdict given *)

(** No error was reported and everything needed was observed. *)
Definition evidence (input : Input) (resolved : Resolved) (candidate : Candidate)
  (artifact : ArtifactObservation) : Prop :=
  In_Expectation input = Some resolved /\ In_HostError input = None
  /\ In_ProcessError input = None /\ In_Candidate input = Some candidate
  /\ In_ArtifactError input = None /\ In_Artifact input = Some artifact.

(** The running image is the entrypoint whose artifact was read. *)
Definition same_image (resolved : Resolved) (candidate : Candidate) (artifact : ArtifactObservation)
  : Prop :=
  withinAny (Res_AllowedRoots resolved) (DeclaredExecutablePath candidate) = true
  /\ equivalentPath (expected_executable resolved) (DeclaredExecutablePath candidate) = true
  /\ ExecutableFileIdentity candidate <> EmptyString
  /\ ExecutableFileIdentity candidate = EntrypointFileIdentity artifact
  /\ Launch_ArgumentFingerprints (Launch (Res_Value resolved)) = [].

(** Verdicts that no failed step gives. *)
Definition conclusive (verdict : string) : Prop :=
  verdict = "MATCHED" \/ verdict = "STALE" \/ verdict = "LEAKED".

Ltac not_conclusive := intros [[=]|[[=]|[=]]].

Lemma missing_inconclusive input : ~ conclusive (D_Verdict (missing_expectation input)).
Proof. not_conclusive. Qed.

Lemma host_inconclusive err : ~ conclusive (D_Verdict (host_decision err)).
Proof. unfold host_decision. repeat case_match; not_conclusive. Qed.

Lemma process_inconclusive err : ~ conclusive (D_Verdict (process_decision err)).
Proof. unfold process_decision. repeat case_match; not_conclusive. Qed.

Lemma artifact_inconclusive err : ~ conclusive (D_Verdict (artifact_decision err)).
Proof. unfold artifact_decision. repeat case_match; not_conclusive. Qed.

Definition contained_image (resolved : Resolved) (candidate : Candidate) : bool :=
  withinAny (Res_AllowedRoots resolved) (DeclaredExecutablePath candidate).

(** The path a conclusive verdict takes: every step succeeded, and either the
    native image was outside the allowed roots, or the evidence reached the
    comparison of the digests. *)
Lemma Evaluate_conclusive input :
  conclusive (D_Verdict (Evaluate input)) ->
  exists resolved candidate,
    In_Expectation input = Some resolved /\ In_HostError input = None
    /\ In_ProcessError input = None /\ In_Candidate input = Some candidate
    /\ ((is_native resolved = true /\ contained_image resolved candidate = false
         /\ Evaluate input = decision "LEAKED" "CONFIG_BOUND" "RUNTIME_OUTSIDE_ALLOWED_ROOT")
        \/ exists artifact, evidence input resolved candidate artifact
            /\ (is_native resolved = true -> same_image resolved candidate artifact)
            /\ Evaluate input = compare_digest input resolved artifact).
Proof.
  unfold Evaluate, evidence, same_image, contained_image, artifact_checks.
  destruct (In_Expectation input) as [r|]; [|intros []%missing_inconclusive].
  destruct (In_HostError input); [intros []%host_inconclusive|].
  destruct (In_ProcessError input); [intros []%process_inconclusive|].
  destruct (In_Candidate input) as [c|]; [|not_conclusive].
  destruct (is_native r) eqn:En; cbn [andb].
  - destruct (withinAny _ _) eqn:Ew; cbn [negb]; [|intros _; exists r, c; repeat split; try done; by left].
    destruct (equivalentPath _ _) eqn:Ee; cbn [negb]; [|not_conclusive].
    destruct (In_ArtifactError input); [intros []%artifact_inconclusive|].
    destruct (In_Artifact input) as [a|]; [|not_conclusive].
    destruct (String.eqb_spec (ExecutableFileIdentity c) EmptyString); cbn [orb]; [not_conclusive|].
    destruct (String.eqb_spec (EntrypointFileIdentity a) EmptyString); [not_conclusive|].
    destruct (String.eqb_spec (ExecutableFileIdentity c) (EntrypointFileIdentity a)) as [Hi|];
      cbn [negb]; [|not_conclusive].
    destruct (Launch_ArgumentFingerprints _) eqn:Ef; [|not_conclusive].
    intros _. exists r, c. repeat split; try done. right. exists a. by repeat split.
  - destruct (In_ArtifactError input); [intros []%artifact_inconclusive|].
    destruct (In_Artifact input) as [a|]; [|not_conclusive].
    intros _. exists r, c. repeat split; try done. right. exists a.
    split; [by repeat split|]. split; [congruence|done].
Qed.

(** Evidence that is complete leads to the comparison of the digests. *)
Lemma Evaluate_evidence input r c a :
  evidence input r c a -> (is_native r = true -> same_image r c a) ->
  Evaluate input = compare_digest input r a.
Proof.
  unfold evidence, Evaluate, artifact_checks. intros (-> & -> & -> & -> & -> & ->) Hs.
  destruct (is_native r); cbn [andb]; [|done].
  destruct (Hs eq_refl) as (-> & -> & He & Hi & Hf). cbn [negb].
  rewrite <- Hi, (proj2 (String.eqb_neq _ _) He), String.eqb_refl, Hf. done.
Qed.

Lemma compare_digest_matched input r a :
  D_Verdict (compare_digest input r a) = "MATCHED" <->
  is_native r = true /\ Obs_SHA256 a = Art_SHA256 (Artifact (Res_Value r)).
Proof.
  unfold compare_digest. destruct (String.eqb_spec (Obs_SHA256 a) (Art_SHA256 (Artifact (Res_Value r))));
    cbn [negb]; [|destruct (contains _ _); intuition done].
  destruct (is_native r); cbn [negb]; destruct (is_untrusted r); intuition done.
Qed.

(** C6: a match is never reported on partial or foreign evidence: [MATCHED]
    is answered exactly when no step failed, the expectation is a native
    program, the running image lies under an allowed root at the expected
    path with the very file identity of the entrypoint that was read, no
    argument fingerprint is left unchecked, and the digest is the expected
    one. *)
Theorem Evaluate_matched input :
  D_Verdict (Evaluate input) = "MATCHED" <->
  exists resolved candidate artifact,
    evidence input resolved candidate artifact
    /\ is_native resolved = true /\ same_image resolved candidate artifact
    /\ Obs_SHA256 artifact = Art_SHA256 (Artifact (Res_Value resolved)).
Proof.
  split.
  - intros H. assert (Hc : conclusive (D_Verdict (Evaluate input))) by by left.
    apply Evaluate_conclusive in Hc as (r & c & _ & _ & _ & _ & [(_ & _ & He)|(a & Hev & Hs & He)]).
    + by rewrite He in H.
    + rewrite He in H. apply compare_digest_matched in H as [Hn Hd]. eauto 10.
  - intros (r & c & a & Hev & Hn & Hs & Hd). rewrite (Evaluate_evidence input r c a) by auto.
    by apply compare_digest_matched.
Qed.

(** [STALE] needs direct evidence of an older release: every step
    succeeded, a native image is the entrypoint that was read, and the digest
    read differs from the expected one and is among the known prior ones. *)
Theorem Evaluate_stale input :
  D_Verdict (Evaluate input) = "STALE" <->
  exists resolved candidate artifact,
    evidence input resolved candidate artifact
    /\ (is_native resolved = true -> same_image resolved candidate artifact)
    /\ Obs_SHA256 artifact <> Art_SHA256 (Artifact (Res_Value resolved))
    /\ contains (KnownPriorDigests input) (Obs_SHA256 artifact) = true.
Proof.
  assert (Hcd : forall r a, D_Verdict (compare_digest input r a) = "STALE" <->
    Obs_SHA256 a <> Art_SHA256 (Artifact (Res_Value r))
    /\ contains (KnownPriorDigests input) (Obs_SHA256 a) = true).
  { intros r a. unfold compare_digest.
    destruct (String.eqb_spec (Obs_SHA256 a) (Art_SHA256 (Artifact (Res_Value r)))); cbn [negb];
      [|destruct (contains _ _); intuition done].
    destruct (is_native r); cbn [negb]; destruct (is_untrusted r); intuition done. }
  split.
  - intros H. assert (Hc : conclusive (D_Verdict (Evaluate input))) by (by right; left).
    apply Evaluate_conclusive in Hc as (r & c & _ & _ & _ & _ & [(_ & _ & He)|(a & Hev & Hs & He)]).
    + by rewrite He in H.
    + rewrite He in H. apply Hcd in H. eauto 10.
  - intros (r & c & a & Hev & Hs & Hd). rewrite (Evaluate_evidence input r c a) by auto.
    by apply Hcd.
Qed.

(** [LEAKED] is answered exactly when a native runtime was observed
    without host or process error outside every allowed root. *)
Theorem Evaluate_leaked input :
  D_Verdict (Evaluate input) = "LEAKED" <->
  exists resolved candidate,
    In_Expectation input = Some resolved /\ In_HostError input = None
    /\ In_ProcessError input = None /\ In_Candidate input = Some candidate
    /\ is_native resolved = true /\ contained_image resolved candidate = false.
Proof.
  split.
  - intros H. assert (Hc : conclusive (D_Verdict (Evaluate input))) by (by right; right).
    apply Evaluate_conclusive in Hc as (r & c & H1 & H2 & H3 & H4 & [(Hn & Hi & _)|(a & _ & _ & He)]).
    + by exists r, c.
    + exfalso. rewrite He in H. unfold compare_digest in H.
      repeat (case_match; simpl in H; try discriminate H).
  - intros (r & c & H1 & H2 & H3 & H4 & Hn & Hi). unfold Evaluate.
    unfold contained_image in Hi. by rewrite H1, H2, H3, H4, Hn, Hi.
Qed.

(** ** Agreement with the decision registry *)

(** The reasons of [domainError] in [internal/artifact]. *)
Definition artifact_reasons : list string :=
  ["ARTIFACT_CHANGED_DURING_READ"; "ARTIFACT_SCAN_LIMIT_EXCEEDED"; "ARTIFACT_INACCESSIBLE";
   "ARTIFACT_PATH_ESCAPE"; "ARTIFACT_SYMLINK_REJECTED"; "ARTIFACT_NORMALIZATION_COLLISION";
   "ARTIFACT_UNSUPPORTED_TYPE"; "EXPECTATION_INVALID"; "SCAN_CANCELLED";
   "PLATFORM_EVIDENCE_UNAVAILABLE"].

Definition registered_error (err : option go_error) : Prop :=
  match err with Some (ArtifactError reason) => reason ∈ artifact_reasons | _ => True end.

(** The reason-code part of [validateProofSemantics]. *)
Definition lawful (d : Decision) : Prop :=
  eachM (check_reason decisions (D_Verdict d) (D_ProofLevel d)) (D_ReasonCodes d ++ D_Limitations d)
  = Ok tt.

Lemma host_lawful err : lawful (host_decision err).
Proof. unfold host_decision. by repeat case_match. Qed.

Lemma process_lawful err : lawful (process_decision err).
Proof. unfold process_decision. by repeat case_match. Qed.

Lemma artifact_lawful err : registered_error (Some err) -> lawful (artifact_decision err).
Proof.
  unfold artifact_decision, registered_error. destruct err as [| |reason|]; try done.
  intros Hin. destruct (_ =s _); [done|]. cbn [negb]. unfold artifact_reasons in Hin.
  repeat (apply elem_of_cons in Hin as [->|Hin]; [done|]). by apply not_elem_of_nil in Hin.
Qed.

Lemma compare_lawful input r a : lawful (compare_digest input r a).
Proof. unfold compare_digest. by repeat case_match. Qed.

Lemma optional_reasons (input : Input) :
  Forall (fun code => check_reason decisions "UNKNOWN" "PROCESS_OBSERVED" code = Ok tt)
    (optional (hostReason (In_HostError input)) ++ optional (processReason (In_ProcessError input))).
Proof.
  apply Forall_app; split; unfold optional, hostReason, processReason;
    repeat case_match; repeat constructor; done.
Qed.

Lemma decision_lawful input :
  registered_error (In_ArtifactError input) -> lawful (Evaluate input).
Proof.
  intros Ha. unfold Evaluate, artifact_checks.
  destruct (In_Expectation input) as [r|].
  - destruct (In_HostError input); [apply host_lawful|].
    destruct (In_ProcessError input); [apply process_lawful|].
    destruct (In_Candidate input) as [c|]; [|done].
    do 2 (destruct (_ && _); [done|]).
    destruct (In_ArtifactError input); [by apply artifact_lawful|].
    destruct (In_Artifact input) as [a|]; [|done].
    do 3 (destruct (_ && _); [done|]). apply compare_lawful.
  - unfold lawful, missing_expectation. cbn [D_Verdict D_ProofLevel D_ReasonCodes D_Limitations].
    apply eachM_ok. apply Forall_app; split; [|by constructor].
    constructor; [done|]. apply optional_reasons.
Qed.

(** C29: every decision obeys the published registry: for whatever evidence
    and errors the packages report, each reason code and limitation is
    registered, allowed for the verdict given with it, and supported by the
    proof level claimed. *)
Theorem Evaluate_lawful input :
  registered_error (In_ArtifactError input) -> lawful (Evaluate input).
Proof. apply decision_lawful. Qed.

Definition no_evidence : Input := {|
  In_Candidate := None; In_Expectation := Some sample_resolved; In_Artifact := None;
  In_ProcessError := None; In_ArtifactError := Some (ArtifactError "ARTIFACT_PATH_ESCAPE");
  In_HostError := None; KnownPriorDigests := [] |}.

Lemma Evaluate_lawful_witness :
  registered_error (In_ArtifactError no_evidence) /\ lawful (Evaluate no_evidence).
Proof.
  assert (H : registered_error (In_ArtifactError no_evidence)).
  { unfold registered_error, artifact_reasons. simpl. do 3 right. left. }
  split; [exact H|]. apply (Evaluate_lawful no_evidence). exact H.
Defined.
