(* ===== verification/HostBinding.v ===== *)
(** * Host bindings ([internal/hostprofile/binding.go])

    A binding ties a server declared in a host's configuration to the command
    it starts; [Match] looks for the one running process that is it. *)

From S2P Require Import Prelude GoStrings GoPath Model Process.

Record RawBinding := {
  Raw_HostID : string;
  Raw_SourceID : string;
  Raw_ServerName : string;
  Raw_Command : string;
  Raw_Args : list string
}.

Record Binding := {
  B_ID : string;
  B_HostID : string;
  B_ServerName : string;
  CommandBasename : string;
  CommandPathHash : string;
  B_ArgumentFingerprints : list ArgumentFingerprint;
  ConfigSourceHash : string;
  Confidence : string;
  resolvedCommand : string;
  arguments : list string
}.

(** [normalizeCommandPath] and [sameCommandPath], on Unix. *)
Definition normalizeCommandPath (value : string) : string := Clean value.
Definition sameCommandPath (left right : string) : bool :=
  normalizeCommandPath left =s normalizeCommandPath right.

Definition newBinding (raw : RawBinding) (configHash : string) : Binding :=
  let bound := IsAbs (Raw_Command raw) in
  let command := if bound then Clean (Raw_Command raw) else Raw_Command raw in
  {| B_ID := Raw_HostID raw +:+ "." +:+ Raw_ServerName raw;
     B_HostID := Raw_HostID raw;
     B_ServerName := Raw_ServerName raw;
     CommandBasename := Base command;
     CommandPathHash := if bound
                        then hashIdentifier "arp:host-command-path:v1" (normalizeCommandPath command)
                        else EmptyString;
     B_ArgumentFingerprints := fingerprints_from 0 (Raw_Args raw);
     ConfigSourceHash := configHash;
     Confidence := if bound then "bound" else "hint";
     resolvedCommand := if bound then command else EmptyString;
     arguments := Raw_Args raw |}.

(** The loop of [sameArgumentFingerprints] over the indices of [expected]. *)
Fixpoint same_fingerprints (observed expected : list ArgumentFingerprint) : bool :=
  match expected, observed with
  | [], _ => true
  | e :: expected', o :: observed' => bool_decide (o = e) && same_fingerprints observed' expected'
  | _ :: _, [] => false
  end.

Definition sameArgumentFingerprints (observed expected : list ArgumentFingerprint) : bool :=
  if negb (length observed =? length expected)%nat then false
  else same_fingerprints observed expected.

Definition candidatePath (candidate : Candidate) : string :=
  if DeclaredExecutablePath candidate =s EmptyString
  then ExecutablePath candidate else DeclaredExecutablePath candidate.

Definition matches (binding : Binding) (candidate : Candidate) : bool :=
  sameCommandPath (candidatePath candidate) (resolvedCommand binding)
  && sameArgumentFingerprints (Cand_ArgumentFingerprints candidate) (B_ArgumentFingerprints binding).

Definition Match (binding : Binding) (candidates : list Candidate) : result go_error Candidate :=
  if negb (Confidence binding =s "bound") || (resolvedCommand binding =s EmptyString)
  then Err (HostError "HOST_PROCESS_NOT_RUNNING")
  else
    match List.filter (matches binding) candidates with
    | [] => Err (HostError "HOST_PROCESS_NOT_RUNNING")
    | [c] => Ok c
    | _ => Err (HostError "HOST_PROCESS_AMBIGUOUS")
    end.

(** ** Properties *)

Lemma sameArgumentFingerprints_eq observed expected :
  sameArgumentFingerprints observed expected = true <-> observed = expected.
Proof.
  unfold sameArgumentFingerprints. split.
  - destruct (Nat.eqb_spec (length observed) (length expected)) as [Hl|]; [|done]. simpl.
    revert observed Hl. induction expected as [|e expected IH]; intros [|o observed] Hl; try done.
    simpl in *. intros [->%bool_decide_eq_true H]%andb_true_iff. f_equal. apply IH; [lia|done].
  - intros ->. rewrite Nat.eqb_refl. simpl. induction expected as [|e expected IH]; [done|].
    simpl. rewrite IH, andb_true_r. by apply bool_decide_eq_true.
Qed.

(** The processes a binding describes: the declared command by cleaned path,
    and every argument by position and hash. *)
Definition describes (binding : Binding) (candidate : Candidate) : Prop :=
  Clean (candidatePath candidate) = Clean (resolvedCommand binding)
  /\ Cand_ArgumentFingerprints candidate = B_ArgumentFingerprints binding.

Lemma matches_describes binding candidate :
  matches binding candidate = true <-> describes binding candidate.
Proof.
  unfold matches, describes, sameCommandPath, normalizeCommandPath.
  by rewrite andb_true_iff, String.eqb_eq, sameArgumentFingerprints_eq.
Qed.

Lemma filter_single {A} (f : A -> bool) l c :
  List.filter f l = [c] <->
  exists l1 l2, l = l1 ++ c :: l2 /\ f c = true
                /\ Forall (fun x => f x = false) l1 /\ Forall (fun x => f x = false) l2.
Proof.
  assert (Hnil : forall l', List.filter f l' = [] <-> Forall (fun x => f x = false) l').
  { induction l' as [|x l' IH]; simpl; [by split|]. rewrite Forall_cons.
    destruct (f x); [split; [done|by intros [? _]]|]. rewrite IH. tauto. }
  split.
  - induction l as [|x l IH]; simpl; [done|]. destruct (f x) eqn:E.
    + intros [= -> H%Hnil]. by exists [], l.
    + intros (l1 & l2 & -> & Hc & H1 & H2)%IH. exists (x :: l1), l2. by repeat constructor.
  - intros (l1 & l2 & -> & Hc & H1 & H2). rewrite List.filter_app. simpl. rewrite Hc.
    apply Hnil in H1 as ->. by apply Hnil in H2 as ->.
Qed.

Lemma Match_ok raw configHash candidates c :
  let binding := newBinding raw configHash in
  Match binding candidates = Ok c <->
  IsAbs (Raw_Command raw) = true /\ describes binding c /\
  exists l1 l2, candidates = l1 ++ c :: l2
    /\ Forall (fun x => ~ describes binding x) (l1 ++ l2).
Proof.
  cbv zeta. set (binding := newBinding raw configHash).
  assert (Hb : negb (Confidence binding =s "bound") || (resolvedCommand binding =s EmptyString)
               = negb (IsAbs (Raw_Command raw))).
  { subst binding. unfold newBinding. cbn [Confidence resolvedCommand].
    destruct (IsAbs (Raw_Command raw)) eqn:E; [|done]. cbn [negb].
    change (false || (Clean (Raw_Command raw) =s EmptyString) = false).
    apply String.eqb_neq.
    by apply IsAbs_nonempty, IsAbs_Clean. }
  assert (Hn : forall x, matches binding x = false <-> ~ describes binding x).
  { intros x. rewrite <- matches_describes. by destruct (matches binding x). }
  unfold Match. rewrite Hb. destruct (IsAbs (Raw_Command raw)); cbn [negb].
  - transitivity (List.filter (matches binding) candidates = [c]).
    { destruct (List.filter _ _) as [|x [|y l]]; split; intros; congruence. }
    rewrite filter_single, <- matches_describes. setoid_rewrite Forall_app.
    setoid_rewrite <- Hn. split.
    + intros (l1 & l2 & -> & Hc & H1 & H2). split; [done|]. split; [done|]. by exists l1, l2.
    + intros (_ & Hc & l1 & l2 & -> & H1 & H2). by exists l1, l2.
  - split; [done|]. intros (? & _). done.
Qed.

(** A binding is attributed to a process only when it is the only one it
    describes: [Match] returns a candidate exactly when the binding has an
    absolute command and that candidate is the single one of the scan whose
    path and full argument list agree. *)
Theorem Match_unique raw configHash candidates c :
  let binding := newBinding raw configHash in
  Match binding candidates = Ok c <->
  IsAbs (Raw_Command raw) = true /\ describes binding c /\
  exists l1 l2, candidates = l1 ++ c :: l2
    /\ Forall (fun x => ~ describes binding x) (l1 ++ l2).
Proof. apply Match_ok. Qed.
