(* ===== verification/HostParse.v ===== *)
(** * Host configuration files ([internal/hostprofile/parse.go], [parse_yaml.go])

    Reading the server declarations out of a JSON, JSONC, TOML or YAML
    configuration: the bounded strict decoders and the projection that keeps
    only direct commands.  The TOML, YAML and JSONC readers are third-party
    code and enter as parameters; the checks the program makes on what they
    return are modelled. *)

From S2P Require Import Prelude GoStrings GoPath Model GoJson Canonical Contract RoundTrip.
From S2P Require Import HostBinding.

Definition maximumConfigDepth : Z := 128.
Definition maximumConfigValues : Z := 4096.
Definition maximumConfigServers : Z := 128.
Definition maximumConfigArgs : Z := 128.
Definition maximumScalarBytes : Z := 8192.

Inductive config_error := InvalidConfig | ReaderError | ConfigOutOfFuel.

Record ConfigSource := {
  Cfg_SourceID : string;
  Cfg_Platforms : list string;
  CandidatePaths : list string;
  Format : string;
  Dialect : string;
  MaximumBytes : Z;
  SecretFields : list string
}.

Record ProcessMatcher := {
  Basenames : list string;
  BundleIDs : list string;
  PublisherNames : list string
}.

Record Profile := {
  Prof_SchemaVersion : string;
  Prof_HostID : string;
  Prof_DisplayName : string;
  FixtureVersion : string;
  Prof_Platforms : list string;
  ProcessMatchers : list ProcessMatcher;
  ConfigSources : list ConfigSource
}.

(** A [yaml.Node]. *)
Inductive yaml_kind := DocumentNode | SequenceNode | MappingNode | ScalarNode | AliasNode.
Inductive yaml_node :=
  YNode (kind : yaml_kind) (tag value anchor : string) (content : list yaml_node).

(** ** Strict decoding *)

Definition read_token (d : decoder) : result config_error (token * decoder) :=
  map_err (fun _ => ReaderError) (Token d).

Definition close_with (c : ascii) (d : decoder) : result config_error decoder :=
  match Token d with
  | Ok (TDelim c', d') => if Ascii.eqb c' c then Ok d' else Err InvalidConfig
  | _ => Err InvalidConfig
  end.

Definition within_limits (depth count : Z) : bool :=
  negb ((maximumConfigDepth <? depth) || (maximumConfigValues <=? count)).

(** [decodeJSONValue] with its two loops; [count] is threaded as the pointer
    is.  The fuel is only the recursion's measure: [decodeStrictJSON_total]. *)
Fixpoint decodeJSONValue (fuel : nat) (depth : Z) (d : decoder) (count : Z)
  : result config_error (json * decoder * Z) :=
  match fuel with
  | O => Err ConfigOutOfFuel
  | S fuel' =>
      check! within_limits depth count else InvalidConfig in
      let count := count + 1 in
      let! (tok, d1) := read_token d in
      match tok with
      | TDelim c =>
          if Ascii.eqb c "{" then
            let! (object, d2, count) := json_members fuel' depth d1 count [] in
            let! d3 := close_with "}" d2 in Ok (JObject object, d3, count)
          else if Ascii.eqb c "[" then
            let! (array, d2, count) := json_items fuel' depth d1 count [] in
            let! d3 := close_with "]" d2 in Ok (JArray array, d3, count)
          else Err InvalidConfig
      | TString text =>
          check! negb (maximumScalarBytes <? slen text) else InvalidConfig in
          Ok (JString text, d1, count)
      | TNumber t => Ok (JNumber t, d1, count)
      | TBool b => Ok (JBool b, d1, count)
      | TNull => Ok (JNull, d1, count)
      end
  end
with json_members (fuel : nat) (depth : Z) (d : decoder) (count : Z) (object : list (string * json))
  : result config_error (list (string * json) * decoder * Z) :=
  match fuel with
  | O => Err ConfigOutOfFuel
  | S fuel' =>
      if More d then
        let! (keyToken, d1) := read_token d in
        match keyToken with
        | TString key =>
            check! negb (maximumScalarBytes <? slen key) else InvalidConfig in
            if existsb (fun kv => fst kv =s key) object then Err InvalidConfig
            else
              let! (value, d2, count) := decodeJSONValue fuel' (depth + 1) d1 count in
              json_members fuel' depth d2 count (object ++ [(key, value)])
        | _ => Err InvalidConfig
        end
      else Ok (object, d, count)
  end
with json_items (fuel : nat) (depth : Z) (d : decoder) (count : Z) (array : list json)
  : result config_error (list json * decoder * Z) :=
  match fuel with
  | O => Err ConfigOutOfFuel
  | S fuel' =>
      if More d then
        let! (value, d1, count) := decodeJSONValue fuel' (depth + 1) d count in
        json_items fuel' depth d1 count (array ++ [value])
      else Ok (array, d, count)
  end.

Definition decodeStrictJSON (document : string) : result config_error json :=
  let d := NewDecoder document in
  let! (value, d', _) := decodeJSONValue (2 * remaining d + 2) 0 d 0 in
  match Token d' with
  | Err EOF => Ok value
  | _ => Err InvalidConfig
  end.

(** [validateDecodedTree]; the result is the new count. *)
Fixpoint validateDecodedTree (value : json) (depth count : Z) : result config_error Z :=
  check! within_limits depth count else InvalidConfig in
  let count := count + 1 in
  match value with
  | JObject m =>
      (fix go (m : list (string * json)) (count : Z) : result config_error Z :=
         match m with
         | [] => Ok count
         | (key, child) :: rest =>
             check! negb (maximumScalarBytes <? slen key) else InvalidConfig in
             let! count := validateDecodedTree child (depth + 1) count in
             go rest count
         end) m count
  | JArray l =>
      (fix go (l : list json) (count : Z) : result config_error Z :=
         match l with
         | [] => Ok count
         | child :: rest =>
             let! count := validateDecodedTree child (depth + 1) count in go rest count
         end) l count
  | JString s => if maximumScalarBytes <? slen s then Err InvalidConfig else Ok count
  | _ => Ok count
  end.

Definition tag_is (tag short : string) : bool :=
  (tag =s ("!!" +:+ short)) || (tag =s ("tag:yaml.org,2002:" +:+ short)).

Definition yaml_key (key : yaml_node) : result config_error string :=
  match key with
  | YNode ScalarNode tag value _ _ =>
      check! tag_is tag "str" && negb (value =s "<<") && negb (maximumScalarBytes <? slen value)
        else InvalidConfig in Ok value
  | _ => Err InvalidConfig
  end.

Fixpoint decodeYAMLNode (node : yaml_node) (depth count : Z) : result config_error (json * Z) :=
  match node with
  | YNode kind tag value anchor content =>
      check! within_limits depth count && (anchor =s EmptyString)
             && negb (match kind with AliasNode => true | _ => false end) else InvalidConfig in
      let count := count + 1 in
      match kind with
      | MappingNode =>
          check! tag_is tag "map" && Nat.even (length content) else InvalidConfig in
          let! (object, count) :=
            (fix go (content : list yaml_node) (count : Z) (object : list (string * json))
               : result config_error (list (string * json) * Z) :=
               match content with
               | key :: child :: rest =>
                   let! k := yaml_key key in
                   if existsb (fun kv => fst kv =s k) object then Err InvalidConfig
                   else
                     let! (v, count) := decodeYAMLNode child (depth + 1) count in
                     go rest count (object ++ [(k, v)])
               | _ => Ok (object, count)
               end) content count [] in
          Ok (JObject object, count)
      | SequenceNode =>
          check! tag_is tag "seq" else InvalidConfig in
          let! (items, count) :=
            (fix go (content : list yaml_node) (count : Z) (items : list json)
               : result config_error (list json * Z) :=
               match content with
               | child :: rest =>
                   let! (v, count) := decodeYAMLNode child (depth + 1) count in
                   go rest count (items ++ [v])
               | [] => Ok (items, count)
               end) content count [] in
          Ok (JArray items, count)
      | ScalarNode =>
          if maximumScalarBytes <? slen value then Err InvalidConfig
          else if tag_is tag "str" then Ok (JString value, count)
          else if tag_is tag "bool" then Ok (JBool (value =s "true"), count)
          else if tag_is tag "null" then Ok (JNull, count)
          else Err InvalidConfig
      | _ => Err InvalidConfig
      end
  end.

(** [decodeStrictYAML] on the stream of documents the reader yields. *)
Definition decodeStrictYAML (documents : option (list yaml_node)) : result config_error json :=
  match documents with
  | Some [YNode _ _ _ _ [root]] => let! (v, _) := decodeYAMLNode root 0 0 in Ok v
  | _ => Err InvalidConfig
  end.

(** ** Projection *)

Definition objectAt (value : json) : result config_error (list (string * json)) :=
  match value with JObject m => Ok m | _ => Err InvalidConfig end.

(** A Go map read with the presence flag. *)
Definition lookup_key (m : list (string * json)) (k : string) : option json :=
  match find (fun kv => fst kv =s k) m with Some kv => Some (snd kv) | None => None end.
Definition member_at (m : list (string * json)) (k : string) : json :=
  default JNull (lookup_key m k).

Definition safe_first (character : Z) : bool :=
  in_range 97 122 character || in_range 65 90 character || in_range 48 57 character.
Definition safe_char (character : Z) : bool :=
  safe_first character || (character =? 46) || (character =? 95) || (character =? 45).

(** [validateSafeIdentifier(value) == nil]: the loop over runes, the first
    one restricted further. *)
Definition validateSafeIdentifier (value : string) : bool :=
  if (value =s EmptyString) || (128 <? slen value) then false
  else match runes value with
       | first :: rest =>
           safe_char first && negb ((first =? 46) || (first =? 95) || (first =? 45))
           && forallb safe_char rest
       | [] => true
       end.

Definition text_of (item : json) : result config_error string :=
  match item with JString s => Ok s | _ => Err InvalidConfig end.

Definition stringSlice (value : json) : result config_error (list string) :=
  match value with
  | JArray raw =>
      check! negb (maximumConfigArgs <? Z.of_nat (length raw)) else InvalidConfig in
      mapM_ text_of raw
  | _ => Err InvalidConfig
  end.

Definition optionalStringSlice (value : json) : result config_error (list string) :=
  match value with JNull => Ok [] | _ => stringSlice value end.

Definition unsafeDynamic (value : string) : bool :=
  has_byte value (byte_of 0) || Contains value "${" || Contains value "$(" || Contains value "`".

Definition shells : list string := ["sh"; "bash"; "zsh"; "fish"; "cmd"; "powershell"; "pwsh"].

Section Project.
Variable u : UnicodeTables.

Definition command_name (command : string) : string :=
  TrimSuffix (ToLower u (Base (ReplaceAll command (byte_string 92) "/"))) ".exe".

(** [validateDirectCommand(command, args) == nil]. *)
Definition validateDirectCommand (command : string) (args : list string) : bool :=
  if (command =s EmptyString) || (maximumScalarBytes <? slen command) || unsafeDynamic command
     || (maximumConfigArgs <? Z.of_nat (length args)) then false
  else if existsb (String.eqb (command_name command)) shells then false
  else forallb (fun argument => negb ((argument =s EmptyString)
                  || (maximumScalarBytes <? slen argument) || unsafeDynamic argument)) args.

Definition secret_entry (kv : string * json) : bool :=
  validateSafeIdentifier (fst kv)
  && match snd kv with JString text => negb (maximumScalarBytes <? slen text) | _ => false end.

(** [validateSecretMaps(server) == nil]: the values are checked, not kept. *)
Definition validateSecretMaps (server : list (string * json)) : bool :=
  forallb (fun name =>
    match lookup_key server name with
    | None => true
    | Some (JObject values) => forallb secret_entry values
    | Some _ => false
    end) ["env"; "environment"; "headers"; "http_headers"].

Definition remote (server : list (string * json)) : bool :=
  match lookup_key server "url" with
  | Some _ => true
  | None =>
      match member_at server "type" with
      | JString kind => negb (kind =s "stdio") && negb (kind =s "local")
      | _ => false
      end
  end.

Definition command_line (server : list (string * json)) (commandArray : bool)
  : result config_error (string * list string) :=
  if commandArray then
    match stringSlice (member_at server "command") with
    | Ok (command :: args) => Ok (command, args)
    | _ => Err InvalidConfig
    end
  else
    match member_at server "command" with
    | JString command => let! args := optionalStringSlice (member_at server "args") in
                         Ok (command, args)
    | _ => Err InvalidConfig
    end.

(** One member of the server map; [None] is a server that is skipped. *)
Definition server_binding (hostID sourceID : string) (commandArray : bool)
  (entry : string * json) : result config_error (option RawBinding) :=
  check! validateSafeIdentifier (fst entry) else InvalidConfig in
  let! server := objectAt (snd entry) in
  if remote server then Ok None
  else
    check! validateSecretMaps server else InvalidConfig in
    let! (command, args) := command_line server commandArray in
    check! validateDirectCommand command args else InvalidConfig in
    Ok (Some {| Raw_HostID := hostID; Raw_SourceID := sourceID; Raw_ServerName := fst entry;
                Raw_Command := command; Raw_Args := args |}).

Definition bindingsFromServerMap (hostID sourceID : string) (value : json) (commandArray : bool)
  : result config_error (list RawBinding) :=
  let! servers := objectAt value in
  check! negb (maximumConfigServers <? Z.of_nat (length servers)) else InvalidConfig in
  let! found := mapM_ (server_binding hostID sourceID commandArray) servers in
  Ok (omap (fun x => x) found).

Definition cordis_plugin (hostID sourceID : string) (result : list RawBinding) (rawPlugin : json)
  : Prelude.result config_error (list RawBinding) :=
  let! plugin := objectAt rawPlugin in
  match member_at plugin "name" with
  | JString name =>
      if negb (name =s "@deepseek-ai/dsh-mcp-client") then Ok result
      else
        match member_at plugin "config" with
        | JObject config =>
            match member_at config "transport" with
            | JString transport =>
                if negb (transport =s "stdio") then Ok result
                else
                  check! validateSecretMaps config else InvalidConfig in
                  match member_at config "serverName", member_at config "command",
                        optionalStringSlice (member_at config "args") with
                  | JString serverName, JString command, Ok args =>
                      check! validateSafeIdentifier serverName
                             && validateDirectCommand command args else InvalidConfig in
                      let result := result ++
                        [{| Raw_HostID := hostID; Raw_SourceID := sourceID;
                            Raw_ServerName := serverName; Raw_Command := command;
                            Raw_Args := args |}] in
                      check! negb (maximumConfigServers <? Z.of_nat (length result))
                        else InvalidConfig in Ok result
                  | _, _, _ => Err InvalidConfig
                  end
            | _ => Ok result
            end
        | _ => Ok result
        end
  | _ => Ok result
  end.

Definition cordis_row (hostID sourceID : string) (result : list RawBinding) (rawRow : json)
  : Prelude.result config_error (list RawBinding) :=
  let! row := objectAt rawRow in
  match member_at row "insert" with
  | JArray insert => foldM (cordis_plugin hostID sourceID) insert result
  | _ => Err InvalidConfig
  end.

Definition bindingsFromCordis (hostID sourceID : string) (root : json)
  : Prelude.result config_error (list RawBinding) :=
  match root with
  | JArray rows => foldM (cordis_row hostID sourceID) rows []
  | _ => Err InvalidConfig
  end.

Definition extractBindings (hostID : string) (source : ConfigSource) (root : json)
  : result config_error (list RawBinding) :=
  let from_map (object : list (string * json)) key array :=
    bindingsFromServerMap hostID (Cfg_SourceID source) (member_at object key) array in
  let dialect := Dialect source in
  if dialect =s "mcp-servers" then
    let! object := objectAt root in from_map object "mcpServers" false
  else if dialect =s "vscode-servers" then
    let! object := objectAt root in from_map object "servers" false
  else if dialect =s "opencode-v2" then
    let! object := objectAt root in
    let! mcp := objectAt (member_at object "mcp") in from_map mcp "servers" true
  else if dialect =s "codex-toml" then
    let! object := objectAt root in from_map object "mcp_servers" false
  else if dialect =s "dsh-cordis" then bindingsFromCordis hostID (Cfg_SourceID source) root
  else if dialect =s "generic-only" then Ok []
  else Err InvalidConfig.

(** Third-party readers. *)
Variable hujson_Standardize : string -> option string.
Variable toml_Unmarshal : string -> option (list (string * json)).
Variable yaml_documents : string -> option (list yaml_node).

Definition parse_data (source : ConfigSource) (document : string) : result config_error json :=
  let format := Format source in
  if format =s "json" then decodeStrictJSON document
  else if format =s "jsonc" then
    match hujson_Standardize document with
    | None => Err ReaderError
    | Some standard => decodeStrictJSON standard
    end
  else if format =s "toml" then
    match toml_Unmarshal document with
    | None => Err ReaderError
    | Some value => let! _ := validateDecodedTree (JObject value) 0 0 in Ok (JObject value)
    end
  else if format =s "yaml" then decodeStrictYAML (yaml_documents document)
  else Err InvalidConfig.

Definition parseConfig (profile : Profile) (source : ConfigSource) (document : string)
  : result config_error (list RawBinding) :=
  check! negb ((MaximumBytes source <=? 0) || (MaximumBytes source <? slen document)
               || has_byte document (byte_of 0)) else InvalidConfig in
  let! root := map_err (fun _ => InvalidConfig) (parse_data source document) in
  map_err (fun _ => InvalidConfig) (extractBindings (Prof_HostID profile) source root).
End Project.

(** ** Termination and limits of the strict reader *)

(** Values of a tree, and its nesting depth. *)
Fixpoint jsize (v : json) : Z :=
  match v with
  | JArray l => 1 + fold_right Z.add 0 (map jsize l)
  | JObject m => 1 + fold_right Z.add 0 (map (fun kv => jsize (snd kv)) m)
  | _ => 1
  end.
Fixpoint jdepth (v : json) : Z :=
  match v with
  | JArray l => 1 + fold_right Z.max 0 (map jdepth l)
  | JObject m => 1 + fold_right Z.max 0 (map (fun kv => jdepth (snd kv)) m)
  | _ => 1
  end.

Lemma sum_snoc l x : fold_right Z.add 0 (l ++ [x]) = fold_right Z.add 0 l + x.
Proof. induction l as [|y l IH]; simpl; lia. Qed.

Lemma max_snoc l x : fold_right Z.max 0 (l ++ [x]) = Z.max (fold_right Z.max 0 l) (Z.max x 0).
Proof. induction l as [|y l IH]; simpl; lia. Qed.

Lemma within_limits_true depth count :
  within_limits depth count = true <-> depth <= maximumConfigDepth /\ count < maximumConfigValues.
Proof.
  unfold within_limits. rewrite negb_true_iff, orb_false_iff, Z.ltb_ge, Z.leb_gt. lia.
Qed.

(** What a successful read has counted and how deep it went. *)
Definition counted (depth count count' size deep : Z) : Prop :=
  count' = count + size /\ count' <= maximumConfigValues /\ depth + deep <= maximumConfigDepth + 1.

Lemma decode_counted fuel :
  (forall depth d count v d' count',
     decodeJSONValue fuel depth d count = Ok (v, d', count') ->
     counted depth count count' (jsize v) (jdepth v)) /\
  (forall depth d count o o' d' count',
     depth <= maximumConfigDepth -> count <= maximumConfigValues ->
     depth + 1 + fold_right Z.max 0 (map (fun kv => jdepth (snd kv)) o) <= maximumConfigDepth + 1 ->
     json_members fuel depth d count o = Ok (o', d', count') ->
     count' + fold_right Z.add 0 (map (fun kv => jsize (snd kv)) o)
       = count + fold_right Z.add 0 (map (fun kv => jsize (snd kv)) o')
     /\ count' <= maximumConfigValues
     /\ depth + 1 + fold_right Z.max 0 (map (fun kv => jdepth (snd kv)) o') <= maximumConfigDepth + 1) /\
  (forall depth d count l l' d' count',
     depth <= maximumConfigDepth -> count <= maximumConfigValues ->
     depth + 1 + fold_right Z.max 0 (map jdepth l) <= maximumConfigDepth + 1 ->
     json_items fuel depth d count l = Ok (l', d', count') ->
     count' + fold_right Z.add 0 (map jsize l) = count + fold_right Z.add 0 (map jsize l')
     /\ count' <= maximumConfigValues
     /\ depth + 1 + fold_right Z.max 0 (map jdepth l') <= maximumConfigDepth + 1).
Proof.
  unfold counted. induction fuel as [|fuel (IHv & IHm & IHl)]; [done|].
  repeat match goal with |- _ /\ _ => split end.
  - intros depth d count v d' count' H. cbn [decodeJSONValue] in H.
    apply rbind_ok in H as (? & Hlim%guard_ok & H). apply within_limits_true in Hlim.
    apply rbind_ok in H as ([tok d1] & _ & H).
    destruct tok as [c|text|t|b|]; cbn iota beta in H;
      [|apply rbind_ok in H as (? & _ & H)|..];
      try (injection H as <- _ <-; cbn [jsize jdepth]; lia).
    destruct (Ascii.eqb _ _); [|destruct (Ascii.eqb _ _); [|done]];
      apply rbind_ok in H as ([[o d2] count2] & H2 & H); apply rbind_ok in H as (d3 & _ & H);
      injection H as <- _ <-; [apply IHm in H2|apply IHl in H2]; simpl in *; lia.
  - intros depth d count o o' d' count' Hd Hc Ho H. cbn [json_members] in H.
    destruct (More d); [|injection H as <- _ <-; lia].
    apply rbind_ok in H as ([tok d1] & _ & H). destruct tok; try done.
    apply rbind_ok in H as (? & _ & H). destruct (existsb _ _); [done|].
    apply rbind_ok in H as ([[w d2] count2] & H2%IHv & H).
    apply IHm in H; rewrite ?map_app, ?sum_snoc, ?max_snoc in *; cbn [map snd] in *;
      rewrite ?sum_snoc, ?max_snoc in *; cbn [snd] in *; lia.
  - intros depth d count l l' d' count' Hd Hc Hl H. cbn [json_items] in H.
    destruct (More d); [|injection H as <- _ <-; lia].
    apply rbind_ok in H as ([[w d2] count2] & H2%IHv & H).
    apply IHl in H; rewrite ?map_app in *; cbn [map] in *; rewrite ?sum_snoc, ?max_snoc in *; lia.
Qed.

(** The strict reader bounds what it builds: an accepted JSON
    configuration has at most 4096 values and at most 129 levels of nesting
    (levels 0 to 128). *)
Theorem decodeStrictJSON_bounded document v :
  decodeStrictJSON document = Ok v ->
  jsize v <= maximumConfigValues /\ jdepth v <= maximumConfigDepth + 1.
Proof.
  unfold decodeStrictJSON. intros ([[w d] count] & H & H')%rbind_ok.
  destruct (Token d) as [|[]]; try done. injection H' as ->.
  apply (proj1 (decode_counted _)) in H. unfold counted in H. lia.
Qed.

Lemma decodeStrictJSON_bounded_witness :
  decodeStrictJSON "[[1],2]" = Ok (JArray [JArray [JNumber "1"]; JNumber "2"]) /\
  jsize (JArray [JArray [JNumber "1"]; JNumber "2"]) <= maximumConfigValues /\
  jdepth (JArray [JArray [JNumber "1"]; JNumber "2"]) <= maximumConfigDepth + 1.
Proof.
  split; [vm_compute; reflexivity|]. apply (decodeStrictJSON_bounded "[[1],2]").
  vm_compute. reflexivity.
Defined.

Lemma read_token_remaining d tok d' :
  read_token d = Ok (tok, d') -> (remaining d' < remaining d)%nat.
Proof. intros H%map_err_ok. by apply Token_remaining in H. Qed.

Lemma close_with_remaining c d d' : close_with c d = Ok d' -> (remaining d' < remaining d)%nat.
Proof.
  unfold close_with. destruct (Token d) as [[tok d0]|] eqn:E; [|done].
  destruct tok; try done. destruct (Ascii.eqb _ _); [|done]. intros [= <-].
  by apply Token_remaining in E.
Qed.

Lemma strict_remaining fuel :
  (forall depth d c v d' c', decodeJSONValue fuel depth d c = Ok (v, d', c') ->
     (remaining d' < remaining d)%nat) /\
  (forall depth d c o v d' c', json_members fuel depth d c o = Ok (v, d', c') ->
     (remaining d' <= remaining d)%nat) /\
  (forall depth d c o v d' c', json_items fuel depth d c o = Ok (v, d', c') ->
     (remaining d' <= remaining d)%nat).
Proof.
  induction fuel as [|fuel (IHv & IHm & IHi)]; [done|].
  repeat match goal with |- _ /\ _ => split end.
  - intros depth d c v d' c' H. cbn [decodeJSONValue] in H.
    apply rbind_ok in H as (? & _ & H).
    apply rbind_ok in H as ([tok d1] & H1%read_token_remaining & H).
    destruct tok; cbn iota beta in H; [|apply rbind_ok in H as (? & _ & H)|..];
      try (injection H as _ <- _; done).
    destruct (Ascii.eqb _ _); [|destruct (Ascii.eqb _ _); [|done]];
      apply rbind_ok in H as ([[o d2] c2] & H2 & H); apply rbind_ok in H as (d3 & H3 & H);
      apply close_with_remaining in H3; injection H as _ <- _;
      [apply IHm in H2|apply IHi in H2]; lia.
  - intros depth d c o v d' c' H. cbn [json_members] in H.
    destruct (More d); [|injection H as _ <- _; done].
    apply rbind_ok in H as ([tok d1] & H1%read_token_remaining & H).
    destruct tok; try done. apply rbind_ok in H as (? & _ & H). destruct (existsb _ _); [done|].
    apply rbind_ok in H as ([[w d2] c2] & H2%IHv & H%IHm). lia.
  - intros depth d c o v d' c' H. cbn [json_items] in H.
    destruct (More d); [|injection H as _ <- _; done].
    apply rbind_ok in H as ([[w d2] c2] & H2%IHv & H%IHi). lia.
Qed.

Lemma read_token_fuel d : read_token d <> Err ConfigOutOfFuel.
Proof. intros (e & He)%map_err_err. done. Qed.

Lemma close_with_fuel c d : close_with c d <> Err ConfigOutOfFuel.
Proof. unfold close_with. by repeat case_match. Qed.

Lemma guard_fuel b : guard_ b InvalidConfig <> Err ConfigOutOfFuel.
Proof. by destruct b. Qed.

Lemma strict_enough fuel :
  (forall depth d c, (2 * remaining d + 1 <= fuel)%nat ->
     decodeJSONValue fuel depth d c <> Err ConfigOutOfFuel) /\
  (forall depth d c o, (2 * remaining d + 2 <= fuel)%nat ->
     json_members fuel depth d c o <> Err ConfigOutOfFuel) /\
  (forall depth d c o, (2 * remaining d + 2 <= fuel)%nat ->
     json_items fuel depth d c o <> Err ConfigOutOfFuel).
Proof.
  induction fuel as [|fuel (IHv & IHm & IHi)]; [repeat split; intros; lia|].
  pose proof (strict_remaining fuel) as (Rv & _ & _).
  repeat match goal with |- _ /\ _ => split end.
  - intros depth d c Hf H. cbn [decodeJSONValue] in H.
    apply rbind_err in H as [H|(? & _ & H)]; [by apply guard_fuel in H|].
    apply rbind_err in H as [H|([tok d1] & H1%read_token_remaining & H)];
      [by apply read_token_fuel in H|].
    destruct tok; cbn iota beta in H; try done;
      [|apply rbind_err in H as [H|(? & _ & H)]; [by apply guard_fuel in H|done]].
    destruct (Ascii.eqb _ _); [|destruct (Ascii.eqb _ _); [|done]];
      (apply rbind_err in H as [H|([[o d2] c2] & H2 & H)];
         [first [apply IHm in H | apply IHi in H]; [done|lia]|]);
      (apply rbind_err in H as [H|(d3 & H3 & H)]; [by apply close_with_fuel in H|done]).
  - intros depth d c o Hf H. cbn [json_members] in H. destruct (More d); [|done].
    apply rbind_err in H as [H|([tok d1] & H1%read_token_remaining & H)];
      [by apply read_token_fuel in H|].
    destruct tok; try done. apply rbind_err in H as [H|(? & _ & H)]; [by apply guard_fuel in H|].
    destruct (existsb _ _); [done|].
    apply rbind_err in H as [H|([[w d2] c2] & H2%Rv & H)]; [apply IHv in H|apply IHm in H]; lia || done.
  - intros depth d c o Hf H. cbn [json_items] in H. destruct (More d); [|done].
    apply rbind_err in H as [H|([[w d2] c2] & H2%Rv & H)]; [apply IHv in H|apply IHi in H]; lia || done.
Qed.

(** Reading a configuration always ends with an answer: the fuel, two
    steps per byte, is never used up. *)
Theorem decodeStrictJSON_total document : decodeStrictJSON document <> Err ConfigOutOfFuel.
Proof.
  unfold decodeStrictJSON. intros H. apply rbind_err in H as [H|([[v d] c] & _ & H)].
  - apply (proj1 (strict_enough _)) in H; [done|lia].
  - by destruct (Token d) as [|[]].
Qed.

(** ** What a binding read from a configuration guarantees *)

(** A declared server the tool will consider: a safe name, and a command
    line that starts a program directly, with no shell and no expansion. *)
Definition direct (u : UnicodeTables) (hostID : string) (raw : RawBinding) : Prop :=
  Raw_HostID raw = hostID
  /\ validateSafeIdentifier (Raw_ServerName raw) = true
  /\ validateDirectCommand u (Raw_Command raw) (Raw_Args raw) = true.

Section Direct.
Context (u : UnicodeTables) (hostID : string).

Lemma server_binding_direct sourceID commandArray entry raw :
  server_binding u hostID sourceID commandArray entry = Ok (Some raw) -> direct u hostID raw.
Proof.
  unfold server_binding. intros H. inv_ok. destruct (remote _); [done|]. inv_ok.
  destruct x2 as [command args]. cbn iota beta in H. inv_ok. subst raw. by repeat split.
Qed.

Lemma kept_direct sourceID commandArray entries found :
  mapM_ (server_binding u hostID sourceID commandArray) entries = Ok found ->
  Forall (direct u hostID) (omap (fun x => x) found)
  /\ (length (omap (fun x => x) found) <= length entries)%nat.
Proof.
  intros H%mapM_ok_Forall2. induction H as [|e o entries found He _ [IH1 IH2]]; [by split|].
  destruct o as [raw|]; csimpl; [|split; [done|lia]]. split; [|lia].
  constructor; [|done]. by eapply server_binding_direct.
Qed.

Lemma bindingsFromServerMap_direct sourceID value commandArray raws :
  bindingsFromServerMap u hostID sourceID value commandArray = Ok raws ->
  Forall (direct u hostID) raws /\ Z.of_nat (length raws) <= maximumConfigServers.
Proof.
  unfold bindingsFromServerMap. intros H. inv_ok. subst raws. to_prop.
  apply negb_true_iff in Hx0. to_prop. apply kept_direct in Hx1 as [H1 H2]. split; [done|lia].
Qed.

Lemma cordis_plugin_direct sourceID result rawPlugin result' :
  Forall (direct u hostID) result -> Z.of_nat (length result) <= maximumConfigServers ->
  cordis_plugin u hostID sourceID result rawPlugin = Ok result' ->
  Forall (direct u hostID) result' /\ Z.of_nat (length result') <= maximumConfigServers.
Proof.
  intros Hr Hl. unfold cordis_plugin. intros H. apply rbind_ok in H as (plugin & _ & H).
  destruct (member_at plugin "name") as [| | |name| |]; try (injection H as <-; done).
  destruct (negb _); [by injection H as <-|].
  destruct (member_at plugin "config") as [| | | | |config]; try (injection H as <-; done).
  destruct (member_at config "transport") as [| | |transport| |]; try (injection H as <-; done).
  destruct (negb _); [by injection H as <-|]. apply rbind_ok in H as (? & _ & H).
  destruct (member_at config "serverName") as [| | |serverName| |]; try done.
  destruct (member_at config "command") as [| | |command| |]; try done.
  destruct (optionalStringSlice _) as [args|]; [|done]. inv_ok. subst result'.
  apply andb_true_iff in Hx as [Hs Hd]. apply negb_true_iff in Hx0. to_prop. split; [|lia].
  apply Forall_app. split; [done|]. constructor; [|done]. by repeat split.
Qed.

Lemma bindingsFromCordis_direct sourceID root raws :
  bindingsFromCordis u hostID sourceID root = Ok raws ->
  Forall (direct u hostID) raws /\ Z.of_nat (length raws) <= maximumConfigServers.
Proof.
  unfold bindingsFromCordis. destruct root; try done. intros H.
  eapply (foldM_inv (fun rs => Forall (direct u hostID) rs
                               /\ Z.of_nat (length rs) <= maximumConfigServers));
    [|intros rs row rs' _ [H1 H2] Hrow|exact H]; [by split|].
  unfold cordis_row in Hrow. apply rbind_ok in Hrow as (m & _ & Hrow).
  destruct (member_at m "insert"); try done.
  eapply (foldM_inv (fun rs => Forall (direct u hostID) rs
                               /\ Z.of_nat (length rs) <= maximumConfigServers));
    [|intros rs1 p rs2 _ [H3 H4] Hp|exact Hrow]; [by split|].
  by eapply cordis_plugin_direct.
Qed.

Lemma extractBindings_direct source root raws :
  extractBindings u hostID source root = Ok raws ->
  Forall (direct u hostID) raws /\ Z.of_nat (length raws) <= maximumConfigServers.
Proof.
  unfold extractBindings. intros H.
  repeat (match type of H with (if ?b then _ else _) = _ => destruct b end;
    [inv_ok; try (by eapply bindingsFromServerMap_direct);
     try (by eapply bindingsFromCordis_direct)|]); [|done].
  subst. split; [constructor|simpl; unfold maximumConfigServers; lia].
Qed.
End Direct.

Lemma parseConfig_ok u hujson toml yaml profile source document raws :
  parseConfig u hujson toml yaml profile source document = Ok raws ->
  Forall (direct u (Prof_HostID profile)) raws
  /\ Z.of_nat (length raws) <= maximumConfigServers
  /\ slen document <= MaximumBytes source.
Proof.
  unfold parseConfig. intros H. inv_ok. apply extractBindings_direct in H as [H1 H2].
  split; [done|]. split; [done|]. apply negb_true_iff in Hx.
  apply orb_false_iff in Hx as [Hx _]. apply orb_false_iff in Hx as [_ Hx]. by to_prop.
Qed.

(** Whatever a configuration file says, in whatever format, the bindings
    read from it are safe to act on: at most 128 of them, all of the profile's
    host, each with a plain identifier for a name and a command line that
    starts a program directly: not a shell, no expansion, bounded arguments. *)
Theorem parseConfig_direct u hujson toml yaml profile source document raws :
  parseConfig u hujson toml yaml profile source document = Ok raws ->
  Forall (direct u (Prof_HostID profile)) raws
  /\ Z.of_nat (length raws) <= maximumConfigServers
  /\ slen document <= MaximumBytes source.
Proof. apply parseConfig_ok. Qed.

Definition sample_source : ConfigSource := {|
  Cfg_SourceID := "user"; Cfg_Platforms := ["linux"]; CandidatePaths := ["${HOME}/.c.json"];
  Format := "json"; Dialect := "mcp-servers"; MaximumBytes := 1000; SecretFields := [] |}.
Definition sample_profile : Profile := {|
  Prof_SchemaVersion := "1"; Prof_HostID := "host"; Prof_DisplayName := "Host";
  FixtureVersion := "1"; Prof_Platforms := ["linux"]; ProcessMatchers := [];
  ConfigSources := [sample_source] |}.

Definition q (s : string) : string := byte_string 34 +:+ s +:+ byte_string 34.
Definition sample_config : string :=
  "{" +:+ q "mcpServers" +:+ ":{" +:+ q "srv" +:+ ":{" +:+ q "command" +:+ ":" +:+ q "/bin/s"
  +:+ "}}}".

Lemma parseConfig_direct_witness :
  let raws := [{| Raw_HostID := "host"; Raw_SourceID := "user"; Raw_ServerName := "srv";
                  Raw_Command := "/bin/s"; Raw_Args := [] |}] in
  Forall (direct ascii_tables (Prof_HostID sample_profile)) raws
  /\ Z.of_nat (length raws) <= maximumConfigServers
  /\ slen sample_config <= MaximumBytes sample_source.
Proof.
  cbv zeta.
  apply (parseConfig_direct ascii_tables (fun _ => None) (fun _ => None) (fun _ => None)).
  vm_compute. reflexivity.
Defined.
