(* ===== verification/Protected.v ===== *)
(** * The canonical bytes of a contract type determine its fields

    [canon] forgets only the order of members, so two structs whose wire
    trees have the same canonical form agree field by field.  This is what
    turns the equality of two identities into the equality of every protected
    field. *)

From S2P Require Import Prelude GoStrings Model Canonical Contract RoundTrip Wire.

(** ** Objects up to member order *)

Lemma get_in_map (f : json -> json) m k :
  f JNull = JNull -> get_in (map (fun kv => (fst kv, f (snd kv))) m) k = f (get_in m k).
Proof.
  intros Hf. induction m as [|[k' v] m IH]; simpl; [done|]. by destruct (k' =s k).
Qed.

Lemma get_in_elem m k v : NoDup (map fst m) -> (k, v) ∈ m -> get_in m k = v.
Proof.
  induction m as [|[k' v'] m IH]; simpl; [by intros _ ?%elem_of_nil|].
  intros [Hn Hd]%NoDup_cons [[= -> ->]|Hin]%elem_of_cons.
  - by rewrite String.eqb_refl.
  - destruct (String.eqb_spec k' k) as [->|]; [|by apply IH].
    exfalso. apply Hn, list_elem_of_fmap. by exists (k, v).
Qed.

Lemma get_in_notin m k : k ∉ map fst m -> get_in m k = JNull.
Proof.
  induction m as [|[k' v'] m IH]; simpl; [done|]. intros [Hk Hn]%not_elem_of_cons.
  rewrite (proj2 (String.eqb_neq k' k)) by congruence. by apply IH.
Qed.

Lemma get_in_perm m1 m2 k : m1 ≡ₚ m2 -> NoDup (map fst m1) -> get_in m1 k = get_in m2 k.
Proof.
  intros Hp Hn. assert (Hn2 : NoDup (map fst m2)) by (by rewrite <- Hp).
  destruct (decide (k ∈ map fst m1)) as [Hin|Hout].
  - apply list_elem_of_fmap in Hin as ([k' v] & -> & Hin). simpl.
    rewrite (get_in_elem m1 k' v) by done. symmetry. apply get_in_elem; [done|]. by rewrite <- Hp.
  - rewrite get_in_notin by done. symmetry. apply get_in_notin. by rewrite <- Hp.
Qed.

(** Reading a field commutes with the canonical ordering. *)
Lemma canon_get m1 m2 k :
  NoDup (map fst m1) -> NoDup (map fst m2) ->
  canon (JObject m1) = canon (JObject m2) -> canon (get_in m1 k) = canon (get_in m2 k).
Proof.
  intros H1 H2 [= H].
  assert (Hg : forall m, NoDup (map fst m) ->
    get_in (SortFunc by_key (map (fun kv => (fst kv, canon (snd kv))) m)) k = canon (get_in m k)).
  { intros m Hm. rewrite <- (get_in_map canon) by done. apply get_in_perm; [apply SortFunc_perm|].
    rewrite SortFunc_perm. by rewrite map_keys. }
  rewrite <- (Hg m1), <- (Hg m2) by done. by rewrite H.
Qed.

(** ** Trees [json.Marshal] leaves alone *)

Lemma last_wins_id m : NoDup (map fst m) -> last_wins m = m.
Proof.
  induction m as [|[k v] m IH]; simpl; [done|]. intros [Hn Hd]%NoDup_cons.
  rewrite IH by done. destruct (existsb _ m) eqn:E; [|done]. exfalso.
  apply existsb_elem_of in E as ([k' v'] & Hin & He). simpl in He. to_prop. subst.
  apply Hn, list_elem_of_fmap. by exists (k, v').
Qed.

Lemma normalize_id v : encodable v = true -> distinct_keys v = true -> normalize v = v.
Proof.
  induction v as [| | |s|l IH|m IH] using json_nested_ind; simpl; try done.
  - intros H _. by rewrite ToValidUTF8_id.
  - rewrite !forallb_Forall. intros He Hd. f_equal.
    rewrite <- (map_id l) at 2. apply map_ext_in. intros x Hx%list_elem_of_In.
    rewrite Forall_forall in *. auto.
  - rewrite andb_true_iff, !forallb_Forall, bool_decide_eq_true. intros He [Hn Hd].
    assert (Hm : map (fun kv => (ToValidUTF8 (fst kv), normalize (snd kv))) m = m).
    { rewrite <- (map_id m) at 2. apply map_ext_in. intros [k v] Hx%list_elem_of_In.
      rewrite Forall_forall in *. specialize (He _ Hx). simpl in He. destruct_hyps.
      simpl. rewrite ToValidUTF8_id by done. f_equal. by apply (IH (k, v)); [|done|apply (Hd (k, v))]. }
    by rewrite Hm, last_wins_id.
Qed.

(** ** Scalars and lists *)

Lemma FormatInt_inj a b : in_int64 a -> in_int64 b -> FormatInt a = FormatInt b -> a = b.
Proof.
  intros Ha Hb H. apply ParseInt_ints in Ha, Hb. rewrite H in Ha. congruence.
Qed.

Lemma canon_strs a b : canon (strs a) = canon (strs b) -> a = b.
Proof.
  unfold strs. simpl. rewrite !map_map. intros [= H]. revert b H.
  induction a as [|x a IH]; intros [|y b]; simpl; try done. intros [= -> H]. f_equal. by apply IH.
Qed.

Lemma canon_list {A} (f : A -> json) a b :
  (forall x y, x ∈ a -> y ∈ b -> canon (f x) = canon (f y) -> x = y) ->
  canon (JArray (map f a)) = canon (JArray (map f b)) -> a = b.
Proof.
  intros Hf [= H]. rewrite !map_map in H. revert b Hf H.
  induction a as [|x a IH]; intros [|y b]; simpl; try done. intros Hf [= H1 H2].
  f_equal; [apply Hf; [by left..|done]|]. apply IH; [|done].
  intros x' y' Hx Hy. apply Hf; by right.
Qed.

Lemma canon_nullable {A} (f : A -> json) a b :
  (forall x, canon (f x) <> JNull) ->
  (forall x y, a = Some x -> b = Some y -> canon (f x) = canon (f y) -> x = y) ->
  canon (nullable f a) = canon (nullable f b) -> a = b.
Proof.
  intros Hn Hf. destruct a as [x|], b as [y|]; simpl; try done.
  - intros H. f_equal. by apply Hf.
  - intros H. by apply Hn in H.
  - intros H. symmetry in H. by apply Hn in H.
Qed.

Lemma object_not_null m : canon (JObject m) <> JNull.
Proof. done. Qed.

(** Each struct: the value of every member, then the fields.  [members_of]
    turns an equality of objects into one equation per key. *)
Lemma omitempty_NoDup k v m :
  NoDup (k :: map fst m) -> NoDup (map fst (omitempty k v ++ m)).
Proof.
  unfold omitempty. destruct (v =s EmptyString); simpl; [|done]. by intros [_ ?]%NoDup_cons.
Qed.

Ltac nodup :=
  match goal with |- NoDup ?l =>
    let l' := eval cbv in l in
    change (NoDup l'); apply (bool_decide_unpack _); vm_compute; exact I end.

Ltac field_eq H k :=
  let E := fresh "E" in
  assert (E := fun n1 n2 => canon_get _ _ k n1 n2 H);
  specialize (E ltac:(nodup) ltac:(nodup)); cbn -[canon] in E; cbn [canon] in E.

Lemma Platform_inj a b : canon (Platform_json a) = canon (Platform_json b) -> a = b.
Proof.
  destruct a, b. unfold Platform_json. cbn -[canon]. intros H.
  field_eq H "os". field_eq H "arch". congruence.
Qed.

Lemma Subject_inj a b : canon (Subject_json a) = canon (Subject_json b) -> a = b.
Proof.
  destruct a, b. unfold Subject_json. cbn -[canon]. intros H.
  field_eq H "id". field_eq H "display_name". field_eq H "version". congruence.
Qed.

Lemma ToolInfo_inj a b : canon (ToolInfo_json a) = canon (ToolInfo_json b) -> a = b.
Proof.
  destruct a, b. unfold ToolInfo_json. cbn -[canon]. intros H.
  field_eq H "name". field_eq H "version". field_eq H "commit". field_eq H "toolchain". congruence.
Qed.

(** Cases on whether the optional member with values [v] and [w] is there. *)
Ltac omit_cases H v w :=
  unfold omitempty in H;
  destruct (String.eqb_spec v EmptyString), (String.eqb_spec w EmptyString); subst;
  cbn -[canon] in H.

Lemma ArgumentFingerprint_inj a b :
  in_int64 (Position a) -> in_int64 (Position b) ->
  canon (ArgumentFingerprint_json a) = canon (ArgumentFingerprint_json b) -> a = b.
Proof.
  destruct a as [p s], b as [p' s']. unfold ArgumentFingerprint_json, ints. cbn -[canon FormatInt].
  intros Ha Hb H. field_eq H "position". field_eq H "sha256".
  injection E as E%FormatInt_inj; [|done|done]. congruence.
Qed.

Lemma ProcessIdentity_inj a b :
  in_int64 (PID a) -> in_int64 (PID b) ->
  canon (ProcessIdentity_json a) = canon (ProcessIdentity_json b) -> a = b.
Proof.
  destruct a, b. unfold ProcessIdentity_json, ints. cbn -[canon FormatInt]. intros Ha Hb H.
  field_eq H "pid". field_eq H "created_at_unix_nano". field_eq H "boot_id_hash".
  injection E as E%FormatInt_inj; [|done|done]. congruence.
Qed.

Lemma ExecutableObservation_inj a b :
  canon (ExecutableObservation_json a) = canon (ExecutableObservation_json b) -> a = b.
Proof.
  destruct a as [x y z], b as [x' y' z']. unfold ExecutableObservation_json. cbn -[canon omitempty].
  intros H. omit_cases H z z';
    field_eq H "basename"; field_eq H "path_hash"; field_eq H "file_id_hash"; congruence.
Qed.

Lemma ArtifactObservation_inj a b :
  artifact_ints a -> artifact_ints b ->
  canon (ArtifactObservation_json a) = canon (ArtifactObservation_json b) ->
  drop_identity a = drop_identity b.
Proof.
  destruct a, b. unfold ArtifactObservation_json, ints, artifact_ints, drop_identity.
  cbn -[canon FormatInt]. intros (A1&A2&A3) (B1&B2&B3) H.
  field_eq H "sha256". field_eq H "file_count". field_eq H "byte_count". field_eq H "duration_ms".
  repeat match goal with E : JNumber _ = JNumber _ |- _ =>
    injection E as E%FormatInt_inj; [|done|done] end. congruence.
Qed.

Lemma ExpectationProjection_inj a b :
  canon (ExpectationProjection_json a) = canon (ExpectationProjection_json b) -> a = b.
Proof.
  destruct a, b. unfold ExpectationProjection_json. cbn -[canon]. intros H.
  field_eq H "source_kind". field_eq H "source_locator_hash". field_eq H "trust".
  field_eq H "expected_version". field_eq H "expected_artifact_sha256". congruence.
Qed.

Lemma HostAttribution_inj a b :
  canon (HostAttribution_json a) = canon (HostAttribution_json b) -> a = b.
Proof.
  destruct a as [x y z t], b as [x' y' z' t']. unfold HostAttribution_json.
  cbn -[canon omitempty]. intros H. omit_cases H y y';
    field_eq H "host_id"; field_eq H "binding_id"; field_eq H "config_source_hash";
    field_eq H "confidence"; congruence.
Qed.

Lemma EvidenceItem_inj a b : canon (EvidenceItem_json a) = canon (EvidenceItem_json b) -> a = b.
Proof.
  destruct a as [x y z], b as [x' y' z']. unfold EvidenceItem_json. cbn -[canon omitempty].
  intros H. omit_cases H y y'; field_eq H "type"; field_eq H "digest"; field_eq H "observed_at"; congruence.
Qed.

Lemma PrivacyProjection_inj a b :
  canon (PrivacyProjection_json a) = canon (PrivacyProjection_json b) -> a = b.
Proof.
  destruct a as [x y z], b as [x' y' z']. unfold PrivacyProjection_json. cbn -[canon strs].
  intros H. pose proof H as H0.
  assert (E := fun n1 n2 => canon_get _ _ "omitted_fields" n1 n2 H).
  specialize (E ltac:(nodup) ltac:(nodup)). cbn -[canon strs] in E. apply canon_strs in E.
  field_eq H0 "redaction_mode". field_eq H0 "home_redacted". congruence.
Qed.

Lemma CommandObservation_inj a b :
  Forall (fun f => in_int64 (Position f)) (Cmd_ArgumentFingerprints a) ->
  Forall (fun f => in_int64 (Position f)) (Cmd_ArgumentFingerprints b) ->
  canon (CommandObservation_json a) = canon (CommandObservation_json b) -> a = b.
Proof.
  destruct a as [x y z], b as [x' y' z']. unfold CommandObservation_json. cbn -[canon].
  rewrite !Forall_forall. intros Ha Hb H.
  assert (E := fun n1 n2 => canon_get _ _ "argument_fingerprints" n1 n2 H).
  specialize (E ltac:(nodup) ltac:(nodup)). cbn -[canon] in E.
  apply (canon_list ArgumentFingerprint_json) in E; [|intros; apply ArgumentFingerprint_inj; auto].
  field_eq H "executable_basename". field_eq H "executable_path_hash". congruence.
Qed.

Definition receipt_artifact_ints (a : ReceiptArtifact) : Prop :=
  in_int64 (RA_FileCount a) /\ in_int64 (RA_ByteCount a) /\ in_int64 (RA_DurationMS a).

Lemma ReceiptArtifact_inj a b :
  receipt_artifact_ints a -> receipt_artifact_ints b ->
  canon (ReceiptArtifact_json a) = canon (ReceiptArtifact_json b) -> a = b.
Proof.
  destruct a, b. unfold ReceiptArtifact_json, ints, receipt_artifact_ints.
  cbn -[canon FormatInt]. intros (A1&A2&A3) (B1&B2&B3) H.
  field_eq H "sha256". field_eq H "file_count". field_eq H "byte_count". field_eq H "duration_ms".
  repeat match goal with E : JNumber _ = JNumber _ |- _ =>
    injection E as E%FormatInt_inj; [|done|done] end. congruence.
Qed.

Ltac field_raw H k E :=
  assert (E := fun n1 n2 => canon_get _ _ k n1 n2 H);
  specialize (E ltac:(nodup) ltac:(nodup));
  cbn -[canon strs nullable FormatInt Platform_json Subject_json ToolInfo_json
        ExpectationProjection_json Observation_json HostAttribution_json EvidenceItem_json
        PrivacyProjection_json ProcessIdentity_json CommandObservation_json
        ReceiptArtifact_json ExecutableObservation_json ArtifactObservation_json] in E.

Lemma Observation_inj a b :
  observation_ints a -> observation_ints b ->
  canon (Observation_json a) = canon (Observation_json b) ->
  strip_observation a = strip_observation b.
Proof.
  destruct a as [p e a i], b as [p' e' a' i']. unfold Observation_json, observation_ints, strip_observation.
  cbn [Obs_Process Obs_Executable Obs_Artifact InaccessibleFields]. intros [Hp Ha] [Hp' Ha'] H.
  field_raw H "process" E1. field_raw H "executable" E2. field_raw H "artifact" E3.
  field_raw H "inaccessible_fields" E4.
  apply canon_nullable in E1; [|done|intros ????; apply ProcessIdentity_inj; auto].
  apply canon_nullable in E2;
    [|intros [? ? ?]; done|intros; by apply ExecutableObservation_inj].
  apply canon_strs in E4. subst p' e' i'. f_equal.
  destruct a as [x|], a' as [y|]; simpl in *; [|done|done|done].
  f_equal. apply ArtifactObservation_inj; auto.
Qed.
