(* ===== verification/Privacy.v ===== *)
(** * The privacy projection ([internal/privacy/project.go])

    What a proof may say about the machine it was made on: labels that look
    like secrets or paths are replaced by a short hash, identifiers are
    reduced to the characters the schema allows, paths and arguments are
    dropped altogether. *)

From S2P Require Import Prelude GoStrings GoSha256 Model Wire Expectation Process.

Definition take_runes (limit : nat) (value : string) : string :=
  of_runes (firstn limit (runes value)).

Definition truncateRunes (value : string) (limit : Z) : string :=
  if RuneCountInString value <=? limit then value else take_runes (Z.to_nat limit) value.

Definition is_alnum (char : Z) : bool :=
  in_range 65 90 char || in_range 97 122 char || in_range 48 57 char.

(** The loop of [tokenLike] over the runes. *)
Definition token_char (char : Z) : bool :=
  negb (127 <? char)
  && (is_alnum char || existsb (Z.eqb char) [95; 45; 46; 61; 43]).

Definition tokenLike (value : string) : bool :=
  if slen value <? 32 then false else forallb token_char (runes value).

Definition sensitiveMarkers : list string :=
  ["token"; "secret"; "cookie"; "password"; "passwd"; "private-key"; "credential";
   "authorization"; "bearer"; "api-key"; "apikey"].

Definition path_chars : string := "/" +:+ byte_string 92 +:+ byte_string 0.

Section Unicode.
Variable u : UnicodeTables.

(** Path characters, secret words and well-known key prefixes. *)
Definition marked (value : string) : bool :=
  let lower := ToLower u value in
  ContainsAny value path_chars
  || existsb (Contains lower) sensitiveMarkers
  || HasPrefix lower "sk-" || HasPrefix lower "ghp_" || HasPrefix lower "github_pat_"
  || HasPrefix (ToUpper u value) "AKIA".

Definition sensitive (value : string) : bool := marked value || tokenLike value.

(** The first six bytes of the digest, in hexadecimal. *)
Definition redacted (value : string) : string :=
  "redacted-" +:+ hex (firstn 6 (sha256_bytes ("arp:safe-label:v1" +:+ nul +:+ value))).

Definition safeField (value : string) : string :=
  if negb (sensitive value) then truncateRunes value 128 else redacted value.

Definition id_char (char : Z) : bool :=
  is_alnum char || (char =? 46) || (char =? 95) || (char =? 45).

(** The loop of [sanitizeID]: one byte per rune, stopping at 128 bytes. *)
Fixpoint sanitize_loop (written : Z) (chars : list Z) : string :=
  match chars with
  | [] => EmptyString
  | char :: rest =>
      let b := if id_char char then byte_of char else byte_of 45 in
      String b (if 128 <=? written + 1 then EmptyString else sanitize_loop (written + 1) rest)
  end.

Definition sanitizeID (value : string) : string :=
  let result := Trim (sanitize_loop 0 (runes value)) ".-_" in
  if result =s EmptyString then "runtime" else result.

Definition inferredSubject (candidate : option Candidate) : Subject :=
  let name :=
    match candidate with
    | Some c => if negb (Basename (Cand_Executable c) =s EmptyString)
                then truncateRunes (Basename (Cand_Executable c)) 128 else "unknown-runtime"
    | None => "unknown-runtime"
    end in
  let name := safeField name in
  {| Subj_ID := sanitizeID name; DisplayName := name; Subj_Version := "unknown" |}.

Definition safeSubject (value : Subject) : Subject :=
  {| Subj_ID := sanitizeID (safeField (Subj_ID value));
     DisplayName := safeField (DisplayName value);
     Subj_Version := truncateRunes (safeField (Subj_Version value)) 64 |}.

Record Projection := {
  P_Platform : Platform;
  P_Subject : Subject;
  P_Expectation : option ExpectationProjection;
  P_Observation : Observation;
  P_Evidence : list EvidenceItem;
  P_Privacy : PrivacyProjection
}.

(** [hashJSON]; encoding a process identity cannot fail. *)
Definition hashJSON (value : json) : string := "sha256:" +:+ sha256_hex (json_text value).

Definition project_expectation (resolved : Resolved) : ExpectationProjection :=
  let value := Res_Value resolved in
  {| SourceKind := Source_Kind (Source value); SourceLocatorHash := LocatorHash (Source value);
     Proj_Trust := Trust (Source value);
     ExpectedVersion := truncateRunes (safeField (Subj_Version (Exp_Subject value))) 64;
     ExpectedArtifactSHA256 := Art_SHA256 (Artifact value) |}.

Definition safe_executable (e : ExecutableObservation) : ExecutableObservation :=
  {| Basename := safeField (Basename e); PathHash := PathHash e; FileIDHash := FileIDHash e |}.

Definition Project (build_platform : Platform) (candidate : option Candidate)
  (resolved : option Resolved) (artifact : option ArtifactObservation) (observedAt : string)
  : Projection :=
  {| P_Platform := match candidate with Some c => Cand_Platform c | None => build_platform end;
     P_Subject := match resolved with
                  | Some r => safeSubject (Exp_Subject (Res_Value r))
                  | None => inferredSubject candidate
                  end;
     P_Expectation := option_map project_expectation resolved;
     P_Observation :=
       {| Obs_Process := option_map Cand_Process candidate;
          Obs_Executable := option_map (fun c => safe_executable (Cand_Executable c)) candidate;
          Obs_Artifact := artifact;
          InaccessibleFields := match candidate with Some c => Inaccessible c | None => [] end |};
     P_Evidence :=
       match candidate with
       | Some c => [{| Ev_Type := "process_identity";
                       Ev_Digest := hashJSON (ProcessIdentity_json (Cand_Process c));
                       Ev_ObservedAt := observedAt |}]
       | None => []
       end
       ++ match artifact with
          | Some a => [{| Ev_Type := "artifact_digest"; Ev_Digest := "sha256:" +:+ Obs_SHA256 a;
                          Ev_ObservedAt := observedAt |}]
          | None => []
          end;
     P_Privacy := {| RedactionMode := "safe-default"; HomeRedacted := true;
                     OmittedFields := ["paths.local"; "process.argv"; "process.environment"] |} |}.
End Unicode.

(** ** Identifiers *)

(** The identifier pattern of the schemas: a letter or digit, then at most
    127 letters, digits, dots, underscores and hyphens. *)
Definition alnum_byte (c : ascii) : bool := is_alnum (byte_val c).
Definition id_byte (c : ascii) : bool := id_char (byte_val c).
Definition schema_id (s : string) : bool :=
  match s with
  | EmptyString => false
  | String c t => alnum_byte c && sforall id_byte t && (slen s <=? 128)
  end.

Lemma id_char_range r : id_char r = true -> 0 <= r < 128.
Proof.
  unfold id_char, is_alnum. rewrite !orb_true_iff, !in_range_iff, !Z.eqb_eq. lia.
Qed.

Lemma sanitize_bytes n l : sforall id_byte (sanitize_loop n l) = true.
Proof.
  revert n. induction l as [|r l IH]; intros n; [done|]. cbn [sanitize_loop].
  rewrite sforall_cons. apply andb_true_iff. split.
  - unfold id_byte. destruct (id_char r) eqn:E; [|done].
    pose proof (id_char_range r E). rewrite byte_val_of by lia. exact E.
  - by destruct (128 <=? n + 1).
Qed.

Lemma sanitize_length n l : 0 <= n < 128 -> n + slen (sanitize_loop n l) <= 128.
Proof.
  unfold slen. revert n. induction l as [|r l IH]; intros n Hn; [simpl; lia|].
  cbn [sanitize_loop String.length]. destruct (Z.leb_spec 128 (n + 1)); [simpl; lia|].
  specialize (IH (n + 1) ltac:(lia)). lia.
Qed.

(** [strings.Trim] keeps a segment whose ends are outside the cut set. *)
Lemma trim_left_spec set s :
  exists p, s = p +:+ trim_left set s
            /\ match trim_left set s with String c _ => has_byte set c = false | _ => True end.
Proof.
  induction s as [|c s (p & Hp & Hh)]; simpl; [by exists EmptyString|].
  destruct (has_byte set c) eqn:E.
  - exists (String c p). split; [by rewrite Hp at 1|done].
  - by exists EmptyString.
Qed.

Lemma trim_right_spec set s :
  exists q, s = trim_right set s +:+ q
            /\ match s with String c _ => has_byte set c = false ->
                              exists t, trim_right set s = String c t | _ => True end.
Proof.
  induction s as [|c s (q & Hq & _)]; simpl; [by exists EmptyString|].
  destruct (trim_right set s) as [|d t] eqn:E.
  - destruct (has_byte set c) eqn:Hc.
    + exists (String c s). by split.
    + exists s. split; [done|]. intros _. by exists EmptyString.
  - exists q. split; [simpl; by rewrite Hq at 1|]. intros _. by exists (String d t).
Qed.

Lemma Trim_spec s set :
  exists p q, s = p +:+ Trim s set +:+ q
    /\ match Trim s set with String c _ => has_byte set c = false | _ => True end.
Proof.
  unfold Trim. destruct (trim_left_spec set s) as (p & Hp & Hh).
  destruct (trim_right_spec set (trim_left set s)) as (q & Hq & Hr).
  exists p, q. split; [by rewrite <- Hq|].
  destruct (trim_left set s) as [|c t]; [done|]. destruct (Hr Hh) as [t' ->]. exact Hh.
Qed.

(** Whatever the label, the identifier derived from it satisfies the
    identifier pattern of the proof schema: it starts with a letter or digit,
    has only letters, digits, dots, underscores and hyphens, and between 1
    and 128 bytes. *)
Theorem sanitizeID_schema value : schema_id (sanitizeID value) = true.
Proof.
  unfold sanitizeID. destruct (String.eqb_spec (Trim (sanitize_loop 0 (runes value)) ".-_") EmptyString)
    as [|Hne]; [done|].
  destruct (Trim_spec (sanitize_loop 0 (runes value)) ".-_") as (p & q & Hs & Hh).
  pose proof (sanitize_bytes 0 (runes value)) as Hb.
  pose proof (sanitize_length 0 (runes value) ltac:(lia)) as Hl.
  rewrite Hs in Hb. rewrite !sforall_app in Hb. destruct_hyps.
  rewrite Hs in Hl. unfold slen in Hl. rewrite !str_app_length in Hl.
  set (result := Trim _ _) in *. clearbody result. destruct result as [|c t]; [done|].
  unfold schema_id, slen. rewrite sforall_cons in *. destruct_hyps.
  rewrite !andb_true_iff. repeat split; [|done|apply Z.leb_le; lia].
  unfold id_byte, id_char in *. unfold has_byte in Hh. cbn [sexists] in Hh.
  rewrite !ascii_eqb_val in Hh. unfold alnum_byte. byte_consts. destruct_hyps. to_prop.
  repeat match goal with H : _ || _ = true |- _ => apply orb_true_iff in H as [H|H] end;
    to_prop; try done; lia.
Qed.

(** ** Labels *)

Lemma decode_scalar s : Forall (fun p => scalar (fst p) = true) (decode_runes s).
Proof.
  induction s as [|s Hne IH] using rune_ind; [constructor|].
  rewrite decode_runes_cons by done. constructor; [|exact IH].
  destruct (DecodeRune s) as [r w] eqn:E. simpl.
  destruct (invalid_rune (r, w)) eqn:Ei.
  - unfold invalid_rune in Ei. apply andb_true_iff in Ei as [Er _].
    simpl in Er. to_prop. by subst r.
  - by apply (EncodeRune_DecodeRune s r w Hne E).
Qed.

Lemma all_runes_scalar s : Forall (fun r => scalar r = true) (runes s).
Proof. unfold runes. apply Forall_fmap. exact (decode_scalar s). Qed.

(** A low rune is a byte of the string, and a low byte a rune. *)
Lemma low_rune_byte s r : r ∈ runes s -> r < 128 -> has_byte s (byte_of r) = true.
Proof.
  induction s as [|s Hne IH] using rune_ind; [by intros ?%elem_of_nil|].
  unfold runes in *. rewrite decode_runes_cons by done. cbn [map fst].
  destruct s as [|c s]; [done|]. intros [->|Hin]%elem_of_cons Hr.
  - unfold has_byte. cbn [sexists]. apply orb_true_iff. left. apply ascii_eqb_true.
    unfold DecodeRune in *. cbv zeta in *.
    pose proof (byte_val_range c).
    destruct (Z.ltb_spec (byte_val c) 128); [cbn [fst]; by rewrite byte_of_val|].
    exfalso. revert Hr. clear IH. unfold RuneError, second_lo, second_hi.
    repeat case_match; simpl; to_prop;
      repeat match goal with
      | H : _ || _ = false |- _ => apply orb_false_iff in H as [??]
      | H : negb _ = false |- _ => apply negb_false_iff in H
      | H : in_range _ _ _ = true |- _ => apply in_range_iff in H end; to_prop; lia.
  - specialize (IH Hin Hr). unfold has_byte in *.
    rewrite <- (stake_sdrop (snd (DecodeRune (String c s))) (String c s)), sexists_app.
    by rewrite IH, orb_true_r.
Qed.

Lemma EncodeRune_low r c :
  has_byte (EncodeRune r) c = true -> scalar r = true -> byte_val c < 128 -> byte_val c = r.
Proof.
  intros Hb Hs Hc. rewrite EncodeRune_scalar in Hb by done. apply scalar_iff in Hs.
  unfold has_byte, byte_string in Hb. revert Hb.
  repeat case_match; to_prop; cbn [sexists]; rewrite !ascii_eqb_val, ?byte_val_of by dlia;
    rewrite ?orb_true_iff, ?Z.eqb_eq; intros; destruct_hyps; intuition dlia.
Qed.

Lemma low_byte_rune l c :
  Forall (fun r => scalar r = true) l -> has_byte (of_runes l) c = true -> byte_val c < 128 ->
  byte_val c ∈ l.
Proof.
  intros Hl Hb Hc. induction Hl as [|r l Hr Hl IH]; [done|].
  unfold of_runes in Hb. cbn [map concat_str] in Hb. unfold has_byte in Hb.
  rewrite sexists_app in Hb. apply orb_true_iff in Hb as [Hb|Hb].
  - rewrite (EncodeRune_low r c) by done. left.
  - right. by apply IH.
Qed.

Lemma ContainsAny_false s chars :
  (forall c, has_byte chars c = true -> has_byte s c = false) -> ContainsAny s chars = false.
Proof.
  unfold ContainsAny. induction s as [|c s IH]; intros H; [done|]. simpl.
  assert (Hc : has_byte chars c = false).
  { destruct (has_byte chars c) eqn:E; [|done]. specialize (H c E).
    unfold has_byte in H. simpl in H. by rewrite Ascii.eqb_refl in H. }
  rewrite Hc. apply IH. intros c' Hc'. specialize (H c' Hc'). unfold has_byte in *. simpl in H.
  by apply orb_false_iff in H as [_ ?].
Qed.

Lemma ContainsAny_has s chars c :
  ContainsAny s chars = false -> has_byte chars c = true -> has_byte s c = false.
Proof.
  unfold ContainsAny, has_byte at 3. induction s as [|d s IH]; [done|]. simpl.
  intros [Hd Hs]%orb_false_iff Hc. rewrite IH by done. rewrite orb_false_r.
  apply Ascii.eqb_neq. intros ->. by rewrite Hd in Hc.
Qed.

Lemma path_chars_low c : has_byte path_chars c = true -> byte_val c < 128.
Proof.
  unfold path_chars, has_byte. cbn [String.append sexists byte_string].
  rewrite !orb_true_iff, !ascii_eqb_true. by intros [->|[->|[->|?]]].
Qed.

Lemma runes_firstn n s : runes (of_runes (firstn n (runes s))) = firstn n (runes s).
Proof. apply runes_of_runes, Forall_take, all_runes_scalar. Qed.

Lemma take_runes_no_path n s :
  ContainsAny s path_chars = false -> ContainsAny (take_runes n s) path_chars = false.
Proof.
  intros Hs. apply ContainsAny_false. intros c Hc. apply not_true_is_false. intros Hb.
  pose proof (path_chars_low c Hc) as Hlow.
  apply low_byte_rune in Hb; [|apply Forall_take, all_runes_scalar|done].
  assert (Hin : byte_val c ∈ runes s).
  { rewrite <- (firstn_skipn n (runes s)). apply elem_of_app. by left. }
  apply low_rune_byte in Hin; [|done]. rewrite byte_of_val in Hin.
  by rewrite (ContainsAny_has s path_chars c) in Hin.
Qed.

(** Case mapping of a rune prefix is a prefix of the case mapping. *)
Lemma map_take_prefix (f : Z -> Z) n s :
  exists t, of_runes (map f (runes s)) = of_runes (map f (runes (take_runes n s))) +:+ t.
Proof.
  unfold take_runes. rewrite runes_firstn. exists (of_runes (map f (skipn n (runes s)))).
  by rewrite <- of_runes_app, <- map_app, firstn_skipn.
Qed.

Lemma HasPrefix_app_l p a b : HasPrefix a p = true -> HasPrefix (a +:+ b) p = true.
Proof. rewrite !HasPrefix_iff. intros [t ->]. exists (t +:+ b). by rewrite str_app_assoc. Qed.

Lemma Contains_app_l a b m : Contains a m = true -> Contains (a +:+ b) m = true.
Proof.
  induction a as [|c a IH]; simpl.
  - rewrite orb_false_r. intros H. destruct b; simpl; apply orb_true_iff; left;
      by apply (HasPrefix_app_l m EmptyString).
  - rewrite !orb_true_iff. intros [H|H]; [left|right; by apply IH].
    by apply (HasPrefix_app_l m (String c a)).
Qed.

Lemma HasPrefix_byte p s c :
  HasPrefix s p = true -> has_byte p c = true -> has_byte s c = true.
Proof.
  rewrite HasPrefix_iff. intros [t ->] H. unfold has_byte in *. by rewrite sexists_app, H.
Qed.

Lemma Contains_byte m s c : Contains s m = true -> has_byte m c = true -> has_byte s c = true.
Proof.
  induction s as [|d s IH]; simpl; intros H Hc.
  - rewrite orb_false_r in H. by apply (HasPrefix_byte m).
  - apply orb_true_iff in H as [H|H]; [by apply (HasPrefix_byte m (String d s))|].
    unfold has_byte in *. simpl. by rewrite IH, orb_true_r.
Qed.

Lemma sforall_has f s c : sforall f s = true -> has_byte s c = true -> f c = true.
Proof.
  unfold has_byte. induction s as [|d s IH]; [done|]. rewrite sforall_cons. cbn [sexists].
  intros [Hd Hs]%andb_true_iff [<-%ascii_eqb_true|H]%orb_true_iff; [done|by apply IH].
Qed.

Lemma runes_ascii c s : byte_val c < 128 -> runes (String c s) = byte_val c :: runes s.
Proof.
  intros H. unfold runes. rewrite decode_runes_cons by done. unfold DecodeRune. cbv zeta. by ztest.
Qed.

(** A byte the case mappings of ASCII leave alone. *)
Definition unmapped (c : ascii) : bool := (byte_val c <? 128) && negb (in_range 65 90 (byte_val c)).

Lemma EncodeRune_byte c : byte_val c < 128 -> EncodeRune (byte_val c) = String c EmptyString.
Proof.
  intros H. pose proof (byte_val_range c). rewrite EncodeRune_scalar by (apply scalar_iff; lia).
  ztest. unfold byte_string. by rewrite byte_of_val.
Qed.

Lemma ToLower_unmapped u s : sforall unmapped s = true -> ToLower u s = s.
Proof.
  unfold ToLower. induction s as [|c s IH]; [done|]. rewrite sforall_cons. unfold unmapped at 1.
  intros Hs. destruct_hyps. to_prop. rewrite runes_ascii by done. cbn [map].
  unfold of_runes in *. cbn [map concat_str]. rewrite IH by done.
  unfold rune_lower, ascii_lower. rewrite (proj2 (Z.ltb_lt _ _)) by done.
  match goal with H : in_range _ _ _ = false |- _ => rewrite H end.
  by rewrite EncodeRune_byte.
Qed.

Definition hex6 (value : string) : string :=
  hex (firstn 6 (sha256_bytes ("arp:safe-label:v1" +:+ nul +:+ value))).

Lemma hex6_lower value : sforall is_lower_hex (hex6 value) = true.
Proof. apply hex_lower, Forall_take, sha256_bytes_range. Qed.

Lemma hex6_length value : String.length (hex6 value) = 12%nat.
Proof. unfold hex6. rewrite hex_length, length_take, sha256_bytes_length. done. Qed.

Definition label_byte (c : ascii) : bool := is_lower_hex c || has_byte "redacted-" c.

Lemma lower_hex_range c : is_lower_hex c = true -> 48 <= byte_val c <= 57 \/ 97 <= byte_val c <= 102.
Proof. unfold is_lower_hex. rewrite orb_true_iff, !in_range_iff. done. Qed.

Lemma redacted_bytes value : sforall label_byte (redacted value) = true.
Proof.
  unfold redacted. rewrite sforall_app. apply andb_true_iff. split; [done|].
  eapply sforall_impl; [|apply hex6_lower]. intros c Hc. unfold label_byte. by rewrite Hc.
Qed.

Lemma redacted_unmapped value : sforall unmapped (redacted value) = true.
Proof.
  unfold redacted. rewrite sforall_app. apply andb_true_iff. split; [done|].
  eapply sforall_impl; [|apply hex6_lower]. intros c Hc%lower_hex_range. unfold unmapped.
  destruct Hc; ztest; done.
Qed.

Lemma redacted_no_marker value m : m ∈ sensitiveMarkers -> Contains (redacted value) m = false.
Proof.
  intros Hm. apply not_true_is_false. intros Hc.
  assert (Hno : forall c, has_byte m c = true -> label_byte c = false -> False).
  { intros c H1 H2. pose proof (Contains_byte m _ c Hc H1) as H3.
    by rewrite (sforall_has _ _ _ (redacted_bytes value) H3) in H2. }
  unfold sensitiveMarkers in Hm.
  repeat (apply elem_of_cons in Hm as [->|Hm];
    [first [by apply (Hno "o"%char) | by apply (Hno "s"%char) | by apply (Hno "p"%char)
           | by apply (Hno "n"%char) | idtac] | ]); [|by apply elem_of_nil in Hm].
  (* "bearer": the only r of the label is its first byte *)
  unfold redacted in Hc. fold (hex6 value) in Hc.
  change ("redacted-" +:+ hex6 value) with (String "r" ("edacted-" +:+ hex6 value)) in Hc.
  cbn [Contains] in Hc. apply orb_true_iff in Hc as [Hc|Hc]; [done|].
  apply (Contains_byte "bearer" _ "r"%char) in Hc; [|done].
  unfold has_byte in Hc. rewrite sexists_app in Hc. apply orb_true_iff in Hc as [Hc|Hc]; [done|].
  apply (sforall_has _ _ _ (hex6_lower value)) in Hc. done.
Qed.

Lemma redacted_unmarked u value : marked u (redacted value) = false.
Proof.
  unfold marked. rewrite (ToLower_unmapped u _ (redacted_unmapped value)).
  rewrite !orb_false_iff. repeat split.
  - apply ContainsAny_false. intros c Hc. apply not_true_is_false. intros H.
    apply (sforall_has _ _ _ (redacted_bytes value)) in H.
    revert Hc. unfold path_chars, has_byte. cbn [String.append sexists byte_string].
    rewrite !orb_true_iff, !ascii_eqb_true. by intros [->|[->|[->|?]]].
  - apply existsb_false, Forall_forall. intros m. apply redacted_no_marker.
Qed.

Lemma truncate_unmarked u value limit : marked u value = false -> marked u (truncateRunes value limit) = false.
Proof.
  unfold truncateRunes. destruct (_ <=? _); [done|]. set (n := Z.to_nat limit).
  unfold marked, ToLower, ToUpper. rewrite !orb_false_iff. intros H. destruct_hyps.
  destruct (map_take_prefix (rune_lower u) n value) as [t Ht].
  destruct (map_take_prefix (rune_upper u) n value) as [t' Ht'].
  rewrite Ht in *. rewrite Ht' in *.
  assert (Hp : forall p a b, HasPrefix (a +:+ b) p = false -> HasPrefix a p = false).
  { intros p a b Hf. apply not_true_is_false. intros Hq.
    by rewrite (HasPrefix_app_l p a b Hq) in Hf. }
  repeat split; [by apply take_runes_no_path| |eapply Hp; eassumption..].
  apply existsb_false, Forall_forall. intros m Hm. apply not_true_is_false. intros Hc.
  match goal with H : existsb _ _ = false |- _ =>
    rewrite existsb_false, Forall_forall in H; specialize (H m Hm); cbv beta in H;
    rewrite (Contains_app_l _ t m Hc) in H; discriminate H
  end.
Qed.

(** No label of a proof carries a path, a secret word or a known key
    prefix: whatever the input, and whatever the Unicode tables, the output
    of [safeField] contains no separator or NUL byte, none of the sensitive
    markers in any case, and no key prefix. *)
Theorem safeField_unmarked u value : marked u (safeField u value) = false.
Proof.
  unfold safeField, sensitive. destruct (marked u value) eqn:E; simpl.
  - apply redacted_unmarked.
  - destruct (tokenLike value); simpl; [apply redacted_unmarked|by apply truncate_unmarked].
Qed.

(** ** Sizes *)

Lemma decode_runes_length s : (length (decode_runes s) <= String.length s)%nat.
Proof.
  induction s as [|s Hne IH] using rune_ind; [simpl; lia|].
  rewrite decode_runes_cons by done. cbn [length].
  pose proof (DecodeRune_width s Hne). rewrite sdrop_length in IH. lia.
Qed.

Lemma RuneCount_length s : RuneCountInString s <= slen s.
Proof.
  unfold RuneCountInString, slen, runes. rewrite length_map. pose proof (decode_runes_length s). lia.
Qed.

Lemma truncateRunes_count value limit :
  0 <= limit -> RuneCountInString (truncateRunes value limit) <= limit.
Proof.
  intros Hl. unfold truncateRunes. destruct (Z.leb_spec (RuneCountInString value) limit); [done|].
  unfold take_runes, RuneCountInString. rewrite runes_firstn, length_take. lia.
Qed.

Lemma redacted_count value : RuneCountInString (redacted value) <= 21.
Proof.
  etransitivity; [apply RuneCount_length|]. unfold redacted, slen.
  fold (hex6 value). rewrite str_app_length, hex6_length. simpl. lia.
Qed.


Fixpoint repeat_char (n : nat) (c : ascii) : string :=
  match n with O => EmptyString | S n' => String c (repeat_char n' c) end.

(** The token test runs before the truncation, so a label of 128 token
    characters and one more character is not redacted: what remains after
    the cut is itself token-like, and projecting it again would redact it. *)
Theorem safeField_keeps_long_token u :
  let label := repeat_char 128 "a" +:+ "!" in
  tokenLike label = false
  /\ safeField u label = repeat_char 128 "a"
  /\ tokenLike (safeField u label) = true
  /\ safeField u (safeField u label) = redacted (repeat_char 128 "a").
Proof.
  cbv zeta.
  assert (H : sensitive u (repeat_char 128 "a" +:+ "!") = false) by (vm_compute; reflexivity).
  assert (Hs : sensitive u (repeat_char 128 "a") = true) by (vm_compute; reflexivity).
  assert (Ht : truncateRunes (repeat_char 128 "a" +:+ "!") 128 = repeat_char 128 "a")
    by (vm_compute; reflexivity).
  unfold safeField at 1 2 4. rewrite H. cbn [negb]. rewrite Ht.
  split; [vm_compute; reflexivity|]. split; [done|]. split; [vm_compute; reflexivity|].
  unfold safeField. by rewrite Hs.
Qed.
