(* ===== verification/ProofId.v ===== *)
(** * Proofs and their identity ([internal/proof])

    [build.go], [digest.go] and [validate.go]: a proof is assembled from the
    privacy projection and the decision, its identity is the SHA-256 of its
    canonical bytes with the identity field cleared, and a document is
    accepted only if it carries the identity of its own content. *)

From S2P Require Import Prelude GoStrings GoSha256 Model Canonical Contract RoundTrip Wire.
From S2P Require Import Protected Expectation Process Evaluator Privacy.

Inductive id_error := IdentityCanonical (e : canonical_error) | IdentityMismatch.

Definition with_id (value : Proof) (id : string) : Proof := {|
  SchemaVersion := SchemaVersion value; ProofID := id; ObservedAt := ObservedAt value;
  Tool := Tool value; Proof_Platform := Proof_Platform value;
  Proof_Subject := Proof_Subject value; Proof_Expectation := Proof_Expectation value;
  Proof_Observation := Proof_Observation value;
  Proof_HostAttribution := Proof_HostAttribution value; Verdict := Verdict value;
  ProofLevel := ProofLevel value; ReasonCodes := ReasonCodes value; Evidence := Evidence value;
  Proof_Privacy := Proof_Privacy value; Limitations := Limitations value;
  Proof_Extensions := Proof_Extensions value |}.

Definition identity_hash (encoded : string) : string := "sha256:" +:+ sha256_hex encoded.

(** [AssignID] on a non-nil proof. *)
Definition AssignID (value : Proof) : result id_error Proof :=
  let clone := with_id value EmptyString in
  let! encoded := map_err IdentityCanonical (Marshal (Proof_json clone)) in
  Ok (with_id value (identity_hash encoded)).

Definition VerifyID (value : Proof) : result id_error unit :=
  let want := ProofID value in
  let! assigned := AssignID value in
  guard_ (ProofID assigned =s want) IdentityMismatch.

Inductive proof_error :=
| ProofInvalid (e : validate_error)
| ProofUndecodable (e : wire_error)
| ProofIdentity (e : id_error).

Record ProofInput := {
  PI_Candidate : option Candidate;
  PI_Expectation : option Resolved;
  PI_Artifact : option ArtifactObservation;
  PI_Decision : Decision;
  PI_Tool : ToolInfo;
  PI_ObservedAt : string;            (* already formatted in UTC, RFC 3339 *)
  PI_Host : option HostAttribution
}.

Section Build.
Variable schema_ok : string -> json -> bool.
Variable u : UnicodeTables.
Variable build_platform : Platform.

(** [Validate], from the decoded document on. *)
Definition Validate_tree (value : json) : result proof_error Proof :=
  let! _ := map_err ProofInvalid (ValidateProof_tree schema_ok value) in
  let! proof := map_err ProofUndecodable (Proof_of value) in
  let! _ := map_err ProofIdentity (VerifyID proof) in
  Ok proof.

Definition Validate (document : string) : result proof_error Proof :=
  let! value := map_err (fun e => ProofInvalid (DecodeFailed e)) (decodeOne document) in
  Validate_tree value.

Definition assemble (input : ProofInput) : Proof :=
  let projection := Project u build_platform (PI_Candidate input) (PI_Expectation input)
                      (PI_Artifact input) (PI_ObservedAt input) in
  {| SchemaVersion := "agent-runtime-proof/1.0"; ProofID := EmptyString;
     ObservedAt := PI_ObservedAt input; Tool := PI_Tool input;
     Proof_Platform := P_Platform projection; Proof_Subject := P_Subject projection;
     Proof_Expectation := P_Expectation projection;
     Proof_Observation := P_Observation projection;
     Proof_HostAttribution := PI_Host input; Verdict := D_Verdict (PI_Decision input);
     ProofLevel := D_ProofLevel (PI_Decision input);
     ReasonCodes := D_ReasonCodes (PI_Decision input);
     Evidence := P_Evidence projection; Proof_Privacy := P_Privacy projection;
     Limitations := D_Limitations (PI_Decision input); Proof_Extensions := [] |}.

Definition Build (input : ProofInput) : result proof_error Proof :=
  let! value := map_err ProofIdentity (AssignID (assemble input)) in
  let! _ := Validate_tree (normalize (Proof_json value)) in
  Ok value.
End Build.

(** ** Identity *)

Lemma with_id_json value id :
  Proof_members (with_id value id) =
    ("schema_version", JString (SchemaVersion value)) :: omitempty "proof_id" id
    ++ tl (Proof_members (with_id value EmptyString)).
Proof. by destruct value. Qed.

Lemma with_id_twice value id id' : with_id (with_id value id) id' = with_id value id'.
Proof. done. Qed.

Lemma with_id_same value : with_id value (ProofID value) = value.
Proof. by destruct value. Qed.

Lemma AssignID_ok value assigned :
  AssignID value = Ok assigned <->
  exists encoded, Marshal (Proof_json (with_id value EmptyString)) = Ok encoded
                  /\ assigned = with_id value (identity_hash encoded).
Proof.
  unfold AssignID. rewrite rbind_ok. setoid_rewrite map_err_ok. split.
  - intros (e & He & [= <-]). by exists e.
  - intros (e & He & ->). by exists e.
Qed.

Lemma VerifyID_ok value :
  VerifyID value = Ok tt <->
  exists encoded, Marshal (Proof_json (with_id value EmptyString)) = Ok encoded
                  /\ ProofID value = identity_hash encoded.
Proof.
  unfold VerifyID. rewrite rbind_ok. setoid_rewrite guard_ok. setoid_rewrite AssignID_ok.
  setoid_rewrite String.eqb_eq. split.
  - intros (a & (e & He & ->) & H). exists e. split; [done|]. by rewrite <- H.
  - intros (e & He & H). eauto.
Qed.

Lemma identity_hash_inj a b :
  identity_hash a = identity_hash b -> sha256_hex a = sha256_hex b.
Proof. apply str_app_inv_l. Qed.

(** The integers of a proof are within the width of their Go types. *)
Definition proof_ints (p : Proof) : Prop := observation_ints (Proof_Observation p).

Lemma stringArray_strs l : stringArray (strs l) = Ok l.
Proof.
  unfold stringArray, strs. induction l as [|x l IH]; [done|]. cbn [map mapM_]. by rewrite IH.
Qed.

Lemma strs_distinct l : distinct_keys (strs l) = true.
Proof. simpl. rewrite forallb_map. by apply forallb_Forall, Forall_true. Qed.

Lemma evidence_distinct l : distinct_keys (JArray (map EvidenceItem_json l)) = true.
Proof.
  simpl. rewrite forallb_map. apply forallb_Forall, Forall_true. intros [x y z].
  unfold EvidenceItem_json, omitempty. simpl. by destruct (y =s EmptyString).
Qed.

Lemma nullable_distinct {A} (f : A -> json) o :
  (forall a, distinct_keys (f a) = true) -> distinct_keys (nullable f o) = true.
Proof. intros H. destruct o; [apply H|done]. Qed.

Lemma Observation_distinct o : distinct_keys (Observation_json o) = true.
Proof.
  assert (He : forall e, distinct_keys (ExecutableObservation_json e) = true).
  { intros [? ? f]. unfold ExecutableObservation_json, omitempty. simpl.
    by destruct (f =s EmptyString). }
  unfold Observation_json. cbn [distinct_keys forallb snd].
  rewrite strs_distinct, (nullable_distinct ProcessIdentity_json),
    (nullable_distinct ExecutableObservation_json), (nullable_distinct ArtifactObservation_json); done.
Qed.

Lemma HostAttribution_distinct h : distinct_keys (HostAttribution_json h) = true.
Proof.
  destruct h as [? b ? ?]. unfold HostAttribution_json, omitempty. simpl.
  by destruct (b =s EmptyString).
Qed.

Lemma Privacy_distinct p : distinct_keys (PrivacyProjection_json p) = true.
Proof.
  unfold PrivacyProjection_json. cbn [distinct_keys forallb snd]. by rewrite strs_distinct.
Qed.

Lemma no_extensions_distinct p :
  Proof_Extensions p = [] -> distinct_keys (Proof_json p) = true.
Proof.
  intros Hx. unfold Proof_json. cbn [distinct_keys]. apply andb_true_iff. split.
  - apply bool_decide_eq_true. unfold Proof_members. rewrite Hx. unfold omitempty.
    destruct (ProofID p =s EmptyString); nodup.
  - unfold Proof_members. rewrite Hx, !forallb_app.
    assert (Ho : forallb (fun kv => distinct_keys (snd kv)) (omitempty "proof_id" (ProofID p)) = true)
      by (unfold omitempty; by destruct (_ =s _)).
    rewrite Ho. cbn [forallb snd app extensions_json]. fold (distinct_keys).
    rewrite !strs_distinct, evidence_distinct, Observation_distinct,
      (nullable_distinct HostAttribution_json), (nullable_distinct ExpectationProjection_json);
      [|done|apply HostAttribution_distinct].
    by rewrite Privacy_distinct.
Qed.

Lemma Proof_keys_NoDup p : NoDup (map fst (Proof_members (with_id p EmptyString))).
Proof. destruct p as [? ? ? ? ? ? ? ? ? ? ? ? ? ? ? [|]]; nodup. Qed.

(** The members that are always there. *)
Definition fixed_members (p : Proof) : list (string * json) := [
  ("schema_version", JString (SchemaVersion p)); ("observed_at", JString (ObservedAt p));
  ("tool", ToolInfo_json (Tool p)); ("platform", Platform_json (Proof_Platform p));
  ("subject", Subject_json (Proof_Subject p));
  ("expectation", nullable ExpectationProjection_json (Proof_Expectation p));
  ("observation", Observation_json (Proof_Observation p));
  ("host_attribution", nullable HostAttribution_json (Proof_HostAttribution p));
  ("verdict", JString (Verdict p)); ("proof_level", JString (ProofLevel p));
  ("reason_codes", strs (ReasonCodes p)); ("evidence", JArray (map EvidenceItem_json (Evidence p)));
  ("privacy", PrivacyProjection_json (Proof_Privacy p)); ("limitations", strs (Limitations p))].

Lemma fixed_get p k v :
  In (k, v) (fixed_members p) -> get_in (Proof_members (with_id p EmptyString)) k = v.
Proof.
  intros Hin. unfold fixed_members in Hin.
  repeat (destruct Hin as [[= <- <-]|Hin]; [reflexivity|]). destruct Hin.
Qed.

Lemma extensions_get p :
  get_in (Proof_members (with_id p EmptyString)) "extensions"
  = match Proof_Extensions p with [] => JNull | m => JObject m end.
Proof. by destruct p as [? ? ? ? ? ? ? ? ? ? ? ? ? ? ? [|]]. Qed.

(** Equality of everything the identity covers: all fields but the identity
    itself (and the entrypoint identity of the artifact, which never leaves
    the process); extension objects up to member order. *)
Definition same_content (p q : Proof) : Prop :=
  SchemaVersion p = SchemaVersion q /\ ObservedAt p = ObservedAt q /\ Tool p = Tool q
  /\ Proof_Platform p = Proof_Platform q /\ Proof_Subject p = Proof_Subject q
  /\ Proof_Expectation p = Proof_Expectation q
  /\ strip_observation (Proof_Observation p) = strip_observation (Proof_Observation q)
  /\ Proof_HostAttribution p = Proof_HostAttribution q /\ Verdict p = Verdict q
  /\ ProofLevel p = ProofLevel q /\ ReasonCodes p = ReasonCodes q /\ Evidence p = Evidence q
  /\ Proof_Privacy p = Proof_Privacy q /\ Limitations p = Limitations q
  /\ canon (JObject (Proof_Extensions p)) = canon (JObject (Proof_Extensions q)).

Lemma fixed_eq p q :
  canon (Proof_json (with_id p EmptyString)) = canon (Proof_json (with_id q EmptyString)) ->
  forall k v w, In (k, v) (fixed_members p) -> In (k, w) (fixed_members q) -> canon v = canon w.
Proof.
  intros H k v w Hv Hw. rewrite <- (fixed_get p k v Hv), <- (fixed_get q k w Hw).
  apply canon_get; [apply Proof_keys_NoDup..|done].
Qed.

Lemma content_of_canon p q :
  proof_ints p -> proof_ints q ->
  canon (Proof_json (with_id p EmptyString)) = canon (Proof_json (with_id q EmptyString)) ->
  same_content p q.
Proof.
  intros Hp Hq H. pose proof (fixed_eq p q H) as F.
  assert (S : forall k v w, In (k, JString v) (fixed_members p) -> In (k, JString w) (fixed_members q) ->
              v = w) by (intros k v w Hv Hw; pose proof (F k _ _ Hv Hw) as E; simpl in E; congruence).
  repeat split.
  - eapply (S "schema_version"); simpl; tauto.
  - eapply (S "observed_at"); simpl; tauto.
  - eapply ToolInfo_inj, (F "tool"); simpl; tauto.
  - eapply Platform_inj, (F "platform"); simpl; tauto.
  - eapply Subject_inj, (F "subject"); simpl; tauto.
  - eapply (canon_nullable ExpectationProjection_json); [done|intros; by apply ExpectationProjection_inj|].
    eapply (F "expectation"); simpl; tauto.
  - eapply Observation_inj; [done|done|]. eapply (F "observation"); simpl; tauto.
  - eapply (canon_nullable HostAttribution_json); [by intros []|intros; by apply HostAttribution_inj|].
    eapply (F "host_attribution"); simpl; tauto.
  - eapply (S "verdict"); simpl; tauto.
  - eapply (S "proof_level"); simpl; tauto.
  - eapply canon_strs, (F "reason_codes"); simpl; tauto.
  - eapply (canon_list EvidenceItem_json); [intros; by apply EvidenceItem_inj|].
    eapply (F "evidence"); simpl; tauto.
  - eapply PrivacyProjection_inj, (F "privacy"); simpl; tauto.
  - eapply canon_strs, (F "limitations"); simpl; tauto.
  - pose proof (canon_get _ _ "extensions" (Proof_keys_NoDup p) (Proof_keys_NoDup q) H) as E.
    rewrite !extensions_get in E. destruct (Proof_Extensions p), (Proof_Extensions q); done.
Qed.

Lemma AssignID_VerifyID value assigned : AssignID value = Ok assigned -> VerifyID assigned = Ok tt.
Proof.
  intros (e & He & ->)%AssignID_ok. apply VerifyID_ok. exists e. by rewrite with_id_twice.
Qed.

(** The wire tree of a proof: valid UTF-8, safe integers, no repeated keys. *)
Definition well_formed (p : Proof) : Prop :=
  proof_ints p /\ encodable (Proof_json (with_id p EmptyString)) = true
  /\ distinct_keys (Proof_json (with_id p EmptyString)) = true.

Lemma well_formed_marshal p :
  well_formed p ->
  Marshal (Proof_json (with_id p EmptyString)) = appendValue (Proof_json (with_id p EmptyString)).
Proof. intros (_ & He & Hd). unfold Marshal. by rewrite normalize_id. Qed.

(** C12: the identity protects every field: two well-formed proofs that both
    verify and carry the same identity have the same content, field by field,
    unless their two different canonical encodings collide under SHA-256. *)
Theorem proof_id_protects p q :
  well_formed p -> well_formed q ->
  VerifyID p = Ok tt -> VerifyID q = Ok tt -> ProofID p = ProofID q ->
  same_content p q \/
  exists a b, Marshal (Proof_json (with_id p EmptyString)) = Ok a
    /\ Marshal (Proof_json (with_id q EmptyString)) = Ok b
    /\ a <> b /\ sha256_hex a = sha256_hex b.
Proof.
  intros Wp Wq (a & Ha & Hp)%VerifyID_ok (b & Hb & Hq)%VerifyID_ok Hid.
  destruct (decide (a = b)) as [->|Hne].
  - left. rewrite well_formed_marshal in Ha, Hb by done.
    pose proof (decodeOne_reads _ _ (proj2 (proj2 Wp)) Ha) as Dp.
    pose proof (decodeOne_reads _ _ (proj2 (proj2 Wq)) Hb) as Dq.
    apply content_of_canon; [apply Wp|apply Wq|]. congruence.
  - right. exists a, b. repeat split; [done..|]. apply identity_hash_inj. congruence.
Qed.

(** [AssignID] is total on well-formed proofs and its result verifies;
    verification is by recomputation, so it accepts exactly the assigned
    identity and no other. *)
Theorem AssignID_verifies p :
  well_formed p ->
  exists id, AssignID p = Ok (with_id p id)
    /\ forall id', VerifyID (with_id p id') = Ok tt <-> id' = id.
Proof.
  intros W. pose proof (well_formed_marshal p W) as Hm. destruct W as (_ & He & _).
  rewrite <- appendValue_is_ok in He. apply is_ok_true in He as [e He]. rewrite He in Hm.
  exists (identity_hash e). split.
  - apply AssignID_ok. by exists e.
  - intros id'. rewrite VerifyID_ok, with_id_twice. simpl. split.
    + intros (e' & He' & ->). congruence.
    + intros ->. eauto.
Qed.

Section BuildFacts.
Context (schema_ok : string -> json -> bool) (u : UnicodeTables) (build_platform : Platform).

Lemma Validate_tree_ok value p :
  Validate_tree schema_ok value = Ok p <->
  ValidateProof_tree schema_ok value = Ok tt /\ Proof_of value = Ok p /\ VerifyID p = Ok tt.
Proof.
  unfold Validate_tree. split.
  - intros H. inv_ok. subst. destruct x, x1. done.
  - intros (H1 & H2 & H3). rewrite H1. cbn. rewrite H2. cbn. by rewrite H3.
Qed.
End BuildFacts.


(** ** The proof of a failed observation *)

Definition sample_proof_input : ProofInput := {|
  PI_Candidate := None; PI_Expectation := None; PI_Artifact := None;
  PI_Decision := Evaluate {|
    In_Candidate := None; In_Expectation := None; In_Artifact := None; In_ProcessError := None;
    In_ArtifactError := None; In_HostError := None; KnownPriorDigests := [] |};
  PI_Tool := {| Tool_Name := "agent-runtime-proof"; Tool_Version := "1.0.0"; Tool_Commit := "0123abc";
                Toolchain := "go1.26.0" |};
  PI_ObservedAt := "2026-01-01T00:00:00Z"; PI_Host := None |}.

Definition sample_proof : Proof :=
  let value := assemble ascii_tables {| OS := "linux"; Arch := "amd64" |} sample_proof_input in
  match AssignID value with Ok p => p | Err _ => value end.

Lemma sample_proof_well_formed : well_formed sample_proof.
Proof.
  assert (Hp : Obs_Process (Proof_Observation sample_proof) = None) by (vm_compute; reflexivity).
  assert (Ha : Obs_Artifact (Proof_Observation sample_proof) = None) by (vm_compute; reflexivity).
  split; [split; intros ? H; congruence|]. split; vm_compute; reflexivity.
Qed.

Lemma sample_proof_verifies : VerifyID sample_proof = Ok tt.
Proof. vm_compute. reflexivity. Qed.

Lemma proof_id_protects_witness :
  same_content sample_proof sample_proof \/
  exists a b, Marshal (Proof_json (with_id sample_proof EmptyString)) = Ok a
    /\ Marshal (Proof_json (with_id sample_proof EmptyString)) = Ok b
    /\ a <> b /\ sha256_hex a = sha256_hex b.
Proof.
  exact (proof_id_protects sample_proof sample_proof sample_proof_well_formed sample_proof_well_formed
           sample_proof_verifies sample_proof_verifies eq_refl).
Defined.

Lemma AssignID_verifies_witness :
  exists id, AssignID sample_proof = Ok (with_id sample_proof id)
    /\ forall id', VerifyID (with_id sample_proof id') = Ok tt <-> id' = id.
Proof. exact (AssignID_verifies sample_proof sample_proof_well_formed). Defined.

