(* ===== verification/Receipt.v ===== *)
(** * Launch receipts ([internal/receipt/receipt.go])

    The record a witness leaves of a launch: built with the privacy defaults,
    identified like a proof by the SHA-256 of its canonical bytes, and
    accepted only with the identity of its own content. *)

From S2P Require Import Prelude GoStrings GoSha256 Model Canonical Contract RoundTrip Wire.
From S2P Require Import Protected ProofId.

Definition with_receipt_id (value : LaunchReceipt) (id : string) : LaunchReceipt := {|
  R_SchemaVersion := R_SchemaVersion value; ReceiptID := id; R_CreatedAt := R_CreatedAt value;
  R_Tool := R_Tool value; R_Platform := R_Platform value; R_Subject := R_Subject value;
  R_Process := R_Process value; R_Command := R_Command value;
  R_Expectation := R_Expectation value; R_Artifact := R_Artifact value;
  R_ObservationOnly := R_ObservationOnly value; R_ReasonCodes := R_ReasonCodes value;
  R_Privacy := R_Privacy value |}.

(** [AssignID] on a non-nil receipt. *)
Definition AssignID (value : LaunchReceipt) : result id_error LaunchReceipt :=
  let clone := with_receipt_id value EmptyString in
  let! encoded := map_err IdentityCanonical (Marshal (LaunchReceipt_json clone)) in
  Ok (with_receipt_id value (identity_hash encoded)).

Definition VerifyID (value : LaunchReceipt) : result id_error unit :=
  let want := ReceiptID value in
  let! assigned := AssignID value in
  guard_ (ReceiptID assigned =s want) IdentityMismatch.

Record ReceiptInput := {
  RI_CreatedAt : string;             (* already formatted in UTC, RFC 3339 *)
  RI_Tool : ToolInfo;
  RI_Platform : Platform;
  RI_Subject : option Subject;
  RI_Process : ProcessIdentity;
  RI_Command : CommandObservation;
  RI_Expectation : option ExpectationProjection;
  RI_Artifact : option ReceiptArtifact;
  RI_ObservationOnly : bool
}.

Definition receipt_of (input : ReceiptInput) : LaunchReceipt := {|
  R_SchemaVersion := "agent-runtime-launch-receipt/1.0"; ReceiptID := EmptyString;
  R_CreatedAt := RI_CreatedAt input; R_Tool := RI_Tool input; R_Platform := RI_Platform input;
  R_Subject := RI_Subject input; R_Process := RI_Process input; R_Command := RI_Command input;
  R_Expectation := RI_Expectation input; R_Artifact := RI_Artifact input;
  R_ObservationOnly := RI_ObservationOnly input;
  R_ReasonCodes := if RI_ObservationOnly input then ["WITNESS_EXPECTATION_MISSING"] else [];
  R_Privacy := {| RedactionMode := "safe-default"; HomeRedacted := true;
                  OmittedFields := ["command.argv"; "process.environment";
                                    "process.command_line"; "filesystem.paths"] |} |}.

Section Build.
Variable schema_ok : string -> json -> bool.

Definition Build (input : ReceiptInput) : result proof_error LaunchReceipt :=
  let! value := map_err ProofIdentity (AssignID (receipt_of input)) in
  let! _ := map_err ProofInvalid
    (ValidateLaunchReceipt_tree schema_ok (normalize (LaunchReceipt_json value))) in
  Ok value.

Definition Validate (document : string) : result proof_error LaunchReceipt :=
  let! value := map_err (fun e => ProofInvalid (DecodeFailed e)) (decodeOne document) in
  let! _ := map_err ProofInvalid (ValidateLaunchReceipt_tree schema_ok value) in
  let! receipt := map_err ProofUndecodable (LaunchReceipt_of value) in
  let! _ := map_err ProofIdentity (VerifyID receipt) in
  Ok receipt.
End Build.

(** ** Identity *)

Lemma receipt_AssignID_ok value assigned :
  AssignID value = Ok assigned <->
  exists encoded, Marshal (LaunchReceipt_json (with_receipt_id value EmptyString)) = Ok encoded
                  /\ assigned = with_receipt_id value (identity_hash encoded).
Proof.
  unfold AssignID. rewrite rbind_ok. setoid_rewrite map_err_ok. split.
  - intros (e & He & [= <-]). by exists e.
  - intros (e & He & ->). by exists e.
Qed.

Lemma receipt_VerifyID_ok value :
  VerifyID value = Ok tt <->
  exists encoded, Marshal (LaunchReceipt_json (with_receipt_id value EmptyString)) = Ok encoded
                  /\ ReceiptID value = identity_hash encoded.
Proof.
  unfold VerifyID. rewrite rbind_ok. setoid_rewrite guard_ok. setoid_rewrite receipt_AssignID_ok.
  setoid_rewrite String.eqb_eq. split.
  - intros (a & (e & He & ->) & H). exists e. split; [done|]. by rewrite <- H.
  - intros (e & He & H). eauto.
Qed.

Definition receipt_ints (r : LaunchReceipt) : Prop :=
  in_int64 (PID (R_Process r))
  /\ Forall (fun f => in_int64 (Position f)) (Cmd_ArgumentFingerprints (R_Command r))
  /\ (forall a, R_Artifact r = Some a -> receipt_artifact_ints a).

Definition receipt_well_formed (r : LaunchReceipt) : Prop :=
  receipt_ints r /\ encodable (LaunchReceipt_json r) = true.

Lemma receipt_members_distinct r : distinct_keys (LaunchReceipt_json r) = true.
Proof.
  unfold LaunchReceipt_json, LaunchReceipt_members. cbn [distinct_keys]. apply andb_true_iff. split.
  - apply bool_decide_eq_true. unfold omitempty. destruct (ReceiptID r =s EmptyString); nodup.
  - rewrite !forallb_app.
    assert (Ho : forallb (fun kv => distinct_keys (snd kv)) (omitempty "receipt_id" (ReceiptID r)) = true)
      by (unfold omitempty; by destruct (_ =s _)).
    assert (Hc : distinct_keys (CommandObservation_json (R_Command r)) = true).
    { unfold CommandObservation_json. cbn [distinct_keys forallb snd].
      rewrite forallb_map. rewrite (proj2 (forallb_Forall _ _)); [done|by apply Forall_true]. }
    rewrite Ho. cbn [forallb snd app].
    rewrite Hc, !strs_distinct, Privacy_distinct, (nullable_distinct Subject_json),
      (nullable_distinct ExpectationProjection_json), (nullable_distinct ReceiptArtifact_json); done.
Qed.

(** The members of a receipt document, identity aside. *)
Definition receipt_members (r : LaunchReceipt) : list (string * json) := [
  ("schema_version", JString (R_SchemaVersion r)); ("created_at", JString (R_CreatedAt r));
  ("tool", ToolInfo_json (R_Tool r)); ("platform", Platform_json (R_Platform r));
  ("subject", nullable Subject_json (R_Subject r)); ("process", ProcessIdentity_json (R_Process r));
  ("command", CommandObservation_json (R_Command r));
  ("expectation", nullable ExpectationProjection_json (R_Expectation r));
  ("artifact", nullable ReceiptArtifact_json (R_Artifact r));
  ("observation_only", JBool (R_ObservationOnly r)); ("reason_codes", strs (R_ReasonCodes r));
  ("privacy", PrivacyProjection_json (R_Privacy r))].

Lemma cleared_members r :
  LaunchReceipt_members (with_receipt_id r EmptyString) = receipt_members r.
Proof. by destruct r. Qed.

Lemma receipt_content a b :
  receipt_ints a -> receipt_ints b ->
  canon (JObject (receipt_members a)) = canon (JObject (receipt_members b)) ->
  with_receipt_id a EmptyString = with_receipt_id b EmptyString.
Proof.
  destruct a as [sv i ca to pl su pr co ex ar oo rc pv], b as [sv' i' ca' to' pl' su' pr' co' ex' ar' oo' rc' pv'].
  unfold receipt_ints, receipt_members, with_receipt_id.
  cbn [R_SchemaVersion ReceiptID R_CreatedAt R_Tool R_Platform R_Subject R_Process R_Command
       R_Expectation R_Artifact R_ObservationOnly R_ReasonCodes R_Privacy].
  intros (Hp & Hf & Ha) (Hp' & Hf' & Ha') H.
  field_raw H "schema_version" E1. field_raw H "created_at" E2. field_raw H "tool" E3.
  field_raw H "platform" E4. field_raw H "subject" E5. field_raw H "process" E6.
  field_raw H "command" E7. field_raw H "expectation" E8. field_raw H "artifact" E9.
  field_raw H "observation_only" E10. field_raw H "reason_codes" E11. field_raw H "privacy" E12.
  apply ToolInfo_inj in E3. apply Platform_inj in E4.
  apply canon_nullable in E5; [|done|intros; by apply Subject_inj].
  apply ProcessIdentity_inj in E6; [|done|done].
  apply CommandObservation_inj in E7; [|done|done].
  apply canon_nullable in E8; [|done|intros; by apply ExpectationProjection_inj].
  apply canon_nullable in E9; [|done|intros; apply ReceiptArtifact_inj; auto].
  apply canon_strs in E11. apply PrivacyProjection_inj in E12.
  cbn [canon] in E1, E2, E10. injection E1 as E1. injection E2 as E2. injection E10 as E10.
  subst. reflexivity.
Qed.

Lemma with_own_id r : with_receipt_id (with_receipt_id r EmptyString) (ReceiptID r) = r.
Proof. by destruct r. Qed.

Lemma receipt_field r k v :
  In (k, v) (receipt_members r) -> field (LaunchReceipt_members r) k = v.
Proof.
  intros Hin. unfold LaunchReceipt_members, omitempty.
  repeat (destruct Hin as [[= <- <-]|Hin]; [by destruct (ReceiptID r =s EmptyString)|]).
  destruct Hin.
Qed.

Lemma is_nil_nullable {A} (f : A -> json) o :
  (forall a, is_nil (f a) = false) ->
  is_nil (nullable f o) = match o with Some _ => false | None => true end.
Proof. intros H. destruct o; [apply H|done]. Qed.

(** The semantic rule of receipts, on the struct. *)
Definition receipt_rule (r : LaunchReceipt) : Prop :=
  if R_ObservationOnly r
  then R_Subject r = None /\ R_Expectation r = None /\ R_Artifact r = None
       /\ "WITNESS_EXPECTATION_MISSING" ∈ R_ReasonCodes r
  else is_Some (R_Subject r) /\ is_Some (R_Expectation r) /\ is_Some (R_Artifact r)
       /\ R_ReasonCodes r = [].

Lemma contains_elem l x : contains l x = true <-> x ∈ l.
Proof.
  unfold contains. rewrite existsb_elem_of. split.
  - intros (y & Hy & He). to_prop. by subst.
  - intros H. exists x. by rewrite String.eqb_refl.
Qed.

Lemma receipt_semantics_rule r :
  validateLaunchReceiptSemantics (LaunchReceipt_members r) = Ok tt -> receipt_rule r.
Proof.
  unfold validateLaunchReceiptSemantics, receipt_rule.
  rewrite (receipt_field r "observation_only" (JBool (R_ObservationOnly r))) by (simpl; tauto).
  rewrite (receipt_field r "reason_codes" (strs (R_ReasonCodes r))) by (simpl; tauto).
  rewrite (receipt_field r "subject" (nullable Subject_json (R_Subject r))) by (simpl; tauto).
  rewrite (receipt_field r "expectation" (nullable ExpectationProjection_json (R_Expectation r)))
    by (simpl; tauto).
  rewrite (receipt_field r "artifact" (nullable ReceiptArtifact_json (R_Artifact r)))
    by (simpl; tauto).
  rewrite stringArray_strs, !is_nil_nullable by done. cbn [as_bool rbind].
  destruct (R_ObservationOnly r); intros H; inv_ok; destruct_hyps;
    destruct (R_Subject r), (R_Expectation r), (R_Artifact r); try discriminate; cbn in *;
    repeat split; try (by eauto); try by apply contains_elem.
  destruct (R_ReasonCodes r); [done|discriminate].
Qed.

(** A launch receipt cannot be altered under its identity: two
    well-formed receipts that verify with the same identity are equal in
    every field, unless their canonical encodings collide under SHA-256. *)
Theorem receipt_id_protects a b :
  receipt_well_formed (with_receipt_id a EmptyString) ->
  receipt_well_formed (with_receipt_id b EmptyString) ->
  VerifyID a = Ok tt -> VerifyID b = Ok tt -> ReceiptID a = ReceiptID b ->
  a = b \/
  exists x y, Marshal (LaunchReceipt_json (with_receipt_id a EmptyString)) = Ok x
    /\ Marshal (LaunchReceipt_json (with_receipt_id b EmptyString)) = Ok y
    /\ x <> y /\ sha256_hex x = sha256_hex y.
Proof.
  intros [Ia Wa] [Ib Wb] (x & Hx & Ha)%receipt_VerifyID_ok (y & Hy & Hb)%receipt_VerifyID_ok Hid.
  destruct (decide (x = y)) as [->|Hne].
  - left. unfold Marshal in Hx, Hy.
    rewrite normalize_id in Hx by first [exact Wa | apply receipt_members_distinct].
    rewrite normalize_id in Hy by first [exact Wb | apply receipt_members_distinct].
    apply decodeOne_reads in Hx, Hy; [|apply receipt_members_distinct..].
    assert (Hc : canon (JObject (receipt_members a)) = canon (JObject (receipt_members b))).
    { rewrite <- !cleared_members. unfold LaunchReceipt_json in *. congruence. }
    apply receipt_content in Hc; [|done|done].
    by rewrite <- (with_own_id a), <- (with_own_id b), Hc, Hid.
  - right. exists x, y. repeat split; [done..|]. apply identity_hash_inj. congruence.
Qed.

(** The builder never issues a receipt that breaks the receipt rules: a
    built receipt verifies, and it is observation-only exactly when it has no
    subject, expectation or artifact and names the missing expectation. *)
Theorem Build_receipt_sound schema_ok input r :
  Build schema_ok input = Ok r -> encodable (LaunchReceipt_json r) = true ->
  VerifyID r = Ok tt
  /\ (if R_ObservationOnly r
      then R_Subject r = None /\ R_Expectation r = None /\ R_Artifact r = None
           /\ R_ReasonCodes r = ["WITNESS_EXPECTATION_MISSING"]
      else is_Some (R_Subject r) /\ is_Some (R_Expectation r) /\ is_Some (R_Artifact r)
           /\ R_ReasonCodes r = []).
Proof.
  unfold Build. intros H He. inv_ok. subst x.
  apply receipt_AssignID_ok in Hx as (e & Hm & ->). split.
  { apply receipt_VerifyID_ok. exists e. by destruct (receipt_of input). }
  rewrite normalize_id in Hx0 by first [exact He | apply receipt_members_distinct].
  unfold ValidateLaunchReceipt_tree, receipt_semantics in Hx0. inv_ok.
  cbn [as_object LaunchReceipt_json] in Hx1. injection Hx1 as <-. destruct x0.
  apply receipt_semantics_rule in Hx0. unfold receipt_rule in Hx0.
  cbn in Hx0 |- *. destruct (RI_ObservationOnly input); [|exact Hx0].
  destruct Hx0 as (H1 & H2 & H3 & _). repeat split; assumption.
Qed.

(** ** An observation-only receipt *)

Definition sample_input : ReceiptInput := {|
  RI_CreatedAt := "2026-01-01T00:00:00Z";
  RI_Tool := {| Tool_Name := "arp"; Tool_Version := "1"; Tool_Commit := "c"; Toolchain := "go" |};
  RI_Platform := {| OS := "linux"; Arch := "amd64" |}; RI_Subject := None;
  RI_Process := {| PID := 7; CreatedAtUnixNano := "5"; BootIDHash := "h" |};
  RI_Command := {| ExecutableBasename := "runtime"; ExecutablePathHash := "p";
                   Cmd_ArgumentFingerprints := [] |};
  RI_Expectation := None; RI_Artifact := None; RI_ObservationOnly := true |}.

Definition sample_receipt : LaunchReceipt :=
  match AssignID (receipt_of sample_input) with Ok r => r | Err _ => receipt_of sample_input end.

Lemma sample_receipt_verifies : VerifyID sample_receipt = Ok tt.
Proof. vm_compute. reflexivity. Qed.

Lemma receipt_id_protects_witness :
  receipt_well_formed (with_receipt_id sample_receipt EmptyString)
  /\ (sample_receipt = sample_receipt \/
      exists x y, Marshal (LaunchReceipt_json (with_receipt_id sample_receipt EmptyString)) = Ok x
        /\ Marshal (LaunchReceipt_json (with_receipt_id sample_receipt EmptyString)) = Ok y
        /\ x <> y /\ sha256_hex x = sha256_hex y).
Proof.
  assert (Hw : receipt_well_formed (with_receipt_id sample_receipt EmptyString)).
  { split; [|vm_compute; reflexivity].
    assert (Hp : PID (R_Process sample_receipt) = 7) by (vm_compute; reflexivity).
    assert (Hc : Cmd_ArgumentFingerprints (R_Command sample_receipt) = []) by (vm_compute; reflexivity).
    assert (Ha : R_Artifact sample_receipt = None) by (vm_compute; reflexivity).
    unfold receipt_ints, with_receipt_id. cbn [R_Process R_Command R_Artifact]. rewrite Hp, Hc, Ha.
    split; [unfold in_int64, int64_min, int64_max; lia|]. by split. }
  split; [exact Hw|].
  exact (receipt_id_protects sample_receipt sample_receipt Hw Hw sample_receipt_verifies
           sample_receipt_verifies eq_refl).
Defined.

Lemma Build_receipt_sound_witness :
  exists r, Build (fun _ _ => true) sample_input = Ok r /\ VerifyID r = Ok tt.
Proof.
  assert (H : match Build (fun _ _ => true) sample_input with
              | Ok r => encodable (LaunchReceipt_json r) | Err _ => false end = true)
    by (vm_compute; reflexivity).
  destruct (Build (fun _ _ => true) sample_input) as [r|e] eqn:E; [|discriminate].
  exists r. split; [reflexivity|].
  exact (proj1 (Build_receipt_sound (fun _ _ => true) sample_input r E H)).
Defined.
