(* ===== verification/World.v ===== *)
(** * Effects

    Operations that read or change the outside world (files, the clock, a
    child process) are functions from a world to a result and the next world;
    the operations themselves belong to a record that each component
    abstracts over.  [triple] is the Hoare logic the components' proofs use:
    the postcondition speaks of the value on success and of the error on
    failure. *)

From S2P Require Import Prelude.

Definition io (W E A : Type) : Type := W -> result E A * W.

Section IO.
Context {W E : Type}.

Definition ret {A} (a : A) : io W E A := fun w => (Ok a, w).

Definition throw {A} (e : E) : io W E A := fun w => (Err e, w).

(** A pure computation that may fail. *)
Definition lift {A} (r : result E A) : io W E A := fun w => (r, w).

Definition bind {A B} (c : io W E A) (k : A -> io W E B) : io W E B :=
  fun w => match c w with
           | (Ok a, w') => k a w'
           | (Err e, w') => (Err e, w')
           end.

(** [if !cond { return err }]. *)
Definition require (b : bool) (e : E) : io W E unit := lift (guard_ b e).

(** [defer final()]: runs whatever the outcome. *)
Definition defer {A} (c : io W E A) (final : W -> W) : io W E A :=
  fun w => let '(r, w') := c w in (r, final w').

(** A [for range] loop whose body may return early with an error. *)
Fixpoint foldIO {A S} (f : S -> A -> io W E S) (l : list A) (s : S) : io W E S :=
  match l with
  | [] => ret s
  | x :: l' => bind (f s x) (foldIO f l')
  end.
End IO.

(** Wrap the error of an operation. *)
Definition wrap_error {W E F A} (f : E -> F) (c : io W E A) : io W F A :=
  fun w => let '(r, w') := c w in (map_err f r, w').

(** The error as a value: [x, err := op()]. *)
Definition attempt {W E F A} (c : io W E A) : io W F (result E A) :=
  fun w => let '(r, w') := c w in (Ok r, w').

Notation "'do!' x ':=' c 'in' k" := (bind c (fun x => k))
  (at level 10, x pattern, c at level 100, k at level 200) : go_scope.
Notation "'require!' b 'else' e 'in' k" := (bind (require b e) (fun _ => k))
  (at level 10, b at level 100, e at level 100, k at level 200) : go_scope.

(** ** Traces

    A computation that only matters for the calls it makes, given what the
    system answers: its world is the list of calls so far. *)

Definition trace (X E A : Type) : Type := io (list X) E A.
Definition emit {X E} (a : X) : trace X E unit := fun w => (Ok tt, w ++ [a]).
Definition emit_all {X E} (l : list X) : trace X E unit := fun w => (Ok tt, w ++ l).

(** A failing branch: clean up, then return the error. *)
Definition fail_after {X A} (cleanup : trace X unit unit) : trace X unit A :=
  do! _ := cleanup in throw tt.

(** ** Hoare triples *)

Definition triple {W E A} (P : W -> Prop) (c : io W E A) (Q : A -> W -> Prop) (R : E -> W -> Prop)
  : Prop :=
  forall w, P w -> match c w with
                   | (Ok a, w') => Q a w'
                   | (Err e, w') => R e w'
                   end.

Section Triple.
Context {W E : Type}.
Implicit Types (P : W -> Prop) (R : E -> W -> Prop).

Lemma triple_ret {A} P (a : A) (Q : A -> W -> Prop) R :
  (forall w, P w -> Q a w) -> triple P (ret a) Q R.
Proof. intros H w Hw. by apply H. Qed.

Lemma triple_throw {A} P (e : E) (Q : A -> W -> Prop) R :
  (forall w, P w -> R e w) -> triple P (throw e) Q R.
Proof. intros H w Hw. by apply H. Qed.

Lemma triple_lift {A} P (r : result E A) (Q : A -> W -> Prop) R :
  (forall a, r = Ok a -> forall w, P w -> Q a w) -> (forall e, r = Err e -> forall w, P w -> R e w) ->
  triple P (lift r) Q R.
Proof. intros HQ HR w Hw. unfold lift. destruct r; [by apply HQ|by apply HR]. Qed.

Lemma triple_bind {A B} P (c : io W E A) (k : A -> io W E B) M Q R :
  triple P c M R -> (forall a, triple (M a) (k a) Q R) -> triple P (bind c k) Q R.
Proof.
  intros Hc Hk w Hw. specialize (Hc w Hw). unfold bind.
  destruct (c w) as [[a|e] w']; [by apply Hk|done].
Qed.

Lemma triple_require {B} P (b : bool) (e : E) (k : unit -> io W E B) Q R :
  (b = true -> triple P (k tt) Q R) -> (b = false -> forall w, P w -> R e w) ->
  triple P (bind (require b e) k) Q R.
Proof.
  intros Ht Hf w Hw. unfold bind, require, lift. destruct b; simpl; [by apply Ht|by apply Hf].
Qed.

Lemma triple_conseq {A} P P' (c : io W E A) Q Q' R R' :
  triple P' c Q' R' -> (forall w, P w -> P' w) -> (forall a w, Q' a w -> Q a w) ->
  (forall e w, R' e w -> R e w) -> triple P c Q R.
Proof.
  intros Hc HP HQ HR w Hw. specialize (Hc w (HP w Hw)).
  destruct (c w) as [[a|e] w']; auto.
Qed.

Lemma triple_pure {A} P (X : Prop) (c : io W E A) Q R :
  (X -> triple P c Q R) -> triple (fun w => X /\ P w) c Q R.
Proof. intros H w [HX Hw]. by apply H. Qed.

Lemma triple_defer {A} P (c : io W E A) (final : W -> W) Q R :
  triple P c (fun a w => Q a (final w)) (fun e w => R e (final w)) ->
  triple P (defer c final) Q R.
Proof.
  intros Hc w Hw. specialize (Hc w Hw). unfold defer. by destruct (c w) as [[a|e] w'].
Qed.

(** The rule of loop invariants; the invariant names the elements left. *)
Lemma triple_foldIO {A S} (I : list A -> S -> W -> Prop) R (f : S -> A -> io W E S) l s :
  (forall x rest s0, x ∈ l -> triple (I (x :: rest) s0) (f s0 x) (I rest) R) ->
  triple (I l s) (foldIO f l s) (I []) R.
Proof.
  revert s. induction l as [|x l IH]; simpl; intros s Hf; [by apply triple_ret|].
  apply (triple_bind _ _ _ (I l)); [apply Hf; by left|].
  intros s'. apply IH. intros y rest s0 Hy. apply Hf. by right.
Qed.
End Triple.

Lemma triple_wrap {W E F A} (f : E -> F) (P : W -> Prop) (c : io W E A) Q (R : F -> W -> Prop) :
  triple P c Q (fun e => R (f e)) -> triple P (wrap_error f c) Q R.
Proof.
  intros Hc w Hw. specialize (Hc w Hw). unfold wrap_error. by destruct (c w) as [[a|e] w'].
Qed.

Lemma triple_attempt {W E F A} (P : W -> Prop) (c : io W E A) Q (R : F -> W -> Prop) :
  triple P c (fun a => Q (Ok a)) (fun e => Q (Err e)) -> triple P (attempt c) Q R.
Proof.
  intros Hc w Hw. specialize (Hc w Hw). unfold attempt. by destruct (c w) as [[a|e] w'].
Qed.

(** A computation that satisfies a triple and cannot fail there. *)
Lemma triple_runs {W E A} (P : W -> Prop) (c : io W E A) (Q : A -> W -> Prop) w :
  triple P c Q (fun _ _ => False) -> P w -> exists a w', c w = (Ok a, w') /\ Q a w'.
Proof.
  intros Hc Hw. specialize (Hc w Hw). destruct (c w) as [[a|e] w']; [by eauto|done].
Qed.

Lemma triple_ok {W E A} (P : W -> Prop) (c : io W E A) Q R w a w' :
  triple P c Q R -> P w -> c w = (Ok a, w') -> Q a w'.
Proof. intros Hc Hw E'. specialize (Hc w Hw). by rewrite E' in Hc. Qed.

Lemma triple_err {W E A} (P : W -> Prop) (c : io W E A) Q R w e w' :
  triple P c Q R -> P w -> c w = (Err e, w') -> R e w'.
Proof. intros Hc Hw E'. specialize (Hc w Hw). by rewrite E' in Hc. Qed.

(** ** Inverting a successful run *)

Section Invert.
Context {W E : Type}.

Lemma bind_ok {A B} (c : io W E A) (k : A -> io W E B) w b w' :
  bind c k w = (Ok b, w') -> exists a w1, c w = (Ok a, w1) /\ k a w1 = (Ok b, w').
Proof. unfold bind. destruct (c w) as [[a|e] w1]; [eauto|done]. Qed.

Lemma require_ok (b : bool) (e : E) w u w' :
  require (W := W) b e w = (Ok u, w') -> b = true /\ w' = w.
Proof. unfold require, lift. intros [= H <-]. by apply guard_ok in H. Qed.

Lemma ret_ok {A} (a b : A) w w' : ret (W := W) (E := E) a w = (Ok b, w') -> b = a /\ w' = w.
Proof. by intros [= <- <-]. Qed.

Lemma lift_ok {A} (r : result E A) w a w' : lift (W := W) r w = (Ok a, w') -> r = Ok a /\ w' = w.
Proof. by intros [= -> <-]. Qed.

(** The invariant of a loop that ran to its end. *)
Lemma foldIO_inv {A S} (I : S -> Prop) (f : S -> A -> io W E S) l s w s' w' :
  I s -> (forall s0 x w0 s1 w1, x ∈ l -> I s0 -> f s0 x w0 = (Ok s1, w1) -> I s1) ->
  foldIO f l s w = (Ok s', w') -> I s'.
Proof.
  revert s w. induction l as [|x l IH]; cbn [foldIO]; intros s w HI Hf H.
  - apply ret_ok in H as [-> _]. exact HI.
  - apply bind_ok in H as (s1 & w1 & H1 & H2). eapply IH; [| |exact H2].
    + eapply Hf; [by left|exact HI|exact H1].
    + intros s0 y w0 s2 w2 Hy. apply Hf. by right.
Qed.
End Invert.

Lemma attempt_ok {W E F A} (c : io W E A) w (r : result E A) w' :
  attempt (F := F) c w = (Ok r, w') -> c w = (r, w').
Proof. unfold attempt. destruct (c w). congruence. Qed.

Lemma wrap_ok {W E F A} (f : E -> F) (c : io W E A) w a w' :
  wrap_error f c w = (Ok a, w') -> c w = (Ok a, w').
Proof. unfold wrap_error. destruct (c w) as [r w1]. intros [= H <-]. apply map_err_ok in H. by subst. Qed.

Ltac inv_io :=
  repeat match goal with
  | H : bind _ _ _ = (Ok _, _) |- _ =>
      let a := fresh "a" in let w := fresh "w" in let Ha := fresh "Ha" in
      apply bind_ok in H as (a & w & Ha & H)
  | H : require _ _ _ = (Ok _, _) |- _ => apply require_ok in H as [? ->]
  | H : ret _ _ = (Ok _, _) |- _ => apply ret_ok in H as [-> ->]
  | H : lift _ _ = (Ok _, _) |- _ => apply lift_ok in H as [? ->]
  | H : attempt _ _ = (Ok _, _) |- _ => apply attempt_ok in H
  | H : wrap_error _ _ _ = (Ok _, _) |- _ => apply wrap_ok in H
  | H : throw _ _ = (Ok _, _) |- _ => discriminate H
  end.

(** ** A part of a world *)

(** An operation on one part of a world of two. *)
Definition on_first {V S A} (c : V -> A * V) : V * S -> A * (V * S) :=
  fun w => let '(a, v) := c (fst w) in (a, (v, snd w)).

Definition on_second {V S A} (c : S -> A * S) : V * S -> A * (V * S) :=
  fun w => let '(a, s) := c (snd w) in (a, (fst w, s)).

(** [c] does on the first part of the world what [c'] does on its own. *)
Definition first_part {V S A} (c : V * S -> A * (V * S)) (c' : V -> A * V) : Prop :=
  forall w, c w = on_first c' w.

Section Parts.
Context {V S E : Type}.

Lemma first_on {A} (c : V -> A * V) : first_part (S := S) (on_first c) c.
Proof. done. Qed.

Lemma first_lift {A} (r : result E A) : first_part (S := S) (lift r) (lift (W := V) r).
Proof. by intros []. Qed.

Lemma first_bind {A B} (c : io (V * S) E A) c' (k : A -> io (V * S) E B) k' :
  first_part c c' -> (forall a, first_part (k a) (k' a)) -> first_part (bind c k) (bind c' k').
Proof.
  intros Hc Hk w. unfold bind. rewrite Hc. unfold on_first.
  destruct (c' (fst w)) as [[a|e] v]; [|done]. apply Hk.
Qed.

Lemma first_require {B} b (e : E) (k : unit -> io (V * S) E B) k' :
  first_part (k tt) (k' tt) -> first_part (bind (require b e) k) (bind (require b e) k').
Proof. intros Hk. apply first_bind; [apply first_lift|by intros []]. Qed.

Lemma first_wrap {F A} (f : E -> F) (c : io (V * S) E A) c' :
  first_part c c' -> first_part (wrap_error f c) (wrap_error f c').
Proof. intros Hc w. unfold wrap_error. rewrite Hc. unfold on_first. by destruct (c' (fst w)). Qed.

Lemma on_first_at {A} (c : V -> A * V) (w w' : V * S) a :
  on_first c w = (a, w') -> c (fst w) = (a, fst w') /\ snd w' = snd w.
Proof. unfold on_first. destruct (c (fst w)). by intros [= -> <-]. Qed.

Lemma on_second_at {A} (c : S -> A * S) (w w' : V * S) a :
  on_second c w = (a, w') -> c (snd w) = (a, snd w') /\ fst w' = fst w.
Proof. unfold on_second. destruct (c (snd w)). by intros [= -> <-]. Qed.

Lemma on_second_snd {A} (c : S -> A * S) (w : V * S) : snd (snd (on_second c w)) = snd (c (snd w)).
Proof. unfold on_second. by destruct (c (snd w)). Qed.

Lemma on_second_fst {A} (c : S -> A * S) (w : V * S) : fst (on_second c w) = fst (c (snd w)).
Proof. unfold on_second. by destruct (c (snd w)). Qed.
End Parts.
