(* ===== verification/HostDiscovery.v ===== *)
(** * Host discovery ([internal/hostprofile/catalog.go], [discovery.go], [resolver.go])

    From the embedded host profiles to the bindings a host declares: the
    checks on a profile, the expansion of its candidate paths under the home
    or workspace directory, the reading of each file and the merge of what
    they declare.  The reader of files and the context are parameters here;
    [HostFiles] supplies them. *)

From Stdlib Require Import Sorting.Sorted.
From S2P Require Import Prelude GoStrings GoPath GoSha256 Model Contract Wire Process Privacy.
From S2P Require Import HostBinding HostParse World.

(** ** Profiles ([catalog.go]) *)

(** Struct decoding as [json.Unmarshal] does it: unknown members ignored. *)
Definition loose_of {A} (f : list (string * json) -> result wire_error A) (v : json)
  : result wire_error A :=
  match v with JObject m => f m | JNull => f [] | _ => Err (WrongField EmptyString) end.

Definition ProcessMatcher_of : json -> result wire_error ProcessMatcher :=
  loose_of (fun m =>
    let! b := get_list m string_of "basenames" in
    let! i := get_list m string_of "bundle_ids" in
    let! p := get_list m string_of "publisher_names" in
    Ok {| Basenames := b; BundleIDs := i; PublisherNames := p |}).

Definition ConfigSource_of : json -> result wire_error ConfigSource :=
  loose_of (fun m =>
    let! i := get_string m "source_id" in
    let! p := get_list m string_of "platforms" in
    let! c := get_list m string_of "candidate_paths" in
    let! f := get_string m "format" in
    let! d := get_string m "dialect" in
    let! b := get_int m "maximum_bytes" in
    let! s := get_list m string_of "secret_fields" in
    Ok {| Cfg_SourceID := i; Cfg_Platforms := p; CandidatePaths := c; Format := f;
          Dialect := d; MaximumBytes := b; SecretFields := s |}).

Definition Profile_of : json -> result wire_error Profile :=
  loose_of (fun m =>
    let! sv := get_string m "schema_version" in
    let! h := get_string m "host_id" in
    let! d := get_string m "display_name" in
    let! f := get_string m "fixture_version" in
    let! p := get_list m string_of "platforms" in
    let! pm := get_list m ProcessMatcher_of "process_matchers" in
    let! cs := get_list m ConfigSource_of "config_sources" in
    Ok {| Prof_SchemaVersion := sv; Prof_HostID := h; Prof_DisplayName := d; FixtureVersion := f;
          Prof_Platforms := p; ProcessMatchers := pm; ConfigSources := cs |}).

(** What [json.Marshal] writes for a profile. *)
Definition omit_empty_list (k : string) (l : list string) : list (string * json) :=
  match l with [] => [] | _ => [(k, strs l)] end.

Definition ProcessMatcher_json (m : ProcessMatcher) : json :=
  JObject ([("basenames", strs (Basenames m))] ++ omit_empty_list "bundle_ids" (BundleIDs m)
           ++ omit_empty_list "publisher_names" (PublisherNames m)).

Definition ConfigSource_json (s : ConfigSource) : json :=
  JObject [("source_id", JString (Cfg_SourceID s)); ("platforms", strs (Cfg_Platforms s));
           ("candidate_paths", strs (CandidatePaths s)); ("format", JString (Format s));
           ("dialect", JString (Dialect s)); ("maximum_bytes", ints (MaximumBytes s));
           ("secret_fields", strs (SecretFields s))].

Definition Profile_json (p : Profile) : json :=
  JObject [("schema_version", JString (Prof_SchemaVersion p)); ("host_id", JString (Prof_HostID p));
           ("display_name", JString (Prof_DisplayName p)); ("fixture_version", JString (FixtureVersion p));
           ("platforms", strs (Prof_Platforms p));
           ("process_matchers", JArray (map ProcessMatcher_json (ProcessMatchers p)));
           ("config_sources", JArray (map ConfigSource_json (ConfigSources p)))].

Definition zero_profile : Profile := {|
  Prof_SchemaVersion := EmptyString; Prof_HostID := EmptyString; Prof_DisplayName := EmptyString;
  FixtureVersion := EmptyString; Prof_Platforms := []; ProcessMatchers := []; ConfigSources := [] |}.

(** Encode and decode again, errors ignored. *)
Definition cloneProfile (profile : Profile) : Profile :=
  match Profile_of (Profile_json profile) with Ok result => result | Err _ => zero_profile end.

Lemma ProcessMatcher_round m : ProcessMatcher_of (ProcessMatcher_json m) = Ok m.
Proof.
  destruct m as [b i p]. unfold ProcessMatcher_of, ProcessMatcher_json, loose_of. cbn [Basenames BundleIDs PublisherNames].
  rewrite (get_strs b) by done. cbn [rbind].
  assert (Hi : forall rest, get_list (("basenames", strs b) :: omit_empty_list "bundle_ids" i
                 ++ omit_empty_list "publisher_names" rest) string_of "bundle_ids" = Ok i).
  { intros rest. destruct i as [|x i]; [|by apply get_strs]. unfold get_list. by destruct rest. }
  assert (Hp : get_list (("basenames", strs b) :: omit_empty_list "bundle_ids" i
                 ++ omit_empty_list "publisher_names" p) string_of "publisher_names" = Ok p).
  { destruct p as [|x p]; [|apply get_strs; by destruct i]. unfold get_list. by destruct i. }
  cbn [app]. by rewrite Hi, Hp.
Qed.

Lemma ConfigSource_round s : in_int64 (MaximumBytes s) -> ConfigSource_of (ConfigSource_json s) = Ok s.
Proof.
  destruct s as [i p c f d b x]. cbn [MaximumBytes]. intros Hb. unfold ConfigSource_of, ConfigSource_json, loose_of.
  cbn [Cfg_SourceID Cfg_Platforms CandidatePaths Format Dialect MaximumBytes SecretFields].
  rewrite (get_strs p), (get_strs c), (get_strs x) by done. unfold get_string, get_int, ints. cbn -[ParseInt FormatInt].
  by rewrite ParseInt_ints.
Qed.

(** The sizes of a profile are numbers Go can encode. *)
Definition encodable (p : Profile) : Prop := Forall (fun s => in_int64 (MaximumBytes s)) (ConfigSources p).

Lemma cloneProfile_id p : encodable p -> cloneProfile p = p.
Proof.
  unfold encodable, cloneProfile. destruct p as [sv h d f pl pm cs]. cbn [ConfigSources]. intros Hcs.
  unfold Profile_of, Profile_json, loose_of.
  cbn [Prof_SchemaVersion Prof_HostID Prof_DisplayName FixtureVersion Prof_Platforms ProcessMatchers ConfigSources].
  rewrite (get_strs pl), (get_list_round ProcessMatcher_json ProcessMatcher_of pm),
    (get_list_round ConfigSource_json ConfigSource_of cs); [done| |done| |done|done].
  - eapply Forall_impl; [exact Hcs|]. intros s. apply ConfigSource_round.
  - apply Forall_forall. intros m _. apply ProcessMatcher_round.
Qed.

Lemma ParseInt_range t n : ParseInt t = Some n -> in_int64 n.
Proof.
  unfold ParseInt, in_int64. intros H. repeat case_match; try done; injection H as <-; to_prop; lia.
Qed.

Lemma Profile_of_encodable v p : Profile_of v = Ok p -> encodable p.
Proof.
  assert (Hs : forall w s, ConfigSource_of w = Ok s -> in_int64 (MaximumBytes s)).
  { intros w s Hw.
    assert (Hf : exists m, get_int m "maximum_bytes" = Ok (MaximumBytes s)).
    { unfold ConfigSource_of, loose_of in Hw. destruct w; try done; inv_ok; subst s; by eexists. }
    destruct Hf as [m Hm]. unfold get_int in Hm. destruct (get m "maximum_bytes"); try done.
    - injection Hm as <-. done.
    - destruct (ParseInt _) eqn:E; [|done]. injection Hm as <-. by eapply ParseInt_range. }
  assert (Hl : forall m cs, get_list m ConfigSource_of "config_sources" = Ok cs ->
                 Forall (fun s => in_int64 (MaximumBytes s)) cs).
  { intros m cs. unfold get_list. destruct (get m "config_sources"); try done; [by intros [= <-]|].
    intros Hm%mapM_ok_Forall2. eapply Forall2_Forall_r; [exact Hm|]. apply Forall_forall. intros w _ s. apply Hs. }
  unfold Profile_of, loose_of, encodable. intros H. destruct v; try done; inv_ok; subst p; cbn [ConfigSources]; by eapply Hl.
Qed.

(** [strings.NewReplacer]: at each position the first pattern that matches;
    the fuel is the length of the subject. *)
Fixpoint replacer (fuel : nat) (pairs : list (string * string)) (s : string) : string :=
  match fuel with
  | O => s
  | S fuel' =>
      match s with
      | EmptyString => EmptyString
      | String c t =>
          match find (fun kv => HasPrefix s (fst kv)) pairs with
          | Some (old, new) => new +:+ replacer fuel' pairs (sdrop (String.length old) s)
          | None => String c (replacer fuel' pairs t)
          end
      end
  end.

(** [validateCandidatePath(value) == nil]. *)
Definition validateCandidatePath (value : string) : bool :=
  if has_byte value (byte_of 0) || Contains value (byte_string 92) then false
  else if negb (HasPrefix value "${HOME}/") && negb (HasPrefix value "${WORKSPACE}/") then false
  else
    let remainder := replacer (String.length value)
      [("${HOME}", EmptyString); ("${WORKSPACE}", EmptyString); ("${PROFILE}", "profile")] value in
    if Contains remainder "${" then false
    else forallb (fun component => negb ((component =s "..") || (component =s ".")))
           (Split remainder slash).

Definition secret_field_chars : string := "=:" +:+ byte_string 0 +:+ "${}".

Definition check_source (profile : Profile) (sources : list string) (source : ConfigSource)
  : result unit (list string) :=
  check! negb (contains sources (Cfg_SourceID source)) else tt in
  check! negb ((MaximumBytes source <=? 0) || (1048576 <? MaximumBytes source)) else tt in
  check! forallb (contains (Prof_Platforms profile)) (Cfg_Platforms source) else tt in
  check! forallb validateCandidatePath (CandidatePaths source) else tt in
  check! forallb (fun field => negb (ContainsAny field secret_field_chars)) (SecretFields source)
    else tt in
  Ok (Cfg_SourceID source :: sources).

Definition validateProfileSemantics (profile : Profile) : result unit unit :=
  check! forallb (fun matcher => forallb (fun basename => negb (ContainsAny basename path_chars))
                                   (Basenames matcher)) (ProcessMatchers profile) else tt in
  let! _ := foldM (check_source profile) (ConfigSources profile) [] in Ok tt.

Definition sort_strings (l : list string) : list string := SortFunc Compare l.

(** ** Discovery ([discovery.go]) *)

Record Request := {
  Req_HostID : string;
  Req_Platform : string;
  Home : string;
  Workspace : string;
  ProfileName : string;
  ExplicitConfigPath : string
}.

Definition host_error (code : string) : go_error := HostError code.

Definition expandCandidate (template : string) (request : Request) : option string :=
  let '(root, remainder) :=
    if HasPrefix template "${HOME}/" then (Home request, TrimPrefix template "${HOME}/")
    else if HasPrefix template "${WORKSPACE}/"
    then (Workspace request, TrimPrefix template "${WORKSPACE}/")
    else (EmptyString, EmptyString) in
  if (root =s EmptyString) || negb (IsAbs root) then None
  else
    let remainder := ReplaceAll remainder "${PROFILE}" (ProfileName request) in
    if Contains remainder "${" || has_byte remainder (byte_of 0) then None
    else if existsb (fun part => (part =s EmptyString) || (part =s ".") || (part =s ".."))
              (Split (ToSlash remainder) slash) then None
    else
      let resolved := JoinPath [root; FromSlash remainder] in
      match Rel (Clean root) resolved with
      | None => None
      | Some relative =>
          if (relative =s "..") || HasPrefix relative (".." +:+ sep) then None else Some resolved
      end.

Section Discover.
Variable u : UnicodeTables.
(** Third-party readers, as in [HostParse]. *)
Variable hujson_Standardize : string -> option string.
Variable toml_Unmarshal : string -> option (list (string * json)).
Variable yaml_documents : string -> option (list yaml_node).
Variable schema_ok : string -> json -> bool.
(** The documents of the embedded [hosts/*.json]. *)
Variable embedded : list string.
Variable runtime_GOOS : string.
Context {W : Type}.
(** [readConfigFile], and whether [ctx.Done()] is closed. *)
Variable readConfigFile : string -> Z -> io W sys_error string.
Variable ctx_done : W -> bool * W.

Definition decodeProfile (document : string) : result unit Profile :=
  let! _ := map_err (fun _ => tt) (ValidateHostProfile schema_ok document) in
  let! value := map_err (fun _ => tt) (decodeOne document) in
  let! profile := map_err (fun _ => tt) (Profile_of value) in
  let! _ := validateProfileSemantics profile in
  Ok profile.

(** The catalog is a map from host identifier to profile. *)
Definition add_profile (catalog : list (string * Profile)) (document : string)
  : result unit (list (string * Profile)) :=
  let! profile := decodeProfile document in
  check! negb (existsb (fun kv => fst kv =s Prof_HostID profile) catalog) else tt in
  Ok (catalog ++ [(Prof_HostID profile, profile)]).

Definition LoadEmbeddedCatalog : result unit (list (string * Profile)) :=
  let! catalog := foldM add_profile embedded [] in
  check! negb (length catalog =? 0)%nat else tt in
  Ok catalog.

Definition HostIDs (catalog : list (string * Profile)) : list string :=
  sort_strings (map fst catalog).

(** [Catalog.Host]: a copy of its own for every caller. *)
Definition Host (catalog : list (string * Profile)) (hostID : string) : option Profile :=
  option_map cloneProfile (assoc catalog hostID).

(** [ValidateProfile(document) == nil]. *)
Definition ValidateProfile (document : string) : bool := is_ok (decodeProfile document).

Definition config_format (extension : string) : string :=
  default EmptyString
    (assoc [(".json", "json"); (".jsonc", "jsonc"); (".toml", "toml"); (".yaml", "yaml");
            (".yml", "yaml")] extension).

Definition selectExplicitSource (profile : Profile) (platform path : string)
  : result go_error ConfigSource :=
  let format := config_format (ToLower u (Ext path)) in
  match List.filter (fun source => contains (Cfg_Platforms source) platform
                       && ((Format source =s format) || (format =s EmptyString)))
          (ConfigSources profile) with
  | [] => Err (host_error "HOST_CONFIG_INVALID")
  | source :: _ => Ok source
  end.

Definition source_inputs (request : Request) (source : ConfigSource)
  : result go_error (list (ConfigSource * string)) :=
  mapM_ (fun candidate =>
    match expandCandidate candidate request with
    | None => Err (host_error "HOST_CONFIG_INACCESSIBLE")
    | Some resolved => Ok (source, resolved)
    end) (CandidatePaths source).

Definition discovery_inputs (profile : Profile) (platform : string) (request : Request)
  : result go_error (list (ConfigSource * string)) :=
  if negb (ExplicitConfigPath request =s EmptyString) then
    let! source := selectExplicitSource profile platform (ExplicitConfigPath request) in
    Ok [(source, ExplicitConfigPath request)]
  else
    let! groups := mapM_ (source_inputs request)
      (List.filter (fun source => contains (Cfg_Platforms source) platform)
         (ConfigSources profile)) in
    Ok (concat groups).

Definition equivalentBinding (left right : Binding) : bool :=
  (B_ID left =s B_ID right) && (ConfigSourceHash left =s ConfigSourceHash right)
  && (resolvedCommand left =s resolvedCommand right)
  && (length (arguments left) =? length (arguments right))%nat
  && forallb (fun p => fst p =s snd p) (combine (arguments left) (arguments right)).

Definition hashBytes (domain value : string) : string := hashIdentifier domain value.

(** [bindings[binding.ID] = binding] unless an equivalent one is there. *)
Definition merge_binding (configHash : string) (bindings : gmap string Binding) (raw : RawBinding)
  : result go_error (gmap string Binding) :=
  let binding := newBinding raw configHash in
  match bindings !! B_ID binding with
  | Some previous =>
      if negb (equivalentBinding previous binding) then Err (host_error "HOST_BINDING_AMBIGUOUS")
      else Ok bindings
  | None => Ok (<[B_ID binding := binding]> bindings)
  end.

(** What one input adds, given the outcome of reading it. *)
Definition merge_document (profile : Profile) (request : Request) (source : ConfigSource)
  (bindings : gmap string Binding) (read : result sys_error string) : result go_error (gmap string Binding) :=
  match read with
  | Err NotExist =>
      if ExplicitConfigPath request =s EmptyString then Ok bindings
      else Err (host_error "HOST_CONFIG_INACCESSIBLE")
  | Err _ => Err (host_error "HOST_CONFIG_INACCESSIBLE")
  | Ok document =>
      let! rawBindings :=
        map_err (fun _ => host_error "HOST_CONFIG_INVALID")
          (parseConfig u hujson_Standardize toml_Unmarshal yaml_documents profile source document) in
      foldM (merge_binding (hashBytes "arp:host-config:v1" document)) rawBindings bindings
  end.

Definition not_done : io W go_error unit :=
  fun w => let '(b, w') := ctx_done w in (guard_ (negb b) (host_error "HOST_DISCOVERY_CANCELLED"), w').

Definition read_input (profile : Profile) (request : Request) (bindings : gmap string Binding)
  (candidate : ConfigSource * string) : io W go_error (gmap string Binding) :=
  let '(source, path) := candidate in
  do! _ := not_done in
  do! read := attempt (readConfigFile path (MaximumBytes source)) in
  lift (merge_document profile request source bindings read).

Definition by_id (left right : Binding) : comparison := Compare (B_ID left) (B_ID right).

Definition sorted_bindings (bindings : gmap string Binding) : list Binding :=
  SortFunc by_id (map snd (map_to_list bindings)).

(** The profile of the request and the files to read. *)
Definition plan (request : Request) : result go_error (Profile * list (ConfigSource * string)) :=
  let! catalog := map_err (fun _ => host_error "HOST_PROFILE_INVALID") LoadEmbeddedCatalog in
  match Host catalog (Req_HostID request) with
  | None => Err (host_error "HOST_PROFILE_NOT_FOUND")
  | Some profile =>
      let platform := if Req_Platform request =s EmptyString then runtime_GOOS
                      else Req_Platform request in
      check! contains (Prof_Platforms profile) platform
        else host_error "HOST_PROFILE_UNSUPPORTED" in
      let! inputs := discovery_inputs profile platform request in
      Ok (profile, inputs)
  end.

Definition Discover (request : Request) : io W go_error (list Binding) :=
  do! planned := lift (plan request) in
  let '(profile, inputs) := planned in
  do! bindings := foldIO (read_input profile request) inputs ∅ in
  ret (sorted_bindings bindings).

(** ** The resolver ([resolver.go]) *)

Record Resolver := {
  Rsv_Platform : string;
  Rsv_Home : string;
  Rsv_Workspace : string;
  Rsv_ProfileName : string
}.

Definition resolver_request (resolver : Resolver) (hostID : string) : Request :=
  {| Req_HostID := hostID; Req_Platform := Rsv_Platform resolver; Home := Rsv_Home resolver;
     Workspace := Rsv_Workspace resolver; ProfileName := Rsv_ProfileName resolver;
     ExplicitConfigPath := EmptyString |}.

Definition Bindings (resolver : Resolver) (hostID : string) : io W go_error (list Binding) :=
  do! hostIDs := lift
    (if hostID =s EmptyString then
       let! catalog := map_err (fun _ => host_error "HOST_PROFILE_INVALID") LoadEmbeddedCatalog in
       Ok (HostIDs catalog)
     else Ok [hostID]) in
  foldIO (fun found current =>
    do! discovered := Discover (resolver_request resolver current) in
    ret (found ++ discovered)) hostIDs [].

Definition ResolveBinding (resolver : Resolver) (bindingID : string) : io W go_error Binding :=
  match IndexByte bindingID "." with
  | None | Some O => throw (host_error "HOST_BINDING_NOT_FOUND")
  | Some separator =>
      if (separator =? String.length bindingID - 1)%nat
      then throw (host_error "HOST_BINDING_NOT_FOUND")
      else
        do! bindings := Bindings resolver (stake separator bindingID) in
        match find (fun binding => B_ID binding =s bindingID) bindings with
        | Some binding => ret binding
        | None => throw (host_error "HOST_BINDING_NOT_FOUND")
        end
  end.
End Discover.

(** ** Where a candidate path can lead *)

Lemma bad_parts l :
  existsb (fun part => (part =s EmptyString) || (part =s ".") || (part =s "..")) l = false ->
  Forall (fun w => has_byte w slash = false) l -> Forall normal_comp l.
Proof.
  rewrite existsb_false, !Forall_forall. intros H Hs x Hx. specialize (H x Hx). specialize (Hs x Hx).
  destruct_hyps. to_prop. by repeat split.
Qed.

(** A candidate path of a profile is only ever expanded to a place
    strictly inside the home or the workspace directory: the components of
    the absolute root, followed by ordinary components, whatever the profile
    name contains. *)
Theorem expandCandidate_inside template request p :
  expandCandidate template request = Some p ->
  exists root parts, (root = Home request \/ root = Workspace request)
    /\ IsAbs root = true /\ parts <> [] /\ Forall normal_comp parts
    /\ abs_comps p = abs_comps root ++ parts.
Proof.
  unfold expandCandidate. intros H.
  set (pair := if HasPrefix template "${HOME}/" then _ else _) in H.
  assert (Hroot : fst pair = Home request \/ fst pair = Workspace request \/ fst pair = EmptyString).
  { subst pair. destruct (HasPrefix _ _); [by left|].
    destruct (HasPrefix _ _); [by right; left|by right; right]. }
  destruct pair as [root remainder0]. simpl in Hroot.
  destruct (String.eqb_spec root EmptyString) as [|Hne]; [done|].
  destruct (IsAbs root) eqn:Ha; [|done]. cbn [orb negb] in H.
  set (remainder := ReplaceAll _ _ _) in H. unfold ToSlash, FromSlash in H.
  destruct (_ || _) in H; [done|].
  destruct (existsb _ _) eqn:Hp in H; [done|].
  destruct (Rel _ _) as [relative|]; [|done]. destruct (_ || _); [done|]. injection H as <-.
  exists root, (Split remainder slash).
  apply bad_parts in Hp; [|apply Split_no_sep].
  split; [by destruct Hroot as [?|[?|?]]; [left|right|]|].
  repeat split; [done|apply Split_nonempty|done|]. by apply JoinPath_normal.
Qed.

Definition sample_request : Request := {|
  Req_HostID := "host"; Req_Platform := "linux"; Home := "/home/u"; Workspace := "/w";
  ProfileName := "default"; ExplicitConfigPath := EmptyString |}.

Lemma expandCandidate_inside_witness :
  exists root parts, (root = Home sample_request \/ root = Workspace sample_request)
    /\ IsAbs root = true /\ parts <> [] /\ Forall normal_comp parts
    /\ abs_comps "/home/u/.config/default.json" = abs_comps root ++ parts.
Proof.
  apply (expandCandidate_inside "${HOME}/.config/${PROFILE}.json" sample_request).
  vm_compute. reflexivity.
Defined.

(** ** What discovery reports *)

Section Facts.
Context (u : UnicodeTables) (hujson : string -> option string)
  (toml : string -> option (list (string * json))) (yaml : string -> option (list yaml_node))
  (schema_ok : string -> json -> bool) (embedded : list string) (goos : string)
  {W : Type} (readConfigFile : string -> Z -> io W sys_error string) (ctx_done : W -> bool * W).

Lemma catalog_ids catalog :
  LoadEmbeddedCatalog schema_ok embedded = Ok catalog ->
  Forall (fun kv => fst kv = Prof_HostID (snd kv) /\ encodable (snd kv)) catalog.
Proof.
  unfold LoadEmbeddedCatalog. intros H. inv_ok. subst.
  eapply (foldM_inv (Forall (fun kv => fst kv = Prof_HostID (snd kv) /\ encodable (snd kv)))); [constructor| |exact Hx].
  intros c doc c' _ Hc Hadd. unfold add_profile in Hadd. inv_ok. subst c'.
  apply Forall_app. split; [done|]. constructor; [|done]. split; [done|]. cbn [snd].
  match goal with H : decodeProfile _ _ = Ok _ |- _ => unfold decodeProfile in H; inv_ok; subst end.
  by eapply Profile_of_encodable.
Qed.

Lemma assoc_elem {V} (m : list (string * V)) k v : assoc m k = Some v -> (k, v) ∈ m.
Proof.
  unfold assoc. destruct (find _ m) as [[k' v']|] eqn:E; [|done]. intros [= <-].
  apply find_some in E as [Hin He]. simpl in He. to_prop. subst. by apply list_elem_of_In.
Qed.

(** Where discovery may look for the configuration of a source. *)
Definition placed (request : Request) (source : ConfigSource) (path : string) : Prop :=
  if ExplicitConfigPath request =s EmptyString
  then exists candidate, candidate ∈ CandidatePaths source /\ expandCandidate candidate request = Some path
  else path = ExplicitConfigPath request.

(** The server declaration behind a binding: a file of the profile that has
    been read, and what the parser found in it. *)
Definition declared (profile : Profile) (request : Request) (b : Binding) : Prop :=
  exists source path document raws raw w w',
    source ∈ ConfigSources profile /\ placed request source path
    /\ readConfigFile path (MaximumBytes source) w = (Ok document, w')
    /\ parseConfig u hujson toml yaml profile source document = Ok raws /\ raw ∈ raws
    /\ direct u (Prof_HostID profile) raw
    /\ b = newBinding raw (hashBytes "arp:host-config:v1" document).

(** What every entry of the merged map satisfies. *)
Definition merged (P : Binding -> Prop) (bindings : gmap string Binding) : Prop :=
  forall id b, bindings !! id = Some b -> B_ID b = id /\ P b.

Lemma merge_binding_merged P hash bindings raw bindings' :
  merged P bindings -> P (newBinding raw hash) ->
  merge_binding hash bindings raw = Ok bindings' -> merged P bindings'.
Proof.
  unfold merge_binding. intros Hm Hd. destruct (bindings !! _) as [previous|] eqn:E.
  - destruct (negb _); [done|]. by intros [= <-].
  - intros [= <-] id b Hb. apply lookup_insert_Some in Hb as [[<- <-]|[_ Hb]]; [done|by apply Hm].
Qed.

Lemma read_input_merged profile request bindings source path w bindings' w' :
  source ∈ ConfigSources profile -> placed request source path ->
  merged (declared profile request) bindings ->
  read_input u hujson toml yaml readConfigFile ctx_done profile request bindings (source, path) w
  = (Ok bindings', w') ->
  merged (declared profile request) bindings'.
Proof.
  intros Hsource Hplaced Hm H. unfold read_input in H.
  apply bind_ok in H as ([] & w1 & _ & H). apply bind_ok in H as (read & w2 & Hread & H).
  apply attempt_ok in Hread. apply lift_ok in H as [H ->]. unfold merge_document in H.
  destruct read as [document|[]]; [|destruct (_ =s _)|..]; try done; [|by injection H as <-].
  inv_ok. pose proof Hx as Hparse. apply parseConfig_ok in Hx as (Hd & _ & _). rewrite Forall_forall in Hd.
  eapply (foldM_inv (merged (declared profile request))); [exact Hm| |exact H].
  intros b raw b' Hin Hb Hmb. eapply merge_binding_merged; [exact Hb| |exact Hmb].
  exists source, path, document, x, raw, w1, w2. repeat split; try done; by apply Hd.
Qed.

(** The inputs are files of the profile for the platform. *)
Lemma discovery_inputs_placed profile platform request inputs :
  discovery_inputs u profile platform request = Ok inputs ->
  Forall (fun input => fst input ∈ ConfigSources profile /\ placed request (fst input) (snd input)) inputs.
Proof.
  unfold discovery_inputs, placed. destruct (String.eqb_spec (ExplicitConfigPath request) EmptyString) as [He|He]; cbn [negb].
  - intros H. inv_ok. subst inputs. apply mapM_ok_Forall2 in Hx. apply Forall_concat.
    eapply Forall2_Forall_r; [exact Hx|]. apply Forall_forall. intros source Hs group Hg.
    apply list_elem_of_In, filter_In in Hs as [Hs%list_elem_of_In _].
    unfold source_inputs in Hg. apply mapM_ok_Forall2 in Hg.
    eapply Forall2_Forall_r; [exact Hg|]. apply Forall_forall. intros candidate Hc [s' path].
    destruct (expandCandidate candidate request) as [resolved|] eqn:E; [|done].
    intros [= <- <-]. cbn [fst snd]. split; [done|]. by exists candidate.
  - intros H. inv_ok. subst inputs. constructor; [|done]. cbn [fst snd]. split; [|done].
    unfold selectExplicitSource in Hx. destruct (List.filter _ _) as [|source rest] eqn:E; [done|].
    injection Hx as <-.
    assert (Hin : source ∈ List.filter (fun source => contains (Cfg_Platforms source) platform
                     && ((Format source =s config_format (ToLower u (Ext (ExplicitConfigPath request))))
                         || (config_format (ToLower u (Ext (ExplicitConfigPath request))) =s EmptyString)))
                     (ConfigSources profile)) by (rewrite E; by left).
    by apply list_elem_of_In, filter_In in Hin as [Hin%list_elem_of_In _].
Qed.

Lemma by_id_antisym x y : by_id y x = CompOpp (by_id x y).
Proof. apply Compare_antisym. Qed.

Lemma by_id_trans x y z : lt_by by_id x y -> lt_by by_id y z -> lt_by by_id x z.
Proof. apply Compare_trans. Qed.

Lemma merged_distinct P bindings :
  merged P bindings -> distinct_by by_id (map snd (map_to_list bindings)).
Proof.
  intros Hm.
  assert (Hin : forall p, p ∈ map_to_list bindings -> B_ID (snd p) = fst p).
  { intros [id b] Hp%elem_of_map_to_list. by apply Hm. }
  pose proof (NoDup_fst_map_to_list bindings) as Hn. unfold fmap in Hn.
  induction (map_to_list bindings) as [|[id b] l IH]; [constructor|].
  simpl in Hn. apply NoDup_cons in Hn as [Hni Hn]. constructor.
  - apply Forall_forall. intros b' Hb' Heq%Compare_eq. apply Hni.
    apply list_elem_of_fmap in Hb' as ([id' b2] & -> & Hp).
    pose proof (Hin (id, b) ltac:(by left)) as H1. pose proof (Hin (id', b2) ltac:(by right)) as H2.
    simpl in *. apply list_elem_of_fmap. exists (id', b2). split; [simpl; congruence|done].
  - apply IH; [|done]. intros p Hp. apply Hin. by right.
Qed.

Lemma plan_profile request profile inputs :
  plan u schema_ok embedded goos request = Ok (profile, inputs) ->
  Prof_HostID profile = Req_HostID request
  /\ Forall (fun input => fst input ∈ ConfigSources profile /\ placed request (fst input) (snd input)) inputs.
Proof.
  unfold plan. intros H. apply rbind_ok in H as (catalog & Hc & H).
  apply map_err_ok, catalog_ids in Hc.
  unfold Host in H. destruct (assoc catalog (Req_HostID request)) as [profile'|] eqn:Hh; cbn [option_map] in H; [|done].
  apply assoc_elem in Hh. rewrite Forall_forall in Hc. apply Hc in Hh as [Hh He]. cbn [fst snd] in *.
  rewrite (cloneProfile_id profile' He) in H.
  inv_ok. subst. split; [done|]. by eapply discovery_inputs_placed.
Qed.

Lemma Discover_lemma request bindings w w' :
  Discover u hujson toml yaml schema_ok embedded goos readConfigFile ctx_done request w = (Ok bindings, w') ->
  StronglySorted (lt_by by_id) bindings
  /\ exists profile, Prof_HostID profile = Req_HostID request
     /\ Forall (declared profile request) bindings.
Proof.
  unfold Discover. intros H. apply bind_ok in H as ([profile inputs] & w1 & Hp & H).
  apply lift_ok in Hp as [Hp ->]. apply plan_profile in Hp as [Hid Hinputs].
  apply bind_ok in H as (found & w2 & Hfold & H). apply ret_ok in H as [-> _].
  assert (Hm : merged (declared profile request) found).
  { eapply (foldIO_inv (merged (declared profile request))); [| |exact Hfold].
    - intros id b H. by rewrite lookup_empty in H.
    - intros b [source path] w3 b' w4 Hin Hb. rewrite Forall_forall in Hinputs.
      destruct (Hinputs _ Hin) as [Hs Hpl]. by eapply read_input_merged. }
  split.
  - apply SortFunc_sorted; [apply by_id_antisym|apply by_id_trans|by eapply merged_distinct].
  - exists profile. split; [done|]. unfold sorted_bindings. rewrite SortFunc_perm. apply Forall_fmap.
    apply Forall_forall. intros [id b] Hel%elem_of_map_to_list. by apply Hm in Hel as [_ ?].
Qed.
Lemma Bindings_declared resolver hostID bindings w w' :
  Bindings u hujson toml yaml schema_ok embedded goos readConfigFile ctx_done resolver hostID w = (Ok bindings, w') ->
  hostID <> EmptyString ->
  exists profile, Prof_HostID profile = hostID
    /\ Forall (declared profile (resolver_request resolver hostID)) bindings.
Proof.
  unfold Bindings. intros H Hne. rewrite (proj2 (String.eqb_neq _ _) Hne) in H.
  apply bind_ok in H as (ids & w1 & [[= <-] ->]%lift_ok & H). cbn [foldIO] in H.
  apply bind_ok in H as (found & w2 & Hd & H). injection H as <- _.
  apply bind_ok in Hd as (discovered & w3 & Hd & H). injection H as <- _.
  apply Discover_lemma in Hd as (_ & profile & Hid & Hall). by exists profile.
Qed.

(** A binding that is resolved by its identifier is a declaration of the host
    before the first dot of the identifier. *)
Lemma ResolveBinding_declared resolver bindingID b w w' :
  ResolveBinding u hujson toml yaml schema_ok embedded goos readConfigFile ctx_done resolver bindingID w = (Ok b, w') ->
  B_ID b = bindingID
  /\ exists profile separator, IndexByte bindingID "." = Some separator
       /\ Prof_HostID profile = stake separator bindingID
       /\ declared profile (resolver_request resolver (stake separator bindingID)) b.
Proof.
  unfold ResolveBinding. destruct (IndexByte bindingID ".") as [[|n]|] eqn:Ei; [done| |done].
  destruct (_ =? _)%nat; [done|]. intros H. apply bind_ok in H as (bindings & w1 & Hb & H).
  destruct (find _ bindings) as [found|] eqn:Ef; [|done]. injection H as <- _.
  apply find_some in Ef as [Hin Hid%String.eqb_eq]. split; [done|].
  apply Bindings_declared in Hb as (profile & Hp & Hall).
  2: { destruct bindingID; [done|]. done. }
  exists profile, (S n). split; [done|]. split; [done|].
  rewrite Forall_forall in Hall. by apply Hall, list_elem_of_In.
Qed.
End Facts.


(** A host profile can yield binding identifiers the proof schema
    refuses: the server name alone may use all 128 characters, the host
    identifier and a dot come on top, and the schema allows 128 in all. *)
Theorem newBinding_overlong u hostID configHash :
  hostID <> EmptyString ->
  exists raw, direct u hostID raw /\ schema_id (B_ID (newBinding raw configHash)) = false.
Proof.
  intros Hne. exists {| Raw_HostID := hostID; Raw_SourceID := "s";
    Raw_ServerName := repeat_char 128 "a"; Raw_Command := "/b"; Raw_Args := [] |}.
  split.
  - split; [done|]. split; [vm_compute; reflexivity|]. vm_compute. reflexivity.
  - unfold newBinding. cbn [B_ID Raw_HostID Raw_ServerName].
    destruct hostID as [|c t]; [done|]. cbn [String.append]. unfold schema_id.
    apply andb_false_iff. right. apply Z.leb_gt. unfold slen. cbn [String.length].
    rewrite !str_app_length. change (String.length (repeat_char 128 "a")) with 128%nat.
    simpl. lia.
Qed.

Lemma newBinding_overlong_witness :
  "claude" <> EmptyString /\
  exists raw, direct ascii_tables "claude" raw /\ schema_id (B_ID (newBinding raw "h")) = false.
Proof. split; [done|]. apply (newBinding_overlong ascii_tables "claude" "h"). done. Defined.

(** A one-profile catalog and a configuration with one server. *)
Definition sample_catalog : list string := [json_text (JObject [
  ("schema_version", JString "1"); ("host_id", JString "host"); ("display_name", JString "Host");
  ("fixture_version", JString "1"); ("platforms", JArray [JString "linux"]);
  ("process_matchers", JArray []);
  ("config_sources", JArray [JObject [
     ("source_id", JString "user"); ("platforms", JArray [JString "linux"]);
     ("candidate_paths", JArray [JString "${HOME}/.c.json"]); ("format", JString "json");
     ("dialect", JString "mcp-servers"); ("maximum_bytes", JNumber "1000");
     ("secret_fields", JArray [])]])])].

Definition steady_reader : string -> Z -> io unit sys_error string := fun _ _ => ret sample_config.

Definition sample_discovery : result go_error (list Binding) * unit :=
  Discover ascii_tables (fun _ => None) (fun _ => None) (fun _ => None) (fun _ _ => true)
    sample_catalog "linux" steady_reader (fun w => (false, w)) sample_request tt.

