(* ===== verification/Embedded.v ===== *)
(** * The embedded data ([contracts/], [schemas/], [profiles/hosts/])

    The decision registry and the host profiles that are compiled into the
    program, byte for byte (with ['] for the double quote), and
    [compileSchemas] of [contract/validator.go], which reads the registry and
    compiles the schemas.  The documents are evaluated: what [Contract] calls
    [decisions] is what the registry decodes to, and the catalogue of hosts
    loads, with every candidate path expandable.  The schema compiler is
    third-party code and a parameter. *)

From S2P Require Import Prelude GoStrings GoPath Model GoJson Contract Wire Process HostBinding HostParse World HostDiscovery.

(** A document written with ['] for the double quote. *)
Fixpoint quoted (s : string) : string :=
  match s with
  | EmptyString => EmptyString
  | String c t => String (if Ascii.eqb c "'" then byte_of 34 else c) (quoted t)
  end.

(** [contracts/decision-registry.json]. *)
Definition decision_registry : string := quoted
"{
  'schema_version': 'agent-runtime-decision-registry/1.0',
  'default_minimum_proof_level': 'PROCESS_OBSERVED',
  'minimum_proof_level_overrides': {
    'ARTIFACT_MISMATCH': 'ARTIFACT_OBSERVED',
    'ARTIFACT_VERSION_MISMATCH': 'ARTIFACT_OBSERVED',
    'ARTIFACT_CHANGED_DURING_READ': 'CONFIG_BOUND',
    'ARTIFACT_SCAN_LIMIT_EXCEEDED': 'CONFIG_BOUND',
    'ARTIFACT_INACCESSIBLE': 'CONFIG_BOUND',
    'ARTIFACT_PATH_ESCAPE': 'CONFIG_BOUND',
    'ARTIFACT_SYMLINK_REJECTED': 'CONFIG_BOUND',
    'ARTIFACT_NORMALIZATION_COLLISION': 'CONFIG_BOUND',
    'ARTIFACT_UNSUPPORTED_TYPE': 'CONFIG_BOUND',
    'POSSIBLE_STALE_AFTER_REPLACEMENT': 'CONFIG_BOUND',
    'STALE_WITNESS_RECEIPT': 'LAUNCH_WITNESSED',
    'RUNTIME_OUTSIDE_ALLOWED_ROOT': 'CONFIG_BOUND',
    'MULTIPLE_ACTIVE_DIGESTS': 'ARTIFACT_OBSERVED',
    'WITNESS_EXPECTATION_MISSING': 'LAUNCH_WITNESSED',
    'DYNAMIC_DEPENDENCIES_UNPROVEN': 'ARTIFACT_OBSERVED'
  },
  'verdicts': [
    {'name': 'MATCHED', 'description': 'Observed evidence covered by the proof level agrees with the expectation.'},
    {'name': 'STALE', 'description': 'Direct evidence binds the running subject to a known older artifact than the current expectation.'},
    {'name': 'LEAKED', 'description': 'The identified subject resolves outside every allowed runtime root.'},
    {'name': 'CONFLICT', 'description': 'Multiple incompatible active artifacts or equally trusted expectations prevent a unique result.'},
    {'name': 'NOT_RUNNING', 'description': 'A complete permitted scan found no process for the requested subject.'},
    {'name': 'UNKNOWN', 'description': 'Available evidence is insufficient for a safe deterministic verdict.'}
  ],
  'proof_levels': [
    {'name': 'PROCESS_OBSERVED', 'order': 1, 'description': 'A PID plus creation time and bounded process metadata were observed.'},
    {'name': 'CONFIG_BOUND', 'order': 2, 'description': 'The process is bound to a declared local host configuration or expectation.'},
    {'name': 'ARTIFACT_OBSERVED', 'order': 3, 'description': 'Declared entrypoint or payload bytes were read and hashed during observation.'},
    {'name': 'LAUNCH_WITNESSED', 'order': 4, 'description': 'ARP hashed the declared payload before spawning and recorded the resulting process identity.'}
  ],
  'reason_codes': [
    {'code': 'MATCH_CONFIRMED', 'category': 'match', 'description': 'All evidence required by the reported proof level matches the expectation.', 'allowed_verdicts': ['MATCHED']},
    {'code': 'PROCESS_NOT_FOUND', 'category': 'process', 'description': 'No process matched the requested subject in a complete permitted scan.', 'allowed_verdicts': ['NOT_RUNNING', 'UNKNOWN']},
    {'code': 'PROCESS_IDENTITY_CHANGED', 'category': 'process', 'description': 'PID or creation-time identity changed while evidence was collected.', 'allowed_verdicts': ['UNKNOWN']},
    {'code': 'PROCESS_INACCESSIBLE', 'category': 'process', 'description': 'The operating system denied required process evidence without privilege escalation.', 'allowed_verdicts': ['UNKNOWN']},
    {'code': 'EXPECTATION_MISSING', 'category': 'expectation', 'description': 'No expectation was supplied for a requested verification.', 'allowed_verdicts': ['UNKNOWN']},
    {'code': 'EXPECTATION_INVALID', 'category': 'expectation', 'description': 'The supplied expectation failed structural or semantic validation.', 'allowed_verdicts': ['UNKNOWN']},
    {'code': 'EXPECTATION_UNTRUSTED', 'category': 'expectation', 'description': 'The bytes match a declaration whose source is explicitly untrusted.', 'allowed_verdicts': ['MATCHED', 'UNKNOWN']},
    {'code': 'EXPECTATION_AMBIGUOUS', 'category': 'expectation', 'description': 'Multiple equally trusted expectations apply to the same binding.', 'allowed_verdicts': ['CONFLICT', 'UNKNOWN']},
    {'code': 'ARTIFACT_MISMATCH', 'category': 'artifact', 'description': 'An observed artifact digest differs from the expected digest.', 'allowed_verdicts': ['STALE', 'CONFLICT']},
    {'code': 'ARTIFACT_VERSION_MISMATCH', 'category': 'artifact', 'description': 'A directly observed artifact version differs from the expected version.', 'allowed_verdicts': ['STALE', 'CONFLICT']},
    {'code': 'ARTIFACT_CHANGED_DURING_READ', 'category': 'artifact', 'description': 'File identity or metadata changed while the artifact was hashed.', 'allowed_verdicts': ['UNKNOWN']},
    {'code': 'ARTIFACT_SCAN_LIMIT_EXCEEDED', 'category': 'artifact', 'description': 'File, byte, or time limits stopped the artifact scan before completion.', 'allowed_verdicts': ['UNKNOWN']},
    {'code': 'ARTIFACT_INACCESSIBLE', 'category': 'artifact', 'description': 'The operating system denied access to required artifact bytes.', 'allowed_verdicts': ['UNKNOWN']},
    {'code': 'ARTIFACT_PATH_ESCAPE', 'category': 'artifact', 'description': 'A resolved artifact path escaped the declared root.', 'allowed_verdicts': ['LEAKED', 'UNKNOWN']},
    {'code': 'ARTIFACT_SYMLINK_REJECTED', 'category': 'artifact', 'description': 'A symbolic link, junction, or reparse point violated the expectation policy.', 'allowed_verdicts': ['UNKNOWN']},
    {'code': 'ARTIFACT_NORMALIZATION_COLLISION', 'category': 'artifact', 'description': 'Two artifact paths collide after contract path normalization.', 'allowed_verdicts': ['UNKNOWN', 'CONFLICT']},
    {'code': 'ARTIFACT_UNSUPPORTED_TYPE', 'category': 'artifact', 'description': 'The declared artifact contains a file type outside the v1 contract.', 'allowed_verdicts': ['UNKNOWN']},
    {'code': 'POSSIBLE_STALE_AFTER_REPLACEMENT', 'category': 'staleness', 'description': 'Timestamps suggest replacement after launch but no direct old digest is available.', 'allowed_verdicts': ['UNKNOWN']},
    {'code': 'STALE_WITNESS_RECEIPT', 'category': 'staleness', 'description': 'A launch receipt directly binds the process to an older declared payload.', 'allowed_verdicts': ['STALE']},
    {'code': 'RUNTIME_OUTSIDE_ALLOWED_ROOT', 'category': 'boundary', 'description': 'The subject runtime resolves outside all roots allowed by the expectation.', 'allowed_verdicts': ['LEAKED']},
    {'code': 'MULTIPLE_ACTIVE_DIGESTS', 'category': 'conflict', 'description': 'The same binding has live processes with incompatible artifact digests.', 'allowed_verdicts': ['CONFLICT']},
    {'code': 'HOST_BINDING_AMBIGUOUS', 'category': 'host', 'description': 'Host evidence cannot uniquely bind the process to one configured runtime.', 'allowed_verdicts': ['CONFLICT', 'UNKNOWN']},
    {'code': 'HOST_CONFIG_INACCESSIBLE', 'category': 'host', 'description': 'A declared host configuration source cannot be read without additional privilege.', 'allowed_verdicts': ['UNKNOWN']},
    {'code': 'HOST_CONFIG_INVALID', 'category': 'host', 'description': 'A host configuration source is malformed or uses unsupported executable constructs.', 'allowed_verdicts': ['UNKNOWN']},
    {'code': 'WITNESS_EXPECTATION_MISSING', 'category': 'witness', 'description': 'Witness created an observation-only receipt because no expectation was supplied.', 'allowed_verdicts': ['UNKNOWN']},
    {'code': 'DYNAMIC_DEPENDENCIES_UNPROVEN', 'category': 'limitation', 'description': 'The declared payload does not cover all dependencies that may be loaded dynamically.', 'allowed_verdicts': ['MATCHED', 'UNKNOWN']},
    {'code': 'PLATFORM_EVIDENCE_UNAVAILABLE', 'category': 'platform', 'description': 'The current operating system cannot expose evidence required for a stronger proof level.', 'allowed_verdicts': ['UNKNOWN']},
    {'code': 'SCAN_CANCELLED', 'category': 'operation', 'description': 'The caller cancelled the scan before a complete result was available.', 'allowed_verdicts': ['UNKNOWN']}
  ]
}
".

(** [profiles/hosts/*.json], in the order of [fs.Glob]. *)
Definition host_documents : list string := map quoted [
"{
  'schema_version': 'agent-runtime-host-profile/1.0',
  'host_id': 'aaa',
  'display_name': 'Across Agents Assistant',
  'fixture_version': '1',
  'platforms': ['darwin'],
  'process_matchers': [{'basenames': ['Across Agents Assistant']}],
  'config_sources': []
}
";
"{
  'schema_version': 'agent-runtime-host-profile/1.0',
  'host_id': 'claude-code',
  'display_name': 'Claude Code',
  'fixture_version': '1',
  'platforms': ['darwin', 'windows', 'linux'],
  'process_matchers': [{'basenames': ['claude', 'claude.exe']}],
  'config_sources': [{
    'source_id': 'claude-project-mcp',
    'platforms': ['darwin', 'windows', 'linux'],
    'candidate_paths': ['${WORKSPACE}/.mcp.json'],
    'format': 'json', 'dialect': 'mcp-servers', 'maximum_bytes': 1048576,
    'secret_fields': ['env', 'headers']
  }]
}
";
"{
  'schema_version': 'agent-runtime-host-profile/1.0',
  'host_id': 'codex',
  'display_name': 'Codex',
  'fixture_version': '1',
  'platforms': ['darwin', 'windows', 'linux'],
  'process_matchers': [{'basenames': ['codex', 'codex.exe']}],
  'config_sources': [{
    'source_id': 'codex-config',
    'platforms': ['darwin', 'windows', 'linux'],
    'candidate_paths': ['${WORKSPACE}/.codex/config.toml', '${HOME}/.codex/config.toml'],
    'format': 'toml', 'dialect': 'codex-toml', 'maximum_bytes': 1048576,
    'secret_fields': ['env', 'bearer_token_env_var', 'http_headers']
  }]
}
";
"{
  'schema_version': 'agent-runtime-host-profile/1.0',
  'host_id': 'cursor',
  'display_name': 'Cursor',
  'fixture_version': '1',
  'platforms': ['darwin', 'windows', 'linux'],
  'process_matchers': [{'basenames': ['cursor', 'cursor-agent', 'cursor.exe', 'cursor-agent.exe']}],
  'config_sources': [{
    'source_id': 'cursor-mcp',
    'platforms': ['darwin', 'windows', 'linux'],
    'candidate_paths': ['${WORKSPACE}/.cursor/mcp.json', '${HOME}/.cursor/mcp.json'],
    'format': 'json', 'dialect': 'mcp-servers', 'maximum_bytes': 1048576,
    'secret_fields': ['env', 'headers']
  }]
}
";
"{
  'schema_version': 'agent-runtime-host-profile/1.0',
  'host_id': 'deepseek-harness',
  'display_name': 'DeepSeek Harness',
  'fixture_version': '1',
  'platforms': ['darwin', 'windows', 'linux'],
  'process_matchers': [{'basenames': ['dsh', 'dsh.exe', 'node', 'node.exe']}],
  'config_sources': [{
    'source_id': 'dsh-cordis-patch',
    'platforms': ['darwin', 'windows', 'linux'],
    'candidate_paths': ['${WORKSPACE}/.dsh/cordis.patch.yml', '${HOME}/.dsh/cordis.patch.yml', '${HOME}/.dsh/profiles/${PROFILE}/cordis.patch.yml'],
    'format': 'yaml', 'dialect': 'dsh-cordis', 'maximum_bytes': 1048576,
    'secret_fields': ['env', 'headers']
  }]
}
";
"{
  'schema_version': 'agent-runtime-host-profile/1.0',
  'host_id': 'opencode',
  'display_name': 'OpenCode',
  'fixture_version': '1',
  'platforms': ['darwin', 'windows', 'linux'],
  'process_matchers': [{'basenames': ['opencode', 'opencode.exe']}],
  'config_sources': [{
    'source_id': 'opencode-project-jsonc',
    'platforms': ['darwin', 'windows', 'linux'],
    'candidate_paths': ['${WORKSPACE}/opencode.jsonc', '${HOME}/.config/opencode/opencode.jsonc'],
    'format': 'jsonc', 'dialect': 'opencode-v2', 'maximum_bytes': 1048576,
    'secret_fields': ['environment', 'headers']
  }, {
    'source_id': 'opencode-project-json',
    'platforms': ['darwin', 'windows', 'linux'],
    'candidate_paths': ['${WORKSPACE}/opencode.json', '${HOME}/.config/opencode/opencode.json'],
    'format': 'json', 'dialect': 'opencode-v2', 'maximum_bytes': 1048576,
    'secret_fields': ['environment', 'headers']
  }]
}
";
"{
  'schema_version': 'agent-runtime-host-profile/1.0',
  'host_id': 'vscode-copilot',
  'display_name': 'VS Code and GitHub Copilot',
  'fixture_version': '1',
  'platforms': ['darwin', 'windows', 'linux'],
  'process_matchers': [{'basenames': ['code', 'code.exe', 'copilot', 'copilot.exe']}],
  'config_sources': [{
    'source_id': 'copilot-agent-mcp',
    'platforms': ['darwin', 'windows', 'linux'],
    'candidate_paths': ['${WORKSPACE}/.mcp.json', '${WORKSPACE}/.vscode/mcp.json', '${HOME}/.copilot/mcp-config.json'],
    'format': 'json', 'dialect': 'vscode-servers', 'maximum_bytes': 1048576,
    'secret_fields': ['env', 'headers', 'inputs']
  }]
}
"].

(** ** The registry *)

Definition string_field (kv : string * json) : result wire_error (string * string) :=
  let! v := string_of (snd kv) in Ok (fst kv, v).

Definition ProofLevel_of : json -> result wire_error (string * Z) :=
  loose_of (fun m => let! n := get_string m "name" in let! o := get_int m "order" in Ok (n, o)).

Definition ReasonEntry_of : json -> result wire_error ReasonEntry :=
  loose_of (fun m =>
    let! c := get_string m "code" in
    let! v := get_list m string_of "allowed_verdicts" in
    Ok {| Code := c; AllowedVerdicts := v |}).

Definition decisionRegistry_of : json -> result wire_error decisionRegistry :=
  loose_of (fun m =>
    let! d := get_string m "default_minimum_proof_level" in
    let! o := get_map m "minimum_proof_level_overrides" in
    let! overrides := mapM_ string_field o in
    let! levels := get_list m ProofLevel_of "proof_levels" in
    let! reasons := get_list m ReasonEntry_of "reason_codes" in
    Ok {| DefaultMinimumProofLevel := d; MinimumProofOverrides := overrides; ProofLevels := levels;
          RegistryReasonCodes := reasons |}).

(** [json.Unmarshal] into the registry. *)
Definition decode_registry (document : string) : option decisionRegistry :=
  match decodeOne document with
  | Ok value => match decisionRegistry_of value with Ok r => Some r | Err _ => None end
  | Err _ => None
  end.

Lemma registry_decodes : decode_registry decision_registry = Some decisions.
Proof. vm_compute. reflexivity. Qed.

(** ** Compiling the schemas *)

Definition schemaBaseURL : string := "https://agent-runtime-proof.dev/schemas/".

Definition schema_names : list string :=
  [expectation_schema; host_profile_schema; receipt_schema; proof_schema;
   "agent-runtime-fixture-1.0.schema.json"].

Inductive compile_error :=
| ReadSchema (name : string)
| DecodeSchema (name : string) (e : decode_error)
| AddSchema (name : string)
| CompileSchema (name : string)
| ReadRegistry
| DecodeRegistry.

Section Schemas.
(** The third-party compiler of schemas. *)
Context {Compiler Schema : Type}.
Variable NewCompiler : Compiler.
Variable AddResource : string -> json -> Compiler -> option Compiler.
Variable Compile : Compiler -> string -> option Schema.
Variable Validate : Schema -> json -> bool.
(** [Files.ReadFile] of the two embedded directories. *)
Variable schema_file : string -> option string.
Variable registry_file : string -> option string.

Definition add_schema (compiler : Compiler) (name : string) : result compile_error Compiler :=
  match schema_file name with
  | None => Err (ReadSchema name)
  | Some contents =>
      let! value := map_err (DecodeSchema name) (decodeOne contents) in
      match AddResource (schemaBaseURL +:+ Base name) value compiler with
      | None => Err (AddSchema name)
      | Some compiler' => Ok compiler'
      end
  end.

Definition compile_schema (compiler : Compiler) (name : string) : result compile_error (string * Schema) :=
  match Compile compiler (schemaBaseURL +:+ name) with
  | None => Err (CompileSchema name)
  | Some schema => Ok (name, schema)
  end.

Definition compileSchemas : result compile_error (list (string * Schema) * decisionRegistry) :=
  let! compiler := foldM add_schema schema_names NewCompiler in
  let! schemaSet := mapM_ (compile_schema compiler) schema_names in
  match registry_file "decision-registry.json" with
  | None => Err ReadRegistry
  | Some registryJSON =>
      match decode_registry registryJSON with
      | None => Err DecodeRegistry
      | Some registry => Ok (schemaSet, registry)
      end
  end.

(** [validateValue], with [compileOnce]. *)
Definition compiled_validateValue (name document : string) : result (compile_error + validate_error) json :=
  match compileSchemas with
  | Err e => Err (inl e)
  | Ok (schemaSet, _) =>
      map_err inr
        (let! value := map_err DecodeFailed (decodeOne document) in
         match assoc schemaSet name with
         | Some schema => check! Validate schema value else SchemaFailed name in Ok value
         | None => Err (SchemaFailed name)
         end)
  end.

(** The validator of [Contract], from the compiled schemas. *)
Definition compiled_schema_ok (name : string) (value : json) : bool :=
  match compileSchemas with
  | Ok (schemaSet, _) =>
      match assoc schemaSet name with Some schema => Validate schema value | None => false end
  | Err _ => false
  end.

Lemma compiled_names schemaSet registry :
  compileSchemas = Ok (schemaSet, registry) -> map fst schemaSet = schema_names.
Proof.
  unfold compileSchemas. intros H. apply rbind_ok in H as (compiler & _ & H).
  apply rbind_ok in H as (set & Hset & H).
  assert (Hs : map fst set = schema_names).
  { clear H. apply mapM_ok_Forall2 in Hset. revert Hset. generalize schema_names. intros names Hset.
    induction Hset as [|name entry names set Hn _ IH]; [done|]. cbn [map]. rewrite IH. f_equal.
    unfold compile_schema in Hn. by destruct (Compile _ _); [injection Hn as <-|]. }
  destruct (registry_file _); [|done]. destruct (decode_registry _); [|done]. by injection H as <- <-.
Qed.

(** A schema set that has been compiled serves every kind of document, from
    the file of that kind, and [validateValue] is that of [Contract]. *)
Theorem compiled_validators schemaSet registry name document :
  compileSchemas = Ok (schemaSet, registry) -> name ∈ schema_names ->
  (exists compiler schema, foldM add_schema schema_names NewCompiler = Ok compiler
     /\ Compile compiler (schemaBaseURL +:+ name) = Some schema /\ assoc schemaSet name = Some schema)
  /\ compiled_validateValue name document = map_err inr (validateValue compiled_schema_ok name document).
Proof.
  intros Hc Hn. split.
  - unfold compileSchemas in Hc. apply rbind_ok in Hc as (compiler & Hcomp & Hc).
    apply rbind_ok in Hc as (set & Hset & Hc).
    assert (set = schemaSet) as ->.
    { destruct (registry_file _); [|done]. destruct (decode_registry _); [|done]. by injection Hc as <- _. }
    exists compiler. clear Hc. apply mapM_ok_Forall2 in Hset. revert Hn Hset. generalize schema_names at 1 2.
    intros names Hn Hset. induction Hset as [|x entry names set Hx _ IH]; [by apply elem_of_nil in Hn|].
    unfold compile_schema in Hx. destruct (Compile compiler (schemaBaseURL +:+ x)) as [schema|] eqn:E; [|done].
    injection Hx as <-. unfold assoc. cbn [find fst]. destruct (String.eqb_spec x name) as [->|Hne].
    + exists schema. by repeat split.
    + apply elem_of_cons in Hn as [->|Hn]; [done|]. by apply IH.
  - unfold compiled_validateValue, validateValue, validate_schema, compiled_schema_ok. rewrite Hc.
    destruct (decodeOne document); cbn [map_err rbind]; [|done].
    destruct (assoc schemaSet name); [|done]. by destruct (Validate _ _).
Qed.

(** Validation fails closed: without its schemas and its registry the program
    accepts no document of any kind. *)
Theorem uncompiled_rejects e name document :
  compileSchemas = Err e -> compiled_validateValue name document = Err (inl e)
  /\ is_ok (validateValue compiled_schema_ok name document) = false.
Proof.
  intros Hc. unfold compiled_validateValue, validateValue, validate_schema, compiled_schema_ok. rewrite Hc.
  split; [done|]. by destruct (decodeOne document).
Qed.
End Schemas.

(** ** The catalogue of hosts *)

Definition host_ids : list string :=
  ["aaa"; "claude-code"; "codex"; "cursor"; "deepseek-harness"; "opencode"; "vscode-copilot"].

(** The catalogue, if every document passes the schema. *)
Definition embedded_catalog : list (string * Profile) :=
  match LoadEmbeddedCatalog (fun _ _ => true) host_documents with Ok catalog => catalog | Err _ => [] end.

(** The engine accepts the host profiles (their tests check it does). *)
Definition profiles_accepted (schema_ok : string -> json -> bool) : Prop :=
  Forall (fun d => ValidateHostProfile schema_ok d = Ok tt) host_documents.

Lemma catalog_loads : LoadEmbeddedCatalog (fun _ _ => true) host_documents = Ok embedded_catalog.
Proof. vm_compute. reflexivity. Qed.

Lemma accepted_catalog schema_ok documents c :
  Forall (fun d => ValidateHostProfile schema_ok d = Ok tt) documents ->
  foldM (add_profile schema_ok) documents c = foldM (add_profile (fun _ _ => true)) documents c.
Proof.
  revert c. induction documents as [|d l IH]; intros c Hl; [done|]. apply Forall_cons in Hl as [Hd Hl]. cbn [foldM].
  assert (E : add_profile schema_ok c d = add_profile (fun _ _ => true) c d).
  { unfold add_profile, decodeProfile. rewrite Hd.
    unfold ValidateHostProfile, validate, validateValue, validate_schema in *.
    by destruct (decodeOne d) as [v|e]; cbn [map_err rbind guard_] in *. }
  rewrite E. destruct (add_profile (fun _ _ => true) c d); cbn [rbind]; [by apply IH|done].
Qed.

Lemma embedded_catalog_loads schema_ok :
  profiles_accepted schema_ok -> LoadEmbeddedCatalog schema_ok host_documents = Ok embedded_catalog.
Proof.
  intros Hs. rewrite <- catalog_loads. unfold LoadEmbeddedCatalog. by rewrite (accepted_catalog _ _ _ Hs).
Qed.

Lemma embedded_ids : HostIDs embedded_catalog = host_ids.
Proof. vm_compute. reflexivity. Qed.

(** ** Every candidate path can be expanded *)

(** What [expandCandidate] asks of a template, apart from its root. *)
Definition remainder_of (template : string) : option string :=
  if HasPrefix template "${HOME}/" then Some (TrimPrefix template "${HOME}/")
  else if HasPrefix template "${WORKSPACE}/" then Some (TrimPrefix template "${WORKSPACE}/")
  else None.

Definition ordinary (part : string) : bool := negb ((part =s EmptyString) || (part =s ".") || (part =s "..")).

Definition expandable (profileName template : string) : bool :=
  match remainder_of template with
  | None => false
  | Some remainder =>
      let remainder := ReplaceAll remainder "${PROFILE}" profileName in
      negb (Contains remainder "${" || has_byte remainder (byte_of 0)) && forallb ordinary (Split remainder slash)
  end.

Lemma expandable_parts l :
  forallb ordinary l = true ->
  existsb (fun part => (part =s EmptyString) || (part =s ".") || (part =s "..")) l = false.
Proof.
  rewrite forallb_forall, existsb_false, Forall_forall. intros H x Hx.
  specialize (H x (proj1 (list_elem_of_In _ _) Hx)). by apply negb_true_iff in H.
Qed.

Lemma joined_inside root remainder :
  IsAbs root = true -> Forall normal_comp (Split remainder slash) ->
  exists relative, Rel (Clean root) (JoinPath [root; remainder]) = Some relative
    /\ (relative =s "..") || HasPrefix relative (".." +:+ sep) = false.
Proof.
  intros Ha Hn. pose proof (proj2 (Rel_inside (Clean root) (JoinPath [root; remainder])
                                     (IsAbs_Clean _ Ha) (IsAbs_JoinPath _ _ Ha))) as Hr.
  rewrite JoinPath_normal, abs_comps_Clean in Hr by done.
  specialize (Hr ltac:(by eexists)). destruct (Rel _ _) as [relative|]; [|done].
  exists relative. split; [done|]. unfold stays_inside in Hr. apply andb_true_iff in Hr as [[_ Hd]%andb_true_iff Hp].
  apply negb_true_iff in Hd, Hp. by rewrite Hd, Hp.
Qed.

Lemma expandable_expands template request :
  expandable (ProfileName request) template = true ->
  IsAbs (Home request) = true -> IsAbs (Workspace request) = true ->
  exists path, expandCandidate template request = Some path.
Proof.
  unfold expandable, remainder_of, expandCandidate. intros He Hh Hw.
  set (pair := if HasPrefix template "${HOME}/" then (Home request, _) else _).
  assert (Hpair : IsAbs (fst pair) = true
     /\ negb (Contains (ReplaceAll (snd pair) "${PROFILE}" (ProfileName request)) "${"
              || has_byte (ReplaceAll (snd pair) "${PROFILE}" (ProfileName request)) (byte_of 0))
        && forallb ordinary (Split (ReplaceAll (snd pair) "${PROFILE}" (ProfileName request)) slash) = true).
  { subst pair. destruct (HasPrefix template "${HOME}/"); [done|]. by destruct (HasPrefix template "${WORKSPACE}/"). }
  destruct pair as [root remainder]. cbn [fst snd] in Hpair. clear He. destruct Hpair as [Ha Hr].
  apply andb_true_iff in Hr as [Hc%negb_true_iff Hp].
  rewrite (proj2 (String.eqb_neq root EmptyString)) by by apply IsAbs_nonempty. rewrite Ha. cbn [orb negb].
  rewrite Hc. unfold ToSlash, FromSlash. pose proof (expandable_parts _ Hp) as He. rewrite He.
  destruct (joined_inside root (ReplaceAll remainder "${PROFILE}" (ProfileName request)) Ha) as (relative & -> & ->);
    [|by eexists].
  apply bad_parts; [exact He|apply Split_no_sep].
Qed.

Definition source_expandable (profileName : string) (source : ConfigSource) : bool :=
  forallb (expandable profileName) (CandidatePaths source).

Definition profile_ok (kv : string * Profile) : bool :=
  (fst kv =s Prof_HostID (snd kv)) && forallb (source_expandable "default") (ConfigSources (snd kv))
  && forallb (fun source => (1 <=? MaximumBytes source) && (MaximumBytes source <=? 1048576)) (ConfigSources (snd kv)).

Lemma embedded_profiles_ok : forallb profile_ok embedded_catalog = true.
Proof. vm_compute. reflexivity. Qed.

Lemma source_inputs_expand request source :
  source_expandable (ProfileName request) source = true ->
  IsAbs (Home request) = true -> IsAbs (Workspace request) = true ->
  exists inputs, source_inputs request source = Ok inputs.
Proof.
  unfold source_expandable, source_inputs. rewrite forallb_forall. intros He Hh Hw. apply mapM_total.
  intros candidate Hc%list_elem_of_In. destruct (expandable_expands candidate request (He _ Hc) Hh Hw) as [path ->].
  by eexists.
Qed.

(** What [NewLocalResolver] asks for a host of the catalogue. *)
Definition local_request (request : Request) : Prop :=
  ProfileName request = "default" /\ ExplicitConfigPath request = EmptyString
  /\ IsAbs (Home request) = true /\ IsAbs (Workspace request) = true.

Definition platform_of (goos : string) (request : Request) : string :=
  if Req_Platform request =s EmptyString then goos else Req_Platform request.

Lemma checked_plan u schema_ok documents catalog goos request :
  LoadEmbeddedCatalog schema_ok documents = Ok catalog -> forallb profile_ok catalog = true ->
  local_request request ->
  match plan u schema_ok documents goos request with
  | Ok (profile, inputs) =>
      assoc catalog (Req_HostID request) = Some profile
      /\ contains (Prof_Platforms profile) (platform_of goos request) = true
      /\ Forall (fun input => fst input ∈ ConfigSources profile /\ placed request (fst input) (snd input)) inputs
  | Err e =>
      (e = host_error "HOST_PROFILE_NOT_FOUND" /\ assoc catalog (Req_HostID request) = None)
      \/ (e = host_error "HOST_PROFILE_UNSUPPORTED"
          /\ exists profile, assoc catalog (Req_HostID request) = Some profile
             /\ contains (Prof_Platforms profile) (platform_of goos request) = false)
  end.
Proof.
  intros Hload Hok (Hname & Hex & Hh & Hw). unfold plan. rewrite Hload. cbn [map_err rbind].
  unfold Host. destruct (assoc catalog (Req_HostID request)) as [profile|] eqn:Ea; cbn [option_map]; [|left; split; reflexivity].
  rewrite forallb_forall in Hok.
  apply assoc_elem, list_elem_of_In, Hok in Ea as Hp. unfold profile_ok in Hp. cbn [fst snd] in Hp.
  apply andb_true_iff in Hp as [[Hid Hexp]%andb_true_iff Hsize]. rewrite forallb_forall in Hexp, Hsize.
  rewrite cloneProfile_id.
  2: { apply Forall_forall. intros source Hin%list_elem_of_In. specialize (Hsize _ Hin). to_prop.
       unfold in_int64, int64_min, int64_max. lia. }
  fold (platform_of goos request).
  destruct (contains (Prof_Platforms profile) (platform_of goos request)) eqn:Ec; cbn [guard_ rbind].
  2: { right. split; [done|]. by exists profile. }
  destruct (discovery_inputs u profile (platform_of goos request) request) as [inputs|e] eqn:Ei; cbn [rbind].
  - split; [done|]. split; [done|]. by eapply discovery_inputs_placed.
  - exfalso. unfold discovery_inputs in Ei. rewrite Hex in Ei. cbn [String.eqb negb] in Ei.
    destruct (mapM_total (source_inputs request)
                (List.filter (fun source => contains (Cfg_Platforms source) (platform_of goos request)) (ConfigSources profile)))
      as [groups Hg]; [|by rewrite Hg in Ei].
    intros source [Hin _]%list_elem_of_In%filter_In. apply source_inputs_expand; [|done|done].
    rewrite Hname. by apply Hexp.
Qed.

(** Planning a discovery over the embedded catalogue fails only for a host
    that is not in it or does not run on the platform. *)
Theorem embedded_plan u schema_ok goos request :
  profiles_accepted schema_ok -> local_request request ->
  match plan u schema_ok host_documents goos request with
  | Ok (profile, inputs) =>
      assoc embedded_catalog (Req_HostID request) = Some profile
      /\ contains (Prof_Platforms profile) (platform_of goos request) = true
      /\ Forall (fun input => fst input ∈ ConfigSources profile /\ placed request (fst input) (snd input)) inputs
  | Err e =>
      (e = host_error "HOST_PROFILE_NOT_FOUND" /\ assoc embedded_catalog (Req_HostID request) = None)
      \/ (e = host_error "HOST_PROFILE_UNSUPPORTED"
          /\ exists profile, assoc embedded_catalog (Req_HostID request) = Some profile
             /\ contains (Prof_Platforms profile) (platform_of goos request) = false)
  end.
Proof. intros Hs. apply (checked_plan u schema_ok host_documents _ goos request (embedded_catalog_loads _ Hs) embedded_profiles_ok). Qed.

Lemma first_host_unsupported {W} u hujson toml yaml schema_ok documents catalog goos
  (reader : string -> Z -> io W sys_error string) ctx_done resolver first rest w :
  LoadEmbeddedCatalog schema_ok documents = Ok catalog -> HostIDs catalog = first :: rest ->
  option_map Prof_Platforms (Host catalog first) = Some ["darwin"] ->
  Rsv_Platform resolver = goos -> goos <> "darwin" -> goos <> EmptyString ->
  Bindings u hujson toml yaml schema_ok documents goos reader ctx_done resolver EmptyString w
  = (Err (host_error "HOST_PROFILE_UNSUPPORTED"), w).
Proof.
  intros Hload Hids Hfirst Hplatform Hgoos Hne. unfold Bindings. cbn [String.eqb].
  rewrite Hload. cbn [map_err rbind]. rewrite Hids.
  unfold bind at 1, lift at 1. cbn [foldIO]. unfold bind at 1, bind at 1, Discover.
  unfold bind at 1, lift at 1, plan. rewrite Hload. cbn [map_err rbind resolver_request Req_HostID Req_Platform].
  destruct (Host catalog first) as [profile|]; [|discriminate Hfirst]. injection Hfirst as Ha.
  rewrite Hplatform, (proj2 (String.eqb_neq goos EmptyString) Hne), Ha.
  unfold contains. cbn [existsb]. rewrite String.eqb_sym, (proj2 (String.eqb_neq goos "darwin") Hgoos). reflexivity.
Qed.

(** Asking for the bindings of all hosts at once fails everywhere but on macOS:
    the first host of the catalogue runs on macOS only, and an error for one
    host is an error for all.  (The application always names a host.) *)
Lemma all_hosts_unsupported {W} u hujson toml yaml schema_ok goos (reader : string -> Z -> io W sys_error string)
  ctx_done resolver w :
  profiles_accepted schema_ok -> Rsv_Platform resolver = goos -> goos <> "darwin" -> goos <> EmptyString ->
  Bindings u hujson toml yaml schema_ok host_documents goos reader ctx_done resolver EmptyString w
  = (Err (host_error "HOST_PROFILE_UNSUPPORTED"), w).
Proof.
  intros Hs. eapply first_host_unsupported; [by apply embedded_catalog_loads|exact embedded_ids|].
  vm_compute. reflexivity.
Qed.
