(* ===== verification/JsonSchema.v ===== *)
(** * JSON Schema, draft 2020-12

    The keywords the embedded schemas use, with the meaning the specification
    gives them: a document is compiled to a schema whose references are looked
    up by URL, and a value is valid or not.  The engine the program links is
    third-party code; [standard] is the reference it is documented to follow.
    [format] is an annotation, as it is for an engine that is not told to
    assert formats. *)

From S2P Require Import Prelude GoStrings GoRegexp Model GoJson Contract RoundTrip.

(** ** Numbers

    A JSON number by its value: [m] times ten to the [e]. *)
Record decimal := Dec10 { Mantissa : Z; Exponent : Z }.

Fixpoint digits_val (s : string) (acc : Z) : Z :=
  match s with
  | String c t => if is_digit c then digits_val t (acc * 10 + (byte_val c - 48)) else acc
  | EmptyString => acc
  end.

Definition number_sign (s : string) : bool * string :=
  match s with String c t => if Ascii.eqb c "-" then (true, t) else (false, s) | _ => (false, s) end.

Definition exponent_of (s : string) : Z :=
  match s with
  | String c (String d t) =>
      if Ascii.eqb c "e" || Ascii.eqb c "E" then
        if Ascii.eqb d "-" then - digits_val t 0
        else if Ascii.eqb d "+" then digits_val t 0 else digits_val (String d t) 0
      else 0
  | _ => 0
  end.

Definition decimal_of (text : string) : decimal :=
  let '(negative, s) := number_sign text in
  let '(whole, rest) := span_digits s in
  let '(fraction, rest') :=
    match rest with
    | String c t => if Ascii.eqb c "." then span_digits t else (EmptyString, rest)
    | EmptyString => (EmptyString, rest)
    end in
  let m := digits_val (whole +:+ fraction) 0 in
  Dec10 (if negative : bool then - m else m) (exponent_of rest' - slen fraction).

Lemma digits_val_parse s acc v : parse_digits s acc = Some v -> digits_val s acc = v.
Proof.
  revert acc. induction s as [|c s IH]; intros acc; cbn [parse_digits digits_val]; [by intros [= ->]|].
  destruct (is_digit c); [apply IH|done].
Qed.

Lemma decimal_digits s v :
  sforall is_digit s = true -> parse_digits s 0 = Some v -> s <> EmptyString ->
  decimal_of s = Dec10 v 0 /\ decimal_of (String "-" s) = Dec10 (- v) 0.
Proof.
  intros Hd Hp Hne. pose proof (span_digits_app s EmptyString Hd eq_refl) as Hs. rewrite str_app_nil_r in Hs.
  assert (Hn : number_sign s = (false, s)).
  { destruct s as [|c t]; [done|]. cbn [number_sign]. rewrite sforall_cons in Hd.
    apply andb_true_iff in Hd as [Hc _]. apply digit_not_sign in Hc as [-> _]. done. }
  unfold decimal_of. cbn [number_sign]. rewrite Hn, Ascii.eqb_refl, Hs, str_app_nil_r.
  cbn [exponent_of]. rewrite (digits_val_parse s 0 v) by done. done.
Qed.

(** The numbers the program writes are the integers they were. *)
Lemma decimal_FormatInt n : int64_min <= n <= int64_max -> decimal_of (FormatInt n) = Dec10 n 0.
Proof.
  unfold int64_min, int64_max, FormatInt. intros Hn.
  destruct (Z.ltb_spec n 0) as [H|H]; rewrite digits_fuel_of, str_app_nil_r.
  - destruct (decimal_digits (digits_of 20 (- n)) (- n)) as [_ ->].
    + apply digits_of_digits. lia.
    + apply parse_digits_of. cbn. lia.
    + apply digits_of_nonempty. lia.
    + f_equal. lia.
  - apply decimal_digits; [by apply digits_of_digits|apply parse_digits_of; cbn; lia|apply digits_of_nonempty; lia].
Qed.

(** [d <= n] and [n <= d] for an integer [n]. *)
Definition at_most (d : decimal) (n : Z) : bool :=
  if 0 <=? Exponent d then Mantissa d * 10 ^ Exponent d <=? n
  else Mantissa d <=? n * 10 ^ (- Exponent d).
Definition at_least (d : decimal) (n : Z) : bool :=
  if 0 <=? Exponent d then n <=? Mantissa d * 10 ^ Exponent d
  else n * 10 ^ (- Exponent d) <=? Mantissa d.
Definition is_integer (d : decimal) : bool :=
  if 0 <=? Exponent d then true else Mantissa d mod 10 ^ (- Exponent d) =? 0.
Definition same_number (a b : decimal) : bool :=
  let low := Z.min (Exponent a) (Exponent b) in
  Mantissa a * 10 ^ (Exponent a - low) =? Mantissa b * 10 ^ (Exponent b - low).

(** ** Equality of values *)

Fixpoint lookup_member (m : list (string * json)) (k : string) : option json :=
  match m with
  | [] => None
  | (k', v) :: rest => if k' =s k then Some v else lookup_member rest k
  end.

Fixpoint same_value (a b : json) : bool :=
  match a, b with
  | JNull, JNull => true
  | JBool x, JBool y => Bool.eqb x y
  | JNumber x, JNumber y => same_number (decimal_of x) (decimal_of y)
  | JString x, JString y => x =s y
  | JArray l, JArray l' =>
      (fix items (l l' : list json) : bool :=
         match l, l' with
         | [], [] => true
         | x :: r, y :: r' => same_value x y && items r r'
         | _, _ => false
         end) l l'
  | JObject m, JObject m' =>
      (length m =? length m')%nat
      && forallb (fun kv => match lookup_member m' (fst kv) with
                            | Some y => same_value (snd kv) y
                            | None => false
                            end) m
  | _, _ => false
  end.

Fixpoint unique (l : list json) : bool :=
  match l with [] => true | x :: r => negb (existsb (same_value x) r) && unique r end.

(** ** Schemas *)

Inductive jtype := TypeNull | TypeBoolean | TypeString | TypeInteger | TypeNumber | TypeArray | TypeObject.

Inductive schema :=
| Anything
| Never
| Both (a b : schema)
| Ref (url : string)
| Type_ (allowed : list jtype)
| Const (v : json)
| Enum (values : list json)
| Required (names : list string)
| Property (name : string) (s : schema)
| Additional (known : list string) (s : schema)
| PropertyNames (s : schema)
| Items (s : schema)
| OneOf (choices : list schema)
| Pattern (pattern : string)
| MinLength (n : Z) | MaxLength (n : Z)
| Minimum (n : Z) | Maximum (n : Z)
| MinItems (n : Z) | MaxItems (n : Z)
| UniqueItems.

Definition has_type (v : json) (t : jtype) : bool :=
  match t, v with
  | TypeNull, JNull | TypeBoolean, JBool _ | TypeString, JString _ | TypeNumber, JNumber _
  | TypeArray, JArray _ | TypeObject, JObject _ => true
  | TypeInteger, JNumber text => is_integer (decimal_of text)
  | _, _ => false
  end.

Definition on_string (v : json) (f : string -> bool) : bool :=
  match v with JString s => f s | _ => true end.
Definition on_number (v : json) (f : decimal -> bool) : bool :=
  match v with JNumber t => f (decimal_of t) | _ => true end.
Definition on_items (v : json) (f : list json -> bool) : bool :=
  match v with JArray l => f l | _ => true end.
Definition on_members (v : json) (f : list (string * json) -> bool) : bool :=
  match v with JObject m => f m | _ => true end.

(** A value, with a validator for each member and each item of it. *)
Record subject := Sub {
  Value : json;
  Members : list (string * (schema -> bool));
  Elements : list (schema -> bool)
}.

Fixpoint count_true (l : list bool) : Z :=
  match l with [] => 0 | b :: r => (if b : bool then 1 else 0) + count_true r end.

Definition leaf (v : json) : subject := Sub v [] [].

Section Valid.
(** The schemas by URL. *)
Variable resolve : string -> option schema.

(** [budget] bounds the references followed without entering the value. *)
Fixpoint check (budget : nat) : schema -> subject -> bool :=
  fix go (s : schema) (x : subject) {struct s} : bool :=
    match s with
    | Anything => true
    | Never => false
    | Both a b => go a x && go b x
    | Ref url =>
        match budget with
        | O => false
        | S budget' => match resolve url with Some s' => check budget' s' x | None => false end
        end
    | Type_ allowed => existsb (has_type (Value x)) allowed
    | Const v => same_value v (Value x)
    | Enum values => existsb (fun v => same_value v (Value x)) values
    | Required names =>
        on_members (Value x) (fun m => forallb (fun k => existsb (fun kv => fst kv =s k) m) names)
    | Property name s' => forallb (fun kv => negb (fst kv =s name) || snd kv s') (Members x)
    | Additional known s' => forallb (fun kv => contains known (fst kv) || snd kv s') (Members x)
    | PropertyNames s' => on_members (Value x) (forallb (fun kv => go s' (leaf (JString (fst kv)))))
    | Items s' => forallb (fun f => f s') (Elements x)
    | OneOf choices => count_true (map (fun s' => go s' x) choices) =? 1
    | Pattern p => on_string (Value x) (MatchString p)
    | MinLength n => on_string (Value x) (fun s => n <=? RuneCountInString s)
    | MaxLength n => on_string (Value x) (fun s => RuneCountInString s <=? n)
    | Minimum n => on_number (Value x) (fun d => at_least d n)
    | Maximum n => on_number (Value x) (fun d => at_most d n)
    | MinItems n => on_items (Value x) (fun l => n <=? Z.of_nat (length l))
    | MaxItems n => on_items (Value x) (fun l => Z.of_nat (length l) <=? n)
    | UniqueItems => on_items (Value x) unique
    end.

Variable budget : nat.

Fixpoint valid (v : json) : schema -> bool :=
  match v with
  | JObject m => fun s => check budget s (Sub v (map (fun kv => (fst kv, valid (snd kv))) m) [])
  | JArray l => fun s => check budget s (Sub v [] (map valid l))
  | _ => fun s => check budget s (leaf v)
  end.
End Valid.

(** ** The budget of references

    [grounded budget s]: on one value, checking [s] follows at most [budget]
    references; [hereditary]: so does checking any member or item. *)

Section Grounded.
Variable resolve : string -> option schema.

Fixpoint grounded (budget : nat) : schema -> bool :=
  fix go (s : schema) {struct s} : bool :=
    match s with
    | Both a b => go a && go b
    | Ref url =>
        match budget with
        | O => false
        | S budget' => match resolve url with Some s' => grounded budget' s' | None => false end
        end
    | PropertyNames s' => go s'
    | OneOf choices => forallb go choices
    | _ => true
    end.

Fixpoint hereditary (budget : nat) (s : schema) : bool :=
  match s with
  | Both a b => hereditary budget a && hereditary budget b
  | Property _ s' | Additional _ s' | Items s' => grounded budget s' && hereditary budget s'
  | PropertyNames s' => hereditary budget s'
  | OneOf choices => forallb (hereditary budget) choices
  | _ => true
  end.
End Grounded.

Section SchemaInd.
Variable P : schema -> Prop.
Hypothesis HBoth : forall a b, P a -> P b -> P (Both a b).
Hypothesis HRef : forall url, P (Ref url).
Hypothesis HProperty : forall name s, P s -> P (Property name s).
Hypothesis HAdditional : forall known s, P s -> P (Additional known s).
Hypothesis HNames : forall s, P s -> P (PropertyNames s).
Hypothesis HItems : forall s, P s -> P (Items s).
Hypothesis HOneOf : forall l, Forall P l -> P (OneOf l).
(** The keywords without schemas inside. *)
Definition assertion (s : schema) : bool :=
  match s with
  | Both _ _ | Ref _ | Property _ _ | Additional _ _ | PropertyNames _ | Items _ | OneOf _ => false
  | _ => true
  end.
Hypothesis HAssertion : forall s, assertion s = true -> P s.

Fixpoint schema_nested_ind (s : schema) : P s :=
  match s with
  | Both a b => HBoth a b (schema_nested_ind a) (schema_nested_ind b)
  | Ref url => HRef url
  | Property name s' => HProperty name s' (schema_nested_ind s')
  | Additional known s' => HAdditional known s' (schema_nested_ind s')
  | PropertyNames s' => HNames s' (schema_nested_ind s')
  | Items s' => HItems s' (schema_nested_ind s')
  | OneOf l =>
      HOneOf l ((fix go (l : list schema) : Forall P l :=
                   match l with
                   | [] => Forall_nil_2 _
                   | x :: r => Forall_cons_2 _ _ _ (schema_nested_ind x) (go r)
                   end) l)
  | s => HAssertion s eq_refl
  end.
End SchemaInd.

Section Budget.
Variable resolve : string -> option schema.
Variable budget : nat.
Hypothesis defs_hereditary : forall url s, resolve url = Some s -> hereditary resolve budget s = true.

(** Two subjects whose parts are validated alike by the schemas in reach. *)
Definition alike (f g : schema -> bool) : Prop :=
  forall s, grounded resolve budget s = true -> hereditary resolve budget s = true -> f s = g s.
Definition same_subject (x y : subject) : Prop :=
  Value x = Value y
  /\ Forall2 (fun p q => fst p = fst q /\ alike (snd p) (snd q)) (Members x) (Members y)
  /\ Forall2 alike (Elements x) (Elements y).

Lemma same_leaf v : same_subject (leaf v) (leaf v).
Proof. repeat split; constructor. Qed.

Lemma forallb_Forall2 {A B} (f : A -> bool) (g : B -> bool) l l' :
  Forall2 (fun x y => f x = g y) l l' -> forallb f l = forallb g l'.
Proof. induction 1 as [|x y l l' H _ IH]; [done|]. cbn [forallb]. by rewrite H, IH. Qed.

Lemma check_budget n : forall s b1 b2 x y,
  grounded resolve n s = true -> hereditary resolve budget s = true -> (n <= b1)%nat -> (n <= b2)%nat ->
  same_subject x y -> check resolve b1 s x = check resolve b2 s y.
Proof.
  induction n as [n IHn] using lt_wf_ind.
  intros s. induction s as [a b IHa IHb|url|name s IH|known s IH|s IH|s IH|l IH|s Hs] using schema_nested_ind;
    intros b1 b2 x y Hg Hh H1 H2 Hxy; pose proof Hxy as (Hv & Hm & He).
  - assert (Hg' : grounded resolve n a = true /\ grounded resolve n b = true)
      by (destruct n; by apply andb_true_iff in Hg).
    cbn [hereditary] in Hh. apply andb_true_iff in Hh as [Hha Hhb]. destruct Hg' as [Hga Hgb].
    pose proof (IHa b1 b2 x y Hga Hha H1 H2 Hxy) as Ha. pose proof (IHb b1 b2 x y Hgb Hhb H1 H2 Hxy) as Hb.
    destruct b1, b2; cbn [check] in *; by f_equal.
  - destruct n as [|n]; [done|]. cbn [grounded] in Hg. destruct b1 as [|b1]; [lia|]. destruct b2 as [|b2]; [lia|].
    cbn [check]. destruct (resolve url) as [s'|] eqn:E; [|done].
    apply (IHn n); try done; try lia. by eapply defs_hereditary.
  - cbn [hereditary] in Hh. apply andb_true_iff in Hh as [Hgs Hhs].
    assert (H : forallb (fun kv => negb (fst kv =s name) || snd kv s) (Members x)
                = forallb (fun kv => negb (fst kv =s name) || snd kv s) (Members y)).
    { apply forallb_Forall2. eapply Forall2_impl; [exact Hm|]. intros p q [-> Ha]. by rewrite Ha. }
    destruct b1, b2; exact H.
  - cbn [hereditary] in Hh. apply andb_true_iff in Hh as [Hgs Hhs].
    assert (H : forallb (fun kv => contains known (fst kv) || snd kv s) (Members x)
                = forallb (fun kv => contains known (fst kv) || snd kv s) (Members y)).
    { apply forallb_Forall2. eapply Forall2_impl; [exact Hm|]. intros p q [-> Ha]. by rewrite Ha. }
    destruct b1, b2; exact H.
  - assert (Hg' : grounded resolve n s = true) by by destruct n. cbn [hereditary] in Hh.
    assert (H : on_members (Value x) (forallb (fun kv => check resolve b1 s (leaf (JString (fst kv)))))
                = on_members (Value y) (forallb (fun kv => check resolve b2 s (leaf (JString (fst kv)))))).
    { rewrite Hv. clear Hv Hm He Hxy. destruct (Value y); try done. cbn [on_members].
      induction members as [|kv m IHm]; [done|]. cbn [forallb]. f_equal; [|exact IHm].
      apply IH; auto using same_leaf. }
    destruct b1, b2; exact H.
  - cbn [hereditary] in Hh. apply andb_true_iff in Hh as [Hgs Hhs].
    assert (H : forallb (fun f => f s) (Elements x) = forallb (fun f => f s) (Elements y)).
    { apply forallb_Forall2. eapply Forall2_impl; [exact He|]. intros f g Hfg. by apply Hfg. }
    destruct b1, b2; exact H.
  - assert (Hg' : forallb (grounded resolve n) l = true) by by destruct n. cbn [hereditary] in Hh.
    assert (H : map (fun s' => check resolve b1 s' x) l = map (fun s' => check resolve b2 s' y) l).
    { clear Hg. induction l as [|s l IHl]; [done|]. cbn [forallb] in Hg', Hh.
      apply andb_true_iff in Hg' as [Hgs Hgl]. apply andb_true_iff in Hh as [Hhs Hhl].
      apply Forall_cons in IH as [IHs IHr]. cbn [map]. f_equal; auto. }
    destruct b1, b2; cbn [check]; cbn [check] in H; by rewrite H.
  - destruct s; try discriminate Hs; destruct b1, b2; cbn [check]; by rewrite ?Hv.
Qed.

(** A budget that grounds the schema is enough for every value. *)
Lemma valid_budget v : forall b s,
  (budget <= b)%nat -> grounded resolve budget s = true -> hereditary resolve budget s = true ->
  valid resolve b v s = valid resolve budget v s.
Proof.
  induction v as [|truth|text|text|l IH|m IH] using json_nested_ind; intros b s Hb Hg Hh; cbn [valid];
    apply (check_budget budget); try done; try apply same_leaf.
  - repeat split; [constructor|]. apply Forall2_fmap_2. cbn [Elements].
    induction IH as [|v l Hx _ IHl]; constructor; [|done]. intros s' Hg' Hh'. by apply Hx.
  - repeat split; [|constructor]. cbn [Members].
    induction IH as [|kv m Hx _ IHm]; constructor; [|done]. split; [done|]. intros s' Hg' Hh'. by apply Hx.
Qed.
End Budget.

(** ** Compiling a document *)

Section Collect.
Context {A B : Type} (f : A -> option B).
Definition collect : list A -> option (list B) :=
  fix go (l : list A) : option (list B) :=
    match l with
    | [] => Some []
    | x :: r => match f x, go r with Some y, Some ys => Some (y :: ys) | _, _ => None end
    end.
End Collect.

Definition both_all (l : list schema) : schema :=
  match l with [] => Anything | s :: r => fold_left Both r s end.

Definition type_of (v : json) : option jtype :=
  match v with
  | JString s =>
      if s =s "null" then Some TypeNull else if s =s "boolean" then Some TypeBoolean
      else if s =s "string" then Some TypeString else if s =s "integer" then Some TypeInteger
      else if s =s "number" then Some TypeNumber else if s =s "array" then Some TypeArray
      else if s =s "object" then Some TypeObject else None
  | _ => None
  end.

Definition text_of (v : json) : option string := match v with JString s => Some s | _ => None end.

(** The integer of a bound. *)
Definition bound_of (v : json) : option Z :=
  match v with
  | JNumber t =>
      let d := decimal_of t in
      if (0 <=? Exponent d) && (Exponent d <=? 18) then Some (Mantissa d * 10 ^ Exponent d) else None
  | _ => None
  end.

Definition bounded (v : json) (k : Z -> schema) : option schema :=
  match bound_of v with Some n => Some (k n) | None => None end.

(** A reference within the document starts with [#]. *)
Definition absolute (base url : string) : string :=
  if HasPrefix url "#" then base +:+ url else url.

Definition member_names (v : json) : list string :=
  match v with JObject m => map fst m | _ => [] end.

(** One keyword, given the schemas of its subschemas. *)
Definition keyword (base : string) (properties : list string) (k : string) (v : json)
  (sub : option schema) (subs : option (list schema)) (named : option (list (string * schema)))
  : option schema :=
  if contains ["$schema"; "$id"; "title"; "format"; "$defs"] k then Some Anything
  else if k =s "$ref" then match v with JString url => Some (Ref (absolute base url)) | _ => None end
  else if k =s "type" then
    match v with
    | JArray l => match collect type_of l with Some ts => Some (Type_ ts) | None => None end
    | _ => match type_of v with Some t => Some (Type_ [t]) | None => None end
    end
  else if k =s "const" then Some (Const v)
  else if k =s "enum" then match v with JArray l => Some (Enum l) | _ => None end
  else if k =s "required" then
    match v with JArray l => match collect text_of l with Some ks => Some (Required ks) | None => None end
            | _ => None end
  else if k =s "properties" then
    match named with Some l => Some (both_all (map (fun kv => Property (fst kv) (snd kv)) l)) | None => None end
  else if k =s "additionalProperties" then
    match sub with Some s => Some (Additional properties s) | None => None end
  else if k =s "propertyNames" then match sub with Some s => Some (PropertyNames s) | None => None end
  else if k =s "items" then match sub with Some s => Some (Items s) | None => None end
  else if k =s "oneOf" then match subs with Some l => Some (OneOf l) | None => None end
  else if k =s "pattern" then
    match v with
    | JString p => match Compile p with Some _ => Some (Pattern p) | None => None end
    | _ => None
    end
  else if k =s "minLength" then bounded v MinLength
  else if k =s "maxLength" then bounded v MaxLength
  else if k =s "minimum" then bounded v Minimum
  else if k =s "maximum" then bounded v Maximum
  else if k =s "minItems" then bounded v MinItems
  else if k =s "maxItems" then bounded v MaxItems
  else if k =s "uniqueItems" then
    match v with JBool true => Some UniqueItems | JBool false => Some Anything | _ => None end
  else None.

Fixpoint schema_of (base : string) (v : json) : option schema :=
  match v with
  | JBool true => Some Anything
  | JBool false => Some Never
  | JObject m =>
      let properties := match lookup_member m "properties" with Some p => member_names p | None => [] end in
      match collect
              (fun kv =>
                 let '(k, v') := kv in
                 keyword base properties k v' (schema_of base v')
                   (match v' with JArray l => collect (schema_of base) l | _ => None end)
                   (match v' with
                    | JObject m' =>
                        collect (fun kv' => let '(k', v'') := kv' in
                                            match schema_of base v'' with
                                            | Some s => Some (k', s)
                                            | None => None
                                            end) m'
                    | _ => None
                    end)) m with
      | Some l => Some (both_all l)
      | None => None
      end
  | _ => None
  end.

(** The schemas of a document by URL: the document itself, and its
    definitions. *)
Definition definitions_of (base : string) (m : list (string * json)) : option (list (string * schema)) :=
  match lookup_member m "$defs" with
  | None => Some []
  | Some (JObject defs) =>
      collect (fun kv => match schema_of base (snd kv) with
                         | Some s => Some (base +:+ "#/$defs/" +:+ fst kv, s)
                         | None => None
                         end) defs
  | Some _ => None
  end.

(** The identifier of a document has to be the URL it is added under. *)
Definition document_schemas (base : string) (v : json) : option (list (string * schema)) :=
  match v with
  | JObject m =>
      match lookup_member m "$id", schema_of base v, definitions_of base m with
      | Some (JString id), Some s, Some defs => if id =s base then Some ((base, s) :: defs) else None
      | _, _, _ => None
      end
  | _ => None
  end.

(** ** The reference engine *)

Definition standard_budget : nat := 40.

Definition resolve_in (schemas : list (string * schema)) (url : string) : option schema :=
  match find (fun kv => fst kv =s url) schemas with Some kv => Some (snd kv) | None => None end.

(** Every reference within reach resolves, within the budget. *)
Definition schemas_grounded (schemas : list (string * schema)) : bool :=
  forallb (fun kv => grounded (resolve_in schemas) standard_budget (snd kv)
                     && hereditary (resolve_in schemas) standard_budget (snd kv)) schemas.

Definition standard_AddResource (url : string) (v : json) (documents : list (string * json))
  : option (list (string * json)) :=
  if existsb (fun kv => fst kv =s url) documents then None else Some (documents ++ [(url, v)]).

Definition all_schemas (documents : list (string * json)) : option (list (string * schema)) :=
  match collect (fun kv => document_schemas (fst kv) (snd kv)) documents with
  | Some l => Some (concat l)
  | None => None
  end.

(** A compiled schema: its URL and the schemas it can refer to. *)
Definition standard_Compile (documents : list (string * json)) (url : string)
  : option (string * list (string * schema)) :=
  match all_schemas documents with
  | Some schemas =>
      if schemas_grounded schemas && existsb (fun kv => fst kv =s url) schemas
      then Some (url, schemas) else None
  | None => None
  end.

Definition standard_Validate (compiled : string * list (string * schema)) (v : json) : bool :=
  valid (resolve_in (snd compiled)) standard_budget v (Ref (fst compiled)).

Lemma schemas_grounded_resolve schemas url s :
  schemas_grounded schemas = true -> resolve_in schemas url = Some s ->
  grounded (resolve_in schemas) standard_budget s = true
  /\ hereditary (resolve_in schemas) standard_budget s = true.
Proof.
  unfold schemas_grounded, resolve_in at 3. rewrite forallb_forall. intros Hg.
  destruct (find _ schemas) as [kv|] eqn:Hf; [|done]. intros [= <-].
  apply find_some in Hf as [Hin _]. apply Hg in Hin. by apply andb_true_iff.
Qed.

(** What a compiled schema accepts does not depend on the budget: any larger
    one gives the same answer. *)
Lemma standard_budget_enough schemas s v b :
  schemas_grounded schemas = true -> (standard_budget <= b)%nat ->
  grounded (resolve_in schemas) standard_budget s = true ->
  hereditary (resolve_in schemas) standard_budget s = true ->
  valid (resolve_in schemas) b v s = valid (resolve_in schemas) standard_budget v s.
Proof.
  intros Hs Hb. apply valid_budget; [|done]. intros url s' Hr. by eapply schemas_grounded_resolve.
Qed.
