(* ===== verification/Schemas.v ===== *)
(** * The embedded schemas ([schemas/])

    The five schemas that are compiled into the program, byte for byte (with
    ['] for the double quote).  They compile; the reference engine of
    [JsonSchema], put where [Embedded] has a parameter, gives [standard_schema_ok]. *)

From S2P Require Import Prelude GoStrings Model GoJson Contract GoRegexp JsonSchema Embedded.

(** [schemas/agent-runtime-expectation-1.0.schema.json]. *)
Definition expectation_text : string := Embedded.quoted
"{
  '$schema': 'https://json-schema.org/draft/2020-12/schema',
  '$id': 'https://agent-runtime-proof.dev/schemas/agent-runtime-expectation-1.0.schema.json',
  'title': 'Agent Runtime Expectation 1.0',
  'type': 'object',
  'additionalProperties': false,
  'required': ['schema_version', 'subject', 'launch', 'artifact', 'policy', 'source'],
  'properties': {
    'schema_version': {'const': 'agent-runtime-expectation/1.0'},
    'subject': {'$ref': '#/$defs/subject'},
    'launch': {'$ref': '#/$defs/launch'},
    'artifact': {'$ref': '#/$defs/artifact'},
    'policy': {'$ref': '#/$defs/policy'},
    'source': {'$ref': '#/$defs/source'},
    'extensions': {'$ref': '#/$defs/extensions'}
  },
  '$defs': {
    'sha256': {'type': 'string', 'pattern': '^[a-f0-9]{64}$'},
    'subject': {
      'type': 'object',
      'additionalProperties': false,
      'required': ['id', 'display_name', 'version'],
      'properties': {
        'id': {'type': 'string', 'pattern': '^[A-Za-z0-9][A-Za-z0-9._-]{0,127}$'},
        'display_name': {'type': 'string', 'minLength': 1, 'maxLength': 128},
        'version': {'type': 'string', 'minLength': 1, 'maxLength': 64}
      }
    },
    'launch': {
      'type': 'object',
      'additionalProperties': false,
      'required': ['kind', 'entrypoint', 'argument_fingerprints'],
      'properties': {
        'kind': {'enum': ['native', 'interpreter-script', 'declared-tree']},
        'entrypoint': {'type': 'string', 'minLength': 1, 'maxLength': 1024},
        'argument_fingerprints': {
          'type': 'array',
          'maxItems': 32,
          'items': {
            'type': 'object',
            'additionalProperties': false,
            'required': ['position', 'sha256'],
            'properties': {
              'position': {'type': 'integer', 'minimum': 0, 'maximum': 255},
              'sha256': {'$ref': '#/$defs/sha256'}
            }
          }
        }
      }
    },
    'artifact': {
      'type': 'object',
      'additionalProperties': false,
      'required': ['root', 'include', 'exclude', 'sha256', 'max_files', 'max_bytes', 'max_duration_ms'],
      'properties': {
        'root': {'type': 'string', 'minLength': 1, 'maxLength': 4096},
        'include': {'type': 'array', 'minItems': 1, 'uniqueItems': true, 'items': {'type': 'string', 'minLength': 1, 'maxLength': 1024}},
        'exclude': {'type': 'array', 'uniqueItems': true, 'items': {'type': 'string', 'minLength': 1, 'maxLength': 1024}},
        'sha256': {'$ref': '#/$defs/sha256'},
        'max_files': {'type': 'integer', 'minimum': 1, 'maximum': 1000000},
        'max_bytes': {'type': 'integer', 'minimum': 1, 'maximum': 1099511627776},
        'max_duration_ms': {'type': 'integer', 'minimum': 1, 'maximum': 3600000}
      }
    },
    'policy': {
      'type': 'object',
      'additionalProperties': false,
      'required': ['allowed_roots', 'allow_symlinks'],
      'properties': {
        'allowed_roots': {'type': 'array', 'minItems': 1, 'uniqueItems': true, 'items': {'type': 'string', 'minLength': 1, 'maxLength': 4096}},
        'allow_symlinks': {'const': false}
      }
    },
    'source': {
      'type': 'object',
      'additionalProperties': false,
      'required': ['kind', 'locator_hash', 'trust'],
      'properties': {
        'kind': {'enum': ['release-manifest', 'installed-record', 'user-file', 'host-config']},
        'locator_hash': {'$ref': '#/$defs/sha256'},
        'trust': {'enum': ['verified', 'declared', 'untrusted']}
      }
    },
    'extensions': {
      'type': 'object',
      'propertyNames': {'pattern': '^[a-z0-9]+(?:[.-][a-z0-9]+)+$'},
      'additionalProperties': {'$ref': '#/$defs/extensionValue'}
    },
    'extensionValue': {
      'oneOf': [
        {'type': 'null'},
        {'type': 'boolean'},
        {'type': 'string'},
        {'type': 'integer', 'minimum': -9007199254740991, 'maximum': 9007199254740991},
        {'type': 'array', 'items': {'$ref': '#/$defs/extensionValue'}},
        {'type': 'object', 'additionalProperties': {'$ref': '#/$defs/extensionValue'}}
      ]
    }
  }
}
".

(** [schemas/agent-runtime-host-profile-1.0.schema.json]. *)
Definition host_profile_text : string := Embedded.quoted
"{
  '$schema': 'https://json-schema.org/draft/2020-12/schema',
  '$id': 'https://agent-runtime-proof.dev/schemas/agent-runtime-host-profile-1.0.schema.json',
  'title': 'Agent Runtime Host Profile 1.0',
  'type': 'object',
  'additionalProperties': false,
  'required': ['schema_version', 'host_id', 'display_name', 'fixture_version', 'platforms', 'process_matchers', 'config_sources'],
  'properties': {
    'schema_version': {'const': 'agent-runtime-host-profile/1.0'},
    'host_id': {'type': 'string', 'pattern': '^[a-z0-9][a-z0-9-]{0,63}$'},
    'display_name': {'type': 'string', 'minLength': 1, 'maxLength': 128},
    'fixture_version': {'type': 'string', 'pattern': '^[1-9][0-9]{0,8}$'},
    'platforms': {
      'type': 'array', 'minItems': 1, 'maxItems': 3, 'uniqueItems': true,
      'items': {'enum': ['darwin', 'windows', 'linux']}
    },
    'process_matchers': {
      'type': 'array', 'maxItems': 16,
      'items': {'$ref': '#/$defs/processMatcher'}
    },
    'config_sources': {
      'type': 'array', 'maxItems': 16,
      'items': {'$ref': '#/$defs/configSource'}
    }
  },
  '$defs': {
    'safeName': {'type': 'string', 'pattern': '^[A-Za-z0-9][A-Za-z0-9._-]{0,127}$'},
    'processMatcher': {
      'type': 'object', 'additionalProperties': false,
      'required': ['basenames'],
      'properties': {
        'basenames': {'type': 'array', 'minItems': 1, 'maxItems': 32, 'uniqueItems': true, 'items': {'type': 'string', 'minLength': 1, 'maxLength': 128, 'pattern': '^[^/]+$'}},
        'bundle_ids': {'type': 'array', 'maxItems': 16, 'uniqueItems': true, 'items': {'$ref': '#/$defs/safeName'}},
        'publisher_names': {'type': 'array', 'maxItems': 16, 'uniqueItems': true, 'items': {'type': 'string', 'minLength': 1, 'maxLength': 128}}
      }
    },
    'configSource': {
      'type': 'object', 'additionalProperties': false,
      'required': ['source_id', 'platforms', 'candidate_paths', 'format', 'dialect', 'maximum_bytes', 'secret_fields'],
      'properties': {
        'source_id': {'$ref': '#/$defs/safeName'},
        'platforms': {'type': 'array', 'minItems': 1, 'maxItems': 3, 'uniqueItems': true, 'items': {'enum': ['darwin', 'windows', 'linux']}},
        'candidate_paths': {'type': 'array', 'minItems': 1, 'maxItems': 16, 'uniqueItems': true, 'items': {'type': 'string', 'minLength': 1, 'maxLength': 512}},
        'format': {'enum': ['json', 'jsonc', 'toml', 'yaml']},
        'dialect': {'enum': ['mcp-servers', 'vscode-servers', 'opencode-v2', 'codex-toml', 'dsh-cordis', 'generic-only']},
        'maximum_bytes': {'type': 'integer', 'minimum': 1, 'maximum': 1048576},
        'secret_fields': {'type': 'array', 'maxItems': 32, 'uniqueItems': true, 'items': {'$ref': '#/$defs/safeName'}}
      }
    }
  }
}
".

(** [schemas/agent-runtime-launch-receipt-1.0.schema.json]. *)
Definition receipt_text : string := Embedded.quoted
"{
  '$schema': 'https://json-schema.org/draft/2020-12/schema',
  '$id': 'https://agent-runtime-proof.dev/schemas/agent-runtime-launch-receipt-1.0.schema.json',
  'title': 'Agent Runtime Launch Receipt 1.0',
  'type': 'object',
  'additionalProperties': false,
  'required': ['schema_version', 'receipt_id', 'created_at', 'tool', 'platform', 'subject', 'process', 'command', 'expectation', 'artifact', 'observation_only', 'reason_codes', 'privacy'],
  'properties': {
    'schema_version': {'const': 'agent-runtime-launch-receipt/1.0'},
    'receipt_id': {'$ref': '#/$defs/prefixedSha256'},
    'created_at': {'type': 'string', 'format': 'date-time'},
    'tool': {'$ref': '#/$defs/tool'},
    'platform': {'$ref': '#/$defs/platform'},
    'subject': {'oneOf': [{'type': 'null'}, {'$ref': '#/$defs/subject'}]},
    'process': {'$ref': '#/$defs/process'},
    'command': {'$ref': '#/$defs/command'},
    'expectation': {'oneOf': [{'type': 'null'}, {'$ref': '#/$defs/expectation'}]},
    'artifact': {'oneOf': [{'type': 'null'}, {'$ref': '#/$defs/artifact'}]},
    'observation_only': {'type': 'boolean'},
    'reason_codes': {'type': 'array', 'maxItems': 1, 'uniqueItems': true, 'items': {'const': 'WITNESS_EXPECTATION_MISSING'}},
    'privacy': {'$ref': '#/$defs/privacy'}
  },
  '$defs': {
    'sha256': {'type': 'string', 'pattern': '^[a-f0-9]{64}$'},
    'prefixedSha256': {'type': 'string', 'pattern': '^sha256:[a-f0-9]{64}$'},
    'tool': {
      'type': 'object', 'additionalProperties': false,
      'required': ['name', 'version', 'commit', 'toolchain'],
      'properties': {
        'name': {'const': 'agent-runtime-proof'},
        'version': {'type': 'string', 'minLength': 1, 'maxLength': 64},
        'commit': {'type': 'string', 'pattern': '^[A-Za-z0-9._-]{1,128}$'},
        'toolchain': {'type': 'string', 'pattern': '^go[0-9]+\\.[0-9]+(?:\\.[0-9]+)?(?:[A-Za-z0-9._-]*)$'}
      }
    },
    'platform': {
      'type': 'object', 'additionalProperties': false,
      'required': ['os', 'arch'],
      'properties': {'os': {'enum': ['darwin', 'windows', 'linux']}, 'arch': {'enum': ['amd64', 'arm64']}}
    },
    'subject': {
      'type': 'object', 'additionalProperties': false,
      'required': ['id', 'display_name', 'version'],
      'properties': {
        'id': {'type': 'string', 'pattern': '^[A-Za-z0-9][A-Za-z0-9._-]{0,127}$'},
        'display_name': {'type': 'string', 'minLength': 1, 'maxLength': 128},
        'version': {'type': 'string', 'minLength': 1, 'maxLength': 64}
      }
    },
    'process': {
      'type': 'object', 'additionalProperties': false,
      'required': ['pid', 'created_at_unix_nano', 'boot_id_hash'],
      'properties': {
        'pid': {'type': 'integer', 'minimum': 1, 'maximum': 4294967295},
        'created_at_unix_nano': {'type': 'string', 'pattern': '^[1-9][0-9]{0,19}$'},
        'boot_id_hash': {'$ref': '#/$defs/prefixedSha256'}
      }
    },
    'argumentFingerprint': {
      'type': 'object', 'additionalProperties': false,
      'required': ['position', 'sha256'],
      'properties': {'position': {'type': 'integer', 'minimum': 1, 'maximum': 255}, 'sha256': {'$ref': '#/$defs/prefixedSha256'}}
    },
    'command': {
      'type': 'object', 'additionalProperties': false,
      'required': ['executable_basename', 'executable_path_hash', 'argument_fingerprints'],
      'properties': {
        'executable_basename': {'type': 'string', 'minLength': 1, 'maxLength': 255, 'pattern': '^[^/\\\\]+$'},
        'executable_path_hash': {'$ref': '#/$defs/prefixedSha256'},
        'argument_fingerprints': {'type': 'array', 'maxItems': 255, 'items': {'$ref': '#/$defs/argumentFingerprint'}}
      }
    },
    'expectation': {
      'type': 'object', 'additionalProperties': false,
      'required': ['source_kind', 'source_locator_hash', 'trust', 'expected_version', 'expected_artifact_sha256'],
      'properties': {
        'source_kind': {'enum': ['release-manifest', 'installed-record', 'user-file', 'host-config']},
        'source_locator_hash': {'$ref': '#/$defs/sha256'},
        'trust': {'enum': ['verified', 'declared', 'untrusted']},
        'expected_version': {'type': 'string', 'minLength': 1, 'maxLength': 64},
        'expected_artifact_sha256': {'$ref': '#/$defs/sha256'}
      }
    },
    'artifact': {
      'type': 'object', 'additionalProperties': false,
      'required': ['sha256', 'file_count', 'byte_count', 'duration_ms'],
      'properties': {
        'sha256': {'$ref': '#/$defs/sha256'},
        'file_count': {'type': 'integer', 'minimum': 1, 'maximum': 1000000},
        'byte_count': {'type': 'integer', 'minimum': 0, 'maximum': 1099511627776},
        'duration_ms': {'type': 'integer', 'minimum': 0, 'maximum': 3600000}
      }
    },
    'privacy': {
      'type': 'object', 'additionalProperties': false,
      'required': ['redaction_mode', 'home_redacted', 'omitted_fields'],
      'properties': {
        'redaction_mode': {'const': 'safe-default'},
        'home_redacted': {'const': true},
        'omitted_fields': {'type': 'array', 'uniqueItems': true, 'items': {'enum': ['command.argv', 'process.environment', 'process.command_line', 'filesystem.paths']}}
      }
    }
  }
}
".

(** [schemas/agent-runtime-proof-1.0.schema.json]. *)
Definition proof_text : string := Embedded.quoted
"{
  '$schema': 'https://json-schema.org/draft/2020-12/schema',
  '$id': 'https://agent-runtime-proof.dev/schemas/agent-runtime-proof-1.0.schema.json',
  'title': 'Agent Runtime Proof 1.0',
  'type': 'object',
  'additionalProperties': false,
  'required': ['schema_version', 'proof_id', 'observed_at', 'tool', 'platform', 'subject', 'expectation', 'observation', 'host_attribution', 'verdict', 'proof_level', 'reason_codes', 'evidence', 'privacy', 'limitations'],
  'properties': {
    'schema_version': {'const': 'agent-runtime-proof/1.0'},
    'proof_id': {'$ref': '#/$defs/prefixedSha256'},
    'observed_at': {'type': 'string', 'format': 'date-time'},
    'tool': {'$ref': '#/$defs/tool'},
    'platform': {'$ref': '#/$defs/platform'},
    'subject': {'$ref': '#/$defs/subject'},
    'expectation': {'oneOf': [{'$ref': '#/$defs/expectationProjection'}, {'type': 'null'}]},
    'observation': {'$ref': '#/$defs/observation'},
    'host_attribution': {'oneOf': [{'$ref': '#/$defs/hostAttribution'}, {'type': 'null'}]},
    'verdict': {'$ref': '#/$defs/verdict'},
    'proof_level': {'$ref': '#/$defs/proofLevel'},
    'reason_codes': {'type': 'array', 'minItems': 1, 'uniqueItems': true, 'items': {'$ref': '#/$defs/reasonCode'}},
    'evidence': {'type': 'array', 'items': {'$ref': '#/$defs/evidenceItem'}},
    'privacy': {'$ref': '#/$defs/privacy'},
    'limitations': {'type': 'array', 'uniqueItems': true, 'items': {'$ref': '#/$defs/reasonCode'}},
    'extensions': {'$ref': '#/$defs/extensions'}
  },
  '$defs': {
    'sha256': {'type': 'string', 'pattern': '^[a-f0-9]{64}$'},
    'prefixedSha256': {'type': 'string', 'pattern': '^sha256:[a-f0-9]{64}$'},
    'verdict': {'enum': ['MATCHED', 'STALE', 'LEAKED', 'CONFLICT', 'NOT_RUNNING', 'UNKNOWN']},
    'proofLevel': {'enum': ['PROCESS_OBSERVED', 'CONFIG_BOUND', 'ARTIFACT_OBSERVED', 'LAUNCH_WITNESSED']},
    'reasonCode': {'enum': ['MATCH_CONFIRMED', 'PROCESS_NOT_FOUND', 'PROCESS_IDENTITY_CHANGED', 'PROCESS_INACCESSIBLE', 'EXPECTATION_MISSING', 'EXPECTATION_INVALID', 'EXPECTATION_UNTRUSTED', 'EXPECTATION_AMBIGUOUS', 'ARTIFACT_MISMATCH', 'ARTIFACT_VERSION_MISMATCH', 'ARTIFACT_CHANGED_DURING_READ', 'ARTIFACT_SCAN_LIMIT_EXCEEDED', 'ARTIFACT_INACCESSIBLE', 'ARTIFACT_PATH_ESCAPE', 'ARTIFACT_SYMLINK_REJECTED', 'ARTIFACT_NORMALIZATION_COLLISION', 'ARTIFACT_UNSUPPORTED_TYPE', 'POSSIBLE_STALE_AFTER_REPLACEMENT', 'STALE_WITNESS_RECEIPT', 'RUNTIME_OUTSIDE_ALLOWED_ROOT', 'MULTIPLE_ACTIVE_DIGESTS', 'HOST_BINDING_AMBIGUOUS', 'HOST_CONFIG_INACCESSIBLE', 'HOST_CONFIG_INVALID', 'WITNESS_EXPECTATION_MISSING', 'DYNAMIC_DEPENDENCIES_UNPROVEN', 'PLATFORM_EVIDENCE_UNAVAILABLE', 'SCAN_CANCELLED']},
    'tool': {
      'type': 'object',
      'additionalProperties': false,
      'required': ['name', 'version', 'commit', 'toolchain'],
      'properties': {
        'name': {'const': 'agent-runtime-proof'},
        'version': {'type': 'string', 'minLength': 1, 'maxLength': 64},
        'commit': {'type': 'string', 'pattern': '^[a-f0-9]{7,64}$'},
        'toolchain': {'type': 'string', 'pattern': '^go[0-9]+\\.[0-9]+(?:\\.[0-9]+)?$'}
      }
    },
    'platform': {
      'type': 'object',
      'additionalProperties': false,
      'required': ['os', 'arch'],
      'properties': {
        'os': {'enum': ['darwin', 'windows', 'linux']},
        'arch': {'enum': ['amd64', 'arm64']}
      }
    },
    'subject': {
      'type': 'object',
      'additionalProperties': false,
      'required': ['id', 'display_name', 'version'],
      'properties': {
        'id': {'type': 'string', 'pattern': '^[A-Za-z0-9][A-Za-z0-9._-]{0,127}$'},
        'display_name': {'type': 'string', 'minLength': 1, 'maxLength': 128},
        'version': {'type': 'string', 'minLength': 1, 'maxLength': 64}
      }
    },
    'expectationProjection': {
      'type': 'object',
      'additionalProperties': false,
      'required': ['source_kind', 'source_locator_hash', 'trust', 'expected_version', 'expected_artifact_sha256'],
      'properties': {
        'source_kind': {'enum': ['release-manifest', 'installed-record', 'user-file', 'host-config']},
        'source_locator_hash': {'$ref': '#/$defs/sha256'},
        'trust': {'enum': ['verified', 'declared', 'untrusted']},
        'expected_version': {'type': 'string', 'minLength': 1, 'maxLength': 64},
        'expected_artifact_sha256': {'$ref': '#/$defs/sha256'}
      }
    },
    'processIdentity': {
      'type': 'object',
      'additionalProperties': false,
      'required': ['pid', 'created_at_unix_nano', 'boot_id_hash'],
      'properties': {
        'pid': {'type': 'integer', 'minimum': 1},
        'created_at_unix_nano': {'type': 'string', 'pattern': '^(0|[1-9][0-9]{0,19})$'},
        'boot_id_hash': {'$ref': '#/$defs/prefixedSha256'}
      }
    },
    'observation': {
      'type': 'object',
      'additionalProperties': false,
      'required': ['process', 'executable', 'artifact', 'inaccessible_fields'],
      'properties': {
        'process': {'oneOf': [{'$ref': '#/$defs/processIdentity'}, {'type': 'null'}]},
        'executable': {'oneOf': [{'$ref': '#/$defs/executableObservation'}, {'type': 'null'}]},
        'artifact': {
          'type': ['object', 'null'],
          'additionalProperties': false,
          'required': ['sha256', 'file_count', 'byte_count', 'duration_ms'],
          'properties': {
            'sha256': {'$ref': '#/$defs/sha256'},
            'file_count': {'type': 'integer', 'minimum': 0},
            'byte_count': {'type': 'integer', 'minimum': 0},
            'duration_ms': {'type': 'integer', 'minimum': 0}
          }
        },
        'inaccessible_fields': {'type': 'array', 'uniqueItems': true, 'items': {'type': 'string', 'pattern': '^[a-z][a-z0-9_.-]{0,127}$'}}
      }
    },
    'executableObservation': {
      'type': 'object',
      'additionalProperties': false,
      'required': ['basename', 'path_hash'],
      'properties': {
        'basename': {'type': 'string', 'minLength': 1, 'maxLength': 255},
        'path_hash': {'$ref': '#/$defs/prefixedSha256'},
        'file_id_hash': {'$ref': '#/$defs/prefixedSha256'}
      }
    },
    'hostAttribution': {
      'type': 'object',
      'additionalProperties': false,
      'required': ['host_id', 'config_source_hash', 'confidence'],
      'properties': {
        'host_id': {'type': 'string', 'pattern': '^[A-Za-z0-9][A-Za-z0-9._-]{0,127}$'},
        'binding_id': {'type': 'string', 'pattern': '^[A-Za-z0-9][A-Za-z0-9._-]{0,127}$'},
        'config_source_hash': {'$ref': '#/$defs/prefixedSha256'},
        'confidence': {'enum': ['hint', 'correlated', 'bound']}
      }
    },
    'evidenceItem': {
      'type': 'object',
      'additionalProperties': false,
      'required': ['type', 'observed_at'],
      'properties': {
        'type': {'enum': ['process_identity', 'config_binding', 'artifact_digest', 'witness_receipt']},
        'digest': {'$ref': '#/$defs/prefixedSha256'},
        'observed_at': {'type': 'string', 'format': 'date-time'}
      }
    },
    'privacy': {
      'type': 'object',
      'additionalProperties': false,
      'required': ['redaction_mode', 'home_redacted', 'omitted_fields'],
      'properties': {
        'redaction_mode': {'const': 'safe-default'},
        'home_redacted': {'const': true},
        'omitted_fields': {'type': 'array', 'uniqueItems': true, 'items': {'type': 'string', 'pattern': '^[a-z][a-z0-9_.-]{0,127}$'}}
      }
    },
    'extensions': {
      'type': 'object',
      'propertyNames': {'pattern': '^[a-z0-9]+(?:[.-][a-z0-9]+)+$'},
      'additionalProperties': {'$ref': '#/$defs/extensionValue'}
    },
    'extensionValue': {
      'oneOf': [
        {'type': 'null'},
        {'type': 'boolean'},
        {'type': 'string'},
        {'type': 'integer', 'minimum': -9007199254740991, 'maximum': 9007199254740991},
        {'type': 'array', 'items': {'$ref': '#/$defs/extensionValue'}},
        {'type': 'object', 'additionalProperties': {'$ref': '#/$defs/extensionValue'}}
      ]
    }
  }
}
".

(** [schemas/agent-runtime-fixture-1.0.schema.json]. *)
Definition fixture_text : string := Embedded.quoted
"{
  '$schema': 'https://json-schema.org/draft/2020-12/schema',
  '$id': 'https://agent-runtime-proof.dev/schemas/agent-runtime-fixture-1.0.schema.json',
  'title': 'Agent Runtime Cross-Platform Fixture 1.0',
  'type': 'object',
  'additionalProperties': false,
  'required': ['schema_version', 'fixture_id', 'platform', 'snapshot', 'expectation', 'expected'],
  'properties': {
    'schema_version': {'const': 'agent-runtime-fixture/1.0'},
    'fixture_id': {'type': 'string', 'pattern': '^[a-z0-9][a-z0-9._-]{0,127}$'},
    'platform': {'$ref': '#/$defs/platform'},
    'snapshot': {'$ref': '#/$defs/snapshot'},
    'expectation': {'$ref': 'https://agent-runtime-proof.dev/schemas/agent-runtime-expectation-1.0.schema.json'},
    'expected': {'$ref': '#/$defs/expected'},
    'extensions': {'$ref': '#/$defs/extensions'}
  },
  '$defs': {
    'prefixedSha256': {'type': 'string', 'pattern': '^sha256:[a-f0-9]{64}$'},
    'sha256': {'type': 'string', 'pattern': '^[a-f0-9]{64}$'},
    'platform': {
      'type': 'object',
      'additionalProperties': false,
      'required': ['os', 'arch'],
      'properties': {
        'os': {'enum': ['darwin', 'windows', 'linux']},
        'arch': {'enum': ['amd64', 'arm64']}
      }
    },
    'process': {
      'type': 'object',
      'additionalProperties': false,
      'required': ['pid', 'created_at_unix_nano', 'boot_id_hash', 'state'],
      'properties': {
        'pid': {'type': 'integer', 'minimum': 1},
        'created_at_unix_nano': {'type': 'string', 'pattern': '^(0|[1-9][0-9]{0,19})$'},
        'boot_id_hash': {'$ref': '#/$defs/prefixedSha256'},
        'parent_pid': {'type': 'integer', 'minimum': 1},
        'state': {'enum': ['running', 'exited']}
      }
    },
    'executable': {
      'type': 'object',
      'additionalProperties': false,
      'required': ['basename', 'path_projection', 'path_hash', 'image_access'],
      'properties': {
        'basename': {'type': 'string', 'minLength': 1, 'maxLength': 255},
        'path_projection': {'type': 'string', 'pattern': '^(\\$HOME|%USERPROFILE%|/fixture)(/[^/]+)*$', 'maxLength': 4096},
        'path_hash': {'$ref': '#/$defs/prefixedSha256'},
        'file_id_hash': {'$ref': '#/$defs/prefixedSha256'},
        'image_access': {'enum': ['observed', 'denied']}
      }
    },
    'artifact': {
      'type': 'object',
      'additionalProperties': false,
      'required': ['status', 'sha256', 'file_count', 'byte_count'],
      'properties': {
        'status': {'enum': ['observed', 'inaccessible', 'deleted']},
        'sha256': {'oneOf': [{'$ref': '#/$defs/sha256'}, {'type': 'null'}]},
        'prior_sha256': {'$ref': '#/$defs/sha256'},
        'file_count': {'type': 'integer', 'minimum': 0},
        'byte_count': {'type': 'integer', 'minimum': 0}
      }
    },
    'hostBinding': {
      'type': 'object',
      'additionalProperties': false,
      'required': ['host_id', 'config_source_hash', 'confidence'],
      'properties': {
        'host_id': {'type': 'string', 'pattern': '^[A-Za-z0-9][A-Za-z0-9._-]{0,127}$'},
        'config_source_hash': {'$ref': '#/$defs/prefixedSha256'},
        'confidence': {'enum': ['hint', 'correlated', 'bound']}
      }
    },
    'snapshot': {
      'type': 'object',
      'additionalProperties': false,
      'required': ['process', 'executable', 'artifact', 'denied_fields'],
      'properties': {
        'process': {'$ref': '#/$defs/process'},
        'executable': {'$ref': '#/$defs/executable'},
        'artifact': {'$ref': '#/$defs/artifact'},
        'denied_fields': {'type': 'array', 'uniqueItems': true, 'items': {'type': 'string', 'pattern': '^[a-z][a-z0-9_.-]{0,127}$'}},
        'host_binding': {'$ref': '#/$defs/hostBinding'}
      }
    },
    'expected': {
      'type': 'object',
      'additionalProperties': false,
      'required': ['verdict', 'proof_level', 'reason_codes'],
      'properties': {
        'verdict': {'$ref': 'https://agent-runtime-proof.dev/schemas/agent-runtime-proof-1.0.schema.json#/$defs/verdict'},
        'proof_level': {'$ref': 'https://agent-runtime-proof.dev/schemas/agent-runtime-proof-1.0.schema.json#/$defs/proofLevel'},
        'reason_codes': {'type': 'array', 'minItems': 1, 'uniqueItems': true, 'items': {'$ref': 'https://agent-runtime-proof.dev/schemas/agent-runtime-proof-1.0.schema.json#/$defs/reasonCode'}}
      }
    },
    'extensions': {
      'type': 'object',
      'propertyNames': {'pattern': '^[a-z0-9]+(?:[.-][a-z0-9]+)+$'},
      'additionalProperties': {'$ref': '#/$defs/extensionValue'}
    },
    'extensionValue': {
      'oneOf': [
        {'type': 'null'},
        {'type': 'boolean'},
        {'type': 'string'},
        {'type': 'integer', 'minimum': -9007199254740991, 'maximum': 9007199254740991},
        {'type': 'array', 'items': {'$ref': '#/$defs/extensionValue'}},
        {'type': 'object', 'additionalProperties': {'$ref': '#/$defs/extensionValue'}}
      ]
    }
  }
}
".

(** ** The embedded files *)

Definition schema_file (name : string) : option string :=
  assoc [(expectation_schema, expectation_text); (host_profile_schema, host_profile_text);
         (receipt_schema, receipt_text); (proof_schema, proof_text);
         ("agent-runtime-fixture-1.0.schema.json", fixture_text)] name.

Definition registry_file (name : string) : option string :=
  if name =s "decision-registry.json" then Some decision_registry else None.

(** [compileSchemas] with the reference engine. *)
Definition standard_compiled :=
  compileSchemas [] standard_AddResource standard_Compile schema_file registry_file.

(** The schemas of all documents by URL, evaluated. *)
Definition embedded_schemas : list (string * schema) := Eval vm_compute in
  match collect (fun name => match schema_file name with
                             | Some text => match decodeOne text with
                                            | Ok v => document_schemas (schemaBaseURL +:+ name) v
                                            | Err _ => None
                                            end
                             | None => None
                             end) schema_names with
  | Some l => concat l
  | None => []
  end.

Definition embedded_set : list (string * (string * list (string * schema))) :=
  map (fun name => (name, (schemaBaseURL +:+ name, embedded_schemas))) schema_names.

Lemma embedded_schemas_compile : standard_compiled = Ok (embedded_set, decisions).
Proof. vm_compute. reflexivity. Qed.

Lemma embedded_schemas_grounded : schemas_grounded embedded_schemas = true.
Proof. vm_compute. reflexivity. Qed.

(** The validator of the program, with the reference engine. *)
Definition standard_schema_ok (name : string) (value : json) : bool :=
  match assoc embedded_set name with
  | Some compiled => standard_Validate compiled value
  | None => false
  end.

Lemma compiled_standard name value :
  compiled_schema_ok [] standard_AddResource standard_Compile standard_Validate schema_file registry_file name value
  = standard_schema_ok name value.
Proof.
  unfold compiled_schema_ok. pose proof embedded_schemas_compile as H. unfold standard_compiled in H.
  by rewrite H.
Qed.

Lemma assoc_embedded name compiled :
  assoc embedded_set name = Some compiled -> snd compiled = embedded_schemas.
Proof.
  unfold assoc, embedded_set. destruct (find _ _) as [kv|] eqn:Hf; [|done]. intros [= <-].
  apply find_some in Hf as [Hin _]. apply in_map_iff in Hin as (n & <- & _). reflexivity.
Qed.

(** A compiled schema is a reference to its own document, within the budget. *)
Lemma names_grounded :
  forallb (fun name => grounded (resolve_in embedded_schemas) standard_budget (Ref (schemaBaseURL +:+ name))
                       && match assoc embedded_set name with
                          | Some compiled => (fst compiled =s schemaBaseURL +:+ name) | None => false end)
    schema_names = true.
Proof. vm_compute. reflexivity. Qed.


