(* ===== verification/Conformance.v ===== *)
(** * What the schemas accept

    For each struct of the contract, its JSON form is valid under the embedded
    schema exactly if its fields satisfy a predicate ([tool_fits],
    [process_fits] ...); so the proof and the receipt schema say exactly
    [proof_fits] and [receipt_fits] of the values the program encodes. *)

From S2P Require Import Prelude GoStrings GoRegexp Model GoJson Canonical Contract RoundTrip Wire Protected Receipt JsonSchema Embedded Schemas.
From Stdlib Require Import Btauto.

(** ** The predicates *)

Definition text (least most : Z) (s : string) : bool :=
  (least <=? RuneCountInString s) && (RuneCountInString s <=? most).
Definition between (least most n : Z) : bool := (least <=? n) && (n <=? most).
Definition one_of (allowed : list string) (s : string) : bool := contains allowed s.

Definition sha256_text : string -> bool := MatchString "^[a-f0-9]{64}$".
Definition prefixed_text : string -> bool := MatchString "^sha256:[a-f0-9]{64}$".
Definition id_text : string -> bool := MatchString "^[A-Za-z0-9][A-Za-z0-9._-]{0,127}$".
Definition name_text : string -> bool := MatchString "^[a-z][a-z0-9_.-]{0,127}$".

(** A member that is left out if it is empty. *)
Definition or_empty (f : string -> bool) (s : string) : bool := (s =s EmptyString) || f s.
(** A pointer that may be nil. *)
Definition if_present {A} (f : A -> bool) (o : option A) : bool :=
  match o with Some a => f a | None => true end.

Fixpoint distinct (l : list string) : bool :=
  match l with [] => true | x :: r => negb (contains r x) && distinct r end.

Definition source_kinds : list string := ["release-manifest"; "installed-record"; "user-file"; "host-config"].
Definition trusts : list string := ["verified"; "declared"; "untrusted"].

Definition platform_fits (p : Platform) : bool :=
  one_of ["darwin"; "windows"; "linux"] (OS p) && one_of ["amd64"; "arm64"] (Arch p).

Definition subject_fits (s : Subject) : bool :=
  id_text (Subj_ID s) && text 1 128 (DisplayName s) && text 1 64 (Subj_Version s).

Definition projection_fits (e : ExpectationProjection) : bool :=
  one_of source_kinds (SourceKind e) && sha256_text (SourceLocatorHash e) && one_of trusts (Proj_Trust e)
  && text 1 64 (ExpectedVersion e) && sha256_text (ExpectedArtifactSHA256 e).

Definition tool_fits (t : ToolInfo) : bool :=
  ("agent-runtime-proof" =s Tool_Name t) && text 1 64 (Tool_Version t)
  && MatchString "^[a-f0-9]{7,64}$" (Tool_Commit t)
  && MatchString "^go[0-9]+\.[0-9]+(?:\.[0-9]+)?$" (Toolchain t).

Definition process_fits (p : ProcessIdentity) : bool :=
  (1 <=? PID p) && MatchString "^(0|[1-9][0-9]{0,19})$" (CreatedAtUnixNano p) && prefixed_text (BootIDHash p).

Definition executable_fits (e : ExecutableObservation) : bool :=
  text 1 255 (Basename e) && prefixed_text (PathHash e) && or_empty prefixed_text (FileIDHash e).

Definition artifact_fits (a : ArtifactObservation) : bool :=
  sha256_text (Obs_SHA256 a) && (0 <=? FileCount a) && (0 <=? ByteCount a) && (0 <=? DurationMS a).

Definition observation_fits (o : Observation) : bool :=
  if_present process_fits (Obs_Process o) && if_present executable_fits (Obs_Executable o)
  && if_present artifact_fits (Obs_Artifact o)
  && (distinct (InaccessibleFields o) && forallb name_text (InaccessibleFields o)).

Definition attribution_fits (h : HostAttribution) : bool :=
  id_text (Attr_HostID h) && or_empty id_text (Attr_BindingID h) && prefixed_text (Attr_ConfigSourceHash h)
  && one_of ["hint"; "correlated"; "bound"] (Attr_Confidence h).

Definition evidence_fits (e : EvidenceItem) : bool :=
  one_of ["process_identity"; "config_binding"; "artifact_digest"; "witness_receipt"] (Ev_Type e)
  && or_empty prefixed_text (Ev_Digest e).

Definition privacy_fits (p : PrivacyProjection) : bool :=
  ("safe-default" =s RedactionMode p) && HomeRedacted p
  && (distinct (OmittedFields p) && forallb name_text (OmittedFields p)).

Definition verdicts : list string := ["MATCHED"; "STALE"; "LEAKED"; "CONFLICT"; "NOT_RUNNING"; "UNKNOWN"].
Definition registered_codes : list string := map Code (RegistryReasonCodes decisions).

(** A proof without extensions, which is what the program builds. *)
Definition proof_fits (p : Proof) : bool :=
  ("agent-runtime-proof/1.0" =s SchemaVersion p) && prefixed_text (ProofID p)
  && tool_fits (Tool p) && platform_fits (Proof_Platform p) && subject_fits (Proof_Subject p)
  && if_present projection_fits (Proof_Expectation p) && observation_fits (Proof_Observation p)
  && if_present attribution_fits (Proof_HostAttribution p)
  && one_of verdicts (Verdict p) && one_of (map fst (ProofLevels decisions)) (ProofLevel p)
  && ((1 <=? Z.of_nat (length (ReasonCodes p))) && distinct (ReasonCodes p)
      && forallb (one_of registered_codes) (ReasonCodes p))
  && forallb evidence_fits (Evidence p) && privacy_fits (Proof_Privacy p)
  && (distinct (Limitations p) && forallb (one_of registered_codes) (Limitations p)).

(** The receipt schema is a schema of its own: it takes more toolchains and
    commits, and bounds process identifiers and counts. *)
Definition receipt_tool_fits (t : ToolInfo) : bool :=
  ("agent-runtime-proof" =s Tool_Name t) && text 1 64 (Tool_Version t)
  && MatchString "^[A-Za-z0-9._-]{1,128}$" (Tool_Commit t)
  && MatchString "^go[0-9]+\.[0-9]+(?:\.[0-9]+)?(?:[A-Za-z0-9._-]*)$" (Toolchain t).

Definition receipt_process_fits (p : ProcessIdentity) : bool :=
  between 1 4294967295 (PID p) && MatchString "^[1-9][0-9]{0,19}$" (CreatedAtUnixNano p)
  && prefixed_text (BootIDHash p).

Definition fingerprint_fits (f : ArgumentFingerprint) : bool :=
  between 1 255 (Position f) && prefixed_text (FP_SHA256 f).

Definition basename_text (s : string) : bool := text 1 255 s && MatchString "^[^/\\]+$" s.

Definition command_fits (c : CommandObservation) : bool :=
  basename_text (ExecutableBasename c) && prefixed_text (ExecutablePathHash c)
  && ((Z.of_nat (length (Cmd_ArgumentFingerprints c)) <=? 255)
      && forallb fingerprint_fits (Cmd_ArgumentFingerprints c)).

Definition receipt_artifact_fits (a : ReceiptArtifact) : bool :=
  sha256_text (RA_SHA256 a) && between 1 1000000 (RA_FileCount a) && between 0 1099511627776 (RA_ByteCount a)
  && between 0 3600000 (RA_DurationMS a).

Definition omissible : list string :=
  ["command.argv"; "process.environment"; "process.command_line"; "filesystem.paths"].

Definition receipt_privacy_fits (p : PrivacyProjection) : bool :=
  ("safe-default" =s RedactionMode p) && HomeRedacted p
  && (distinct (OmittedFields p) && forallb (one_of omissible) (OmittedFields p)).

Definition missing_code (code : string) : bool := "WITNESS_EXPECTATION_MISSING" =s code.

Definition receipt_fits (r : LaunchReceipt) : bool :=
  ("agent-runtime-launch-receipt/1.0" =s R_SchemaVersion r) && prefixed_text (ReceiptID r)
  && receipt_tool_fits (R_Tool r) && platform_fits (R_Platform r)
  && if_present subject_fits (R_Subject r) && receipt_process_fits (R_Process r)
  && command_fits (R_Command r) && if_present projection_fits (R_Expectation r)
  && if_present receipt_artifact_fits (R_Artifact r)
  && ((Z.of_nat (length (R_ReasonCodes r)) <=? 1) && distinct (R_ReasonCodes r)
      && forallb missing_code (R_ReasonCodes r))
  && receipt_privacy_fits (R_Privacy r).

(** ** Validity of the pieces *)

Definition url (name definition : string) : string :=
  schemaBaseURL +:+ name +:+ (if definition =s EmptyString then EmptyString else "#/$defs/" +:+ definition).

(** Validity under the embedded schemas. *)
Definition ok (v : json) (s : schema) : bool := valid (resolve_in embedded_schemas) standard_budget v s.
Definition ok_proof (definition : string) (v : json) : bool := ok v (Ref (url proof_schema definition)).
Definition ok_receipt (definition : string) (v : json) : bool := ok v (Ref (url receipt_schema definition)).

Lemma same_value_string x y : same_value (JString x) (JString y) = (x =s y).
Proof. reflexivity. Qed.

Lemma same_value_true b : same_value (JBool true) (JBool b) = b.
Proof. by destruct b. Qed.

Lemma ok_both v a b : ok v (Both a b) = ok v a && ok v b.
Proof. by destruct v. Qed.

Lemma ok_type_array l : ok (JArray l) (Type_ [TypeArray]) = true.
Proof. done. Qed.

Lemma contains_eqb l x : contains l x = existsb (String.eqb x) l.
Proof. unfold contains. induction l as [|y l IH]; [done|]. cbn [existsb]. by rewrite String.eqb_sym, IH. Qed.

Lemma existsb_map {A B} (f : A -> B) (g : B -> bool) l : existsb g (map f l) = existsb (fun x => g (f x)) l.
Proof. induction l as [|x l IH]; [done|]. cbn [map existsb]. by rewrite IH. Qed.

Lemma unique_strs l : unique (map JString l) = distinct l.
Proof.
  induction l as [|x l IH]; [done|]. cbn [map unique distinct]. rewrite IH, existsb_map, contains_eqb.
  reflexivity.
Qed.

Lemma ok_strs_unique l : ok (strs l) UniqueItems = distinct l.
Proof. unfold ok, strs. cbn [valid check standard_budget Value on_items]. apply unique_strs. Qed.

(** A list of objects, kept from being evaluated. *)
Definition array_of {A} (f : A -> json) (l : list A) : json := JArray (map f l).

Lemma ok_items {A} (f : A -> json) l s : ok (JArray (map f l)) (Items s) = forallb (fun a => ok (f a) s) l.
Proof.
  unfold ok. cbn [valid check standard_budget Elements]. induction l as [|a l IH]; [done|]. cbn [map forallb].
  by rewrite IH.
Qed.

Lemma ok_min_items l n : ok (strs l) (MinItems n) = (n <=? Z.of_nat (length l)).
Proof. unfold ok, strs. cbn [valid check standard_budget Value on_items]. by rewrite length_map. Qed.
Lemma ok_max_items {A} (f : A -> json) l n : ok (JArray (map f l)) (MaxItems n) = (Z.of_nat (length l) <=? n).
Proof. unfold ok. cbn [valid check standard_budget Value on_items]. by rewrite length_map. Qed.

Lemma ok_enum values s : ok (JString s) (Enum (map JString values)) = one_of values s.
Proof.
  unfold ok. cbn [valid check standard_budget leaf Value]. rewrite existsb_map. unfold one_of, contains.
  induction values as [|v l IH]; [done|]. cbn [existsb]. by rewrite IH, same_value_string.
Qed.

Lemma ok_choice v a b : ok v (OneOf [a; b]) = xorb (ok v a) (ok v b).
Proof.
  assert (H : forall x, check (resolve_in embedded_schemas) standard_budget (OneOf [a; b]) x
                        = (count_true [check (resolve_in embedded_schemas) standard_budget a x;
                                       check (resolve_in embedded_schemas) standard_budget b x] =? 1)) by done.
  assert (Hc : forall p q, (count_true [p; q] =? 1) = xorb p q) by by intros [] [].
  destruct v; unfold ok; cbn [valid]; by rewrite H, Hc.
Qed.

(** A pointer is written as its value or [null]. *)
Lemma ok_nullable {A} (f : A -> json) (o : option A) s :
  (forall a, exists m, f a = JObject m) -> ok JNull s = false ->
  ok (nullable f o) (OneOf [s; Type_ [TypeNull]]) = if_present (fun a => ok (f a) s) o
  /\ ok (nullable f o) (OneOf [Type_ [TypeNull]; s]) = if_present (fun a => ok (f a) s) o.
Proof.
  intros Hf Hn. rewrite !ok_choice. destruct o as [a|]; cbn [nullable if_present].
  - destruct (Hf a) as [m Hm]. assert (Ho : ok (f a) (Type_ [TypeNull]) = false) by by rewrite Hm.
    rewrite Ho, xorb_false_r, xorb_false_l. done.
  - by rewrite Hn.
Qed.

Section Integers.
Variable n : Z.
Hypothesis Hn : in_int64 n.
Lemma int_is_integer : is_integer (decimal_of (FormatInt n)) = true.
Proof. by rewrite decimal_FormatInt. Qed.
Lemma int_at_least k : at_least (decimal_of (FormatInt n)) k = (k <=? n).
Proof. rewrite decimal_FormatInt by done. unfold at_least. cbn [Mantissa Exponent Z.leb Z.compare]. by rewrite Z.mul_1_r. Qed.
Lemma int_at_most k : at_most (decimal_of (FormatInt n)) k = (n <=? k).
Proof. rewrite decimal_FormatInt by done. unfold at_most. cbn [Mantissa Exponent Z.leb Z.compare]. by rewrite Z.mul_1_r. Qed.
End Integers.

(** ** The proof schema

    [crunch] evaluates a schema on the JSON form of a struct, as far as its
    fields. *)

Ltac crunch :=
  cbn -[MatchString RuneCountInString same_value nullable strs decimal_of at_least at_most is_integer FormatInt
        platform_fits subject_fits projection_fits tool_fits process_fits executable_fits artifact_fits
        observation_fits attribution_fits evidence_fits privacy_fits proof_fits
        Platform_json Subject_json ExpectationProjection_json ToolInfo_json ProcessIdentity_json
        ExecutableObservation_json ArtifactObservation_json Observation_json HostAttribution_json
        EvidenceItem_json PrivacyProjection_json array_of missing_code
        receipt_tool_fits receipt_process_fits fingerprint_fits command_fits receipt_artifact_fits
        receipt_privacy_fits receipt_fits ArgumentFingerprint_json CommandObservation_json ReceiptArtifact_json];
  rewrite ?same_value_string, ?same_value_true.

(** Disjunctions stay what they are. *)
Ltac hide_or :=
  repeat match goal with
  | |- context [orb ?a ?b] => let x := fresh "x" in set (x := orb a b); clearbody x
  end.

Ltac fits f := unfold f, or_empty, one_of, contains, text, between, sha256_text, prefixed_text, id_text, name_text; cbn [existsb source_kinds trusts orb]; hide_or; btauto.

Lemma tool_ok t : ok_proof "tool" (ToolInfo_json t) = tool_fits t.
Proof. unfold ToolInfo_json. crunch. fits tool_fits. Qed.

Lemma platform_ok p : ok_proof "platform" (Platform_json p) = platform_fits p.
Proof. unfold Platform_json. crunch. fits platform_fits. Qed.

Lemma subject_ok s : ok_proof "subject" (Subject_json s) = subject_fits s.
Proof. unfold Subject_json. crunch. fits subject_fits. Qed.

Lemma projection_ok e : ok_proof "expectationProjection" (ExpectationProjection_json e) = projection_fits e.
Proof. unfold ExpectationProjection_json. crunch. fits projection_fits. Qed.

Lemma process_ok p : in_int64 (PID p) -> ok_proof "processIdentity" (ProcessIdentity_json p) = process_fits p.
Proof.
  intros Hn. unfold ProcessIdentity_json, ints. crunch.
  rewrite int_is_integer, int_at_least by done. fits process_fits.
Qed.

Lemma executable_ok e : ok_proof "executableObservation" (ExecutableObservation_json e) = executable_fits e.
Proof.
  unfold ExecutableObservation_json, omitempty.
  destruct (FileIDHash e =s EmptyString) eqn:E; crunch; unfold executable_fits, or_empty; rewrite E; fits prefixed_text.
Qed.

Lemma attribution_ok h : ok_proof "hostAttribution" (HostAttribution_json h) = attribution_fits h.
Proof.
  unfold HostAttribution_json, omitempty.
  destruct (Attr_BindingID h =s EmptyString) eqn:E; crunch; unfold attribution_fits, or_empty; rewrite E; fits prefixed_text.
Qed.

Lemma evidence_ok e : ok_proof "evidenceItem" (EvidenceItem_json e) = evidence_fits e.
Proof.
  unfold EvidenceItem_json, omitempty.
  destruct (Ev_Digest e =s EmptyString) eqn:E; crunch; unfold evidence_fits, or_empty; rewrite E; fits prefixed_text.
Qed.

(** A list of texts, each once. *)
Lemma ok_names l pattern :
  ok (strs l) (Both (Both (Type_ [TypeArray]) UniqueItems) (Items (Both (Type_ [TypeString]) (Pattern pattern))))
  = distinct l && forallb (MatchString pattern) l.
Proof.
  rewrite !ok_both, ok_strs_unique. unfold strs at 1 2. rewrite ok_type_array, ok_items. reflexivity.
Qed.

Ltac fold_ok :=
  repeat match goal with
  | |- context [valid (resolve_in embedded_schemas) standard_budget ?v ?s] =>
      change (valid (resolve_in embedded_schemas) standard_budget v s) with (ok v s)
  end.

Lemma privacy_ok p : ok_proof "privacy" (PrivacyProjection_json p) = privacy_fits p.
Proof. unfold PrivacyProjection_json. crunch. fold_ok. rewrite ok_names. fits privacy_fits. Qed.

(** The schema of the artifact is written in place. *)
Definition artifact_member : schema :=
  Both
    (Both (Both (Type_ [TypeObject; TypeNull]) (Additional ["sha256"; "file_count"; "byte_count"; "duration_ms"] Never))
       (Required ["sha256"; "file_count"; "byte_count"; "duration_ms"]))
    (Both
       (Both
          (Both (Property "sha256" (Ref (url proof_schema "sha256")))
             (Property "file_count" (Both (Type_ [TypeInteger]) (Minimum 0))))
          (Property "byte_count" (Both (Type_ [TypeInteger]) (Minimum 0))))
       (Property "duration_ms" (Both (Type_ [TypeInteger]) (Minimum 0)))).

Lemma artifact_ok o :
  (forall a, o = Some a -> artifact_ints a) ->
  ok (nullable ArtifactObservation_json o) artifact_member = if_present artifact_fits o.
Proof.
  intros Hi. destruct o as [a|]; [|done]. destruct (Hi a eq_refl) as (Hf & Hb & Hd).
  cbn [nullable if_present]. unfold ArtifactObservation_json, ints. crunch.
  rewrite !int_is_integer, !int_at_least by done. fits artifact_fits.
Qed.

Lemma if_present_ext {A} (f g : A -> bool) o :
  (forall a, o = Some a -> f a = g a) -> if_present f o = if_present g o.
Proof. intros H. destruct o; [|done]. by apply H. Qed.

Lemma ok_nullable_proof {A} (f : A -> json) definition (fits_ : A -> bool) o :
  (forall a, exists m, f a = JObject m) -> ok_proof definition JNull = false ->
  (forall a, o = Some a -> ok_proof definition (f a) = fits_ a) ->
  ok (nullable f o) (OneOf [Ref (url proof_schema definition); Type_ [TypeNull]]) = if_present fits_ o.
Proof.
  intros Hf Hn Ha. destruct (ok_nullable f o (Ref (url proof_schema definition)) Hf Hn) as [-> _].
  by apply if_present_ext.
Qed.

(** Rewrite with a lemma whose references are written out as evaluation
    leaves them. *)
Ltac piece lemma :=
  let H := fresh in
  pose proof lemma as H; unfold ok_proof, ok_receipt, artifact_member, url, schemaBaseURL, proof_schema, receipt_schema in H;
  cbn [String.append String.eqb Ascii.eqb Bool.eqb] in H; rewrite H; clear H.

Ltac objects := intros; eexists; reflexivity.

Lemma observation_ok o :
  observation_ints o -> ok_proof "observation" (Observation_json o) = observation_fits o.
Proof.
  intros [Hp Ha]. unfold Observation_json. crunch. fold_ok. rewrite ok_names.
  piece (ok_nullable_proof ProcessIdentity_json "processIdentity" process_fits (Obs_Process o)
           ltac:(objects) eq_refl (fun p H => process_ok p (Hp p H))).
  piece (ok_nullable_proof ExecutableObservation_json "executableObservation" executable_fits
           (Obs_Executable o) ltac:(objects) eq_refl (fun e _ => executable_ok e)).
  piece (artifact_ok (Obs_Artifact o) Ha). unfold observation_fits, name_text. btauto.
Qed.

Lemma ok_codes l :
  ok (strs l) (Both (Both (Type_ [TypeArray]) UniqueItems) (Items (Ref (url proof_schema "reasonCode"))))
  = distinct l && forallb (one_of registered_codes) l.
Proof.
  rewrite !ok_both, ok_strs_unique. unfold strs at 1 2. rewrite ok_type_array, ok_items. reflexivity.
Qed.

Lemma ok_some_codes l :
  ok (strs l) (Both (Both (Both (Type_ [TypeArray]) (MinItems 1)) UniqueItems)
                 (Items (Ref (url proof_schema "reasonCode"))))
  = (1 <=? Z.of_nat (length l)) && distinct l && forallb (one_of registered_codes) l.
Proof.
  pose proof (ok_codes l) as H. rewrite !ok_both in *. rewrite ok_min_items.
  unfold strs at 1 in H. unfold strs at 1. rewrite ok_type_array in *. cbn [andb] in *.
  rewrite <- !andb_assoc. by rewrite H.
Qed.

Lemma ok_evidence l :
  ok (array_of EvidenceItem_json l) (Both (Type_ [TypeArray]) (Items (Ref (url proof_schema "evidenceItem"))))
  = forallb evidence_fits l.
Proof.
  unfold array_of. rewrite ok_both, ok_type_array, ok_items. cbn [andb]. induction l as [|x l IH]; [done|]. cbn [forallb].
  by rewrite IH, <- (evidence_ok x).
Qed.

(** What the proof schema says of the document of a proof. *)
Lemma proof_ok p :
  observation_ints (Proof_Observation p) -> Proof_Extensions p = [] ->
  ok_proof EmptyString (Proof_json p) = proof_fits p.
Proof.
  intros Hi He. unfold Proof_json, Proof_members, extensions_json, omitempty. rewrite He.
  destruct (String.eqb_spec (ProofID p) EmptyString) as [E|E].
  { crunch. assert (Hn : prefixed_text EmptyString = false) by (vm_compute; reflexivity).
    unfold proof_fits. rewrite E, Hn. btauto. }
  change (JArray (map EvidenceItem_json (Evidence p))) with (array_of EvidenceItem_json (Evidence p)).
  crunch. fold_ok.
  piece (tool_ok (Tool p)). piece (platform_ok (Proof_Platform p)). piece (subject_ok (Proof_Subject p)).
  piece (ok_nullable_proof ExpectationProjection_json "expectationProjection" projection_fits
           (Proof_Expectation p) ltac:(objects) eq_refl (fun e _ => projection_ok e)).
  piece (observation_ok (Proof_Observation p) Hi).
  piece (ok_nullable_proof HostAttribution_json "hostAttribution" attribution_fits
           (Proof_HostAttribution p) ltac:(objects) eq_refl (fun e _ => attribution_ok e)).
  piece (ok_some_codes (ReasonCodes p)). piece (ok_codes (Limitations p)). piece (ok_evidence (Evidence p)).
  piece (privacy_ok (Proof_Privacy p)).
  unfold proof_fits, prefixed_text. set (registered := one_of registered_codes). clearbody registered.
  unfold one_of, contains. cbn [verdicts ProofLevels decisions map fst existsb]. hide_or. btauto.
Qed.


(** ** The receipt schema *)

Lemma receipt_tool_ok t : ok_receipt "tool" (ToolInfo_json t) = receipt_tool_fits t.
Proof. unfold ToolInfo_json. crunch. fits receipt_tool_fits. Qed.

Lemma receipt_platform_ok p : ok_receipt "platform" (Platform_json p) = platform_fits p.
Proof. unfold Platform_json. crunch. fits platform_fits. Qed.

Lemma receipt_subject_ok s : ok_receipt "subject" (Subject_json s) = subject_fits s.
Proof. unfold Subject_json. crunch. fits subject_fits. Qed.

Lemma receipt_expectation_ok e : ok_receipt "expectation" (ExpectationProjection_json e) = projection_fits e.
Proof. unfold ExpectationProjection_json. crunch. fits projection_fits. Qed.

Lemma receipt_process_ok p :
  in_int64 (PID p) -> ok_receipt "process" (ProcessIdentity_json p) = receipt_process_fits p.
Proof.
  intros Hn. unfold ProcessIdentity_json, ints. crunch. rewrite int_is_integer, int_at_least, int_at_most by done.
  fits receipt_process_fits.
Qed.

Lemma fingerprint_ok f :
  in_int64 (Position f) -> ok_receipt "argumentFingerprint" (ArgumentFingerprint_json f) = fingerprint_fits f.
Proof.
  intros Hn. unfold ArgumentFingerprint_json, ints. crunch.
  rewrite int_is_integer, int_at_least, int_at_most by done. fits fingerprint_fits.
Qed.

Lemma ok_fingerprints l :
  Forall (fun f => in_int64 (Position f)) l ->
  ok (array_of ArgumentFingerprint_json l)
    (Both (Both (Type_ [TypeArray]) (MaxItems 255)) (Items (Ref (url receipt_schema "argumentFingerprint"))))
  = (Z.of_nat (length l) <=? 255) && forallb fingerprint_fits l.
Proof.
  intros Hl. unfold array_of. rewrite !ok_both, ok_type_array, ok_max_items, ok_items. cbn [andb]. f_equal.
  induction Hl as [|f l Hf _ IH]; [done|]. cbn [forallb]. by rewrite IH, <- (fingerprint_ok f Hf).
Qed.

Lemma command_ok c :
  Forall (fun f => in_int64 (Position f)) (Cmd_ArgumentFingerprints c) ->
  ok_receipt "command" (CommandObservation_json c) = command_fits c.
Proof.
  intros Hl. unfold CommandObservation_json.
  change (JArray (map ArgumentFingerprint_json (Cmd_ArgumentFingerprints c)))
    with (array_of ArgumentFingerprint_json (Cmd_ArgumentFingerprints c)).
  crunch. fold_ok. piece (ok_fingerprints (Cmd_ArgumentFingerprints c) Hl). unfold command_fits, basename_text.
  fits prefixed_text.
Qed.

Lemma receipt_artifact_ok a :
  receipt_artifact_ints a -> ok_receipt "artifact" (ReceiptArtifact_json a) = receipt_artifact_fits a.
Proof.
  intros (Hf & Hb & Hd). unfold ReceiptArtifact_json, ints. crunch.
  rewrite !int_is_integer, !int_at_least, !int_at_most by done. fits receipt_artifact_fits.
Qed.

Lemma receipt_privacy_ok p : ok_receipt "privacy" (PrivacyProjection_json p) = receipt_privacy_fits p.
Proof.
  unfold PrivacyProjection_json. crunch. fold_ok.
  assert (H : forall l, ok (strs l) (Both (Both (Type_ [TypeArray]) UniqueItems) (Items (Enum (map JString omissible))))
                        = distinct l && forallb (one_of omissible) l).
  { intros l. rewrite !ok_both, ok_strs_unique. unfold strs at 1 2. rewrite ok_type_array, ok_items. reflexivity. }
  cbn [map omissible] in H. rewrite H. unfold receipt_privacy_fits. btauto.
Qed.

Lemma ok_missing l :
  ok (strs l) (Both (Both (Both (Type_ [TypeArray]) (MaxItems 1)) UniqueItems)
                 (Items (Const (JString "WITNESS_EXPECTATION_MISSING"))))
  = (Z.of_nat (length l) <=? 1) && distinct l && forallb missing_code l.
Proof.
  rewrite !ok_both, ok_strs_unique. unfold strs. rewrite ok_type_array, ok_max_items, ok_items. reflexivity.
Qed.

Lemma ok_nullable_receipt {A} (f : A -> json) definition (fits_ : A -> bool) o :
  (forall a, exists m, f a = JObject m) -> ok_receipt definition JNull = false ->
  (forall a, o = Some a -> ok_receipt definition (f a) = fits_ a) ->
  ok (nullable f o) (OneOf [Type_ [TypeNull]; Ref (url receipt_schema definition)]) = if_present fits_ o.
Proof.
  intros Hf Hn Ha. destruct (ok_nullable f o (Ref (url receipt_schema definition)) Hf Hn) as [_ ->].
  by apply if_present_ext.
Qed.

(** What the receipt schema says of the document of a receipt. *)
Lemma receipt_ok r :
  receipt_ints r -> ok_receipt EmptyString (LaunchReceipt_json r) = receipt_fits r.
Proof.
  intros (Hp & Hf & Ha). unfold LaunchReceipt_json, LaunchReceipt_members, omitempty.
  destruct (String.eqb_spec (ReceiptID r) EmptyString) as [E|E].
  { crunch. assert (Hn : prefixed_text EmptyString = false) by (vm_compute; reflexivity).
    unfold receipt_fits. rewrite E, Hn. btauto. }
  crunch. fold_ok.
  piece (receipt_tool_ok (R_Tool r)). piece (receipt_platform_ok (R_Platform r)).
  piece (receipt_process_ok (R_Process r) Hp). piece (command_ok (R_Command r) Hf).
  piece (ok_nullable_receipt Subject_json "subject" subject_fits (R_Subject r)
           ltac:(objects) eq_refl (fun s _ => receipt_subject_ok s)).
  piece (ok_nullable_receipt ExpectationProjection_json "expectation" projection_fits (R_Expectation r)
           ltac:(objects) eq_refl (fun e _ => receipt_expectation_ok e)).
  piece (ok_nullable_receipt ReceiptArtifact_json "artifact" receipt_artifact_fits (R_Artifact r)
           ltac:(objects) eq_refl (fun a H => receipt_artifact_ok a (Ha a H))).
  piece (ok_missing (R_ReasonCodes r)). piece (receipt_privacy_ok (R_Privacy r)).
  unfold receipt_fits, prefixed_text. cbn [orb]. rewrite ?andb_true_r, ?andb_assoc. reflexivity.
Qed.
