(* ===== verification/Issue.v ===== *)
(** * Issuing proofs and receipts

    The builders of [internal/proof] and [internal/receipt] under the embedded
    schemas: they succeed exactly on what the schemas accept, provided the
    schema engine agrees with the reference on the program's schemas
    ([engine_agrees]). *)

From S2P Require Import Prelude GoStrings GoSha256 GoRegexp Model GoJson Canonical Contract RoundTrip Wire Protected Process Privacy ProofId Receipt JsonSchema Embedded Schemas Conformance.

(** ** The engine *)

Definition engine_agrees (schema_ok : string -> json -> bool) : Prop :=
  forall name v, contains schema_names name = true -> schema_ok name v = standard_schema_ok name v.

Lemma standard_proof v : standard_schema_ok proof_schema v = ok_proof EmptyString v.
Proof. reflexivity. Qed.
Lemma standard_receipt v : standard_schema_ok receipt_schema v = ok_receipt EmptyString v.
Proof. reflexivity. Qed.

(** ** What encoding leaves of a struct

    [json.Marshal] replaces the bytes that are not UTF-8. *)

Definition utf8 : string -> string := ToValidUTF8.

Definition utf8_platform (p : Platform) : Platform := {| OS := utf8 (OS p); Arch := utf8 (Arch p) |}.
Definition utf8_subject (s : Subject) : Subject :=
  {| Subj_ID := utf8 (Subj_ID s); DisplayName := utf8 (DisplayName s); Subj_Version := utf8 (Subj_Version s) |}.
Definition utf8_tool (t : ToolInfo) : ToolInfo :=
  {| Tool_Name := utf8 (Tool_Name t); Tool_Version := utf8 (Tool_Version t);
     Tool_Commit := utf8 (Tool_Commit t); Toolchain := utf8 (Toolchain t) |}.
Definition utf8_process (p : ProcessIdentity) : ProcessIdentity :=
  {| PID := PID p; CreatedAtUnixNano := utf8 (CreatedAtUnixNano p); BootIDHash := utf8 (BootIDHash p) |}.
Definition utf8_executable (e : ExecutableObservation) : ExecutableObservation :=
  {| Basename := utf8 (Basename e); PathHash := utf8 (PathHash e); FileIDHash := utf8 (FileIDHash e) |}.
Definition utf8_artifact (a : ArtifactObservation) : ArtifactObservation :=
  {| Obs_SHA256 := utf8 (Obs_SHA256 a); FileCount := FileCount a; ByteCount := ByteCount a;
     DurationMS := DurationMS a; EntrypointFileIdentity := EntrypointFileIdentity a |}.
Definition utf8_observation (o : Observation) : Observation :=
  {| Obs_Process := option_map utf8_process (Obs_Process o);
     Obs_Executable := option_map utf8_executable (Obs_Executable o);
     Obs_Artifact := option_map utf8_artifact (Obs_Artifact o);
     InaccessibleFields := map utf8 (InaccessibleFields o) |}.
Definition utf8_projection (e : ExpectationProjection) : ExpectationProjection :=
  {| SourceKind := utf8 (SourceKind e); SourceLocatorHash := utf8 (SourceLocatorHash e);
     Proj_Trust := utf8 (Proj_Trust e); ExpectedVersion := utf8 (ExpectedVersion e);
     ExpectedArtifactSHA256 := utf8 (ExpectedArtifactSHA256 e) |}.
Definition utf8_attribution (h : HostAttribution) : HostAttribution :=
  {| Attr_HostID := utf8 (Attr_HostID h); Attr_BindingID := utf8 (Attr_BindingID h);
     Attr_ConfigSourceHash := utf8 (Attr_ConfigSourceHash h); Attr_Confidence := utf8 (Attr_Confidence h) |}.
Definition utf8_evidence (e : EvidenceItem) : EvidenceItem :=
  {| Ev_Type := utf8 (Ev_Type e); Ev_Digest := utf8 (Ev_Digest e); Ev_ObservedAt := utf8 (Ev_ObservedAt e) |}.
Definition utf8_privacy (p : PrivacyProjection) : PrivacyProjection :=
  {| RedactionMode := utf8 (RedactionMode p); HomeRedacted := HomeRedacted p;
     OmittedFields := map utf8 (OmittedFields p) |}.

(** For a proof without extensions. *)
Definition utf8_proof (p : Proof) : Proof := {|
  SchemaVersion := utf8 (SchemaVersion p); ProofID := utf8 (ProofID p); ObservedAt := utf8 (ObservedAt p);
  Tool := utf8_tool (Tool p); Proof_Platform := utf8_platform (Proof_Platform p);
  Proof_Subject := utf8_subject (Proof_Subject p);
  Proof_Expectation := option_map utf8_projection (Proof_Expectation p);
  Proof_Observation := utf8_observation (Proof_Observation p);
  Proof_HostAttribution := option_map utf8_attribution (Proof_HostAttribution p);
  Verdict := utf8 (Verdict p); ProofLevel := utf8 (ProofLevel p); ReasonCodes := map utf8 (ReasonCodes p);
  Evidence := map utf8_evidence (Evidence p); Proof_Privacy := utf8_privacy (Proof_Privacy p);
  Limitations := map utf8 (Limitations p); Proof_Extensions := [] |}.

Lemma ToValidUTF8_empty s : (utf8 s =s EmptyString) = (s =s EmptyString).
Proof.
  destruct s as [|c t]; [done|]. unfold utf8, ToValidUTF8. rewrite runes_cons by done. unfold of_runes.
  cbn [map concat_str]. pose proof (EncodeRune_length (fst (DecodeRune (String c t)))).
  destruct (EncodeRune _); [cbn in *; lia|done].
Qed.

Lemma ToValidUTF8_idem s : utf8 (utf8 s) = utf8 s.
Proof. apply ToValidUTF8_id, ToValidUTF8_valid. Qed.

Lemma strs_normal l : normalize (strs l) = strs (map utf8 l).
Proof. unfold strs. cbn [normalize]. by rewrite !map_map. Qed.

Lemma nullable_normal {A} (f : A -> json) (g : A -> A) o :
  (forall a, normalize (f a) = f (g a)) -> normalize (nullable f o) = nullable f (option_map g o).
Proof. intros H. destruct o; [apply H|done]. Qed.

Lemma list_normal {A} (f : A -> json) (g : A -> A) l :
  (forall a, normalize (f a) = f (g a)) -> normalize (JArray (map f l)) = JArray (map f (map g l)).
Proof. intros H. cbn [normalize]. rewrite !map_map. f_equal. apply map_ext, H. Qed.

(** An object with the constant keys of a struct. *)
Definition plain_keys (keys : list string) : bool := forallb ValidString keys && distinct keys.

Lemma distinct_NoDup l : distinct l = true <-> NoDup l.
Proof.
  induction l as [|x l IH]; cbn [distinct]; [by split; [constructor|]|].
  rewrite andb_true_iff, IH, negb_true_iff, NoDup_cons. split; intros [Hx Hl]; (split; [|done]).
  - intros Hin. unfold contains in Hx. rewrite existsb_false, Forall_forall in Hx. apply Hx in Hin.
    by rewrite String.eqb_refl in Hin.
  - apply existsb_false, Forall_forall. intros y Hy. apply String.eqb_neq. by intros ->.
Qed.

Lemma object_normal m :
  plain_keys (map fst m) = true ->
  normalize (JObject m) = JObject (map (fun kv => (fst kv, normalize (snd kv))) m).
Proof.
  intros [Hv Hd]%andb_true_iff. cbn [normalize].
  assert (Hm : map (fun kv : string * json => (ToValidUTF8 (fst kv), normalize (snd kv))) m
               = map (fun kv => (fst kv, normalize (snd kv))) m).
  { apply map_ext_in. intros [k v] Hin. cbn [fst snd]. f_equal. apply ToValidUTF8_id.
    rewrite forallb_forall in Hv. apply Hv. by apply (in_map fst m (k, v)). }
  rewrite Hm, last_wins_id; [done|]. rewrite map_map. cbn [fst]. by apply distinct_NoDup.
Qed.

(** The normal form of a struct, from those of its fields. *)
Ltac struct_normal :=
  rewrite object_normal by (vm_compute; reflexivity); cbn [map fst snd app normalize];
  rewrite ?strs_normal.

Lemma platform_normal p : normalize (Platform_json p) = Platform_json (utf8_platform p).
Proof. unfold Platform_json. struct_normal. reflexivity. Qed.
Lemma subject_normal s : normalize (Subject_json s) = Subject_json (utf8_subject s).
Proof. unfold Subject_json. struct_normal. reflexivity. Qed.
Lemma tool_normal t : normalize (ToolInfo_json t) = ToolInfo_json (utf8_tool t).
Proof. unfold ToolInfo_json. struct_normal. reflexivity. Qed.
Lemma process_normal p : normalize (ProcessIdentity_json p) = ProcessIdentity_json (utf8_process p).
Proof. unfold ProcessIdentity_json. struct_normal. reflexivity. Qed.
Lemma artifact_normal a : normalize (ArtifactObservation_json a) = ArtifactObservation_json (utf8_artifact a).
Proof. unfold ArtifactObservation_json. struct_normal. reflexivity. Qed.
Lemma projection_normal e :
  normalize (ExpectationProjection_json e) = ExpectationProjection_json (utf8_projection e).
Proof. unfold ExpectationProjection_json. struct_normal. reflexivity. Qed.
Lemma privacy_normal p : normalize (PrivacyProjection_json p) = PrivacyProjection_json (utf8_privacy p).
Proof. unfold PrivacyProjection_json. struct_normal. reflexivity. Qed.

(** With a member that may be left out. *)
Ltac optional_normal field :=
  unfold omitempty; rewrite <- (ToValidUTF8_empty field); fold utf8;
  destruct (utf8 field =s EmptyString) eqn:E; cbn [app]; struct_normal; cbn -[utf8]; rewrite ?E; reflexivity.

Lemma executable_normal e :
  normalize (ExecutableObservation_json e) = ExecutableObservation_json (utf8_executable e).
Proof. unfold ExecutableObservation_json. cbn [utf8_executable Basename PathHash FileIDHash]. optional_normal (FileIDHash e). Qed.
Lemma attribution_normal h : normalize (HostAttribution_json h) = HostAttribution_json (utf8_attribution h).
Proof.
  unfold HostAttribution_json. cbn [utf8_attribution Attr_HostID Attr_BindingID Attr_ConfigSourceHash Attr_Confidence].
  optional_normal (Attr_BindingID h).
Qed.
Lemma evidence_normal e : normalize (EvidenceItem_json e) = EvidenceItem_json (utf8_evidence e).
Proof.
  unfold EvidenceItem_json. cbn [utf8_evidence Ev_Type Ev_Digest Ev_ObservedAt]. optional_normal (Ev_Digest e).
Qed.

Lemma observation_normal o : normalize (Observation_json o) = Observation_json (utf8_observation o).
Proof.
  unfold Observation_json. struct_normal.
  by rewrite (nullable_normal _ utf8_process), (nullable_normal _ utf8_executable), (nullable_normal _ utf8_artifact)
    by auto using process_normal, executable_normal, artifact_normal.
Qed.

Lemma proof_normal p :
  Proof_Extensions p = [] -> normalize (Proof_json p) = Proof_json (utf8_proof p).
Proof.
  intros He. unfold Proof_json, Proof_members, extensions_json, omitempty. rewrite He.
  cbn [utf8_proof ProofID]. rewrite (ToValidUTF8_empty (ProofID p)).
  destruct (ProofID p =s EmptyString); cbn [app]; struct_normal;
    rewrite tool_normal, platform_normal, subject_normal, observation_normal, privacy_normal,
      (nullable_normal _ utf8_projection), (nullable_normal _ utf8_attribution)
      by auto using projection_normal, attribution_normal;
    pose proof (list_normal EvidenceItem_json utf8_evidence (Evidence p) evidence_normal) as Hl;
    cbn [normalize] in Hl; injection Hl as Hl; rewrite Hl; reflexivity.
Qed.

(** ** Integers within the range of canonical JSON *)

Definition safe_int (n : Z) : bool := between (- maxSafeInteger) maxSafeInteger n.

Lemma safe_int64 n : safe_int n = true -> in_int64 n.
Proof.
  unfold safe_int, between, in_int64, maxSafeInteger, int64_min, int64_max. intros H. destruct_hyps. to_prop. lia.
Qed.

Lemma canonical_FormatInt n : in_int64 n -> canonical_number (FormatInt n) = safe_int n.
Proof.
  intros Hn. apply eq_true_iff_eq. unfold canonical_number. rewrite is_ok_true.
  setoid_rewrite appendInteger_spec. unfold safe_int, between. rewrite andb_true_iff, !Z.leb_le. split.
  - intros (out & _ & n' & Hr & He). apply FormatInt_inj in He as ->; [lia|done|].
    unfold in_int64, maxSafeInteger, int64_min, int64_max in *. lia.
  - intros Hr. exists (FormatInt n). split; [done|]. exists n. split; [lia|done].
Qed.

Definition proof_safe (p : Proof) : bool :=
  let o := Proof_Observation p in
  if_present (fun p => safe_int (PID p)) (Obs_Process o)
  && if_present (fun a => safe_int (FileCount a) && safe_int (ByteCount a) && safe_int (DurationMS a))
       (Obs_Artifact o).

Definition receipt_safe (r : LaunchReceipt) : bool :=
  safe_int (PID (R_Process r))
  && forallb (fun f => safe_int (Position f)) (Cmd_ArgumentFingerprints (R_Command r))
  && if_present (fun a => safe_int (RA_FileCount a) && safe_int (RA_ByteCount a) && safe_int (RA_DurationMS a))
       (R_Artifact r).

Lemma encodable_strs l : encodable (strs (map utf8 l)) = true.
Proof.
  unfold strs. cbn [encodable]. rewrite map_map, forallb_map. apply forallb_Forall, Forall_true.
  intros x. apply ToValidUTF8_valid.
Qed.

Lemma encodable_utf8 s : encodable (JString (utf8 s)) = true.
Proof. apply ToValidUTF8_valid. Qed.

Lemma encodable_object m :
  forallb ValidString (map fst m) = true -> encodable (JObject m) = forallb (fun kv => encodable (snd kv)) m.
Proof.
  intros Hk. cbn [encodable]. induction m as [|[k v] m IH]; [done|]. cbn [map fst forallb snd] in *.
  apply andb_true_iff in Hk as [-> Hk]. by rewrite IH.
Qed.

(** A struct is encodable if its fields are. *)
Ltac struct_encodable :=
  rewrite encodable_object by (vm_compute; reflexivity); cbn [forallb snd app];
  rewrite ?encodable_utf8, ?encodable_strs, ?andb_true_l, ?andb_true_r.

Lemma encodable_nullable {A} (f : A -> json) (g : A -> A) (b : A -> bool) o :
  (forall a, encodable (f (g a)) = b a) -> encodable (nullable f (option_map g o)) = if_present b o.
Proof. intros H. destruct o; [apply H|done]. Qed.

Lemma encodable_process p :
  in_int64 (PID p) -> encodable (ProcessIdentity_json (utf8_process p)) = safe_int (PID p).
Proof.
  intros Hn. unfold ProcessIdentity_json. cbn [utf8_process PID CreatedAtUnixNano BootIDHash]. struct_encodable.
  apply (canonical_FormatInt _ Hn).
Qed.

Lemma encodable_artifact a :
  artifact_ints a ->
  encodable (ArtifactObservation_json (utf8_artifact a))
  = safe_int (FileCount a) && safe_int (ByteCount a) && safe_int (DurationMS a).
Proof.
  intros (Hf & Hb & Hd). unfold ArtifactObservation_json, ints.
  cbn [utf8_artifact Obs_SHA256 FileCount ByteCount DurationMS]. struct_encodable. cbn [encodable].
  rewrite !canonical_FormatInt by done. apply andb_assoc.
Qed.

Ltac optional_encodable field := unfold omitempty; destruct (utf8 field =s EmptyString); cbn [app]; struct_encodable; reflexivity.

Lemma encodable_executable e : encodable (ExecutableObservation_json (utf8_executable e)) = true.
Proof.
  unfold ExecutableObservation_json. cbn [utf8_executable Basename PathHash FileIDHash].
  optional_encodable (FileIDHash e).
Qed.
Lemma encodable_attribution h : encodable (HostAttribution_json (utf8_attribution h)) = true.
Proof.
  unfold HostAttribution_json. cbn [utf8_attribution Attr_HostID Attr_BindingID Attr_ConfigSourceHash Attr_Confidence].
  optional_encodable (Attr_BindingID h).
Qed.
Lemma encodable_evidence e : encodable (EvidenceItem_json (utf8_evidence e)) = true.
Proof. unfold EvidenceItem_json. cbn [utf8_evidence Ev_Type Ev_Digest Ev_ObservedAt]. optional_encodable (Ev_Digest e). Qed.

(** A struct of texts only. *)
Ltac texts_encodable :=
  rewrite encodable_object by (vm_compute; reflexivity); cbn [forallb snd app];
  repeat (apply andb_true_iff; split); first [exact (encodable_utf8 _)|exact (encodable_strs _)|reflexivity].

Lemma encodable_projection e : encodable (ExpectationProjection_json (utf8_projection e)) = true.
Proof. unfold ExpectationProjection_json. texts_encodable. Qed.
Lemma encodable_tool t : encodable (ToolInfo_json (utf8_tool t)) = true.
Proof. unfold ToolInfo_json. texts_encodable. Qed.
Lemma encodable_platform p : encodable (Platform_json (utf8_platform p)) = true.
Proof. unfold Platform_json. texts_encodable. Qed.
Lemma encodable_subject s : encodable (Subject_json (utf8_subject s)) = true.
Proof. unfold Subject_json. texts_encodable. Qed.
Lemma encodable_privacy p : encodable (PrivacyProjection_json (utf8_privacy p)) = true.
Proof. unfold PrivacyProjection_json. texts_encodable. Qed.

Lemma if_present_true {A} (o : option A) : if_present (fun _ => true) o = true.
Proof. by destruct o. Qed.

Lemma encodable_observation o :
  observation_ints o ->
  encodable (Observation_json (utf8_observation o))
  = if_present (fun p => safe_int (PID p)) (Obs_Process o)
    && if_present (fun a => safe_int (FileCount a) && safe_int (ByteCount a) && safe_int (DurationMS a))
         (Obs_Artifact o).
Proof.
  intros [Hp Ha]. unfold Observation_json.
  cbn [utf8_observation Obs_Process Obs_Executable Obs_Artifact InaccessibleFields]. struct_encodable.
  rewrite (encodable_nullable _ utf8_executable (fun _ => true)), if_present_true by apply encodable_executable.
  f_equal.
  - destruct (Obs_Process o) as [p|]; [|done]. apply encodable_process, Hp. done.
  - rewrite andb_true_l. destruct (Obs_Artifact o) as [a|]; [|done]. apply encodable_artifact, Ha. done.
Qed.

Lemma encodable_all {A} (f : A -> json) l :
  (forall a, encodable (f a) = true) -> encodable (JArray (map f l)) = true.
Proof. intros H. cbn [encodable]. rewrite forallb_map. apply forallb_Forall, Forall_true. exact H. Qed.

Lemma encodable_proof p :
  observation_ints (Proof_Observation p) -> encodable (Proof_json (utf8_proof p)) = proof_safe p.
Proof.
  intros Hi. unfold Proof_json, Proof_members, proof_safe.
  cbn [utf8_proof SchemaVersion ProofID ObservedAt Tool Proof_Platform Proof_Subject Proof_Expectation
       Proof_Observation Proof_HostAttribution Verdict ProofLevel ReasonCodes Evidence Proof_Privacy
       Limitations Proof_Extensions extensions_json].
  rewrite <- (encodable_observation _ Hi).
  assert (He : encodable (JArray (map EvidenceItem_json (map utf8_evidence (Evidence p)))) = true).
  { rewrite map_map. apply encodable_all, encodable_evidence. }
  unfold omitempty. destruct (utf8 (ProofID p) =s EmptyString); cbn [app]; struct_encodable;
    rewrite encodable_tool, encodable_platform, encodable_subject, encodable_privacy, He,
      (encodable_nullable _ utf8_projection (fun _ => true)), (encodable_nullable _ utf8_attribution (fun _ => true)),
      !if_present_true by auto using encodable_projection, encodable_attribution;
    by rewrite ?andb_true_l, ?andb_true_r.
Qed.

(** ** Receipts *)

Definition utf8_fingerprint (f : ArgumentFingerprint) : ArgumentFingerprint :=
  {| Position := Position f; FP_SHA256 := utf8 (FP_SHA256 f) |}.
Definition utf8_command (c : CommandObservation) : CommandObservation :=
  {| ExecutableBasename := utf8 (ExecutableBasename c); ExecutablePathHash := utf8 (ExecutablePathHash c);
     Cmd_ArgumentFingerprints := map utf8_fingerprint (Cmd_ArgumentFingerprints c) |}.
Definition utf8_receipt_artifact (a : ReceiptArtifact) : ReceiptArtifact :=
  {| RA_SHA256 := utf8 (RA_SHA256 a); RA_FileCount := RA_FileCount a; RA_ByteCount := RA_ByteCount a;
     RA_DurationMS := RA_DurationMS a |}.
Definition utf8_receipt (r : LaunchReceipt) : LaunchReceipt := {|
  R_SchemaVersion := utf8 (R_SchemaVersion r); ReceiptID := utf8 (ReceiptID r);
  R_CreatedAt := utf8 (R_CreatedAt r); R_Tool := utf8_tool (R_Tool r);
  R_Platform := utf8_platform (R_Platform r); R_Subject := option_map utf8_subject (R_Subject r);
  R_Process := utf8_process (R_Process r); R_Command := utf8_command (R_Command r);
  R_Expectation := option_map utf8_projection (R_Expectation r);
  R_Artifact := option_map utf8_receipt_artifact (R_Artifact r); R_ObservationOnly := R_ObservationOnly r;
  R_ReasonCodes := map utf8 (R_ReasonCodes r); R_Privacy := utf8_privacy (R_Privacy r) |}.

Lemma fingerprint_normal f : normalize (ArgumentFingerprint_json f) = ArgumentFingerprint_json (utf8_fingerprint f).
Proof. unfold ArgumentFingerprint_json. struct_normal. reflexivity. Qed.

Lemma command_normal c : normalize (CommandObservation_json c) = CommandObservation_json (utf8_command c).
Proof.
  unfold CommandObservation_json. struct_normal.
  pose proof (list_normal ArgumentFingerprint_json utf8_fingerprint (Cmd_ArgumentFingerprints c) fingerprint_normal) as Hl.
  cbn [normalize] in Hl. injection Hl as Hl. rewrite Hl. reflexivity.
Qed.

Lemma receipt_artifact_normal a : normalize (ReceiptArtifact_json a) = ReceiptArtifact_json (utf8_receipt_artifact a).
Proof. unfold ReceiptArtifact_json. struct_normal. reflexivity. Qed.

Lemma receipt_normal r : normalize (LaunchReceipt_json r) = LaunchReceipt_json (utf8_receipt r).
Proof.
  unfold LaunchReceipt_json, LaunchReceipt_members, omitempty. cbn [utf8_receipt ReceiptID].
  rewrite (ToValidUTF8_empty (ReceiptID r)).
  destruct (ReceiptID r =s EmptyString); cbn [app]; struct_normal;
    rewrite tool_normal, platform_normal, process_normal, command_normal, privacy_normal,
      (nullable_normal _ utf8_subject), (nullable_normal _ utf8_projection), (nullable_normal _ utf8_receipt_artifact)
      by auto using subject_normal, projection_normal, receipt_artifact_normal;
    reflexivity.
Qed.

Lemma encodable_fingerprints l :
  Forall (fun f => in_int64 (Position f)) l ->
  encodable (JArray (map ArgumentFingerprint_json (map utf8_fingerprint l)))
  = forallb (fun f => safe_int (Position f)) l.
Proof.
  intros Hl. cbn [encodable]. rewrite map_map, forallb_map. induction Hl as [|f l Hf _ IH]; [done|].
  cbn [forallb]. rewrite IH. f_equal. unfold ArgumentFingerprint_json, ints.
  cbn [utf8_fingerprint Position FP_SHA256]. struct_encodable. cbn [encodable]. by apply canonical_FormatInt.
Qed.

Lemma encodable_receipt_artifact a :
  receipt_artifact_ints a ->
  encodable (ReceiptArtifact_json (utf8_receipt_artifact a))
  = safe_int (RA_FileCount a) && safe_int (RA_ByteCount a) && safe_int (RA_DurationMS a).
Proof.
  intros (Hf & Hb & Hd). unfold ReceiptArtifact_json, ints.
  cbn [utf8_receipt_artifact RA_SHA256 RA_FileCount RA_ByteCount RA_DurationMS]. struct_encodable. cbn [encodable].
  rewrite !canonical_FormatInt by done. apply andb_assoc.
Qed.

Lemma encodable_command c :
  Forall (fun f => in_int64 (Position f)) (Cmd_ArgumentFingerprints c) ->
  encodable (CommandObservation_json (utf8_command c))
  = forallb (fun f => safe_int (Position f)) (Cmd_ArgumentFingerprints c).
Proof.
  intros Hl. unfold CommandObservation_json.
  cbn [utf8_command ExecutableBasename ExecutablePathHash Cmd_ArgumentFingerprints]. struct_encodable.
  by apply encodable_fingerprints.
Qed.

Lemma encodable_receipt r :
  receipt_ints r -> encodable (LaunchReceipt_json (utf8_receipt r)) = receipt_safe r.
Proof.
  intros (Hp & Hf & Ha). unfold LaunchReceipt_json, LaunchReceipt_members, receipt_safe.
  cbn [utf8_receipt R_SchemaVersion ReceiptID R_CreatedAt R_Tool R_Platform R_Subject R_Process R_Command
       R_Expectation R_Artifact R_ObservationOnly R_ReasonCodes R_Privacy].
  assert (He : encodable (nullable ReceiptArtifact_json (option_map utf8_receipt_artifact (R_Artifact r)))
               = if_present (fun a => safe_int (RA_FileCount a) && safe_int (RA_ByteCount a)
                                      && safe_int (RA_DurationMS a)) (R_Artifact r)).
  { destruct (R_Artifact r) as [a|]; [|done]. by apply encodable_receipt_artifact, Ha. }
  unfold omitempty. destruct (utf8 (ReceiptID r) =s EmptyString); cbn [app]; struct_encodable;
    rewrite encodable_tool, encodable_platform, encodable_process, encodable_command, encodable_privacy, He,
      (encodable_nullable _ utf8_subject (fun _ => true)), (encodable_nullable _ utf8_projection (fun _ => true)),
      !if_present_true by auto using encodable_subject, encodable_projection;
    cbn [encodable]; by rewrite ?andb_true_l, ?andb_true_r, ?andb_assoc.
Qed.

(** ** The builder of proofs *)

Lemma utf8_with_id p id : utf8_proof (with_id p id) = with_id (utf8_proof p) (utf8 id).
Proof. done. Qed.

Lemma lower_hex_ascii s : sforall is_lower_hex s = true -> is_ascii s = true.
Proof. apply sforall_impl. byte_implies. Qed.

Lemma identity_hash_ascii encoded : is_ascii (identity_hash encoded) = true.
Proof.
  unfold identity_hash, is_ascii. rewrite sforall_app. apply andb_true_iff. split; [done|].
  apply (lower_hex_ascii _ (sha256_hex_lower encoded)).
Qed.

Lemma utf8_ascii s : is_ascii s = true -> utf8 s = s.
Proof. intros H. by apply ToValidUTF8_id, ascii_valid. Qed.

Lemma utf8_identity encoded : utf8 (identity_hash encoded) = identity_hash encoded.
Proof. apply utf8_ascii, identity_hash_ascii. Qed.

(** Encoding a proof with its identity cleared. *)
Lemma Marshal_proof p :
  Proof_Extensions p = [] ->
  Marshal (Proof_json (with_id p EmptyString)) = appendValue (Proof_json (utf8_proof (with_id p EmptyString))).
Proof. intros He. unfold Marshal. by rewrite proof_normal. Qed.

Lemma Marshal_proof_ok p :
  Proof_Extensions p = [] -> observation_ints (Proof_Observation p) ->
  is_ok (Marshal (Proof_json (with_id p EmptyString))) = proof_safe p.
Proof. intros He Hi. rewrite Marshal_proof by done. rewrite appendValue_is_ok. exact (encodable_proof (with_id p EmptyString) Hi). Qed.

(** The identity of a proof is that of the document it is written as. *)
Lemma Marshal_written p :
  observation_ints (Proof_Observation p) -> proof_safe p = true ->
  Marshal (Proof_json (with_id (utf8_proof p) EmptyString))
  = appendValue (Proof_json (utf8_proof (with_id p EmptyString))).
Proof.
  intros Hi Hs. unfold Marshal. f_equal. apply normalize_id.
  - rewrite <- Hs. exact (encodable_proof (with_id p EmptyString) Hi).
  - by apply no_extensions_distinct.
Qed.

Section Engine.
Variable schema_ok : string -> json -> bool.
Hypothesis engine : engine_agrees schema_ok.

Lemma observation_ints_utf8 o : observation_ints o -> observation_ints (utf8_observation o).
Proof.
  intros [Hp Ha]. split; cbn [utf8_observation Obs_Process Obs_Artifact].
  - intros p. destruct (Obs_Process o) as [q|]; [|done]. intros [= <-]. exact (Hp q eq_refl).
  - intros a. destruct (Obs_Artifact o) as [b|]; [|done]. intros [= <-]. exact (Ha b eq_refl).
Qed.

(** What the program checks of the document of a proof it has just made. *)
Lemma Validate_written p :
  Proof_Extensions p = [] -> observation_ints (Proof_Observation p) ->
  is_ok (Validate_tree schema_ok (normalize (Proof_json p)))
  = proof_fits (utf8_proof p) && is_ok (proof_semantics (Proof_json (utf8_proof p)))
    && is_ok (ProofId.VerifyID (strip_proof (utf8_proof p))).
Proof.
  intros He Hi. rewrite proof_normal by done. unfold Validate_tree, ValidateProof_tree, validate_schema.
  rewrite engine, standard_proof by done.
  rewrite proof_ok by (done || by apply observation_ints_utf8).
  destruct (proof_fits (utf8_proof p)); cbn [guard_ map_err rbind andb is_ok]; [|done].
  destruct (proof_semantics (Proof_json (utf8_proof p))); cbn [map_err rbind andb is_ok]; [|done].
  rewrite Proof_round by by apply observation_ints_utf8. cbn [map_err rbind].
  by destruct (ProofId.VerifyID _).
Qed.

Lemma VerifyID_written p encoded :
  observation_ints (Proof_Observation p) -> proof_safe p = true ->
  appendValue (Proof_json (utf8_proof (with_id p EmptyString))) = Ok encoded ->
  is_ok (ProofId.VerifyID (strip_proof (utf8_proof (with_id p (identity_hash encoded))))) = true.
Proof.
  intros Hi Hs Hm. apply is_ok_true. exists tt. apply VerifyID_ok. exists encoded.
  rewrite <- Hm, <- (Marshal_written p) by done. split.
  - f_equal. rewrite <- (strip_Proof_json (with_id (utf8_proof p) EmptyString)). reflexivity.
  - apply utf8_identity.
Qed.

(** A proof is issued exactly if its integers are in range and what is
    written passes the schema and the semantic rules. *)
Lemma Build_spec u build_platform input :
  let p := ProofId.assemble u build_platform input in
  observation_ints (Proof_Observation p) ->
  is_ok (ProofId.Build schema_ok u build_platform input)
  = proof_safe p && match ProofId.AssignID p with
                    | Ok q => proof_fits (utf8_proof q) && is_ok (proof_semantics (Proof_json (utf8_proof q)))
                    | Err _ => false
                    end.
Proof.
  intros p Hi. unfold ProofId.Build. fold p.
  pose proof (Marshal_proof_ok p eq_refl Hi) as Hm. pose proof (Marshal_proof p eq_refl) as Hn.
  unfold ProofId.AssignID. rewrite Hn in *.
  destruct (appendValue _) as [encoded|] eqn:E; cbn [is_ok map_err rbind] in *; rewrite <- Hm; [|done].
  pose proof (Validate_written (with_id p (identity_hash encoded)) eq_refl Hi) as Hv.
  rewrite (VerifyID_written p encoded Hi (eq_sym Hm) E), andb_true_r in Hv. cbn [andb]. rewrite <- Hv.
  by destruct (Validate_tree _ _).
Qed.

Lemma receipt_ints_utf8 r : receipt_ints r -> receipt_ints (utf8_receipt r).
Proof.
  intros (Hp & Hf & Ha). split; [exact Hp|]. split.
  - cbn [utf8_receipt R_Command utf8_command Cmd_ArgumentFingerprints]. by apply Forall_fmap.
  - cbn [utf8_receipt R_Artifact]. intros a. destruct (R_Artifact r) as [b|]; [|done].
    intros [= <-]. exact (Ha b eq_refl).
Qed.

(** A receipt is issued exactly if its integers are in range and what is
    written passes the schema and the semantic rules. *)
Lemma receipt_Build_spec input :
  let r := receipt_of input in
  receipt_ints r ->
  is_ok (Receipt.Build schema_ok input)
  = receipt_safe r && match Receipt.AssignID r with
                      | Ok q => receipt_fits (utf8_receipt q)
                                && is_ok (receipt_semantics (LaunchReceipt_json (utf8_receipt q)))
                      | Err _ => false
                      end.
Proof.
  intros r Hi. unfold Receipt.Build. fold r.
  assert (Hm : is_ok (Receipt.AssignID r) = receipt_safe r).
  { unfold Receipt.AssignID, Marshal. rewrite receipt_normal.
    pose proof (encodable_receipt (with_receipt_id r EmptyString) Hi) as He.
    change (receipt_safe (with_receipt_id r EmptyString)) with (receipt_safe r) in He.
    rewrite <- He, <- appendValue_is_ok. by destruct (appendValue _). }
  rewrite <- Hm. destruct (Receipt.AssignID r) as [q|] eqn:E; cbn [map_err rbind is_ok andb]; [|done].
  assert (Hq : receipt_ints q).
  { apply receipt_AssignID_ok in E as (encoded & _ & ->). exact Hi. }
  unfold ValidateLaunchReceipt_tree, validate_schema. rewrite engine, standard_receipt by done.
  rewrite receipt_normal, receipt_ok by by apply receipt_ints_utf8.
  destruct (receipt_fits _); cbn [guard_ map_err rbind andb is_ok]; [|done].
  by destruct (receipt_semantics _).
Qed.
End Engine.

(** C10: A proof is issued exactly if its integers fit canonical JSON, what is
    written of it satisfies the predicate [proof_fits] that the embedded schema
    amounts to, and its decision satisfies the semantic rules: the builder
    refuses nothing else and lets nothing else through. *)
Theorem proofs_issued_exactly schema_ok u build_platform input :
  engine_agrees schema_ok ->
  let p := ProofId.assemble u build_platform input in
  observation_ints (Proof_Observation p) ->
  is_ok (ProofId.Build schema_ok u build_platform input)
  = proof_safe p && match ProofId.AssignID p with
                    | Ok q => proof_fits (utf8_proof q) && is_ok (proof_semantics (Proof_json (utf8_proof q)))
                    | Err _ => false
                    end.
Proof. intros He. by apply Build_spec. Qed.

Lemma proofs_issued_exactly_witness :
  engine_agrees standard_schema_ok
  /\ is_ok (ProofId.Build standard_schema_ok ascii_tables {| OS := "linux"; Arch := "amd64" |} sample_proof_input) = true.
Proof.
  assert (He : engine_agrees standard_schema_ok) by (intros name v _; reflexivity). split; [exact He|].
  rewrite (proofs_issued_exactly standard_schema_ok ascii_tables {| OS := "linux"; Arch := "amd64" |} sample_proof_input He).
  - vm_compute. reflexivity.
  - split; intros x Hx; vm_compute in Hx; discriminate Hx.
Defined.

(** ** Fields that fit

    The predicates of the schemas look at the runes of a text, or compare it
    with constants; replacing the invalid bytes does not make a field unfit. *)

Lemma runes_utf8 s : runes (utf8 s) = runes s.
Proof. apply runes_of_runes, all_runes_scalar. Qed.

Lemma match_utf8 pattern s : MatchString pattern (utf8 s) = MatchString pattern s.
Proof. unfold MatchString, Regexp_MatchString. by rewrite runes_utf8. Qed.

Lemma text_utf8 least most s : text least most (utf8 s) = text least most s.
Proof. unfold text, RuneCountInString. by rewrite runes_utf8. Qed.

Lemma one_of_utf8 l s : forallb ValidString l = true -> one_of l s = true -> one_of l (utf8 s) = true.
Proof.
  intros Hl Hs. assert (Hv : ValidString s = true).
  { apply existsb_elem_of in Hs as (x & Hx & He). apply String.eqb_eq in He as <-.
    rewrite forallb_Forall, Forall_forall in Hl. by apply Hl. }
  unfold utf8. by rewrite ToValidUTF8_id.
Qed.

Lemma is_utf8 c s : ValidString c = true -> (c =s s) = true -> (c =s utf8 s) = true.
Proof. intros Hc Hs. apply String.eqb_eq in Hs as <-. apply String.eqb_eq. symmetry. by apply ToValidUTF8_id. Qed.

Lemma or_empty_utf8 f s : (forall s, f (utf8 s) = f s) -> or_empty f (utf8 s) = or_empty f s.
Proof. intros H. unfold or_empty. by rewrite H, ToValidUTF8_empty. Qed.

Lemma name_text_spec s :
  name_text s
  = match s with
    | EmptyString => false
    | String c t =>
        in_range 97 122 (byte_val c)
        && sforall (fun c => in_range 97 122 (byte_val c) || is_digit c || has_byte "_.-" c) t && (slen t <=? 127)
    end.
Proof.
  unfold name_text. erewrite (MatchString_label _ _ _ 127) by (vm_compute; reflexivity).
  destruct s as [|c t]; [done|]. rewrite len_leb. f_equal. f_equal.
  - revert c. byte_cases.
  - apply sforall_ext. byte_cases.
Qed.

Lemma name_text_ascii s : name_text s = true -> is_ascii s = true.
Proof.
  rewrite name_text_spec. destruct s as [|c t]; [done|]. intros H. destruct_hyps. unfold is_ascii.
  rewrite sforall_cons. apply andb_true_iff. split.
  - apply in_range_iff in H. apply Z.ltb_lt. lia.
  - eapply sforall_impl; [|eassumption]. byte_implies.
Qed.

Lemma map_utf8_names l : forallb name_text l = true -> map utf8 l = l.
Proof.
  rewrite forallb_Forall. induction 1 as [|s l Hs _ IH]; [done|]. cbn [map]. f_equal; [|done].
  by apply utf8_ascii, name_text_ascii.
Qed.

Lemma map_utf8_known l known :
  forallb ValidString known = true -> forallb (one_of known) l = true -> map utf8 l = l.
Proof.
  intros Hk. rewrite forallb_Forall. induction 1 as [|s l Hs _ IH]; [done|]. cbn [map]. f_equal; [|done].
  apply existsb_elem_of in Hs as (x & Hx & He). apply String.eqb_eq in He as <-.
  rewrite forallb_Forall, Forall_forall in Hk. by apply ToValidUTF8_id, Hk.
Qed.

Lemma if_present_map {A} (f g : A -> bool) (h : A -> A) o :
  (forall a, f a = true -> g (h a) = true) -> if_present f o = true -> if_present g (option_map h o) = true.
Proof. intros H. destruct o; [apply H|done]. Qed.

(** Split a conjunction of fitting fields, and rebuild it. *)
Ltac split_fields := repeat match goal with |- (_ && _) = true => apply andb_true_iff; split end.

Ltac fields :=
  intros; destruct_hyps; split_fields;
  unfold sha256_text, prefixed_text, id_text in *;
  first [assumption
        |match goal with |- true = true => reflexivity end
        |rewrite match_utf8; assumption
        |rewrite text_utf8; assumption
        |rewrite or_empty_utf8 by (intros; apply match_utf8); assumption
        |apply one_of_utf8; [vm_compute; reflexivity|assumption]
        |apply is_utf8; [vm_compute; reflexivity|assumption]
        |idtac].

Lemma platform_utf8 p : platform_fits p = true -> platform_fits (utf8_platform p) = true.
Proof. unfold platform_fits, utf8_platform. cbn [OS Arch]. fields. Qed.
Lemma subject_utf8 s : subject_fits s = true -> subject_fits (utf8_subject s) = true.
Proof. unfold subject_fits, utf8_subject. cbn [Subj_ID DisplayName Subj_Version]. fields. Qed.
Lemma projection_utf8 e : projection_fits e = true -> projection_fits (utf8_projection e) = true.
Proof.
  unfold projection_fits, utf8_projection.
  cbn [SourceKind SourceLocatorHash Proj_Trust ExpectedVersion ExpectedArtifactSHA256]. fields.
Qed.
Lemma tool_utf8 t : tool_fits t = true -> tool_fits (utf8_tool t) = true.
Proof. unfold tool_fits, utf8_tool. cbn [Tool_Name Tool_Version Tool_Commit Toolchain]. fields. Qed.
Lemma receipt_tool_utf8 t : receipt_tool_fits t = true -> receipt_tool_fits (utf8_tool t) = true.
Proof. unfold receipt_tool_fits, utf8_tool. cbn [Tool_Name Tool_Version Tool_Commit Toolchain]. fields. Qed.
Lemma process_utf8 p : process_fits p = true -> process_fits (utf8_process p) = true.
Proof. unfold process_fits, utf8_process. cbn [PID CreatedAtUnixNano BootIDHash]. fields. Qed.
Lemma receipt_process_utf8 p : receipt_process_fits p = true -> receipt_process_fits (utf8_process p) = true.
Proof. unfold receipt_process_fits, utf8_process. cbn [PID CreatedAtUnixNano BootIDHash]. fields. Qed.
Lemma executable_utf8 e : executable_fits e = true -> executable_fits (utf8_executable e) = true.
Proof. unfold executable_fits, utf8_executable. cbn [Basename PathHash FileIDHash]. fields. Qed.
Lemma artifact_utf8 a : artifact_fits a = true -> artifact_fits (utf8_artifact a) = true.
Proof. unfold artifact_fits, utf8_artifact. cbn [Obs_SHA256 FileCount ByteCount DurationMS]. fields. Qed.
Lemma attribution_utf8 h : attribution_fits h = true -> attribution_fits (utf8_attribution h) = true.
Proof.
  unfold attribution_fits, utf8_attribution.
  cbn [Attr_HostID Attr_BindingID Attr_ConfigSourceHash Attr_Confidence]. fields.
Qed.
Lemma evidence_utf8 e : evidence_fits e = true -> evidence_fits (utf8_evidence e) = true.
Proof. unfold evidence_fits, utf8_evidence. cbn [Ev_Type Ev_Digest]. fields. Qed.
Lemma privacy_utf8 p : privacy_fits p = true -> privacy_fits (utf8_privacy p) = true.
Proof.
  unfold privacy_fits, utf8_privacy. cbn [RedactionMode HomeRedacted OmittedFields]. intros H. destruct_hyps.
  rewrite map_utf8_names by done. fields.
Qed.
Lemma observation_utf8 o : observation_fits o = true -> observation_fits (utf8_observation o) = true.
Proof.
  unfold observation_fits, utf8_observation. cbn [Obs_Process Obs_Executable Obs_Artifact InaccessibleFields].
  intros H. destruct_hyps. rewrite map_utf8_names by done. fields.
  - by apply (if_present_map process_fits); [apply process_utf8|].
  - by apply (if_present_map executable_fits); [apply executable_utf8|].
  - by apply (if_present_map artifact_fits); [apply artifact_utf8|].
Qed.

Lemma registered_ascii : forallb ValidString registered_codes = true.
Proof. vm_compute. reflexivity. Qed.

Lemma proof_utf8 p : proof_fits p = true -> proof_fits (utf8_proof p) = true.
Proof.
  unfold proof_fits. intros H. destruct_hyps.
  cbn [utf8_proof SchemaVersion ProofID Tool Proof_Platform Proof_Subject Proof_Expectation Proof_Observation
       Proof_HostAttribution Verdict ProofLevel ReasonCodes Evidence Proof_Privacy Limitations].
  rewrite !(map_utf8_known _ registered_codes) by (done || apply registered_ascii). fields;
    auto using tool_utf8, platform_utf8, subject_utf8, observation_utf8, privacy_utf8.
  - by apply (if_present_map projection_fits); [apply projection_utf8|].
  - by apply (if_present_map attribution_fits); [apply attribution_utf8|].
  - rewrite forallb_map. rewrite forallb_Forall in *. eapply Forall_impl; [eassumption|]. intros e.
    apply evidence_utf8.
Qed.

(** ** What the program writes into these fields *)

Lemma match_literal c t r b :
  byte_val c = r -> r < 128 -> matches (Concat (Class false [(r, r)]) b) (runes (String c t)) = matches b (runes t).
Proof.
  intros <- Hc. rewrite runes_low, matches_class_concat by done. unfold in_class. cbn [existsb fst snd].
  by rewrite (proj2 (in_range_iff _ _ _)) by lia.
Qed.

Definition hex_ranges : list (Z * Z) := [(97, 102); (48, 57)].

Lemma sha256_text_spec s : sha256_text s = sforall is_lower_hex s && (slen s =? 64).
Proof.
  unfold sha256_text. erewrite (range_pattern _ hex_ranges 64 0 is_lower_hex);
    [|vm_compute; reflexivity|done|byte_cases].
  rewrite <- andb_assoc. f_equal. apply eq_true_iff_eq. rewrite andb_true_iff, !Z.leb_le, Z.eqb_eq. lia.
Qed.

Lemma prefixed_spec h : prefixed_text ("sha256:" +:+ h) = sha256_text h.
Proof.
  unfold prefixed_text, sha256_text, MatchString, Regexp_MatchString.
  assert (Hp : Compile "^sha256:[a-f0-9]{64}$" = Some {| BeginText := true; EndText := true; Body :=
    Concat (literal 115) (Concat (literal 104) (Concat (literal 97) (Concat (literal 50) (Concat (literal 53)
      (Concat (literal 54) (Concat (literal 58) (Repeat (Class false hex_ranges) 64 (Some 0%nat)))))))) |})
    by (vm_compute; reflexivity).
  assert (Hh : Compile "^[a-f0-9]{64}$"
               = Some {| BeginText := true; EndText := true; Body := Repeat (Class false hex_ranges) 64 (Some 0%nat) |})
    by (vm_compute; reflexivity).
  rewrite Hp, Hh. unfold search, literal. cbn [BeginText EndText Body cat String.append].
  by rewrite !match_literal.
Qed.

Lemma sha256_text_hex s : sha256_text (sha256_hex s) = true.
Proof.
  rewrite sha256_text_spec, sha256_hex_lower. unfold slen. by rewrite sha256_hex_length.
Qed.

Lemma identity_hash_fits encoded : prefixed_text (identity_hash encoded) = true.
Proof. unfold identity_hash. rewrite prefixed_spec. apply sha256_text_hex. Qed.

Lemma hashIdentifier_fits domain value : prefixed_text (hashIdentifier domain value) = true.
Proof. unfold hashIdentifier. rewrite prefixed_spec. apply sha256_text_hex. Qed.

Lemma hashJSON_fits value : prefixed_text (hashJSON value) = true.
Proof. unfold hashJSON. rewrite prefixed_spec. apply sha256_text_hex. Qed.

Lemma id_text_spec s : id_text s = schema_id s.
Proof.
  unfold id_text. erewrite (MatchString_label _ _ _ 127) by (vm_compute; reflexivity).
  destruct s as [|c t]; [done|]. cbn [schema_id]. f_equal; [f_equal|].
  - revert c. byte_cases.
  - apply sforall_ext. byte_cases.
  - rewrite len_leb. unfold slen. cbn [String.length]. apply eq_true_iff_eq. rewrite !Z.leb_le. lia.
Qed.

(** A creation time in nanoseconds. *)
Definition digit_ranges : list (Z * Z) := [(48, 57)].

Lemma positive_text n : 0 < n <= int64_max -> MatchString "^[1-9][0-9]{0,19}$" (FormatInt n) = true.
Proof.
  unfold int64_max. intros Hn. erewrite (MatchString_label _ [(49, 57)] digit_ranges 19);
    [|vm_compute; reflexivity|done|done].
  unfold FormatInt. rewrite (proj2 (Z.ltb_ge n 0)), digits_fuel_of, str_app_nil_r by lia.
  destruct (digits_of_head 20 n) as (c & t & Hd & Hc); [cbn; lia|].
  pose proof (digits_of_digits 20 n ltac:(lia)) as Hall. pose proof (digits_of_length 20 n) as Hlen.
  rewrite Hd in *. rewrite sforall_cons in Hall. apply andb_true_iff in Hall as [_ Ht]. cbn [String.length] in Hlen. split_fields.
  - unfold in_class. cbn [existsb fst snd]. rewrite orb_false_r. apply in_range_iff. lia.
  - rewrite <- Ht. apply sforall_ext. byte_cases.
  - apply Nat.leb_le. lia.
Qed.

Lemma time_text n : 0 <= n <= int64_max -> MatchString "^(0|[1-9][0-9]{0,19})$" (FormatInt n) = true.
Proof.
  intros Hn. destruct (Z.eq_dec n 0) as [->|Hz]; [vm_compute; reflexivity|].
  pose proof (positive_text n ltac:(lia)) as Hp. revert Hp. unfold MatchString, Regexp_MatchString.
  set (digits := Concat (Class false [(49, 57)]) (Repeat (Class false digit_ranges) 0 (Some 19%nat))).
  assert (H1 : Compile "^[1-9][0-9]{0,19}$" = Some {| BeginText := true; EndText := true; Body := digits |})
    by (vm_compute; reflexivity).
  assert (H2 : Compile "^(0|[1-9][0-9]{0,19})$"
               = Some {| BeginText := true; EndText := true; Body := Alternate (literal 48) digits |})
    by (vm_compute; reflexivity).
  rewrite H1, H2. unfold search. cbn [BeginText EndText Body cat]. rewrite !matches_iff.
  cbn [lang cat digits]. intros H. by right.
Qed.
