(* ===== verification/Artifact.v ===== *)
(** * Artifact digests ([internal/artifact], Unix build)

    [Digest] walks the declared artifact through open descriptors, never
    following a link, hashes each selected file while checking that it does
    not change, reopens everything it visited before it answers, and hashes
    the canonical listing.  The operating system is the record [FS] of
    operations on a world; [golang.org/x/text/unicode/norm] is the function
    [NFC].  Error texts are dropped: an error is its reason code. *)

From S2P Require Import Prelude GoStrings GoPath GoSha256 Model Canonical.
From S2P Require Import Contract Expectation Process Evaluator World.

(** ** Files ([digest.go], [file_change_linux.go]) *)

Inductive errno := ELOOP | ENOTDIR | ENOENT | OtherErrno.

Inductive FileKind := RegularKind | DirectoryKind | OtherKind.

#[global] Instance FileKind_eq_dec : EqDecision FileKind.
Proof. solve_decision. Defined.

(** [os.FileInfo] with its [syscall.Stat_t]. *)
Record FileInfo := {
  Mode : FileKind;
  Size : Z;
  ModTime : Z;                (* nanoseconds *)
  Ctim : Z * Z;               (* seconds and nanoseconds *)
  Dev : Z;
  Ino : Z
}.

Definition IsRegular (i : FileInfo) : bool := bool_decide (Mode i = RegularKind).
Definition IsDir (i : FileInfo) : bool := bool_decide (Mode i = DirectoryKind).

Record treeEntry := { Entry_Path : string; Entry_SHA256 : string; Entry_Size : Z }.

Record fileState := {
  size : Z;
  modUnixNano : Z;
  identity : string;
  changeToken : string;
  info : FileInfo
}.

Definition fileChangeToken (i : FileInfo) : string :=
  FormatInt (fst (Ctim i)) +:+ ":" +:+ FormatInt (snd (Ctim i)).

Definition stateFromInfo (i : FileInfo) (file_identity : string) : fileState :=
  {| size := Size i; modUnixNano := ModTime i; identity := file_identity;
     changeToken := fileChangeToken i; info := i |}.

(** [os.SameFile]. *)
Definition SameFile (a b : FileInfo) : bool := (Dev a =? Dev b) && (Ino a =? Ino b).

Definition fileChanged (before after : fileState) : bool :=
  if negb (size before =? size after) || negb (modUnixNano before =? modUnixNano after)
     || negb (changeToken before =s changeToken after) then true
  else if negb (identity before =s EmptyString) || negb (identity after =s EmptyString)
  then negb (identity before =s identity after)
  else negb (SameFile (info before) (info after)).

(** The operations the package uses on a world [W] with descriptors [H]. *)
Record FS (W H : Type) := {
  Now : W -> Z * W;                                  (* [clock.Now], nanoseconds *)
  CtxErr : W -> bool * W;                            (* [ctx.Err() != nil] *)
  OpenSlash : W -> result errno H * W;               (* [unix.Open("/", ...)] *)
  Openat : H -> string -> bool -> W -> result errno H * W;  (* no follow; directories only? *)
  Dup : H -> W -> result errno H * W;
  Fstat : H -> W -> result errno FileInfo * W;
  ReadDir : H -> W -> result errno (list string) * W;
  Read : H -> nat -> W -> result errno string * W;   (* the empty string at end of file *)
  Close : H -> W -> W
}.
Arguments Now {W H}. Arguments CtxErr {W H}. Arguments OpenSlash {W H}. Arguments Openat {W H}.
Arguments Dup {W H}. Arguments Fstat {W H}. Arguments ReadDir {W H}. Arguments Read {W H}.
Arguments Close {W H}.

Inductive open_failure := LinkRejected | OpenFailed.

Definition domainError (reason : string) : go_error := ArtifactError reason.

(** The budget of a bounded recursion ran out; the bounds proved below show
    that it never does. *)
Definition out_of_fuel : go_error := OtherError "out of fuel".

Record pinnedSnapshot := { snap_path : string; snap_state : fileState }.

(** What a walk has accumulated. *)
Record walk_state := {
  entries : list treeEntry;
  seen : list string;
  totalBytes : Z;
  entrypointIdentity : string;
  snapshots : list pinnedSnapshot
}.

(** What a child turns out to be while its descriptor is open. *)
Inductive child_outcome :=
| ChildDir (state : fileState) (after : walk_state)
| ChildSkipped
| ChildFile (path digest : string) (bytes : Z) (opened : fileState).

Definition elapsedMS (start finish : Z) : Z :=
  let duration := Z.max int64_min (Z.min int64_max (finish - start)) in
  if duration <? 0 then 0 else Z.quot duration 1000000.

(** Counts and sizes stay between 0 and the limits, so nothing wraps. *)
Definition wouldExceed (currentFiles currentBytes nextBytes maxFiles maxBytes : Z) : bool :=
  (maxFiles <? currentFiles + 1) || (nextBytes <? 0) || (maxBytes - nextBytes <? currentBytes).

Definition entry_json (e : treeEntry) : json :=
  JObject [("path", JString (Entry_Path e)); ("sha256", JString (Entry_SHA256 e));
           ("size", JNumber (FormatInt (Entry_Size e)))].

Definition compareEntries (left right : treeEntry) : comparison :=
  Compare (Entry_Path left) (Entry_Path right).

Definition artifact_limits (resolved : Resolved) : ArtifactExpectation :=
  Artifact (Res_Value resolved).

Section Digest.
Context {W H : Type} (fs : FS W H).
Variable NFC : string -> string.

Definition normalizeRelative (value : string) : result unit string :=
  if (value =s EmptyString) || HasPrefix value "/" || has_byte value (byte_of 0) then Err tt
  else if existsb (fun segment => (segment =s EmptyString) || (segment =s ".") || (segment =s ".."))
            (Split value slash) then Err tt
  else Ok (NFC value).

Definition close (h : H) : W -> W := Close fs h.

Definition now : io W go_error Z := fun w => let '(t, w') := Now fs w in (Ok t, w').

Definition ctx_err : io W go_error bool := fun w => let '(b, w') := CtxErr fs w in (Ok b, w').

Definition checkActive (deadline : Z) : io W go_error unit :=
  do! cancelled := ctx_err in
  require! negb cancelled else domainError "SCAN_CANCELLED" in
  do! t := now in
  require! negb (deadline <? t) else domainError "ARTIFACT_SCAN_LIMIT_EXCEEDED" in
  ret tt.

Definition open_error (e : errno) : open_failure :=
  match e with ELOOP | ENOTDIR => LinkRejected | ENOENT | OtherErrno => OpenFailed end.

Definition openChildNoFollow (parent : H) (name : string) : io W open_failure H :=
  wrap_error open_error (Openat fs parent name false).

(** The components left to open below [current], which is closed once the
    next descriptor has been asked for. *)
Fixpoint open_components (current : H) (components : list string) : io W open_failure H :=
  match components with
  | [] => ret current
  | component :: rest =>
      let directory := negb (length rest =? 0)%nat in
      do! next := defer (wrap_error open_error (Openat fs current component directory))
                        (close current) in
      open_components next rest
  end.

Definition openArtifactRoot (path : string) : io W open_failure H :=
  let cleaned := Clean path in
  require! IsAbs cleaned else OpenFailed in
  do! current := wrap_error (fun _ => OpenFailed) (OpenSlash fs) in
  let components := Split (TrimPrefix cleaned sep) slash in
  if bool_decide (components = [EmptyString]) then ret current
  else open_components current components.

Definition classifyArtifactOpen (err : open_failure) : go_error :=
  match err with
  | LinkRejected => domainError "ARTIFACT_SYMLINK_REJECTED"
  | OpenFailed => domainError "ARTIFACT_INACCESSIBLE"
  end.

(** [fileIdentity]: a second [fstat]; the empty string on failure. *)
Definition fileIdentity (h : H) : io W errno string :=
  do! r := attempt (E := errno) (Fstat fs h) in
  ret (match r with
       | Ok i => FormatInt (Dev i) +:+ ":" +:+ FormatInt (Ino i)
       | Err _ => EmptyString
       end).

Definition fileStateFromFile (h : H) : io W errno fileState :=
  do! i := Fstat fs h in
  do! file_identity := fileIdentity h in
  ret (stateFromInfo i file_identity).

(** [fileStateFromFile] with its failure reported as [reason]. *)
Definition state_or (reason : string) (h : H) : io W go_error fileState :=
  wrap_error (fun _ => domainError reason) (fileStateFromFile h).

(** The end of every re-verification: the file just opened, closed on return,
    must be in the expected state. *)
Definition verify_opened (opened : io W open_failure H) (expected : fileState)
  : io W go_error unit :=
  do! actual := wrap_error (fun _ => domainError "ARTIFACT_CHANGED_DURING_READ") opened in
  defer
    (do! actualState := state_or "ARTIFACT_CHANGED_DURING_READ" actual in
     require! negb (fileChanged expected actualState)
       else domainError "ARTIFACT_CHANGED_DURING_READ" in
     ret tt)
    (close actual).

Definition verifyArtifactPath (path : string) (expected : fileState) : io W go_error unit :=
  verify_opened (openArtifactRoot path) expected.

Definition verifyPinnedChild (parent : H) (name : string) (expected : fileState)
  : io W go_error unit :=
  verify_opened (openChildNoFollow parent name) expected.

(** The components left to open below [current]. *)
Fixpoint open_segments (current : H) (segments : list string) : io W open_failure H :=
  match segments with
  | [] => ret current
  | component :: rest =>
      do! next := defer (openChildNoFollow current component) (close current) in
      open_segments next rest
  end.

Definition openRelativeNoFollow (root : H) (relative : string) : io W open_failure H :=
  do! current := wrap_error (fun _ => OpenFailed) (Dup fs root) in
  if relative =s EmptyString then ret current
  else open_segments current (Split relative slash).

Definition verifyRelativeSnapshot (root : H) (snapshot : pinnedSnapshot) : io W go_error unit :=
  verify_opened (openRelativeNoFollow root (snap_path snapshot)) (snap_state snapshot).

(** The read loop of [digestOpenedFile]; [content] is what the hash has been
    given.  Every chunk but the last takes a byte of the budget. *)
Fixpoint read_loop (fuel : nat) (h : H) (deadline maxBytes bytesRead : Z) (content : string)
  : io W go_error string :=
  match fuel with
  | O => throw out_of_fuel
  | S fuel' =>
      do! _ := checkActive deadline in
      do! chunk := wrap_error (fun _ => domainError "ARTIFACT_INACCESSIBLE")
                     (Read fs h (Z.to_nat 65536)) in
      if chunk =s EmptyString then ret content
      else
        require! negb (maxBytes - bytesRead <? slen chunk)
          else domainError "ARTIFACT_SCAN_LIMIT_EXCEEDED" in
        read_loop fuel' h deadline maxBytes (bytesRead + slen chunk) (content +:+ chunk)
  end.

Definition digestOpenedFile (h : H) (deadline maxBytes : Z)
  : io W go_error (string * Z * fileState) :=
  do! before := state_or "ARTIFACT_INACCESSIBLE" h in
  require! IsRegular (info before) else domainError "ARTIFACT_UNSUPPORTED_TYPE" in
  require! negb (maxBytes <? Size (info before)) else domainError "ARTIFACT_SCAN_LIMIT_EXCEEDED" in
  do! content := read_loop (Z.to_nat maxBytes + 1) h deadline maxBytes 0 EmptyString in
  do! after := state_or "ARTIFACT_INACCESSIBLE" h in
  require! negb (fileChanged before after) else domainError "ARTIFACT_CHANGED_DURING_READ" in
  ret (sha256_hex content, size before, before).

(** ** The walk ([digest_secure_unix.go]) *)

Variable resolved : Resolved.
Variable deadline : Z.

Definition normalized_entrypoint : string :=
  match normalizeRelative (ToSlash (Entrypoint (Launch (Res_Value resolved)))) with
  | Ok entrypoint => entrypoint
  | Err _ => EmptyString
  end.

Definition note_snapshot (st : walk_state) (path : string) (state : fileState) : walk_state :=
  {| entries := entries st; seen := seen st; totalBytes := totalBytes st;
     entrypointIdentity := entrypointIdentity st;
     snapshots := snapshots st ++ [{| snap_path := path; snap_state := state |}] |}.

Definition note_file (st : walk_state) (path digest : string) (bytes : Z) (opened : fileState)
  : walk_state :=
  {| entries := entries st ++ [{| Entry_Path := path; Entry_SHA256 := digest; Entry_Size := bytes |}];
     seen := seen st ++ [path];
     totalBytes := totalBytes st + bytes;
     entrypointIdentity := if path =s normalized_entrypoint then identity opened
                           else entrypointIdentity st;
     snapshots := snapshots st ++ [{| snap_path := path; snap_state := opened |}] |}.

Definition child_path (prefix name : string) : string :=
  if prefix =s EmptyString then name else prefix +:+ "/" +:+ name.

(** A regular child, while it is open. *)
Definition walk_file (child : H) (file : FileInfo) (normalized : string) (st : walk_state)
  : io W go_error child_outcome :=
  require! IsRegular file else domainError "ARTIFACT_UNSUPPORTED_TYPE" in
  if negb (Includes resolved normalized) then ret ChildSkipped
  else
    require! negb (contains (seen st) normalized)
      else domainError "ARTIFACT_NORMALIZATION_COLLISION" in
    require! negb (wouldExceed (Z.of_nat (length (entries st))) (totalBytes st) (Size file)
                     (MaxFiles (artifact_limits resolved)) (MaxBytes (artifact_limits resolved)))
      else domainError "ARTIFACT_SCAN_LIMIT_EXCEEDED" in
    do! digested := digestOpenedFile child deadline
                      (MaxBytes (artifact_limits resolved) - totalBytes st) in
    let '(digest, bytes, opened) := digested in
    ret (ChildFile normalized digest bytes opened).

(** The recursive call of a walk on an open subdirectory. *)
Definition recursion : Type := H -> string -> walk_state -> io W go_error walk_state.

Definition walk_opened (recurse : recursion) (prefix name : string) (child : H) (st : walk_state)
  : io W go_error child_outcome :=
  do! file := wrap_error (fun _ => domainError "ARTIFACT_INACCESSIBLE") (Fstat fs child) in
  do! normalized := lift (map_err (fun _ => domainError "ARTIFACT_PATH_ESCAPE")
                            (normalizeRelative (child_path prefix name))) in
  if IsDir file then
    do! state := state_or "ARTIFACT_INACCESSIBLE" child in
    do! after := recurse child normalized (note_snapshot st normalized state) in
    ret (ChildDir state after)
  else walk_file child file normalized st.

Definition walk_child (recurse : recursion) (directory : H) (prefix : string)
  (st : walk_state) (name : string) : io W go_error walk_state :=
  do! _ := checkActive deadline in
  do! child := wrap_error classifyArtifactOpen (openChildNoFollow directory name) in
  do! outcome := defer (walk_opened recurse prefix name child st) (close child) in
  match outcome with
  | ChildDir state after => do! _ := verifyPinnedChild directory name state in ret after
  | ChildSkipped => ret st
  | ChildFile path digest bytes opened =>
      do! _ := verifyPinnedChild directory name opened in
      ret (note_file st path digest bytes opened)
  end.

(** [fuel] bounds the depth: every level keeps a descriptor open, so the
    descriptor limit of the process is enough ([Digest_lawful]). *)
Fixpoint walkPinnedDirectory (fuel : nat) (directory : H) (prefix : string) (st : walk_state)
  : io W go_error walk_state :=
  match fuel with
  | O => throw out_of_fuel
  | S fuel' =>
      do! before := state_or "ARTIFACT_INACCESSIBLE" directory in
      do! children := wrap_error (fun _ => domainError "ARTIFACT_INACCESSIBLE")
                        (ReadDir fs directory) in
      do! st := foldIO (walk_child (walkPinnedDirectory fuel') directory prefix)
                  (SortFunc Compare children) st in
      do! after := state_or "ARTIFACT_CHANGED_DURING_READ" directory in
      require! negb (fileChanged before after) else domainError "ARTIFACT_CHANGED_DURING_READ" in
      ret st
  end.

Definition no_entries (root : fileState) : walk_state :=
  {| entries := []; seen := []; totalBytes := 0; entrypointIdentity := EmptyString;
     snapshots := [{| snap_path := EmptyString; snap_state := root |}] |}.

Definition digestDirectory (fuel : nat) (root : H) : io W go_error (list treeEntry * Z * string) :=
  do! rootState := state_or "ARTIFACT_INACCESSIBLE" root in
  do! st := walkPinnedDirectory fuel root EmptyString (no_entries rootState) in
  do! _ := foldIO (fun _ snapshot => verifyRelativeSnapshot root snapshot) (snapshots st) tt in
  ret (SortFunc compareEntries (entries st), totalBytes st, entrypointIdentity st).
End Digest.

Section DigestEntry.
Context {W H : Type} (fs : FS W H).
Variable NFC : string -> string.

Definition digest_file (resolved : Resolved) (start deadline : Z) (rootFile : H)
  : io W go_error ArtifactObservation :=
  let limits := artifact_limits resolved in
  do! digested := digestOpenedFile fs rootFile deadline (MaxBytes limits) in
  let '(digest, bytes, opened) := digested in
  require! negb (wouldExceed 0 0 bytes (MaxFiles limits) (MaxBytes limits))
    else domainError "ARTIFACT_SCAN_LIMIT_EXCEEDED" in
  do! _ := verifyArtifactPath fs (ArtifactRoot resolved) opened in
  do! t := now fs in
  ret {| Obs_SHA256 := digest; FileCount := 1; ByteCount := bytes;
         DurationMS := elapsedMS start t; EntrypointFileIdentity := identity opened |}.

Definition digest_tree (fuel : nat) (resolved : Resolved) (start deadline : Z) (rootFile : H)
  (rootState : fileState) : io W go_error ArtifactObservation :=
  do! walked := digestDirectory fs NFC resolved deadline fuel rootFile in
  let '(listing, bytes, entrypoint) := walked in
  do! _ := verifyArtifactPath fs (ArtifactRoot resolved) rootState in
  require! negb (length listing =? 0)%nat else domainError "EXPECTATION_INVALID" in
  do! encoded := lift (map_err (fun _ => domainError "EXPECTATION_INVALID")
                         (Marshal (JArray (map entry_json (SortFunc compareEntries listing))))) in
  do! t := now fs in
  ret {| Obs_SHA256 := sha256_hex encoded; FileCount := Z.of_nat (length listing);
         ByteCount := bytes; DurationMS := elapsedMS start t;
         EntrypointFileIdentity := entrypoint |}.

Definition Digest (fuel : nat) (resolved : Resolved) : io W go_error ArtifactObservation :=
  do! start := now fs in
  let deadline := start + wrap64 (MaxDurationMS (artifact_limits resolved) * 1000000) in
  do! _ := checkActive fs deadline in
  do! rootFile := wrap_error classifyArtifactOpen (openArtifactRoot fs (ArtifactRoot resolved)) in
  defer
    (do! rootState := state_or fs "ARTIFACT_INACCESSIBLE" rootFile in
     if IsRegular (info rootState) then digest_file resolved start deadline rootFile
     else
       require! IsDir (info rootState) else domainError "ARTIFACT_UNSUPPORTED_TYPE" in
       digest_tree fuel resolved start deadline rootFile rootState)
    (close fs rootFile).
End DigestEntry.

(** ** What every file system guarantees *)

(** The laws of descriptors: [live] counts those a process has open, of which
    there are at most [limit]; sizes are not negative. *)
Class DescriptorLaws {W H} (fs : FS W H) (live : W -> Z) (limit : Z) : Prop := {
  now_live : forall w, live (snd (Now fs w)) = live w;
  ctx_live : forall w, live (snd (CtxErr fs w)) = live w;
  slash_live : forall w, live (snd (OpenSlash fs w)) = live w + Z.b2z (is_ok (fst (OpenSlash fs w)));
  openat_live : forall h name directory w,
    live (snd (Openat fs h name directory w))
    = live w + Z.b2z (is_ok (fst (Openat fs h name directory w)));
  dup_live : forall h w, live (snd (Dup fs h w)) = live w + Z.b2z (is_ok (fst (Dup fs h w)));
  fstat_live : forall h w, live (snd (Fstat fs h w)) = live w;
  readdir_live : forall h w, live (snd (ReadDir fs h w)) = live w;
  read_live : forall h n w, live (snd (Read fs h n w)) = live w;
  close_live : forall h w, live (Close fs h w) = live w - 1;
  live_limit : forall w, live w <= limit;
  fstat_size : forall h w i, fst (Fstat fs h w) = Ok i -> 0 <= Size i
}.

Section Laws.
Context {W H : Type} (fs : FS W H) (live : W -> Z) (limit : Z) `{!DescriptorLaws fs live limit}.
Variable NFC : string -> string.

(** [uses n k c Q]: from [n] open descriptors, [c] ends with [k] and a value
    in [Q], or with [n] and an error in [R]. *)
Definition uses {E A} (n k : Z) (c : io W E A) (Q : A -> Prop) (R : E -> Prop) : Prop :=
  triple (fun w => live w = n) c (fun a w => live w = k /\ Q a) (fun e w => live w = n /\ R e).

Definition reason (e : go_error) : Prop :=
  exists code, e = ArtifactError code /\ code ∈ artifact_reasons.

Lemma reason_domain code : contains artifact_reasons code = true -> reason (domainError code).
Proof.
  intros Hc. exists code. split; [done|]. unfold contains in Hc.
  apply existsb_elem_of in Hc as (x & Hx & ->%String.eqb_eq). done.
Qed.

Lemma reason_classify e : reason (classifyArtifactOpen e).
Proof. destruct e; by apply reason_domain. Qed.

Lemma uses_bind {E A B} n k (c : io W E A) (f : A -> io W E B) M Q R :
  uses n n c M R -> (forall a, M a -> uses n k (f a) Q R) -> uses n k (bind c f) Q R.
Proof.
  intros Hc Hf. apply (triple_bind _ _ _ (fun a w => live w = n /\ M a)); [exact Hc|].
  intros a w [Hw Ha]. by apply Hf.
Qed.

Lemma uses_ret {E A} n (a : A) (Q : A -> Prop) (R : E -> Prop) : Q a -> uses n n (ret a) Q R.
Proof. intros Ha. by apply triple_ret. Qed.

Lemma uses_throw {E A} n k (e : E) (Q : A -> Prop) (R : E -> Prop) :
  R e -> uses n k (throw e) Q R.
Proof. intros Ha. by apply triple_throw. Qed.

Lemma uses_require {E A} n k (b : bool) (e : E) (f : unit -> io W E A) Q (R : E -> Prop) :
  R e -> (b = true -> uses n k (f tt) Q R) -> uses n k (bind (require b e) f) Q R.
Proof. intros He Hf. apply triple_require; [done|]. intros _ w Hw. done. Qed.

Lemma uses_lift {E A} n (r : result E A) (Q : A -> Prop) (R : E -> Prop) :
  (forall a, r = Ok a -> Q a) -> (forall e, r = Err e -> R e) -> uses n n (lift r) Q R.
Proof. intros HQ HR. apply triple_lift; auto. Qed.

Lemma uses_wrap {E F A} n k (f : E -> F) (c : io W E A) Q (R : F -> Prop) :
  uses n k c Q (fun e => R (f e)) -> uses n k (wrap_error f c) Q R.
Proof. intros Hc. by apply triple_wrap. Qed.

Lemma uses_impl {E A} n k (c : io W E A) (Q Q' : A -> Prop) (R R' : E -> Prop) :
  uses n k c Q' R' -> (forall a, Q' a -> Q a) -> (forall e, R' e -> R e) -> uses n k c Q R.
Proof.
  intros Hc HQ HR. eapply triple_conseq; [exact Hc|done|..]; intros ? ? [? ?]; auto.
Qed.

(** Opening a file for a body that closes it on every path. *)
Lemma uses_open {E A B} n (c : io W E A) (body : A -> io W E B) Mx Q (R : E -> Prop) :
  uses n (n + 1) c Mx R ->
  (forall a, Mx a -> triple (fun w => live w = n + 1) (body a)
     (fun b w => live w = n /\ Q b) (fun e w => live w = n /\ R e)) ->
  uses n n (bind c body) Q R.
Proof.
  intros Hc Hb. apply (triple_bind _ _ _ (fun a w => live w = n + 1 /\ Mx a)); [exact Hc|].
  intros a w [Hw Ha]. by apply Hb.
Qed.

Lemma uses_defer {E A} n (c : io W E A) h Q (R : E -> Prop) :
  uses (n + 1) (n + 1) c Q R ->
  triple (fun w => live w = n + 1) (defer c (close fs h))
    (fun a w => live w = n /\ Q a) (fun e w => live w = n /\ R e).
Proof.
  intros Hc. apply triple_defer. eapply triple_conseq; [exact Hc|done|..];
    intros ? w [Hw ?]; (split; [|done]); unfold close; rewrite close_live; lia.
Qed.

Lemma uses_fold {E A S} n (I : S -> Prop) (R : E -> Prop) (f : S -> A -> io W E S) l s :
  I s -> (forall x s0, x ∈ l -> I s0 -> uses n n (f s0 x) I R) -> uses n n (foldIO f l s) I R.
Proof.
  intros Hs Hf. eapply triple_conseq.
  - apply (triple_foldIO (fun _ s0 w => live w = n /\ I s0) (fun e w => live w = n /\ R e)).
    intros x rest s0 Hx w [Hw HI]. exact (Hf x s0 Hx HI w Hw).
  - intros w Hw. done.
  - intros a w Hw. exact Hw.
  - intros e w Hw. exact Hw.
Qed.

(** A single operation. *)
Lemma uses_op {E A} n k (c : io W E A) (Q : A -> Prop) (R : E -> Prop) :
  (forall w, live (snd (c w)) = live w + (if is_ok (fst (c w)) then k - n else 0)) ->
  (forall w a, fst (c w) = Ok a -> Q a) -> (forall w e, fst (c w) = Err e -> R e) ->
  uses n k c Q R.
Proof.
  intros Hl HQ HR w Hw. specialize (Hl w). specialize (HQ w). specialize (HR w).
  destruct (c w) as [[a|e] w']; cbn [fst snd is_ok] in *;
    (split; [lia|]); [by apply HQ|by apply HR].
Qed.

Ltac uses_step :=
  lazymatch goal with
  | |- uses _ _ (bind (require _ _) _) _ _ => apply uses_require; [by apply reason_domain|intros ?]
  | |- uses _ _ (ret _) _ _ => apply uses_ret
  | |- uses _ _ (throw _) _ _ => apply uses_throw
  | |- uses _ _ (wrap_error _ _) _ _ => apply uses_wrap
  | |- uses _ _ (bind _ _) _ _ => eapply uses_bind; [|intros ? ?]
  end.

Lemma openat_opens n h name directory :
  uses n (n + 1) (Openat fs h name directory) (fun _ => True) (fun _ => True).
Proof.
  apply uses_op; [|done|done]. intros w. rewrite openat_live.
  destruct (fst (Openat fs h name directory w)); cbn [is_ok Z.b2z]; lia.
Qed.

Lemma openChild_opens n h name :
  uses n (n + 1) (openChildNoFollow fs h name) (fun _ => True) (fun _ => True).
Proof. apply uses_wrap. eapply uses_impl; [apply openat_opens|done|done]. Qed.

Lemma wrap_openat_opens {E} n (f : errno -> E) h name directory :
  uses n (n + 1) (wrap_error f (Openat fs h name directory)) (fun _ => True) (fun _ => True).
Proof. apply uses_wrap. eapply uses_impl; [apply openat_opens|done|done]. Qed.

(** Replacing the current descriptor by the next keeps one open. *)
Lemma next_descriptor {E} n (c : io W E H) current (Q : H -> Prop) (R : E -> Prop) :
  uses (n + 1) (n + 2) c Q R ->
  triple (fun w => live w = n + 1) (defer c (close fs current))
    (fun h w => live w = n + 1 /\ Q h) (fun e w => live w = n /\ R e).
Proof.
  intros Hc. apply triple_defer. eapply triple_conseq; [exact Hc|done|..];
    intros ? w [Hw ?]; (split; [|done]); unfold close; rewrite close_live; lia.
Qed.

Definition consumes {E} n (c : io W E H) : Prop :=
  triple (fun w => live w = n + 1) c (fun _ w => live w = n + 1 /\ True)
    (fun _ w => live w = n /\ True).

Lemma consumes_next {E} n (c : io W E H) current (k : H -> io W E H) :
  uses (n + 1) (n + 2) c (fun _ => True) (fun _ => True) -> (forall h, consumes n (k h)) ->
  consumes n (bind (defer c (close fs current)) k).
Proof.
  intros Hc Hk. eapply triple_bind; [by apply next_descriptor|].
  intros h. cbn beta. eapply triple_conseq; [apply (Hk h)|by intros w []|done|done].
Qed.

Lemma open_components_consumes n components current :
  consumes n (open_components fs current components).
Proof.
  revert current. induction components as [|c cs IH]; intros current; cbn [open_components].
  - apply triple_ret. done.
  - apply consumes_next; [|done]. replace (n + 2) with ((n + 1) + 1) by lia.
    apply wrap_openat_opens.
Qed.

Lemma open_segments_consumes n segments current :
  consumes n (open_segments fs current segments).
Proof.
  revert current. induction segments as [|c cs IH]; intros current; cbn [open_segments].
  - apply triple_ret. done.
  - apply consumes_next; [|done]. replace (n + 2) with ((n + 1) + 1) by lia.
    apply openChild_opens.
Qed.

Lemma consumes_first {E} n (c : io W E H) (k : H -> io W E H) :
  uses n (n + 1) c (fun _ => True) (fun _ => True) -> (forall h, consumes n (k h)) ->
  uses n (n + 1) (bind c k) (fun _ => True) (fun _ => True).
Proof.
  intros Hc Hk. eapply triple_bind; [exact Hc|].
  intros h. cbn beta. eapply triple_conseq; [apply (Hk h)|by intros w []|done|done].
Qed.

Lemma openArtifactRoot_opens n path :
  uses n (n + 1) (openArtifactRoot fs path) (fun _ => True) (fun _ => True).
Proof.
  unfold openArtifactRoot. apply uses_require; [done|intros _]. apply consumes_first.
  - apply uses_wrap, uses_op; [|done|done]. intros w. rewrite slash_live.
    destruct (fst (OpenSlash fs w)); cbn [is_ok Z.b2z]; lia.
  - intros h. destruct (bool_decide _); [by apply triple_ret|apply open_components_consumes].
Qed.

Lemma openRelative_opens n root relative :
  uses n (n + 1) (openRelativeNoFollow fs root relative) (fun _ => True) (fun _ => True).
Proof.
  apply consumes_first.
  - apply uses_wrap, uses_op; [|done|done]. intros w. rewrite dup_live.
    destruct (fst (Dup fs root w)); cbn [is_ok Z.b2z]; lia.
  - intros h. destruct (_ =s _); [by apply triple_ret|apply open_segments_consumes].
Qed.

Lemma quiet_op {E A} n (c : io W E A) (Q : A -> Prop) :
  (forall w, live (snd (c w)) = live w) -> (forall w a, fst (c w) = Ok a -> Q a) ->
  uses n n c Q (fun _ => True).
Proof.
  intros Hl HQ. apply uses_op; [|done|done]. intros w. rewrite Hl. destruct (is_ok _); lia.
Qed.

Lemma checkActive_uses n deadline : uses n n (checkActive fs deadline) (fun _ => True) reason.
Proof.
  unfold checkActive. apply (uses_bind _ _ _ _ (fun _ => True)).
  { apply uses_op; [|done|].
    - intros w. unfold ctx_err. pose proof (ctx_live w) as E. destruct (CtxErr fs w). simpl in *. lia.
    - intros w e. unfold ctx_err. by destruct (CtxErr fs w). }
  intros cancelled _. uses_step. apply (uses_bind _ _ _ _ (fun _ => True)); [|intros t _].
  { apply uses_op; [|done|].
    - intros w. unfold now. pose proof (now_live w) as E. destruct (Now fs w). simpl in *. lia.
    - intros w e. unfold now. by destruct (Now fs w). }
  uses_step. by uses_step.
Qed.

(** The clock alone. *)
Lemma now_uses n : uses n n (now fs) (fun _ => True) reason.
Proof.
  apply uses_op; [|done|].
  - intros w. unfold now. pose proof (now_live w) as E. destruct (Now fs w). simpl in *. lia.
  - intros w e. unfold now. by destruct (Now fs w).
Qed.

Definition sized (s : fileState) : Prop := 0 <= size s /\ size s = Size (info s).

Lemma fstat_uses n h : uses n n (Fstat fs h) (fun i => 0 <= Size i) (fun _ => True).
Proof. apply quiet_op; [apply fstat_live|]. intros w i. apply fstat_size. Qed.

Lemma state_or_uses n code h :
  contains artifact_reasons code = true -> uses n n (state_or fs code h) sized reason.
Proof.
  intros Hc. apply uses_wrap. eapply uses_impl; [|by intros a Ha; exact Ha|].
  - eapply uses_bind; [apply fstat_uses|intros i Hi].
    eapply (uses_bind _ _ _ _ (fun _ => True)); [|intros x _; by uses_step].
    eapply (uses_bind _ _ _ _ (fun _ => True)); [|intros x _; by uses_step].
    apply (triple_attempt (E := errno)). eapply triple_conseq; [apply (fstat_uses n h)|done|..].
    + intros i' w [Hw _]. done.
    + intros e w [Hw _]. done.
  - intros e _. by apply reason_domain.
Qed.

Lemma verify_opened_uses n opened expected :
  uses n (n + 1) opened (fun _ => True) (fun _ => True) ->
  uses n n (verify_opened fs opened expected) (fun _ => True) reason.
Proof.
  intros Ho. unfold verify_opened. apply (uses_open _ _ _ (fun _ => True)).
  - apply uses_wrap. eapply uses_impl; [exact Ho|done|]. intros e _. by apply reason_domain.
  - intros actual _. apply uses_defer. eapply uses_bind; [by apply state_or_uses|].
    intros s Hs. uses_step. by uses_step.
Qed.

Lemma read_loop_uses n fuel h deadline maxBytes bytesRead content :
  bytesRead <= maxBytes -> maxBytes - bytesRead < Z.of_nat fuel ->
  uses n n (read_loop fs fuel h deadline maxBytes bytesRead content) (fun _ => True) reason.
Proof.
  revert bytesRead content. induction fuel as [|fuel IH]; intros bytesRead content Hb Hf; [lia|].
  cbn [read_loop]. eapply uses_bind; [apply checkActive_uses|intros _ _].
  eapply (uses_bind _ _ _ _ (fun _ => True)).
  { apply uses_wrap. eapply uses_impl;
      [apply (quiet_op _ _ (fun _ => True)); [apply read_live|done]|done|].
    intros e _. by apply reason_domain. }
  intros chunk _. destruct (String.eqb_spec chunk EmptyString) as [|Hne]; [by uses_step|].
  uses_step. apply IH.
  - destruct (Z.ltb_spec (maxBytes - bytesRead) (slen chunk)); [done|lia].
  - destruct chunk; [done|]. unfold slen. cbn [String.length]. lia.
Qed.

Lemma digestOpenedFile_uses n h deadline maxBytes :
  uses n n (digestOpenedFile fs h deadline maxBytes)
    (fun r => let '(_, bytes, _) := r in 0 <= bytes <= maxBytes) reason.
Proof.
  unfold digestOpenedFile. eapply uses_bind; [by apply state_or_uses|intros before [H0 Hs]].
  uses_step. uses_step. apply negb_true_iff, Z.ltb_ge in H2.
  eapply uses_bind; [apply read_loop_uses; lia|intros content _].
  eapply uses_bind; [by apply state_or_uses|intros after _].
  uses_step. uses_step. lia.
Qed.

Variable resolved : Resolved.
Variable deadline : Z.

Definition sizes (l : list treeEntry) : Z := fold_right (fun e n => Entry_Size e + n) 0 l.

(** The invariant of the walk. *)
Record good (st : walk_state) : Prop := {
  good_limits : entries st <> [] ->
    Z.of_nat (length (entries st)) <= MaxFiles (artifact_limits resolved)
    /\ totalBytes st <= MaxBytes (artifact_limits resolved);
  good_total : totalBytes st = sizes (entries st);
  good_sizes : Forall (fun e => 0 <= Entry_Size e) (entries st);
  good_seen : seen st = map Entry_Path (entries st);
  good_distinct : NoDup (map Entry_Path (entries st));
  good_included : Forall (fun e => Includes resolved (Entry_Path e) = true) (entries st)
}.

Lemma sizes_app l1 l2 : sizes (l1 ++ l2) = sizes l1 + sizes l2.
Proof. induction l1 as [|e l1 IH]; cbn [sizes fold_right app]; [done|]. fold (sizes (l1 ++ l2)). fold (sizes l1). lia. Qed.

#[global] Instance sizes_proper : Proper ((≡ₚ) ==> (=)) sizes.
Proof. intros l1 l2. induction 1; cbn [sizes fold_right]; unfold sizes in *; lia. Qed.

Lemma sizes_nonneg l : Forall (fun e => 0 <= Entry_Size e) l -> 0 <= sizes l.
Proof. induction 1; cbn [sizes fold_right]; unfold sizes in *; lia. Qed.

Lemma good_start root : good (no_entries root).
Proof. split; simpl; try done; constructor. Qed.

Lemma good_snapshot st path state : good st -> good (note_snapshot st path state).
Proof. by intros []. Qed.

Lemma good_file st path digest bytes opened :
  good st -> contains (seen st) path = false -> Includes resolved path = true ->
  wouldExceed (Z.of_nat (length (entries st))) (totalBytes st) bytes
    (MaxFiles (artifact_limits resolved)) (MaxBytes (artifact_limits resolved)) = false ->
  good (note_file NFC resolved st path digest bytes opened).
Proof.
  intros [Hl Ht Hs Hn Hd Hi] Hc Hinc [[Hx Hp]%orb_false_iff Hb]%orb_false_iff. to_prop.
  split; cbn [note_file entries seen totalBytes].
  - intros _. rewrite length_app. cbn [length]. lia.
  - rewrite sizes_app, Ht. cbn. lia.
  - apply Forall_app. by repeat constructor.
  - by rewrite map_app, Hn.
  - rewrite map_app. apply NoDup_app. split; [done|]. split; [|by repeat constructor; set_solver].
    intros p Hp' Heq%list_elem_of_singleton. subst p. unfold contains in Hc. rewrite Hn in Hc.
    rewrite existsb_false, Forall_forall in Hc. specialize (Hc _ Hp').
    cbn in Hc. by rewrite String.eqb_refl in Hc.
  - apply Forall_app. by repeat constructor.
Qed.

(** An outcome that leaves the walk in a good state. *)
Definition good_outcome (st : walk_state) (o : child_outcome) : Prop :=
  match o with
  | ChildDir _ after => good after
  | ChildSkipped => True
  | ChildFile path _ bytes _ =>
      contains (seen st) path = false /\ Includes resolved path = true /\
      wouldExceed (Z.of_nat (length (entries st))) (totalBytes st) bytes
        (MaxFiles (artifact_limits resolved)) (MaxBytes (artifact_limits resolved)) = false
  end.

Lemma walk_file_uses n child file normalized st :
  good st ->
  uses n n (walk_file fs resolved deadline child file normalized st) (good_outcome st) reason.
Proof.
  intros Hg. unfold walk_file. uses_step.
  destruct (Includes resolved normalized) eqn:Hi; cbn [negb]; [|by uses_step].
  uses_step. uses_step. eapply uses_bind; [apply digestOpenedFile_uses|].
  intros [[digest bytes] opened] Hb. uses_step. cbn [good_outcome].
  split; [by apply negb_true_iff|]. split; [done|].
  apply negb_true_iff in H2. unfold wouldExceed in *.
  apply orb_false_iff in H2 as [[Hx _]%orb_false_iff _]. rewrite Hx. cbn [orb].
  rewrite orb_false_iff, !Z.ltb_ge. lia.
Qed.

Lemma walk_opened_uses n recurse prefix name child st :
  (forall h p s, good s -> uses n n (recurse h p s) good reason) -> good st ->
  uses n n (walk_opened fs NFC resolved deadline recurse prefix name child st)
    (good_outcome st) reason.
Proof.
  intros Hrec Hg. unfold walk_opened.
  eapply uses_bind; [apply uses_wrap; eapply uses_impl; [apply fstat_uses|intros i Hi; exact Hi|]|].
  { intros e _. by apply reason_domain. }
  intros file _. apply (uses_bind _ _ _ _ (fun _ => True)).
  { apply uses_lift; [done|]. intros e. destruct (normalizeRelative _ _); [done|].
    intros [= <-]. by apply reason_domain. }
  intros normalized _. destruct (IsDir file); [|by apply walk_file_uses].
  eapply uses_bind; [by apply state_or_uses|intros state _].
  eapply uses_bind; [apply Hrec; by apply good_snapshot|intros after Ha]. by uses_step.
Qed.

Lemma walk_child_uses n recurse directory prefix st name :
  (forall h p s, good s -> uses (n + 1) (n + 1) (recurse h p s) good reason) -> good st ->
  uses n n (walk_child fs NFC resolved deadline recurse directory prefix st name) good reason.
Proof.
  intros Hrec Hg. unfold walk_child. eapply uses_bind; [apply checkActive_uses|intros _ _].
  apply (uses_open _ _ _ (fun _ => True)).
  { apply uses_wrap. eapply uses_impl; [apply openChild_opens|done|]. intros e _.
    apply reason_classify. }
  intros child _. eapply triple_bind; [by apply uses_defer, walk_opened_uses|].
  intros outcome w [Hw Ho]. revert w Hw.
  destruct outcome as [state after| |path digest bytes opened]; cbn [good_outcome] in Ho.
  - eapply uses_bind; [apply verify_opened_uses, openChild_opens|intros _ _]. by uses_step.
  - by apply uses_ret.
  - eapply uses_bind; [apply verify_opened_uses, openChild_opens|intros _ _].
    uses_step. destruct Ho as (?&?&?). by apply good_file.
Qed.

Lemma walk_uses fuel n directory prefix st :
  limit < n + Z.of_nat fuel -> good st ->
  uses n n (walkPinnedDirectory fs NFC resolved deadline fuel directory prefix st) good reason.
Proof.
  revert n directory prefix st. induction fuel as [|fuel IH]; intros n directory prefix st Hf Hg.
  { intros w Hw. pose proof (live_limit w). lia. }
  cbn [walkPinnedDirectory]. eapply uses_bind; [by apply state_or_uses|intros before _].
  apply (uses_bind _ _ _ _ (fun _ => True)).
  { apply uses_wrap. eapply uses_impl;
      [apply (quiet_op _ _ (fun _ => True)); [apply readdir_live|done]|done|].
    intros e _. by apply reason_domain. }
  intros children _. eapply uses_bind.
  - apply uses_fold; [exact Hg|]. intros name s0 _ Hs. apply walk_child_uses; [|exact Hs].
    intros h p s Hs'. apply IH; [lia|exact Hs'].
  - intros st' Hg'. eapply uses_bind; [by apply state_or_uses|intros after _].
    uses_step. by uses_step.
Qed.
End Laws.

Section Entry.
Context {W H : Type} (fs : FS W H) (live : W -> Z) (limit : Z) `{!DescriptorLaws fs live limit}.
Variable NFC : string -> string.
Variable resolved : Resolved.

(** What a successful digest says.  For a directory: a nonempty listing of
    selected files, in strict path order, hashed in canonical form. *)
Definition describes (listing : list treeEntry) (obs : ArtifactObservation) : Prop :=
  StronglySorted (lt_by compareEntries) listing
  /\ Forall (fun e => Includes resolved (Entry_Path e) = true) listing
  /\ (exists encoded, Marshal (JArray (map entry_json listing)) = Ok encoded
                      /\ Obs_SHA256 obs = sha256_hex encoded)
  /\ FileCount obs = Z.of_nat (length listing) /\ ByteCount obs = sizes listing.

Definition single_file (obs : ArtifactObservation) : Prop :=
  (exists content, Obs_SHA256 obs = sha256_hex content) /\ FileCount obs = 1.

(** The longest [time.Duration], in milliseconds. *)
Definition longest_ms : Z := 9223372036854.

Definition within_limits (obs : ArtifactObservation) : Prop :=
  1 <= FileCount obs <= MaxFiles (artifact_limits resolved)
  /\ 0 <= ByteCount obs <= MaxBytes (artifact_limits resolved)
  /\ 0 <= DurationMS obs <= longest_ms.

Definition sound_observation (obs : ArtifactObservation) : Prop :=
  within_limits obs /\ (single_file obs \/ exists listing, describes listing obs).

Lemma elapsedMS_range start finish : 0 <= elapsedMS start finish <= longest_ms.
Proof.
  unfold elapsedMS, longest_ms. destruct (Z.ltb_spec (Z.max int64_min (Z.min int64_max (finish - start))) 0);
    [lia|]. split; [apply Z.quot_pos; lia|]. rewrite Z.quot_div_nonneg by lia.
  apply Z.lt_succ_r, Z.div_lt_upper_bound; unfold int64_max, int64_min in *; lia.
Qed.

Lemma entries_distinct l : NoDup (map Entry_Path l) -> distinct_by compareEntries l.
Proof.
  induction l as [|e l IH]; intros Hd; [constructor|].
  cbn [map] in Hd. apply NoDup_cons in Hd as [Hn Hd]. constructor; [|by apply IH].
  apply Forall_forall. intros x Hx Hc%Compare_eq. apply Hn. rewrite Hc.
  apply list_elem_of_fmap. by exists x.
Qed.

Lemma SortFunc_entries_sorted l :
  NoDup (map Entry_Path l) -> StronglySorted (lt_by compareEntries) (SortFunc compareEntries l).
Proof.
  intros Hd. apply SortFunc_sorted; [|..|by apply entries_distinct].
  - intros x y. apply Compare_antisym.
  - intros x y z. apply Compare_trans.
Qed.

(** The listing [digestDirectory] returns. *)
Definition good_listing (r : list treeEntry * Z * string) : Prop :=
  let '(listing, bytes, _) := r in
  StronglySorted (lt_by compareEntries) listing
  /\ Forall (fun e => Includes resolved (Entry_Path e) = true) listing
  /\ Forall (fun e => 0 <= Entry_Size e) listing
  /\ bytes = sizes listing
  /\ (listing <> [] -> Z.of_nat (length listing) <= MaxFiles (artifact_limits resolved)
                       /\ bytes <= MaxBytes (artifact_limits resolved)).

Lemma good_sorted st : good resolved st ->
  good_listing (SortFunc compareEntries (entries st), totalBytes st, entrypointIdentity st).
Proof.
  intros [Hl Ht Hs Hn Hd Hi]. pose proof (SortFunc_perm compareEntries (entries st)) as Hp.
  split; [by apply SortFunc_entries_sorted|].
  split; [by rewrite Hp|]. split; [by rewrite Hp|]. split; [by rewrite Hp|].
  intros Hne. rewrite (Permutation_length Hp). apply Hl. intros He. apply Hne. by rewrite He.
Qed.

Ltac require_step := apply uses_require; [by apply reason_domain|intros ?].

Lemma digestDirectory_uses n deadline fuel root :
  limit < n + Z.of_nat fuel ->
  uses live n n (digestDirectory fs NFC resolved deadline fuel root) good_listing reason.
Proof.
  intros Hf. unfold digestDirectory. eapply uses_bind; [by eapply (state_or_uses fs live limit)|intros rs _].
  eapply uses_bind; [eapply (walk_uses fs live limit); [exact Hf|apply good_start]|intros st Hg].
  apply (uses_bind _ _ _ _ _ (fun _ => True)); [|intros _ _; apply uses_ret; by apply good_sorted].
  apply uses_fold; [done|]. intros s0 x _ _. by eapply (verify_opened_uses fs live limit), (openRelative_opens fs live limit).
Qed.

Lemma digest_file_uses n start deadline rootFile :
  uses live n n (digest_file fs resolved start deadline rootFile) sound_observation reason.
Proof.
  unfold digest_file. eapply (uses_bind _ _ _ _ _ (fun r => (let '(_, bytes, _) := r in
     0 <= bytes <= MaxBytes (artifact_limits resolved)) /\ exists c, fst (fst r) = sha256_hex c)).
  { intros w Hw. pose proof (digestOpenedFile_uses fs live limit n rootFile deadline
      (MaxBytes (artifact_limits resolved)) w Hw) as Hd.
    destruct (digestOpenedFile _ _ _ _ w) as [[r|e] w'] eqn:E; [|exact Hd].
    destruct Hd as [Hl Hb]. split; [exact Hl|]. split; [exact Hb|].
    revert E. unfold digestOpenedFile, bind, require, lift, ret.
    repeat (match goal with |- context [match ?x with _ => _ end] => destruct x eqn:? end;
            try discriminate).
    intros [= <- _]. cbn [fst]. eauto. }
  intros [[digest bytes] opened] [Hb [c Hc]]. require_step.
  eapply uses_bind; [by eapply (verify_opened_uses fs live limit), (openArtifactRoot_opens fs live limit)|intros _ _].
  eapply uses_bind; [by eapply (now_uses fs live limit)|intros t _]. apply uses_ret.
  apply negb_true_iff in H0. apply orb_false_iff in H0 as [[Hx _]%orb_false_iff _].
  apply Z.ltb_ge in Hx. split; [|left; split; [exists c; exact Hc|done]].
  unfold within_limits. cbn [FileCount ByteCount DurationMS]. pose proof (elapsedMS_range start t).
  repeat split; lia.
Qed.

Lemma digest_tree_uses n fuel start deadline rootFile rootState :
  limit < n + Z.of_nat fuel ->
  uses live n n (digest_tree fs NFC fuel resolved start deadline rootFile rootState)
    sound_observation reason.
Proof.
  intros Hf. unfold digest_tree.
  eapply uses_bind; [by apply digestDirectory_uses|].
  intros [[listing bytes] entrypoint] (Hs & Hi & Hz & -> & Hl).
  eapply uses_bind; [by eapply (verify_opened_uses fs live limit), (openArtifactRoot_opens fs live limit)|intros _ _].
  require_step. eapply (uses_bind _ _ _ _ _ (fun encoded =>
    Marshal (JArray (map entry_json (SortFunc compareEntries listing))) = Ok encoded)).
  { apply uses_lift; [intros a; apply map_err_ok|]. intros e. destruct (Marshal _); [done|].
    intros [= <-]. by apply reason_domain. }
  intros encoded He. eapply uses_bind; [by eapply (now_uses fs live limit)|intros t _]. apply uses_ret.
  rewrite sort_sorted_id in He by exact Hs.
  assert (Hne : listing <> []) by (by intros ->). specialize (Hl Hne).
  split; [|right; exists listing; split; [exact Hs|]; split; [exact Hi|]; eauto].
  unfold within_limits. cbn [FileCount ByteCount DurationMS].
  pose proof (sizes_nonneg _ Hz). destruct listing; [done|]. cbn [length] in *.
  pose proof (elapsedMS_range start t). lia.
Qed.

Lemma Digest_uses n fuel :
  limit < n + 1 + Z.of_nat fuel ->
  uses live n n (Digest fs NFC fuel resolved) sound_observation reason.
Proof.
  intros Hf. unfold Digest. eapply uses_bind; [by eapply (now_uses fs live limit)|intros start _].
  eapply uses_bind; [by eapply (checkActive_uses fs live limit)|intros _ _].
  apply (uses_open _ _ _ _ (fun _ => True)).
  { apply uses_wrap. eapply uses_impl; [by eapply (openArtifactRoot_opens fs live limit)|done|].
    intros e _. apply reason_classify. }
  intros rootFile _. eapply (uses_defer fs live limit).
  eapply uses_bind; [by eapply (state_or_uses fs live limit)|intros rs _].
  destruct (IsRegular _); [by apply digest_file_uses|]. require_step.
  apply digest_tree_uses. lia.
Qed.
End Entry.

(** C8: whatever the file system does (files may change, appear or vanish
    under the walk at any point), [Digest] closes every descriptor it opened,
    its recursion ends within the descriptor limit of the process, and when
    it fails it fails with one of the reasons the decision registry knows. *)
Theorem Digest_lawful {W H} (fs : FS W H) live limit `{!DescriptorLaws fs live limit} NFC fuel
  resolved w :
  limit <= live w + Z.of_nat fuel ->
  live (snd (Digest fs NFC fuel resolved w)) = live w
  /\ forall e, fst (Digest fs NFC fuel resolved w) = Err e -> reason e.
Proof.
  intros Hf. pose proof (Digest_uses fs live limit NFC resolved (live w) fuel ltac:(lia) w eq_refl)
    as Hd.
  destruct (Digest fs NFC fuel resolved w) as [[obs|e] w']; cbn [fst snd].
  - destruct Hd as [Hl _]. split; [exact Hl|]. intros e [=].
  - destruct Hd as [Hl He]. split; [exact Hl|]. by intros e' [= <-].
Qed.

(** C9: an artifact observation stays within the declared limits of files and
    bytes, and unless the artifact is a single file its digest is the SHA-256
    of the canonical form of a nonempty listing of selected files in strictly
    increasing path order (so no path occurs twice), whose sizes add up to
    the reported byte count. *)
Theorem Digest_sound {W H} (fs : FS W H) live limit `{!DescriptorLaws fs live limit} NFC fuel
  resolved w obs w' :
  limit <= live w + Z.of_nat fuel ->
  Digest fs NFC fuel resolved w = (Ok obs, w') ->
  sound_observation resolved obs.
Proof.
  intros Hf E.
  pose proof (Digest_uses fs live limit NFC resolved (live w) fuel ltac:(lia) w eq_refl) as Hd.
  rewrite E in Hd. apply Hd.
Qed.
