(* ===== verification/ArtifactTree.v ===== *)
(** * Digests of a directory tree that stays still

    A concrete file system: a tree of files and directories that nobody
    changes.  On it [Digest] is the reference digest of the tree, the hash of
    the canonical listing of its selected files. *)

From S2P Require Import Prelude GoStrings GoPath GoSha256 Model Canonical.
From S2P Require Import Contract Expectation Process Evaluator World Artifact.

Record meta := { m_mtime : Z; m_ctime : Z * Z; m_dev : Z; m_ino : Z }.

Inductive node :=
| NFile (m : meta) (content : string)
| NDir (m : meta) (children : list (string * node))
| NLink (target : string)
| NOther (m : meta).

Definition info_of (kind : FileKind) (bytes : Z) (m : meta) : FileInfo :=
  {| Mode := kind; Size := bytes; ModTime := m_mtime m; Ctim := m_ctime m;
     Dev := m_dev m; Ino := m_ino m |}.

Definition node_info (t : node) : FileInfo :=
  match t with
  | NFile m content => info_of RegularKind (slen content) m
  | NDir m _ => info_of DirectoryKind 0 m
  | NLink _ => info_of OtherKind 0 {| m_mtime := 0; m_ctime := (0, 0); m_dev := 0; m_ino := 0 |}
  | NOther m => info_of OtherKind 0 m
  end.

Definition node_content (t : node) : string :=
  match t with NFile _ content => content | _ => EmptyString end.

Definition node_children (t : node) : list (string * node) :=
  match t with NDir _ children => children | _ => [] end.

Section NodeInd.
Variable P : node -> Prop.
Hypothesis P_file : forall m content, P (NFile m content).
Hypothesis P_dir : forall m children, Forall (fun kv => P (snd kv)) children -> P (NDir m children).
Hypothesis P_link : forall target, P (NLink target).
Hypothesis P_other : forall m, P (NOther m).

Fixpoint node_nested_ind (t : node) : P t :=
  match t with
  | NFile m content => P_file m content
  | NDir m children =>
      P_dir m children
        ((fix go (l : list (string * node)) : Forall (fun kv => P (snd kv)) l :=
            match l with
            | [] => List.Forall_nil _
            | kv :: rest => List.Forall_cons _ kv rest (node_nested_ind (snd kv)) (go rest)
            end) children)
  | NLink target => P_link target
  | NOther m => P_other m
  end.
End NodeInd.

(** ** The file system *)

Record descriptor := { fd : nat; at_node : node }.

Record tree_world := {
  next_fd : nat;
  unread : gmap nat string;     (* what each open descriptor has yet to read *)
  in_use : Z
}.

Section TreeFS.
Variable root : node.
Variable limit : Z.

Definition open_node (t : node) (w : tree_world) : result errno descriptor * tree_world :=
  if in_use w <? limit
  then (Ok {| fd := next_fd w; at_node := t |},
        {| next_fd := S (next_fd w); unread := <[next_fd w := node_content t]> (unread w);
           in_use := in_use w + 1 |})
  else (Err OtherErrno, w).

Definition tree_openat (h : descriptor) (name : string) (directory : bool) (w : tree_world)
  : result errno descriptor * tree_world :=
  match at_node h with
  | NDir _ children =>
      match assoc children name with
      | Some (NLink _) => (Err ELOOP, w)
      | Some (NDir m grandchildren) => open_node (NDir m grandchildren) w
      | Some t => if directory then (Err ENOTDIR, w) else open_node t w
      | None => (Err ENOENT, w)
      end
  | _ => (Err ENOTDIR, w)
  end.

Definition tree_read (h : descriptor) (count : nat) (w : tree_world)
  : result errno string * tree_world :=
  match unread w !! fd h with
  | Some rest => (Ok (stake count rest),
                  {| next_fd := next_fd w; unread := <[fd h := sdrop count rest]> (unread w);
                     in_use := in_use w |})
  | None => (Err OtherErrno, w)
  end.

(** Its clock stands still and nothing cancels. *)
Definition tree_fs : FS tree_world descriptor := {|
  Now w := (0, w);
  CtxErr w := (false, w);
  OpenSlash := open_node root;
  Openat := tree_openat;
  Dup h := open_node (at_node h);
  Fstat h w := (Ok (node_info (at_node h)), w);
  ReadDir h w := (Ok (map fst (node_children (at_node h))), w);
  Read := tree_read;
  Close h w := {| next_fd := next_fd w; unread := delete (fd h) (unread w);
                  in_use := Z.min limit (in_use w) - 1 |}
|}.

Definition tree_live (w : tree_world) : Z := Z.min limit (in_use w).

Lemma open_node_live t w :
  tree_live (snd (open_node t w)) = tree_live w + Z.b2z (is_ok (fst (open_node t w))).
Proof.
  unfold open_node, tree_live. destruct (Z.ltb_spec (in_use w) limit); simpl; lia.
Qed.

#[export] Instance tree_laws : DescriptorLaws tree_fs tree_live limit.
Proof.
  split; try (intros; cbn; lia).
  - intros w. apply open_node_live.
  - intros h name directory w. cbn [Openat tree_fs]. unfold tree_openat.
    destruct (at_node h); try (cbn; lia). destruct (assoc children name) as [[]|];
      first [apply open_node_live | destruct directory; [cbn; lia|apply open_node_live] | cbn; lia].
  - intros h w. apply open_node_live.
  - intros h n w. cbn [Read tree_fs]. unfold tree_read. by destruct (unread w !! fd h).
  - intros h w. unfold tree_live. cbn. lia.
  - intros w. unfold tree_live. lia.
  - intros h w i. cbn [Fstat tree_fs fst]. intros [= <-].
    destruct (at_node h); cbn; unfold slen; lia.
Qed.

Definition empty_world : tree_world := {| next_fd := 0; unread := ∅; in_use := 0 |}.
End TreeFS.

(** ** The reference digest *)

Definition path_of (location : list string) : string := Join location "/".

(** Every node below a directory, with its location. *)
Fixpoint items (location : list string) (t : node) : list (list string * node) :=
  match t with
  | NDir _ children =>
      flat_map (fun kv => (location ++ [fst kv], snd kv) :: items (location ++ [fst kv]) (snd kv))
        children
  | _ => []
  end.

Definition selected (resolved : Resolved) (item : list string * node) : list treeEntry :=
  match snd item with
  | NFile _ content =>
      if Includes resolved (path_of (fst item))
      then [{| Entry_Path := path_of (fst item); Entry_SHA256 := sha256_hex content;
               Entry_Size := slen content |}]
      else []
  | _ => []
  end.

Definition listing (resolved : Resolved) (t : node) : list treeEntry :=
  flat_map (selected resolved) (items [] t).

Definition reference_digest (resolved : Resolved) (t : node) : result canonical_error string :=
  let! encoded := Marshal (JArray (map entry_json (SortFunc compareEntries (listing resolved t)))) in
  Ok (sha256_hex encoded).

Fixpoint descend (t : node) (location : list string) : option node :=
  match location with
  | [] => Some t
  | name :: rest =>
      match assoc (node_children t) name with
      | Some child => descend child rest
      | None => None
      end
  end.

(** Names a file system can hold and the walk accepts. *)
Definition name_ok (name : string) : bool :=
  negb (name =s EmptyString) && negb (name =s ".") && negb (name =s "..")
  && negb (has_byte name slash) && negb (has_byte name (byte_of 0)).

(** Only files and directories, under distinct proper names. *)
Fixpoint plain (t : node) : bool :=
  match t with
  | NFile _ _ => true
  | NDir _ children =>
      forallb name_ok (map fst children)
      && bool_decide (NoDup (map fst children))
      && forallb (fun kv => plain (snd kv)) children
  | _ => false
  end.

Fixpoint height (t : node) : nat :=
  match t with
  | NDir _ children => S (fold_right (fun kv n => Nat.max (height (snd kv)) n) 0%nat children)
  | _ => 0%nat
  end.

(** ** Lookups *)

Lemma assoc_nodup {V} (m : list (string * V)) k v :
  NoDup (map fst m) -> (k, v) ∈ m -> assoc m k = Some v.
Proof.
  unfold assoc. induction m as [|[k' v'] m IH]; cbn [map find option_map fst];
    intros Hn Hin; [by apply elem_of_nil in Hin|].
  apply NoDup_cons in Hn as [Hk Hn]. apply elem_of_cons in Hin as [[= -> ->]|Hin].
  - by rewrite String.eqb_refl.
  - destruct (String.eqb_spec k' k) as [->|Hne]; [|by apply IH].
    exfalso. apply Hk, list_elem_of_fmap. by exists (k, v).
Qed.

Lemma descend_snoc t location name child :
  forall d, descend t location = Some d -> assoc (node_children d) name = Some child ->
  descend t (location ++ [name]) = Some child.
Proof.
  revert t. induction location as [|n ns IH]; intros t d Hd Hc.
  - injection Hd as <-. cbn [app descend]. by rewrite Hc.
  - cbn [app descend] in *. destruct (assoc (node_children t) n); [|done]. by apply (IH _ d).
Qed.

Section Plain.
Variable m : meta.
Variable children : list (string * node).
Hypothesis Hplain : plain (NDir m children) = true.

Lemma plain_names : Forall (fun name => name_ok name = true) (map fst children).
Proof.
  cbn [plain] in Hplain. apply andb_true_iff in Hplain as [[Hn _]%andb_true_iff _].
  by apply forallb_Forall.
Qed.

Lemma plain_nodup : NoDup (map fst children).
Proof.
  cbn [plain] in Hplain. apply andb_true_iff in Hplain as [[_ Hn]%andb_true_iff _].
  by apply bool_decide_eq_true in Hn.
Qed.

Lemma plain_child name child : (name, child) ∈ children -> plain child = true.
Proof.
  intros Hin. cbn [plain] in Hplain. apply andb_true_iff in Hplain as [_ Hc].
  apply forallb_Forall in Hc. rewrite Forall_forall in Hc. exact (Hc _ Hin).
Qed.
End Plain.

Lemma height_child m children name child :
  (name, child) ∈ children -> (height child < height (NDir m children))%nat.
Proof.
  intros Hin. cbn [height].
  induction children as [|kv rest IH]; [by apply elem_of_nil in Hin|].
  cbn [fold_right]. apply elem_of_cons in Hin as [<-|Hin]; cbn [snd]; [lia|]. specialize (IH Hin). lia.
Qed.

Lemma name_ok_normal name : name_ok name = true -> normal_comp name.
Proof.
  unfold name_ok. rewrite !andb_true_iff, !negb_true_iff. intros ((((H1&H2)&H3)&H4)&_).
  to_prop. by repeat split.
Qed.

Definition location_ok (location : list string) : Prop :=
  Forall (fun name => name_ok name = true) location.

Lemma Split_path_of location :
  location <> [] -> location_ok location -> Split (path_of location) slash = location.
Proof.
  intros Hne Hl. apply Split_Join; [done|]. apply normal_no_sep.
  eapply Forall_impl; [exact Hl|apply name_ok_normal].
Qed.

Lemma path_of_nonempty location : location <> [] -> location_ok location -> path_of location <> EmptyString.
Proof.
  intros Hne Hl. destruct location as [|n ns]; [done|].
  apply Forall_cons in Hl as [(Hn&_)%name_ok_normal _]. by apply Join_nonempty.
Qed.

Lemma path_of_inj l1 l2 :
  l1 <> [] -> l2 <> [] -> location_ok l1 -> location_ok l2 -> path_of l1 = path_of l2 -> l1 = l2.
Proof.
  intros. rewrite <- (Split_path_of l1), <- (Split_path_of l2) by done. by f_equal.
Qed.

Lemma Join_snoc location name sep0 :
  location <> [] -> Join (location ++ [name]) sep0 = Join location sep0 +:+ sep0 +:+ name.
Proof.
  induction location as [|n ns IH]; [done|]. intros _. destruct ns as [|n' ns']; [done|].
  change (Join ((n :: n' :: ns') ++ [name]) sep0)
    with (n +:+ sep0 +:+ Join ((n' :: ns') ++ [name]) sep0).
  rewrite IH by done. change (Join (n :: n' :: ns') sep0) with (n +:+ sep0 +:+ Join (n' :: ns') sep0).
  by rewrite !str_app_assoc.
Qed.

Lemma child_path_of location name :
  location_ok location -> child_path (path_of location) name = path_of (location ++ [name]).
Proof.
  intros Hl. unfold child_path. destruct location as [|n ns]; [done|].
  rewrite (proj2 (String.eqb_neq _ _)) by by apply path_of_nonempty.
  unfold path_of. by rewrite (Join_snoc (n :: ns)).
Qed.

Lemma has_byte_Join ws sep0 c :
  has_byte sep0 c = false -> Forall (fun w => has_byte w c = false) ws ->
  has_byte (Join ws sep0) c = false.
Proof.
  intros Hs. unfold has_byte in *. induction 1 as [|w ws Hw Hws IH]; [done|].
  destruct ws as [|w' ws']; [done|].
  change (Join (w :: w' :: ws') sep0) with (w +:+ sep0 +:+ Join (w' :: ws') sep0).
  by rewrite !sexists_app, Hw, Hs, IH.
Qed.

Lemma normalizeRelative_path NFC location :
  location <> [] -> location_ok location ->
  normalizeRelative NFC (path_of location) = Ok (NFC (path_of location)).
Proof.
  intros Hne Hl. unfold normalizeRelative.
  rewrite (proj2 (String.eqb_neq _ _)) by by apply path_of_nonempty.
  assert (HP : HasPrefix (path_of location) "/" = false).
  { apply not_true_is_false. intros (t & Ht)%HasPrefix_iff.
    assert (Hh : head (Split (path_of location) slash) = Some EmptyString)
      by (eapply HasPrefix_Split_head; [done|exact Ht]).
    rewrite Split_path_of in Hh by done. destruct location as [|n ns]; [done|].
    injection Hh as ->. by apply Forall_cons in Hl as [? _]. }
  assert (HB : has_byte (path_of location) (byte_of 0) = false).
  { apply has_byte_Join; [done|]. eapply Forall_impl; [exact Hl|]. intros n. unfold name_ok.
    rewrite !andb_true_iff, !negb_true_iff. tauto. }
  rewrite HP, HB. cbn [orb]. rewrite Split_path_of by done.
  rewrite (proj2 (existsb_false _ _)); [done|]. eapply Forall_impl; [exact Hl|].
  intros n (H1&H2&H3&_)%name_ok_normal. apply String.eqb_neq in H1, H2, H3.
  by rewrite H1, H2, H3.
Qed.

Lemma items_below location t :
  plain t = true ->
  Forall (fun item => exists rest, rest <> [] /\ fst item = location ++ rest
            /\ location_ok rest /\ descend t rest = Some (snd item)) (items location t).
Proof.
  revert location. induction t as [|m children IH| |] using node_nested_ind;
    intros location Hp; try constructor.
  apply Forall_forall. intros item Hin. cbn [items] in Hin.
  apply list_elem_of_In, in_flat_map in Hin as ([name child] & Hkv & Hin).
  cbn [fst snd] in Hin. apply list_elem_of_In in Hkv. 
  pose proof (assoc_nodup _ _ _ (plain_nodup m children Hp) Hkv) as Ha.
  assert (Hn : name_ok name = true).
  { pose proof (plain_names m children Hp) as Hn. rewrite Forall_forall in Hn. apply Hn.
    apply list_elem_of_fmap. by exists (name, child). }
  destruct Hin as [<-|Hin].
  - exists [name]. cbn [fst snd descend]. cbn [node_children]. rewrite Ha. by repeat constructor.
  - rewrite Forall_forall in IH. specialize (IH _ Hkv (location ++ [name])
      (plain_child m children Hp _ _ Hkv)). rewrite Forall_forall in IH.
    apply list_elem_of_In in Hin. destruct (IH _ Hin) as (rest & Hne & Hf & Hl & Hd).
    exists (name :: rest). split; [done|]. rewrite Hf, <- app_assoc. split; [done|].
    split; [by constructor|]. cbn [descend node_children]. rewrite Ha. exact Hd.
Qed.

(** A location through [name] is not among those of the other children. *)
Lemma rest_names location name rest below :
  (forall kv, kv ∈ rest -> plain (snd kv) = true) ->
  (location ++ name :: below) ∈ map fst (flat_map (fun kv =>
     (location ++ [fst kv], snd kv) :: items (location ++ [fst kv]) (snd kv)) rest) ->
  name ∈ map fst rest.
Proof.
  intros Hp ([l t] & Hl & Hin)%list_elem_of_fmap. cbn [fst] in Hl. subst l.
  apply list_elem_of_In, in_flat_map in Hin as ([n c] & Hkv & Hin). cbn [fst snd] in Hin.
  apply list_elem_of_In in Hkv. apply list_elem_of_fmap. exists (n, c). split; [|done].
  cbn [fst]. destruct Hin as [[= Hl _]|Hin].
  - apply app_inv_head in Hl. congruence.
  - pose proof (items_below (location ++ [n]) c (Hp _ Hkv)) as Hb. rewrite Forall_forall in Hb.
    apply list_elem_of_In in Hin. destruct (Hb _ Hin) as (r & _ & Hf & _). cbn [fst] in Hf.
    rewrite <- app_assoc in Hf. apply app_inv_head in Hf. by injection Hf.
Qed.

Lemma items_nodup location t : plain t = true -> NoDup (map fst (items location t)).
Proof.
  revert location. induction t as [|m children IH| |] using node_nested_ind;
    intros location Hp; try constructor.
  pose proof (plain_nodup m children Hp) as Hn. pose proof (plain_child m children Hp) as Hc.
  clear Hp. cbn [items].
  induction children as [|[name child] rest IHc]; [constructor|].
  apply Forall_cons in IH as [Hi IH]. cbn [map fst] in Hn. apply NoDup_cons in Hn as [Hname Hn].
  cbn [flat_map fst snd map]. rewrite map_app.
  assert (Hp : plain child = true) by (apply (Hc name); by left).
  pose proof (items_below (location ++ [name]) child Hp) as Hb. rewrite Forall_forall in Hb.
  apply NoDup_cons. split; [|apply NoDup_app; split; [by apply Hi|split]].
  - rewrite elem_of_app. intros [Hin|Hin].
    + apply list_elem_of_fmap in Hin as ([l t'] & Hl & Hin).
      destruct (Hb _ Hin) as (r & Hr & Hf & _). cbn [fst] in *. subst l.
      apply (f_equal length) in Hf. rewrite !length_app in Hf.
      destruct r; [done|]. cbn in Hf. lia.
    + apply (rest_names location name rest) in Hin; [done|].
      intros kv Hkv. apply (Hc (fst kv)). right. by destruct kv.
  - intros l Hin Hin'. apply list_elem_of_fmap in Hin as ([l' t'] & -> & Hin).
    destruct (Hb _ Hin) as (r & _ & Hf & _). cbn [fst] in *. rewrite Hf, <- app_assoc in Hin'.
    apply (rest_names location name rest r) in Hin'; [done|].
    intros kv Hkv. apply (Hc (fst kv)). right. by destruct kv.
  - apply IHc; [done|done|]. intros n c Hin. apply (Hc n). by right.
Qed.

(** ** Running on the tree *)

Definition state_of (t : node) : fileState :=
  stateFromInfo (node_info t) (FormatInt (Dev (node_info t)) +:+ ":" +:+ FormatInt (Ino (node_info t))).

Lemma fileChanged_refl s : fileChanged s s = false.
Proof.
  unfold fileChanged, SameFile. rewrite !Z.eqb_refl, !String.eqb_refl. cbn [negb orb andb].
  by destruct (_ || _).
Qed.

Definition never {E : Type} : E -> tree_world -> Prop := fun _ _ => False.

Section Run.
Variable root : node.
Variable limit : Z.
Notation fs := (tree_fs root limit).

Definition has_open (n : Z) (w : tree_world) : Prop := in_use w = n.

(** [n] descriptors are open besides [h], which has just been opened on [t]. *)
Definition opened (n : Z) (h : descriptor) (t : node) (w : tree_world) : Prop :=
  in_use w = n + 1 /\ at_node h = t /\ (fd h < next_fd w)%nat
  /\ unread w !! fd h = Some (node_content t).

Definition opens {E} (n : Z) (c : io tree_world E descriptor) (t : node) : Prop :=
  triple (has_open n) c (fun h => opened n h t) never.

Definition gives {E A} (n : Z) (c : io tree_world E A) (Q : A -> Prop) : Prop :=
  triple (has_open n) c (fun a w => has_open n w /\ Q a) never.

(** A step that leaves the world alone. *)
Lemma triple_still {E A B} (c : io tree_world E A) a (k : A -> io tree_world E B) P Q R :
  (forall w, c w = (Ok a, w)) -> triple P (k a) Q R -> triple P (bind c k) Q R.
Proof. intros Hc Hk w Hw. unfold bind. rewrite Hc. by apply Hk. Qed.

Lemma triple_yes {E B} (b : bool) (e : E) (k : unit -> io tree_world E B) P Q R :
  b = true -> triple P (k tt) Q R -> triple P (bind (require b e) k) Q R.
Proof. intros -> Hk w Hw. by apply Hk. Qed.

Lemma gives_bind {E A B} n (c : io tree_world E A) (k : A -> io tree_world E B) M Q R :
  gives n c M -> (forall a, M a -> triple (has_open n) (k a) Q R) ->
  triple (has_open n) (bind c k) Q R.
Proof.
  intros Hc Hk w Hw. specialize (Hc w Hw). unfold bind.
  destruct (c w) as [[a|e] w']; [|done]. destruct Hc as [Hw' Ha]. by apply Hk.
Qed.

Lemma gives_bind' {E A B} n (c : io tree_world E A) (k : A -> io tree_world E B) M P Q R :
  triple P c (fun a w => has_open (n + 1) w /\ M a) never ->
  (forall a, M a -> triple (has_open (n + 1)) (k a) Q R) -> triple P (bind c k) Q R.
Proof.
  intros Hc Hk w Hw. specialize (Hc w Hw). unfold bind.
  destruct (c w) as [[a|e] w']; [|done]. destruct Hc as [Hw' Ha]. by apply Hk.
Qed.

Lemma still_now w : now fs w = (Ok 0, w).
Proof. done. Qed.

Lemma still_active deadline w : 0 <= deadline -> checkActive fs deadline w = (Ok tt, w).
Proof.
  intros Hd. unfold checkActive, bind, ctx_err, now. cbn [CtxErr Now tree_fs].
  unfold require, lift. cbn [negb guard_]. by rewrite (proj2 (Z.ltb_ge _ _)).
Qed.

Lemma still_fstat {E} (f : errno -> E) h w :
  wrap_error f (Fstat fs h) w = (Ok (node_info (at_node h)), w).
Proof. done. Qed.

Lemma still_state code h w : state_or fs code h w = (Ok (state_of (at_node h)), w).
Proof. done. Qed.

Lemma still_readdir {E} (f : errno -> E) h w :
  wrap_error f (ReadDir fs h) w = (Ok (map fst (node_children (at_node h))), w).
Proof. done. Qed.

Lemma open_node_opens n t : n + 1 <= limit -> opens n (open_node limit t) t.
Proof.
  intros Hn w Hw. unfold open_node, has_open in *. rewrite (proj2 (Z.ltb_lt _ _)) by lia.
  unfold opened. cbn [in_use at_node fd next_fd unread]. repeat split; [lia|lia|].
  by rewrite lookup_insert_eq.
Qed.

Definition is_link (t : node) : bool := match t with NLink _ => true | _ => false end.

Lemma plain_not_link t : plain t = true -> is_link t = false.
Proof. by destruct t. Qed.

(** Entering [name] from a descriptor, with [directory] saying whether only a
    directory will do. *)
Definition enters (d : node) (name : string) (directory : bool) (t : node) : Prop :=
  assoc (node_children d) name = Some t /\ is_link t = false
  /\ (directory = true -> exists m children, t = NDir m children).

Lemma openat_spec h name directory t :
  enters (at_node h) name directory t ->
  forall w, Openat fs h name directory w = open_node limit t w.
Proof.
  intros (Ha & Hp & Hd) w. cbn [Openat tree_fs]. unfold tree_openat.
  destruct (at_node h) as [| m children | |]; try done. cbn [node_children] in Ha.
  rewrite Ha. destruct t; try done; (destruct directory; [|done]);
    by destruct (Hd eq_refl) as (m' & ch & [=]).
Qed.

Lemma open_node_ok t w : in_use w < limit ->
  open_node limit t w =
    (Ok {| fd := next_fd w; at_node := t |},
     {| next_fd := S (next_fd w); unread := <[next_fd w := node_content t]> (unread w);
        in_use := in_use w + 1 |}).
Proof. intros Hw. unfold open_node. by rewrite (proj2 (Z.ltb_lt _ _)). Qed.

Lemma openChild_opens' n h name t :
  enters (at_node h) name false t -> n + 1 <= limit ->
  opens n (openChildNoFollow fs h name) t.
Proof.
  intros He Hn. apply triple_wrap. intros w Hw. rewrite (openat_spec _ _ _ t He).
  exact (open_node_opens n t Hn w Hw).
Qed.

(** Moving one step down, the descriptor of the directory being closed. *)
Lemma step_down {E} n (f : errno -> E) current d name directory t :
  enters d name directory t -> n + 2 <= limit ->
  triple (opened n current d)
    (defer (wrap_error f (Openat fs current name directory)) (close fs current))
    (fun h => opened n h t) never.
Proof.
  intros He Hn w (Hu & <- & Hf & Hr). unfold defer, wrap_error.
  rewrite (openat_spec _ _ _ t He), open_node_ok by lia. cbn [map_err].
  unfold opened, close. cbn [Close tree_fs in_use at_node fd next_fd unread].
  split; [lia|]. split; [done|]. split; [lia|].
  rewrite lookup_delete_ne by lia. by rewrite lookup_insert_eq.
Qed.

Lemma plain_descend d name rest t :
  plain d = true -> descend d (name :: rest) = Some t ->
  exists child, assoc (node_children d) name = Some child /\ plain child = true
                /\ descend child rest = Some t.
Proof.
  cbn [descend]. intros Hp. destruct (assoc _ _) as [child|] eqn:E; [|done]. intros Ht.
  exists child. split; [done|]. split; [|done]. destruct d as [|m children| |]; try done.
  apply (plain_child m children Hp name). unfold assoc in E.
  destruct (find _ _) as [[k v]|] eqn:F; [|done]. injection E as ->.
  apply find_some in F as [Hin Hk]. cbn [fst] in Hk. apply String.eqb_eq in Hk as ->.
  by apply list_elem_of_In.
Qed.

Lemma open_segments_opens n segments current d t :
  plain d = true -> descend d segments = Some t -> n + 2 <= limit ->
  triple (opened n current d) (open_segments fs current segments) (fun h => opened n h t) never.
Proof.
  revert current d. induction segments as [|name rest IH]; intros current d Hp Ht Hn.
  - injection Ht as <-. by apply triple_ret.
  - apply plain_descend in Ht as (child & Ha & Hpc & Ht); [|done]. cbn [open_segments].
    eapply triple_bind; [|intros h; apply (IH h child Hpc Ht Hn)].
    apply step_down; [|done]. by repeat split; [|apply plain_not_link|].
Qed.

Lemma openRelative_opens' n h relative segments t :
  plain (at_node h) = true -> descend (at_node h) segments = Some t ->
  relative = path_of segments -> location_ok segments -> n + 2 <= limit ->
  opens n (openRelativeNoFollow fs h relative) t.
Proof.
  intros Hp Ht -> Hl Hn. unfold openRelativeNoFollow.
  eapply triple_bind; [apply triple_wrap, (open_node_opens n (at_node h)); lia|].
  intros current. destruct segments as [|s ss].
  - injection Ht as <-. cbn [path_of Join]. rewrite String.eqb_refl. by apply triple_ret.
  - rewrite (proj2 (String.eqb_neq _ _)) by by apply path_of_nonempty.
    rewrite Split_path_of by done. by apply (open_segments_opens n _ _ (at_node h)).
Qed.

Lemma open_components_opens n components current d t :
  descend d components = Some t -> is_link t = false -> n + 2 <= limit ->
  triple (opened n current d) (open_components fs current components) (fun h => opened n h t) never.
Proof.
  revert current d. induction components as [|name rest IH]; intros current d Ht Hl Hn.
  - injection Ht as <-. by apply triple_ret.
  - cbn [descend] in Ht. destruct (assoc _ _) as [child|] eqn:E; [|done].
    cbn [open_components]. eapply triple_bind; [|intros h; apply (IH h child Ht Hl Hn)].
    apply step_down; [|done]. split; [done|]. destruct rest as [|r rs].
    + injection Ht as <-. by split.
    + cbn [descend] in Ht. destruct child; try done. cbn [is_link]. eauto.
Qed.

Lemma openArtifactRoot_opens' n path t :
  IsAbs path = true -> descend root (abs_comps path) = Some t -> is_link t = false ->
  n + 2 <= limit -> opens n (openArtifactRoot fs path) t.
Proof.
  intros Ha Ht Hl Hn. unfold openArtifactRoot. apply triple_yes; [by apply IsAbs_Clean|].
  eapply triple_bind; [apply triple_wrap, (open_node_opens n root); lia|].
  intros current. rewrite Clean_abs by done. rewrite TrimPrefix_app.
  pose proof (abs_comps_normal path) as Hc. destruct (abs_comps path) as [|c cs] eqn:E.
  - rewrite bool_decide_eq_true_2 by done. injection Ht as <-. by apply triple_ret.
  - assert (HS : Split (Join (c :: cs) sep) slash = c :: cs)
      by (apply Split_Join; [done|by apply normal_no_sep]).
    rewrite HS, bool_decide_eq_false_2; [by apply (open_components_opens n _ _ root)|].
    intros [= -> _]. by apply Forall_cons in Hc as [[? _] _].
Qed.

(** Closing the only descriptor opened. *)
Lemma defer_close {E A} n h (P : tree_world -> Prop) (c : io tree_world E A) Q :
  n + 1 <= limit ->
  triple P c (fun a w => has_open (n + 1) w /\ Q a) never ->
  triple P (defer c (close fs h)) (fun a w => has_open n w /\ Q a) never.
Proof.
  intros Hn Hc. apply triple_defer. eapply triple_conseq; [exact Hc|done| |done].
  intros a w [Hw Hq]. split; [|done]. unfold has_open, close in *. cbn [Close tree_fs in_use]. lia.
Qed.

Lemma verify_opened_gives n o t :
  opens n o t -> n + 1 <= limit -> gives n (verify_opened fs o (state_of t)) (fun _ => True).
Proof.
  intros Ho Hn. unfold verify_opened, gives. eapply triple_bind; [apply triple_wrap, Ho|].
  intros h. apply defer_close; [done|].
  intros w (Hu & Ht & _). rewrite <- Ht. unfold bind. rewrite still_state, fileChanged_refl.
  by split.
Qed.

Lemma sdrop_stake_nil n s : stake n s = EmptyString -> (0 < n)%nat -> s = EmptyString.
Proof. destruct s, n; simpl; [done|done|lia|done]. Qed.

Lemma read_loop_gives n h deadline maxBytes rest fuel bytesRead content :
  0 <= deadline -> slen rest <= maxBytes - bytesRead -> slen rest < Z.of_nat fuel ->
  triple (fun w => has_open n w /\ unread w !! fd h = Some rest)
    (read_loop fs fuel h deadline maxBytes bytesRead content)
    (fun out w => has_open n w /\ out = content +:+ rest) never.
Proof.
  intros Hd. revert rest bytesRead content.
  induction fuel as [|fuel IH]; intros rest bytesRead content Hb Hf; [unfold slen in Hf; lia|].
  cbn [read_loop]. eapply triple_still; [by intros w; apply still_active|].
  set (count := Z.to_nat 65536). assert (Hcount : (0 < count)%nat) by (subst count; lia).
  apply (triple_bind _ _ _ (fun chunk w => chunk = stake count rest /\ has_open n w
                             /\ unread w !! fd h = Some (sdrop count rest))).
  { intros w [Hw Hr]. unfold wrap_error. cbn [Read tree_fs]. unfold tree_read. rewrite Hr.
    cbn [map_err unread]. by rewrite lookup_insert_eq. }
  intros chunk. apply triple_pure. intros ->.
  destruct (String.eqb_spec (stake count rest) EmptyString) as [He|Hne].
  - apply sdrop_stake_nil in He as ->; [|done]. apply triple_ret.
    intros w [Hw _]. by rewrite str_app_nil_r.
  - assert (Hl : slen rest = slen (stake count rest) + slen (sdrop count rest)).
    { rewrite <- (stake_sdrop count rest) at 1. unfold slen. rewrite str_app_length. lia. }
    assert (1 <= slen (stake count rest)) by (destruct (stake count rest); [done|unfold slen; simpl; lia]).
    assert (0 <= slen (sdrop count rest)) by (unfold slen; lia).
    apply triple_yes; [apply negb_true_iff, Z.ltb_ge; lia|].
    eapply triple_conseq; [apply (IH (sdrop count rest)); lia|done| |done].
    intros out w [Hw ->]. by rewrite str_app_assoc, stake_sdrop.
Qed.

Lemma digestOpenedFile_gives n h deadline maxBytes m content :
  0 <= deadline -> slen content <= maxBytes ->
  triple (opened n h (NFile m content)) (digestOpenedFile fs h deadline maxBytes)
    (fun r w => has_open (n + 1) w
       /\ r = (sha256_hex content, slen content, state_of (NFile m content))) never.
Proof.
  intros Hd Hm.
  apply (triple_conseq _ (fun w => at_node h = NFile m content
    /\ (has_open (n + 1) w /\ unread w !! fd h = Some content)) _ _
    (fun r w => has_open (n + 1) w
       /\ r = (sha256_hex content, slen content, state_of (NFile m content))) _ never);
    [|by intros w (Hu & Ht & _ & Hr)|done|done].
  apply triple_pure. intros Ht. unfold digestOpenedFile.
  eapply triple_still; [by intros w; apply still_state|]. rewrite Ht.
  apply triple_yes; [done|]. apply triple_yes; [by apply negb_true_iff, Z.ltb_ge|].
  eapply triple_bind; [apply read_loop_gives; [done|lia|unfold slen in *; lia]|].
  intros out. eapply triple_still; [by intros w; apply still_state|]. rewrite Ht.
  apply triple_yes; [by rewrite fileChanged_refl|]. apply triple_ret.
  by intros w [Hw ->].
Qed.

(** ** The walk of the tree *)

Variable NFC : string -> string.
Variable resolved : Resolved.
Variable deadline : Z.
Variable top : node.
Hypothesis deadline_open : 0 <= deadline.
Hypothesis top_plain : plain top = true.
Hypothesis top_NFC : Forall (fun item => NFC (path_of (fst item)) = path_of (fst item)) (items [] top).

Notation all := (listing resolved top).
Notation entrypoint := (normalized_entrypoint NFC resolved).
Hypothesis all_files : Z.of_nat (length all) <= MaxFiles (artifact_limits resolved).
Hypothesis all_bytes : sizes all <= MaxBytes (artifact_limits resolved).

(** The identity the observation reports for the entry point. *)
Definition entry_identity (paths : list string) : string :=
  if contains paths entrypoint
  then match descend top (Split entrypoint slash) with
       | Some t => identity (state_of t)
       | None => EmptyString
       end
  else EmptyString.

Definition snapshot_ok (s : pinnedSnapshot) : Prop :=
  exists location t, descend top location = Some t /\ location_ok location
    /\ snap_path s = path_of location /\ snap_state s = state_of t.

(** The walk has recorded everything but [later]. *)
Record tracks (later : list treeEntry) (st : walk_state) : Prop := {
  tracks_all : entries st ++ later ≡ₚ all;
  tracks_seen : seen st = map Entry_Path (entries st);
  tracks_total : totalBytes st = sizes (entries st);
  tracks_identity : entrypointIdentity st = entry_identity (seen st);
  tracks_snapshots : Forall snapshot_ok (snapshots st)
}.

Lemma tracks_perm later later' st : later ≡ₚ later' -> tracks later st -> tracks later' st.
Proof. intros Hp []. split; [|done..]. by rewrite <- Hp. Qed.

Lemma tracks_snapshot later st location t :
  descend top location = Some t -> location_ok location -> tracks later st ->
  tracks later (note_snapshot st (path_of location) (state_of t)).
Proof.
  intros Hd Hl []. split; cbn [note_snapshot entries seen totalBytes entrypointIdentity snapshots];
    try done. apply Forall_app. split; [done|]. constructor; [|constructor]. by exists location, t.
Qed.

Lemma selected_path item e : e ∈ selected resolved item -> Entry_Path e = path_of (fst item).
Proof.
  unfold selected. destruct (snd item); try by intros ?%elem_of_nil.
  destruct (Includes _ _); [|by intros ?%elem_of_nil]. by intros ->%list_elem_of_singleton.
Qed.

Lemma listing_distinct : NoDup (map Entry_Path all).
Proof.
  pose proof (items_nodup [] top top_plain) as Hn.
  pose proof (items_below [] top top_plain) as Hb. unfold listing.
  revert Hn Hb. generalize (items [] top). intros its.
  induction its as [|[l t] rest IH]; intros Hn Hb; [constructor|].
  cbn [map fst] in Hn. apply NoDup_cons in Hn as [Hl Hn]. apply Forall_cons in Hb as [Ht Hb].
  cbn [flat_map]. rewrite map_app. apply NoDup_app. split; [|split; [|by apply IH]].
  - unfold selected. cbn [snd fst]. destruct t; try constructor.
    destruct (Includes _ _); cbn [map]; [apply NoDup_singleton|constructor].
  - intros p (e & -> & He)%list_elem_of_fmap (e' & Hp & He')%list_elem_of_fmap.
    apply list_elem_of_In, in_flat_map in He' as ([l' t'] & Hin & He').
    apply list_elem_of_In in He'. apply selected_path in He, He'. cbn [fst] in *.
    assert (Hpath : path_of l = path_of l') by congruence.
    apply list_elem_of_In in Hin. rewrite Forall_forall in Hb.
    destruct Ht as (r & Hr & Hf & Ho & _), (Hb _ Hin) as (r' & Hr' & Hf' & Ho' & _).
    cbn [fst app] in *. subst r r'.
    apply path_of_inj in Hpath as ->; [|done..]. apply Hl, list_elem_of_fmap. by exists (l', t').
Qed.

(** Recording one more selected file. *)
Lemma tracks_file later st location m content :
  descend top location = Some (NFile m content) -> location <> [] -> location_ok location ->
  tracks ({| Entry_Path := path_of location; Entry_SHA256 := sha256_hex content;
             Entry_Size := slen content |} :: later) st ->
  tracks later (note_file NFC resolved st (path_of location) (sha256_hex content) (slen content)
                  (state_of (NFile m content))).
Proof.
  intros Hd Hne Hl [Ha Hs Ht Hi Hn].
  split; cbn [note_file entries seen totalBytes entrypointIdentity snapshots].
  - by rewrite <- app_assoc.
  - by rewrite map_app, Hs.
  - rewrite sizes_app, Ht. cbn. lia.
  - unfold entry_identity, contains. rewrite existsb_app. cbn [existsb].
    rewrite orb_false_r.
    destruct (String.eqb_spec (path_of location) entrypoint) as [He|He].
    + rewrite orb_true_r, <- He, Split_path_of, Hd by done. done.
    + rewrite orb_false_r. exact Hi.
  - apply Forall_app. split; [done|]. constructor; [|constructor]. by exists location, (NFile m content).
Qed.

Lemma tracks_fresh e later st :
  tracks (e :: later) st -> contains (seen st) (Entry_Path e) = false.
Proof.
  intros [Ha Hs _ _ _]. apply not_true_is_false. unfold contains. rewrite existsb_elem_of, Hs.
  intros (p & Hin & ->%String.eqb_eq). pose proof listing_distinct as Hd.
  rewrite <- Ha, map_app in Hd. apply NoDup_app in Hd as (_ & Hd & _).
  apply (Hd (Entry_Path e) Hin). by left.
Qed.

Lemma listing_sizes : Forall (fun e => 0 <= Entry_Size e) all.
Proof.
  apply Forall_forall. intros e He. unfold listing in He.
  apply list_elem_of_In, in_flat_map in He as (item & _ & He). unfold selected in He.
  destruct (snd item); try done. destruct (Includes _ _); [|done]. destruct He as [<-|[]].
  cbn. unfold slen. lia.
Qed.

Lemma tracks_room e later st :
  tracks (e :: later) st ->
  wouldExceed (Z.of_nat (length (entries st))) (totalBytes st) (Entry_Size e)
    (MaxFiles (artifact_limits resolved)) (MaxBytes (artifact_limits resolved)) = false
  /\ Entry_Size e <= MaxBytes (artifact_limits resolved) - totalBytes st.
Proof.
  intros [Ha _ Ht _ _]. pose proof all_files as Hf. pose proof all_bytes as Hb.
  pose proof listing_sizes as Hz. rewrite <- Ha in Hf, Hb, Hz.
  rewrite length_app in Hf. cbn [length] in Hf. rewrite sizes_app in Hb.
  cbn [sizes fold_right] in Hb. fold (sizes later) in Hb.
  apply Forall_app in Hz as [_ [He Hz]%Forall_cons].
  pose proof (sizes_nonneg _ Hz). unfold wouldExceed.
  rewrite !orb_false_iff, !Z.ltb_ge. lia.
Qed.

Definition child_entries (location : list string) (children : list (string * node))
  (name : string) : list treeEntry :=
  match assoc children name with
  | Some child =>
      selected resolved (location ++ [name], child)
      ++ flat_map (selected resolved) (items (location ++ [name]) child)
  | None => []
  end.

Lemma children_entries location m children :
  plain (NDir m children) = true ->
  flat_map (selected resolved) (items location (NDir m children))
  ≡ₚ flat_map (child_entries location children) (SortFunc Compare (map fst children)).
Proof.
  intros Hp.
  transitivity (flat_map (child_entries location children) (map fst children));
    [|apply Permutation_flat_map; symmetry; apply SortFunc_perm].
  cbn [items].
  assert (Hsub : forall kv, kv ∈ children -> assoc children (fst kv) = Some (snd kv)).
  { intros [n c] Hin. by apply assoc_nodup; [apply (plain_nodup m)|]. }
  assert (Hall : forall l, (forall kv, kv ∈ l -> kv ∈ children) ->
    flat_map (selected resolved) (flat_map (fun kv =>
      (location ++ [fst kv], snd kv) :: items (location ++ [fst kv]) (snd kv)) l)
    = flat_map (child_entries location children) (map fst l)).
  { induction l as [|kv l IH]; intros Hl; [done|]. cbn [flat_map map app].
    rewrite flat_map_app, IH by (intros; apply Hl; by right).
    unfold child_entries at 2. rewrite (Hsub kv) by (apply Hl; by left).
    by rewrite app_assoc. }
  rewrite Hall; done.
Qed.

Lemma top_NFC_at item : item ∈ items [] top -> NFC (path_of (fst item)) = path_of (fst item).
Proof. intros Hin. pose proof top_NFC as H. rewrite Forall_forall in H. by apply H. Qed.

(** Where the walk is: a plain node of the tree at [location]. *)
Definition located (location : list string) (t : node) : Prop :=
  descend top location = Some t /\ location_ok location /\ plain t = true
  /\ Forall (fun item => item ∈ items [] top) (items location t).

Lemma located_child location m children name child :
  located location (NDir m children) -> (name, child) ∈ children ->
  located (location ++ [name]) child
  /\ NFC (path_of (location ++ [name])) = path_of (location ++ [name])
  /\ assoc children name = Some child.
Proof.
  intros (Hd & Hl & Hp & Hi) Hin.
  pose proof (assoc_nodup _ _ _ (plain_nodup m children Hp) Hin) as Ha.
  assert (Hn : name_ok name = true).
  { pose proof (plain_names m children Hp) as Hn. rewrite Forall_forall in Hn. apply Hn.
    apply list_elem_of_fmap. by exists (name, child). }
  rewrite Forall_forall in Hi.
  assert (Hsub : forall item, item ∈ (location ++ [name], child) :: items (location ++ [name]) child ->
                  item ∈ items location (NDir m children)).
  { intros item Hitem. cbn [items]. apply list_elem_of_In, in_flat_map. exists (name, child).
    split; by apply list_elem_of_In. }
  split; [|split; [|exact Ha]].
  - split; [by apply (descend_snoc _ _ _ _ _ Hd)|]. split; [|split].
    + apply Forall_app. by repeat constructor.
    + by apply (plain_child m children Hp name).
    + apply Forall_forall. intros item Hitem. apply Hi, Hsub. by right.
  - apply (top_NFC_at (location ++ [name], child)), Hi, Hsub. by left.
Qed.

Definition outcome_ok (later : list treeEntry) (child : node) (st : walk_state)
  (o : child_outcome) : Prop :=
  match o with
  | ChildDir state after => state = state_of child /\ tracks later after
  | ChildSkipped => tracks later st
  | ChildFile path digest bytes op =>
      op = state_of child /\ tracks later (note_file NFC resolved st path digest bytes op)
  end.

(** The specification of a recursive call on the children of height below
    [bound]. *)
Definition walks (n : Z) (recurse : recursion) (bound : nat) : Prop :=
  forall h location m children st later,
    at_node h = NDir m children -> located location (NDir m children) ->
    (height (NDir m children) <= bound)%nat ->
    n + Z.of_nat (height (NDir m children)) <= limit ->
    tracks (flat_map (selected resolved) (items location (NDir m children)) ++ later) st ->
    gives n (recurse h (path_of location) st) (tracks later).

Lemma walk_file_gives n h location m content st later :
  located location (NFile m content) -> location <> [] ->
  tracks (selected resolved (location, NFile m content) ++ later) st ->
  triple (opened n h (NFile m content))
    (walk_file fs resolved deadline h (node_info (NFile m content)) (path_of location) st)
    (fun o w => has_open (n + 1) w /\ outcome_ok later (NFile m content) st o) never.
Proof.
  intros (Hd & Hl & _ & _) Hne Ht. unfold walk_file. apply triple_yes; [done|].
  unfold selected in Ht. cbn [snd fst] in Ht.
  destruct (Includes resolved (path_of location)); cbn [negb].
  - cbn [app] in Ht. pose proof (tracks_room _ _ _ Ht) as [Hx Hb].
    pose proof (tracks_fresh _ _ _ Ht) as Hf. cbn [Entry_Path Entry_Size] in *.
    apply triple_yes; [by rewrite Hf|]. apply triple_yes; [apply negb_true_iff; exact Hx|].
    eapply triple_bind; [by apply digestOpenedFile_gives|].
    intros r. apply (triple_conseq _ (fun w =>
      r = (sha256_hex content, slen content, state_of (NFile m content)) /\ has_open (n + 1) w)
      _ _ (fun o w => has_open (n + 1) w /\ outcome_ok later (NFile m content) st o) _ never);
      [|by intros w []|done|done].
    apply triple_pure. intros ->. apply triple_ret. intros w Hw. split; [done|].
    split; [done|]. by apply tracks_file.
  - apply triple_ret. intros w (Hu & _). by split.
Qed.

Lemma walk_opened_gives n recurse bound h location name child st later :
  walks (n + 1) recurse bound ->
  located (location ++ [name]) child -> location_ok location ->
  NFC (path_of (location ++ [name])) = path_of (location ++ [name]) ->
  (height child <= bound)%nat -> n + 1 + Z.of_nat (height child) <= limit ->
  tracks ((selected resolved (location ++ [name], child)
           ++ flat_map (selected resolved) (items (location ++ [name]) child)) ++ later) st ->
  triple (opened n h child)
    (walk_opened fs NFC resolved deadline recurse (path_of location) name h st)
    (fun o w => has_open (n + 1) w /\ outcome_ok later child st o) never.
Proof.
  intros Hrec Hloc Hl Hnfc Hh Hlim Ht.
  apply (triple_conseq _ (fun w => at_node h = child /\ opened n h child w) _ _
    (fun o w => has_open (n + 1) w /\ outcome_ok later child st o) _ never);
    [|intros w Hw; split; [apply Hw|done]|done|done].
  apply triple_pure. intros Hat. unfold walk_opened.
  eapply triple_still; [by intros w; apply still_fstat|]. rewrite Hat, child_path_of by done.
  assert (Hne : location ++ [name] <> []) by (by destruct location).
  rewrite normalizeRelative_path, Hnfc by (done || apply Hloc).
  eapply triple_still; [by intros w|].
  destruct child as [m content|m children| |].
  - change (IsDir (node_info (NFile m content))) with false. cbv iota.
    apply walk_file_gives; [done..|]. cbn [items flat_map] in Ht. by rewrite app_nil_r in Ht.
  - change (IsDir (node_info (NDir m children))) with true. cbv iota.
    eapply triple_still; [by intros w; apply still_state|]. rewrite Hat.
    apply (gives_bind' n _ _ (tracks later)).
    + intros w (Hu & _). apply (Hrec h (location ++ [name]) m children); try done.
      apply tracks_snapshot; [apply Hloc..|]. exact Ht.
    + intros after Ha. apply triple_ret. by intros w Hw.
  - by destruct Hloc as (_ & _ & ? & _).
  - by destruct Hloc as (_ & _ & ? & _).
Qed.

Lemma walk_child_gives n recurse bound h location m children name child st later :
  walks (n + 1) recurse bound -> at_node h = NDir m children ->
  located location (NDir m children) -> (name, child) ∈ children ->
  (height child <= bound)%nat -> n + 1 + Z.of_nat (height child) <= limit ->
  tracks (child_entries location children name ++ later) st ->
  gives n (walk_child fs NFC resolved deadline recurse h (path_of location) st name) (tracks later).
Proof.
  intros Hrec Hat Hloc Hin Hh Hlim Ht.
  pose proof (located_child _ _ _ _ _ Hloc Hin) as (Hchild & Hnfc & Ha).
  unfold child_entries in Ht. rewrite Ha in Ht.
  assert (He : enters (at_node h) name false child).
  { rewrite Hat. split; [exact Ha|]. split; [apply plain_not_link, Hchild|done]. }
  unfold walk_child. eapply triple_still; [by intros w; apply still_active|].
  eapply triple_bind; [apply triple_wrap, (openChild_opens' n); [exact He|lia]|].
  intros hc. eapply triple_bind.
  { apply (defer_close n); [lia|]. apply (walk_opened_gives n recurse bound _ location name child st later);
      [done|done|apply Hloc|done..]. }
  intros o. cbn beta.
  apply (triple_conseq _ (fun w => outcome_ok later child st o /\ has_open n w) _ _
    (fun st' w => has_open n w /\ tracks later st') _ never); [|by intros w []|done|done].
  apply triple_pure. intros Ho.
  assert (Hv : forall state, state = state_of child ->
    gives n (verifyPinnedChild fs h name state) (fun _ => True)).
  { intros state ->. apply verify_opened_gives; [|lia]. by apply openChild_opens'; [|lia]. }
  destruct o as [state after| |path digest bytes op]; cbn [outcome_ok] in Ho.
  - destruct Ho as [Hs Hta]. eapply gives_bind; [by apply Hv|]. intros _ _. by apply triple_ret.
  - by apply triple_ret.
  - destruct Ho as [Hs Hta]. eapply gives_bind; [by apply Hv|]. intros _ _. by apply triple_ret.
Qed.

Lemma walk_gives fuel n : walks n (walkPinnedDirectory fs NFC resolved deadline fuel) fuel.
Proof.
  revert n. induction fuel as [|fuel IH]; intros n h location m children st later Hat Hloc Hh Hlim Ht.
  { cbn [height] in Hh. lia. }
  cbn [walkPinnedDirectory]. eapply triple_still; [by intros w; apply still_state|].
  eapply triple_still; [by intros w; apply still_readdir|]. rewrite Hat. cbn [node_children].
  assert (Ht' : tracks (flat_map (child_entries location children)
                          (SortFunc Compare (map fst children)) ++ later) st).
  { eapply tracks_perm; [|exact Ht]. by rewrite (children_entries location m) by apply Hloc. }
  clear Ht. eapply triple_bind.
  - eapply triple_conseq;
      [apply (triple_foldIO (fun names s w => has_open n w
         /\ tracks (flat_map (child_entries location children) names ++ later) s) never)
      | | intros a w Hw; exact Hw | done].
    + intros name rest s0 Hname. apply (triple_conseq _ (fun w =>
        tracks (flat_map (child_entries location children) (name :: rest) ++ later) s0 /\ has_open n w)
        _ _ (fun s w => has_open n w
          /\ tracks (flat_map (child_entries location children) rest ++ later) s) _ never);
        [|by intros w []|done|done].
      apply triple_pure. intros Hs. rewrite SortFunc_perm in Hname.
      apply list_elem_of_fmap in Hname as ([n' child] & -> & Hin). cbn [fst] in *.
      pose proof (height_child m children n' child Hin) as Hc.
      apply (walk_child_gives n _ fuel h location m children n' child); try done.
      * lia.
      * lia.
      * cbn [flat_map] in Hs. by rewrite <- app_assoc in Hs.
    + by intros w Hw.
  - intros st'. eapply triple_still; [by intros w; apply still_state|].
    apply triple_yes; [by rewrite Hat, fileChanged_refl|]. apply triple_ret. by intros w Hw.
Qed.

Hypothesis top_directory : exists m children, top = NDir m children.

Lemma verify_snapshot n h s :
  snapshot_ok s -> at_node h = top -> n + 2 <= limit ->
  gives n (verifyRelativeSnapshot fs h s) (fun _ => True).
Proof.
  intros (location & t & Hd & Hl & Hp & Hs) Hat Hn. unfold verifyRelativeSnapshot. rewrite Hs.
  apply verify_opened_gives; [|lia].
  by apply (openRelative_opens' n h _ location t); rewrite ?Hat.
Qed.

Lemma digestDirectory_gives n h fuel :
  at_node h = top -> (height top <= fuel)%nat -> n + Z.of_nat (Nat.max 2 (height top)) <= limit ->
  gives n (digestDirectory fs NFC resolved deadline fuel h)
    (fun r => r = (SortFunc compareEntries all, sizes all, entry_identity (map Entry_Path all))).
Proof.
  intros Hat Hf Hn. pose proof top_directory as (m & children & Htop). unfold digestDirectory.
  eapply triple_still; [by intros w; apply still_state|]. rewrite Hat.
  apply (gives_bind n _ _ (tracks [])).
  { apply (walk_gives fuel n h [] m children); rewrite <- ?Htop; [done| |done|lia|].
    - split; [done|]. split; [constructor|]. split; [done|]. by apply Forall_forall.
    - rewrite app_nil_r. split; cbn; try done.
      constructor; [|constructor]. exists [], top. by repeat constructor. }
  intros st [Ha Hs Ht Hi Hsn]. rewrite app_nil_r in Ha.
  apply (gives_bind n _ _ (fun _ => True)).
  - eapply triple_conseq;
      [apply (triple_foldIO (fun _ (_ : unit) w => has_open n w) never)
      | by intros w Hw | by intros a w Hw | done].
    intros s rest [] Hin. rewrite Forall_forall in Hsn.
    eapply triple_conseq; [apply (verify_snapshot n h s (Hsn _ Hin) Hat); lia|done|by intros ? ? []|done].
  - intros _ _. apply triple_ret. intros w Hw. split; [done|]. rewrite Ht.
    f_equal; [f_equal; [|by rewrite Ha]|].
    + apply sort_unique; try done; [intros x y; apply Compare_antisym|intros x y z; apply Compare_trans|..].
      * apply entries_distinct. rewrite Ha. apply listing_distinct.
      * apply entries_distinct, listing_distinct.
    + rewrite Hi, Hs. unfold entry_identity.
      assert (Hc : contains (map Entry_Path (entries st)) entrypoint
                   = contains (map Entry_Path all) entrypoint).
      { apply eq_bool_prop_intro. rewrite !Is_true_true. unfold contains.
        rewrite !existsb_elem_of. by setoid_rewrite Ha. }
      by rewrite Hc.
Qed.
End Run.

Lemma entry_normal e :
  normalize (entry_json e) =
    JObject [("path", JString (ToValidUTF8 (Entry_Path e)));
             ("sha256", JString (ToValidUTF8 (Entry_SHA256 e)));
             ("size", JNumber (FormatInt (Entry_Size e)))].
Proof. reflexivity. Qed.

Lemma encodable_listing (l : list treeEntry) :
  Forall (fun e => 0 <= Entry_Size e <= maxSafeInteger) l ->
  exists encoded, Marshal (JArray (map entry_json l)) = Ok encoded.
Proof.
  intros Hl. apply is_ok_true. unfold Marshal. rewrite appendValue_is_ok.
  cbn [normalize encodable]. rewrite map_map. apply forallb_Forall, Forall_forall.
  intros v (e & -> & He)%list_elem_of_fmap. rewrite Forall_forall in Hl. specialize (Hl _ He).
  assert (Hn : canonical_number (FormatInt (Entry_Size e)) = true).
  { apply is_ok_true. exists (FormatInt (Entry_Size e)). apply appendInteger_spec.
    split; [done|]. exists (Entry_Size e).
    cbn beta in Hl. unfold maxSafeInteger in *. split; [lia|done]. }
  rewrite entry_normal. cbn [encodable forallb fst snd]. by rewrite !ToValidUTF8_valid, Hn.
Qed.

(** The limits a validated expectation has. *)
Definition schema_limits (limits : ArtifactExpectation) : Prop :=
  1 <= MaxFiles limits <= 1000000 /\ 1 <= MaxBytes limits <= 1099511627776
  /\ 1 <= MaxDurationMS limits <= 3600000.

Lemma sizes_bound l e : Forall (fun e => 0 <= Entry_Size e) l -> e ∈ l -> Entry_Size e <= sizes l.
Proof.
  induction 1 as [|x l Hx Hl IH]; intros Hin; [by apply elem_of_nil in Hin|].
  pose proof (sizes_nonneg _ Hl). cbn [sizes fold_right]. fold (sizes l).
  apply elem_of_cons in Hin as [->|Hin]; [lia|]. specialize (IH Hin). lia.
Qed.

(** The observation of a tree whose reference digest is [digest]. *)
Definition observation_of (NFC : string -> string) (resolved : Resolved) (top : node)
  (digest : string) : ArtifactObservation :=
  {| Obs_SHA256 := digest;
     FileCount := Z.of_nat (length (listing resolved top));
     ByteCount := sizes (listing resolved top);
     DurationMS := 0;
     EntrypointFileIdentity :=
       entry_identity NFC resolved top (map Entry_Path (listing resolved top)) |}.

(** A directory [Digest] can answer for: plain, its paths in normal form,
    with selected files that respect the limits. *)
Record digestible (NFC : string -> string) (resolved : Resolved) (top : node) : Prop := {
  dig_directory : exists m children, top = NDir m children;
  dig_plain : plain top = true;
  dig_NFC : Forall (fun item => NFC (path_of (fst item)) = path_of (fst item)) (items [] top);
  dig_limits : schema_limits (artifact_limits resolved);
  dig_files : 1 <= Z.of_nat (length (listing resolved top)) <= MaxFiles (artifact_limits resolved);
  dig_bytes : sizes (listing resolved top) <= MaxBytes (artifact_limits resolved)
}.

Lemma reference_digest_ok NFC resolved top :
  digestible NFC resolved top ->
  exists encoded,
    Marshal (JArray (map entry_json (SortFunc compareEntries (listing resolved top)))) = Ok encoded
    /\ reference_digest resolved top = Ok (sha256_hex encoded).
Proof.
  intros [_ _ _ (_ & Hm & _) _ Hb].
  destruct (encodable_listing (SortFunc compareEntries (listing resolved top))) as [encoded He].
  - rewrite SortFunc_perm. apply Forall_forall. intros e Hin.
    pose proof (listing_sizes resolved top) as Hs. pose proof (sizes_bound _ _ Hs Hin).
    rewrite Forall_forall in Hs. specialize (Hs _ Hin). unfold maxSafeInteger. cbn beta in Hs. lia.
  - exists encoded. split; [done|]. unfold reference_digest. by rewrite He.
Qed.

Lemma digest_tree_gives root limit NFC resolved top n fuel deadline h encoded :
  digestible NFC resolved top -> 0 <= deadline -> at_node h = top ->
  IsAbs (ArtifactRoot resolved) = true ->
  descend root (abs_comps (ArtifactRoot resolved)) = Some top ->
  Marshal (JArray (map entry_json (SortFunc compareEntries (listing resolved top)))) = Ok encoded ->
  (height top <= fuel)%nat -> n + Z.of_nat (Nat.max 2 (height top)) <= limit ->
  gives n (digest_tree (tree_fs root limit) NFC fuel resolved 0 deadline h (state_of top))
    (fun obs => obs = observation_of NFC resolved top (sha256_hex encoded)).
Proof.
  intros [Hdir Hp Hnfc _ Hfiles Hbytes] Hdl Hat Habs Hd He Hfuel Hlim. unfold digest_tree.
  eapply gives_bind; [apply digestDirectory_gives; [done..|lia|done|done|done|done|done]|].
  intros r ->. apply (gives_bind n _ _ (fun _ => True)).
  { apply verify_opened_gives; [|lia].
    apply (openArtifactRoot_opens' root limit _ _ top); [done|done|by apply plain_not_link|lia]. }
  intros _ _. set (l := SortFunc compareEntries (listing resolved top)) in *.
  assert (Hlen : length l = length (listing resolved top))
    by apply Permutation_length, SortFunc_perm.
  rewrite (sort_sorted_id compareEntries l) by by apply SortFunc_entries_sorted, listing_distinct.
  apply triple_yes; [rewrite Hlen; destruct (length (listing resolved top)); [lia|done]|].
  rewrite He. eapply triple_still; [by intros ?|]. eapply triple_still; [by intros ?|].
  apply triple_ret. intros w Hw. split; [done|]. unfold observation_of. by rewrite Hlen.
Qed.

(** C7: on a tree nobody changes, [Digest] answers, and its answer is the
    reference digest: the SHA-256 of the canonical listing of the selected
    files of the tree (path, content hash and size) in path order, whatever
    the order its directories list them in, with the number of files, the
    number of bytes and the identity of the entry point.  It needs as many
    descriptors, and as much fuel, as the tree is deep. *)
Theorem Digest_tree root limit NFC resolved top fuel w :
  digestible NFC resolved top ->
  IsAbs (ArtifactRoot resolved) = true ->
  descend root (abs_comps (ArtifactRoot resolved)) = Some top ->
  (height top <= fuel)%nat -> in_use w + 1 + Z.of_nat (Nat.max 2 (height top)) <= limit ->
  exists digest w',
    reference_digest resolved top = Ok digest
    /\ Digest (tree_fs root limit) NFC fuel resolved w = (Ok (observation_of NFC resolved top digest), w')
    /\ in_use w' = in_use w.
Proof.
  intros Hdig Habs Hd Hfuel Hlim.
  destruct (reference_digest_ok _ _ _ Hdig) as (encoded & He & Href).
  exists (sha256_hex encoded).
  cut (gives (in_use w) (Digest (tree_fs root limit) NFC fuel resolved)
         (fun obs => obs = observation_of NFC resolved top (sha256_hex encoded))).
  { intros Hw. destruct (triple_runs _ _ _ w Hw eq_refl) as (obs & w' & E & Hu & ->). eauto. }
  unfold Digest. eapply triple_still; [by intros ?|].
  set (deadline := 0 + wrap64 (MaxDurationMS (artifact_limits resolved) * 1000000)).
  assert (Hdl : 0 <= deadline).
  { destruct Hdig as [_ _ _ (_ & _ & Hms) _ _]. subst deadline.
    rewrite wrap64_id; unfold int64_min, int64_max; lia. }
  eapply triple_still; [by intros ?; apply still_active|].
  eapply triple_bind; [apply triple_wrap, (openArtifactRoot_opens' root limit (in_use w) _ top);
    [done|done|by apply plain_not_link, Hdig|lia]|].
  intros h. apply (defer_close root limit); [lia|].
  apply (triple_conseq _ (fun w' => at_node h = top /\ has_open (in_use w + 1) w') _ _
    (fun obs w' => has_open (in_use w + 1) w'
       /\ obs = observation_of NFC resolved top (sha256_hex encoded)) _ never);
    [|by intros w' (?&?&_)|done|done].
  apply triple_pure. intros Hat. destruct (dig_directory _ _ _ Hdig) as (m & children & Htop).
  eapply triple_still; [by intros ?; apply still_state|]. rewrite Hat.
  replace (IsRegular (info (state_of top))) with false by by rewrite Htop.
  cbv iota. apply triple_yes; [by rewrite Htop|].
  by apply digest_tree_gives; [..|lia].
Qed.

(** ** Concrete trees *)

Definition sample_meta (ino : Z) : meta :=
  {| m_mtime := 5; m_ctime := (7, 0); m_dev := 1; m_ino := ino |}.

Definition sample_tree : node :=
  NDir (sample_meta 10)
    [("tmp", NDir (sample_meta 11) [("x", NFile (sample_meta 12) "junk")]);
     ("bin", NDir (sample_meta 13) [("runtime", NFile (sample_meta 14) "hello")]);
     ("a", NFile (sample_meta 15) EmptyString)].

(** [top] as the artifact of [sample_resolved]. *)
Definition installed (top : node) : node :=
  NDir (sample_meta 2) [("opt", NDir (sample_meta 3) [("app", top)])].

Definition digest_of (NFC : string -> string) (top : node) : result go_error ArtifactObservation :=
  fst (Digest (tree_fs (installed top) 100) NFC 100 sample_resolved empty_world).

Lemma sample_digestible : digestible (fun s => s) sample_resolved sample_tree.
Proof.
  split; [by do 2 eexists|vm_compute; reflexivity| |by vm_compute|by vm_compute|by vm_compute].
  by apply Forall_forall.
Qed.

Lemma Digest_tree_witness :
  exists digest w',
    reference_digest sample_resolved sample_tree = Ok digest
    /\ Digest (tree_fs (installed sample_tree) 100) (fun s => s) 3 sample_resolved empty_world
       = (Ok (observation_of (fun s => s) sample_resolved sample_tree digest), w')
    /\ in_use w' = in_use empty_world.
Proof.
  apply (Digest_tree (installed sample_tree) 100 (fun s => s) sample_resolved sample_tree 3 empty_world
           sample_digestible).
  - reflexivity.
  - reflexivity.
  - vm_compute. lia.
  - vm_compute. discriminate.
Defined.

Lemma Digest_lawful_witness :
  tree_live 100 (snd (Digest (tree_fs (installed sample_tree) 100) (fun s => s) 100 sample_resolved
                        empty_world)) = 0
  /\ forall e, digest_of (fun s => s) sample_tree = Err e -> reason e.
Proof.
  apply (Digest_lawful (tree_fs (installed sample_tree) 100) (tree_live 100) 100 (fun s => s) 100
           sample_resolved empty_world).
  vm_compute. discriminate.
Defined.

Lemma Digest_sound_witness :
  exists obs, digest_of (fun s => s) sample_tree = Ok obs /\ sound_observation sample_resolved obs.
Proof.
  destruct (Digest (tree_fs (installed sample_tree) 100) (fun s => s) 100 sample_resolved empty_world)
    as [r w'] eqn:E.
  destruct r as [obs|e]; [|vm_compute in E; discriminate E].
  exists obs. split; [unfold digest_of; rewrite E; reflexivity|].
  apply (Digest_sound (tree_fs (installed sample_tree) 100) (tree_live 100) 100 (fun s => s) 100
           sample_resolved empty_world obs w'); [vm_compute; discriminate|exact E].
Defined.

(** The part of Unicode composition the examples need: e followed by a
    combining acute accent. *)
Definition compose_acute (s : string) : string := ReplaceAll s (of_runes [101; 769]) (of_runes [233]).

Definition decomposed_tree : node :=
  NDir (sample_meta 10) [("caf" +:+ of_runes [101; 769], NFile (sample_meta 11) "menu")].

(** A directory that holds a file whose name is not in Unicode normal form
    (here the decomposed spelling of an accented letter) has no digest,
    although nothing changes and no other name is affected: the final
    verification reopens every file by its normalised path, which does not
    exist on a file system that keeps names as they are, and reports
    ARTIFACT_CHANGED_DURING_READ. *)
Theorem Digest_decomposed_name :
  digest_of compose_acute decomposed_tree = Err (domainError "ARTIFACT_CHANGED_DURING_READ").
Proof. vm_compute. reflexivity. Qed.

Definition raw_tree (name : string) : node :=
  NDir (sample_meta 10) [(name, NFile (sample_meta 11) "menu")].

(** Two artifacts whose only file names differ have the same digest when
    the names are not UTF-8: encoding the listing replaces every invalid byte
    by U+FFFD before it is hashed. *)
Theorem Digest_ignores_invalid_bytes :
  exists obs, digest_of (fun s => s) (raw_tree (byte_string 254)) = Ok obs
              /\ digest_of (fun s => s) (raw_tree (byte_string 255)) = Ok obs
              /\ byte_string 254 <> byte_string 255.
Proof. vm_compute. eexists. split; [reflexivity|]. split; [reflexivity|discriminate]. Qed.
