(* ===== verification/ArtifactWindows.v ===== *)
(** * Artifact digests on Windows ([internal/artifact/digest_secure_windows.go])

    The Windows build walks the artifact by handles relative to an opened
    directory, refuses every reparse point after opening it, treats names that
    differ in case only as a collision, and before it answers reopens what it
    visited and hashes every file a second time.  The parts of [digest.go]
    shared with Unix are those of [Artifact.v]; [FS] is read as follows:
    [Openat] is [NtCreateFile] relative to a handle, [Dup] is
    [DuplicateHandle], [Fstat] is [File.Stat]. *)

From S2P Require Import Prelude GoStrings GoPath GoSha256 Model Canonical.
From S2P Require Import Contract Expectation Process Evaluator World Artifact ArtifactTree.

(** What only Windows has; the last three are [path/filepath] there. *)
Record WinFiles (W H : Type) := {
  OpenVolume : string -> W -> result errno H * W;               (* [CreateFile] on a root directory *)
  ReparsePoint : H -> W -> result errno bool * W;               (* from [GetFileInformationByHandle] *)
  FileIdInfo : H -> W -> result errno (Z * list Z) * W;         (* volume serial number, file ID *)
  FileIndex : H -> W -> result errno (Z * Z * Z) * W;           (* volume, index high, index low *)
  ChangeTime : H -> W -> result errno Z * W;                    (* from [FileBasicInfo] *)
  win_Clean : string -> string;
  win_IsAbs : string -> bool;
  win_VolumeName : string -> string
}.
Arguments OpenVolume {W H}. Arguments ReparsePoint {W H}. Arguments FileIdInfo {W H}.
Arguments FileIndex {W H}. Arguments ChangeTime {W H}. Arguments win_Clean {W H}.
Arguments win_IsAbs {W H}. Arguments win_VolumeName {W H}.

(** [pinnedSnapshot]; the digest is empty for a directory. *)
Record pinned := { pin_path : string; pin_state : fileState; pin_digest : string }.

(** What the walk accumulates; [w_seen] holds the keys of the map. *)
Record walked := {
  w_entries : list treeEntry;
  w_seen : list string;
  w_total : Z;
  w_entrypoint : string;
  w_pinned : list pinned
}.

Inductive win_child :=
| WinDir (state : fileState) (after : walked)
| WinSkipped
| WinFile (path digest : string) (bytes : Z) (opened : fileState).

Definition backslash : ascii := byte_of 92.
Definition colon : ascii := byte_of 58.

(** [filepath.ToSlash] on Windows. *)
Fixpoint win_ToSlash (s : string) : string :=
  match s with
  | EmptyString => EmptyString
  | String c t => String (if Ascii.eqb c backslash then slash else c) (win_ToSlash t)
  end.

(** [strings.FieldsFunc] at either separator. *)
Definition components_of (relative : string) : list string :=
  List.filter (fun c => negb (c =s EmptyString)) (Split (win_ToSlash relative) slash).

Definition invalid_component (name : string) : bool :=
  (name =s EmptyString) || (name =s ".") || (name =s "..")
  || has_byte name backslash || has_byte name slash || has_byte name colon || has_byte name (byte_of 0).

(** A drive letter and a colon. *)
Definition local_volume (volume : string) : bool :=
  match volume with String _ (String c EmptyString) => Ascii.eqb c colon | _ => false end.

Section Windows.
Context {W H : Type} (fs : FS W H) (win : WinFiles W H).
Variable NFC : string -> string.
Variable u : UnicodeTables.

Definition close_on_error {E A} (h : H) (c : io W E A) : io W E A :=
  fun w => match c w with
           | (Ok a, w') => (Ok a, w')
           | (Err e, w') => (Err e, Close fs h w')
           end.

Definition rejectReparseHandle (h : H) : io W open_failure unit :=
  do! reparse := wrap_error (fun _ => OpenFailed) (ReparsePoint win h) in
  require! negb reparse else LinkRejected in
  ret tt.

(** A handle just opened is kept only if it is no reparse point. *)
Definition keep_plain (opened : io W errno H) : io W open_failure H :=
  do! h := wrap_error (fun _ => OpenFailed) opened in
  do! _ := close_on_error h (rejectReparseHandle h) in
  ret h.

Definition openWindowsVolumeRoot (path : string) : io W open_failure H := keep_plain (OpenVolume win path).

Definition openChildNoFollow (parent : H) (name : string) : io W open_failure H :=
  require! negb (invalid_component name) else OpenFailed in
  keep_plain (Openat fs parent name false).

(** The components left to open below [current], which is closed once the
    next handle has been asked for. *)
Fixpoint open_below (current : H) (components : list string) : io W open_failure H :=
  match components with
  | [] => ret current
  | component :: rest =>
      do! next := defer (openChildNoFollow current component) (close fs current) in
      open_below next rest
  end.

Definition openArtifactRoot (path : string) : io W open_failure H :=
  let cleaned := win_Clean win path in
  require! win_IsAbs win cleaned else OpenFailed in
  let volume := win_VolumeName win cleaned in
  require! local_volume volume else OpenFailed in
  do! current := openWindowsVolumeRoot (volume +:+ String backslash EmptyString) in
  let relative := trim_left (String backslash sep) (TrimPrefix cleaned volume) in
  if relative =s EmptyString then ret current else open_below current (components_of relative).

(** [openRelativeNoFollow]: the root itself stays open. *)
Definition openRelativeNoFollow (root : H) (relative : string) : io W open_failure H :=
  if relative =s EmptyString then wrap_error (fun _ => OpenFailed) (Dup fs root)
  else match Split relative slash with
       | [] => ret root
       | component :: rest =>
           do! next := openChildNoFollow root component in
           open_below next rest
       end.

Definition fileIdentity (h : H) : io W errno string :=
  do! r := attempt (E := errno) (FileIdInfo win h) in
  match r with
  | Ok (volume, id) => ret (hex_padded 16 volume +:+ ":" +:+ hex id)
  | Err _ =>
      do! r := attempt (E := errno) (FileIndex win h) in
      ret (match r with
           | Ok (volume, high, low) =>
               hex_padded 8 volume +:+ ":" +:+ hex_padded 8 high +:+ hex_padded 8 low
           | Err _ => EmptyString
           end)
  end.

Definition fileStateFromFile (h : H) : io W errno fileState :=
  do! i := Fstat fs h in
  do! file_identity := fileIdentity h in
  do! changed := ChangeTime win h in
  ret {| size := Size i; modUnixNano := ModTime i; identity := file_identity;
         changeToken := FormatInt changed; info := i |}.

Definition state_or (reason : string) (h : H) : io W go_error fileState :=
  wrap_error (fun _ => domainError reason) (fileStateFromFile h).

(** [digestOpenedFile] of [digest.go], with the file states of this build. *)
Definition digestOpenedFile (h : H) (deadline maxBytes : Z) : io W go_error (string * Z * fileState) :=
  do! before := state_or "ARTIFACT_INACCESSIBLE" h in
  require! IsRegular (info before) else domainError "ARTIFACT_UNSUPPORTED_TYPE" in
  require! negb (maxBytes <? Size (info before)) else domainError "ARTIFACT_SCAN_LIMIT_EXCEEDED" in
  do! content := read_loop fs (Z.to_nat maxBytes + 1) h deadline maxBytes 0 EmptyString in
  do! after := state_or "ARTIFACT_INACCESSIBLE" h in
  require! negb (fileChanged before after) else domainError "ARTIFACT_CHANGED_DURING_READ" in
  ret (sha256_hex content, size before, before).

Variable deadline : Z.

(** Read again: the content must hash to the same digest. *)
Definition verifyPinnedContent (h : H) (expected : fileState) (expectedDigest : string)
  : io W go_error unit :=
  do! digested := digestOpenedFile h deadline (size expected) in
  let '(digest, bytes, state) := digested in
  require! (bytes =? size expected) && negb (fileChanged expected state) && (digest =s expectedDigest)
    else domainError "ARTIFACT_CHANGED_DURING_READ" in
  ret tt.

(** The end of every re-verification: the file just opened, closed on return,
    must be in the expected state and have the expected content, if any. *)
Definition verify_reopened (opened : io W open_failure H) (expected : fileState) (expectedDigest : string)
  : io W go_error unit :=
  do! actual := wrap_error (fun _ => domainError "ARTIFACT_CHANGED_DURING_READ") opened in
  defer
    (do! actualState := state_or "ARTIFACT_CHANGED_DURING_READ" actual in
     require! negb (fileChanged expected actualState) else domainError "ARTIFACT_CHANGED_DURING_READ" in
     if negb (expectedDigest =s EmptyString) then verifyPinnedContent actual expected expectedDigest
     else ret tt)
    (close fs actual).

Definition verifyArtifactPath (path : string) (expected : fileState) (expectedDigest : string)
  : io W go_error unit := verify_reopened (openArtifactRoot path) expected expectedDigest.

Definition verifyPinnedChild (parent : H) (name : string) (expected : fileState) : io W go_error unit :=
  verify_reopened (openChildNoFollow parent name) expected EmptyString.

Definition verifyRelativeSnapshot (root : H) (snapshot : pinned) : io W go_error unit :=
  verify_reopened (openRelativeNoFollow root (pin_path snapshot)) (pin_state snapshot) (pin_digest snapshot).

(** ** The walk *)

Variable resolved : Resolved.

Definition normalized_entrypoint : string :=
  match normalizeRelative NFC (win_ToSlash (Entrypoint (Launch (Res_Value resolved)))) with
  | Ok entrypoint => entrypoint
  | Err _ => EmptyString
  end.

Definition pin (st : walked) (path : string) (state : fileState) : walked :=
  {| w_entries := w_entries st; w_seen := w_seen st; w_total := w_total st;
     w_entrypoint := w_entrypoint st;
     w_pinned := w_pinned st ++ [{| pin_path := path; pin_state := state; pin_digest := EmptyString |}] |}.

Definition add_file (st : walked) (path digest : string) (bytes : Z) (opened : fileState) : walked :=
  {| w_entries := w_entries st ++ [{| Entry_Path := path; Entry_SHA256 := digest; Entry_Size := bytes |}];
     w_seen := w_seen st ++ [ToLower u path];
     w_total := w_total st + bytes;
     w_entrypoint := if path =s normalized_entrypoint then identity opened else w_entrypoint st;
     w_pinned := w_pinned st ++ [{| pin_path := path; pin_state := opened; pin_digest := digest |}] |}.

(** A regular child, while it is open. *)
Definition walk_file (child : H) (file : FileInfo) (normalized : string) (st : walked)
  : io W go_error win_child :=
  require! IsRegular file else domainError "ARTIFACT_UNSUPPORTED_TYPE" in
  if negb (Includes resolved normalized) then ret WinSkipped
  else
    require! negb (contains (w_seen st) (ToLower u normalized))
      else domainError "ARTIFACT_NORMALIZATION_COLLISION" in
    require! negb (wouldExceed (Z.of_nat (length (w_entries st))) (w_total st) (Size file)
                     (MaxFiles (artifact_limits resolved)) (MaxBytes (artifact_limits resolved)))
      else domainError "ARTIFACT_SCAN_LIMIT_EXCEEDED" in
    do! digested := digestOpenedFile child deadline (MaxBytes (artifact_limits resolved) - w_total st) in
    let '(digest, bytes, opened) := digested in
    ret (WinFile normalized digest bytes opened).

Definition recursion : Type := H -> string -> walked -> io W go_error walked.

Definition walk_opened (recurse : recursion) (prefix name : string) (child : H) (st : walked)
  : io W go_error win_child :=
  do! file := wrap_error (fun _ => domainError "ARTIFACT_INACCESSIBLE") (Fstat fs child) in
  do! normalized := lift (map_err (fun _ => domainError "ARTIFACT_PATH_ESCAPE")
                            (normalizeRelative NFC (child_path prefix name))) in
  if IsDir file then
    do! state := state_or "ARTIFACT_INACCESSIBLE" child in
    do! after := recurse child normalized (pin st normalized state) in
    ret (WinDir state after)
  else walk_file child file normalized st.

Definition walk_child (recurse : recursion) (directory : H) (prefix : string) (st : walked)
  (name : string) : io W go_error walked :=
  do! _ := checkActive fs deadline in
  do! child := wrap_error classifyArtifactOpen (openChildNoFollow directory name) in
  do! outcome := defer (walk_opened recurse prefix name child st) (close fs child) in
  match outcome with
  | WinDir state after => do! _ := verifyPinnedChild directory name state in ret after
  | WinSkipped => ret st
  | WinFile path digest bytes opened =>
      do! _ := verifyPinnedChild directory name opened in
      ret (add_file st path digest bytes opened)
  end.

(** [fuel] bounds the depth, as in [Artifact.v]. *)
Fixpoint walkPinnedDirectory (fuel : nat) (directory : H) (prefix : string) (st : walked)
  : io W go_error walked :=
  match fuel with
  | O => throw out_of_fuel
  | S fuel' =>
      do! before := state_or "ARTIFACT_INACCESSIBLE" directory in
      do! children := wrap_error (fun _ => domainError "ARTIFACT_INACCESSIBLE") (ReadDir fs directory) in
      do! st := foldIO (walk_child (walkPinnedDirectory fuel') directory prefix)
                  (SortFunc Compare children) st in
      do! after := state_or "ARTIFACT_CHANGED_DURING_READ" directory in
      require! negb (fileChanged before after) else domainError "ARTIFACT_CHANGED_DURING_READ" in
      ret st
  end.

Definition nothing_walked (root : fileState) : walked :=
  {| w_entries := []; w_seen := []; w_total := 0; w_entrypoint := EmptyString;
     w_pinned := [{| pin_path := EmptyString; pin_state := root; pin_digest := EmptyString |}] |}.

Definition digestDirectory (fuel : nat) (root : H) : io W go_error (list treeEntry * Z * string) :=
  do! rootState := state_or "ARTIFACT_INACCESSIBLE" root in
  do! st := walkPinnedDirectory fuel root EmptyString (nothing_walked rootState) in
  do! _ := foldIO (fun _ snapshot => verifyRelativeSnapshot root snapshot) (w_pinned st) tt in
  ret (SortFunc compareEntries (w_entries st), w_total st, w_entrypoint st).
End Windows.

Section Entry.
Context {W H : Type} (fs : FS W H) (win : WinFiles W H).
Variable NFC : string -> string.
Variable u : UnicodeTables.

Definition digest_file (resolved : Resolved) (start deadline : Z) (rootFile : H)
  : io W go_error ArtifactObservation :=
  let limits := artifact_limits resolved in
  do! digested := digestOpenedFile fs win rootFile deadline (MaxBytes limits) in
  let '(digest, bytes, opened) := digested in
  require! negb (wouldExceed 0 0 bytes (MaxFiles limits) (MaxBytes limits))
    else domainError "ARTIFACT_SCAN_LIMIT_EXCEEDED" in
  do! _ := verifyArtifactPath fs win deadline (ArtifactRoot resolved) opened digest in
  do! t := now fs in
  ret {| Obs_SHA256 := digest; FileCount := 1; ByteCount := bytes;
         DurationMS := elapsedMS start t; EntrypointFileIdentity := identity opened |}.

Definition digest_tree (fuel : nat) (resolved : Resolved) (start deadline : Z) (rootFile : H)
  (rootState : fileState) : io W go_error ArtifactObservation :=
  do! found := digestDirectory fs win NFC u deadline resolved fuel rootFile in
  let '(listing, bytes, entrypoint) := found in
  do! _ := verifyArtifactPath fs win deadline (ArtifactRoot resolved) rootState EmptyString in
  require! negb (length listing =? 0)%nat else domainError "EXPECTATION_INVALID" in
  do! encoded := lift (map_err (fun _ => domainError "EXPECTATION_INVALID")
                         (Marshal (JArray (map entry_json (SortFunc compareEntries listing))))) in
  do! t := now fs in
  ret {| Obs_SHA256 := sha256_hex encoded; FileCount := Z.of_nat (length listing);
         ByteCount := bytes; DurationMS := elapsedMS start t; EntrypointFileIdentity := entrypoint |}.

Definition Digest (fuel : nat) (resolved : Resolved) : io W go_error ArtifactObservation :=
  do! start := now fs in
  let deadline := start + wrap64 (MaxDurationMS (artifact_limits resolved) * 1000000) in
  do! _ := checkActive fs deadline in
  do! rootFile := wrap_error classifyArtifactOpen (openArtifactRoot fs win (ArtifactRoot resolved)) in
  defer
    (do! rootState := state_or fs win "ARTIFACT_INACCESSIBLE" rootFile in
     if IsRegular (info rootState) then digest_file resolved start deadline rootFile
     else
       require! IsDir (info rootState) else domainError "ARTIFACT_UNSUPPORTED_TYPE" in
       digest_tree fuel resolved start deadline rootFile rootState)
    (close fs rootFile).
End Entry.

(** ** Handles are not leaked, and observations are sound *)

(** The operations of [WinFiles] that open a handle, and those that do not. *)
Class WinLaws {W H} (win : WinFiles W H) (live : W -> Z) : Prop := {
  volume_live : forall path w,
    live (snd (OpenVolume win path w)) = live w + Z.b2z (is_ok (fst (OpenVolume win path w)));
  reparse_live : forall h w, live (snd (ReparsePoint win h w)) = live w;
  id_live : forall h w, live (snd (FileIdInfo win h w)) = live w;
  index_live : forall h w, live (snd (FileIndex win h w)) = live w;
  change_live : forall h w, live (snd (ChangeTime win h w)) = live w
}.

Section WinLawful.
Context {W H : Type} (fs : FS W H) (win : WinFiles W H) (live : W -> Z) (limit : Z).
Context `{!DescriptorLaws fs live limit} `{!WinLaws win live}.
Variable NFC : string -> string.
Variable u : UnicodeTables.

Notation opens n c := (uses live n (n + 1) c (fun _ => True) (fun _ => True)).

Lemma quiet {E A} n (c : io W E A) :
  (forall w, live (snd (c w)) = live w) -> uses live n n c (fun _ => True) (fun _ => True).
Proof. intros Hl. by apply (quiet_op live). Qed.

Lemma keep_plain_opens n opened : opens n opened -> opens n (keep_plain fs win opened).
Proof.
  intros Ho. unfold keep_plain. eapply triple_bind; [by apply uses_wrap|]. intros h.
  apply (triple_bind _ _ _ (fun _ w => live w = n + 1)).
  - assert (Hr : uses live (n + 1) (n + 1) (rejectReparseHandle win h) (fun _ => True) (fun _ => True)).
    { unfold rejectReparseHandle. eapply uses_bind; [apply uses_wrap, quiet, reparse_live|].
      intros reparse _. apply uses_require; [done|intros _]. by apply uses_ret. }
    intros w [Hw _]. specialize (Hr w Hw). unfold close_on_error.
    destruct (rejectReparseHandle win h w) as [[a|e] w']; destruct Hr as [Hr _]; [done|].
    split; [|done]. rewrite close_live. lia.
  - intros _. by apply triple_ret.
Qed.

Lemma win_openat_opens n h name directory : opens n (Openat fs h name directory).
Proof. by eapply (openat_opens fs live limit). Qed.

Lemma win_openChild_opens n parent name : opens n (openChildNoFollow fs win parent name).
Proof.
  unfold openChildNoFollow. apply uses_require; [done|intros _].
  apply keep_plain_opens, win_openat_opens.
Qed.

Lemma open_below_consumes n components current : consumes live n (open_below fs win current components).
Proof.
  revert current. induction components as [|c cs IH]; intros current; cbn [open_below].
  - apply triple_ret. done.
  - eapply (consumes_next fs live limit); [|done]. replace (n + 2) with ((n + 1) + 1) by lia.
    apply win_openChild_opens.
Qed.

Lemma win_openArtifactRoot_opens n path : opens n (openArtifactRoot fs win path).
Proof.
  unfold openArtifactRoot. apply uses_require; [done|intros _]. apply uses_require; [done|intros _].
  apply consumes_first.
  - apply keep_plain_opens, (uses_op live); [|done|done]. intros w. rewrite volume_live.
    destruct (fst (OpenVolume win _ w)); cbn [is_ok Z.b2z]; lia.
  - intros h. destruct (_ =s _); [by apply triple_ret|apply open_below_consumes].
Qed.

Lemma win_openRelative_opens n root relative : opens n (openRelativeNoFollow fs win root relative).
Proof.
  unfold openRelativeNoFollow. destruct (relative =s EmptyString).
  - apply uses_wrap, (uses_op live); [|done|done]. intros w. rewrite dup_live.
    destruct (fst (Dup fs root w)); cbn [is_ok Z.b2z]; lia.
  - destruct (Split relative slash) as [|c cs] eqn:E; [by destruct (Split_nonempty relative slash)|].
    apply consumes_first; [apply win_openChild_opens|]. intros h. apply open_below_consumes.
Qed.

Lemma fileIdentity_uses n h :
  uses live n n (fileIdentity win h) (fun _ => True) (fun _ => True).
Proof.
  unfold fileIdentity. apply (uses_bind _ _ _ _ _ (fun _ => True)).
  { intros w Hw. unfold attempt. pose proof (id_live h w) as Hl. destruct (FileIdInfo win h w).
    cbn in Hl. split; [lia|done]. }
  intros [[volume id]|e] _; [by apply uses_ret|]. apply (uses_bind _ _ _ _ _ (fun _ => True)).
  { intros w Hw. unfold attempt. pose proof (index_live h w) as Hl. destruct (FileIndex win h w).
    cbn in Hl. split; [lia|done]. }
  intros r _. by apply uses_ret.
Qed.

Lemma win_state_uses n code h :
  contains artifact_reasons code = true -> uses live n n (state_or fs win code h) sized reason.
Proof.
  intros Hc. apply uses_wrap. eapply uses_impl; [|by intros a Ha; exact Ha|].
  - eapply uses_bind; [by eapply (fstat_uses fs live limit)|intros i Hi].
    eapply uses_bind; [apply fileIdentity_uses|intros x _].
    eapply uses_bind; [apply quiet, change_live|intros t _]. by apply uses_ret.
  - intros e _. by apply reason_domain.
Qed.

Ltac win_step :=
  lazymatch goal with
  | |- uses _ _ _ (bind (require _ _) _) _ _ => apply uses_require; [by apply reason_domain|intros ?]
  | |- uses _ _ _ (ret _) _ _ => apply uses_ret
  | |- uses _ _ _ (bind (state_or _ _ _ _) _) _ _ => eapply uses_bind; [by apply win_state_uses|intros ? ?]
  end.

Lemma win_digestOpenedFile_uses n h deadline maxBytes :
  uses live n n (digestOpenedFile fs win h deadline maxBytes)
    (fun r => let '(_, bytes, _) := r in 0 <= bytes <= maxBytes) reason.
Proof.
  unfold digestOpenedFile. eapply uses_bind; [by apply win_state_uses|intros before [H0 Hs]].
  win_step. win_step. apply negb_true_iff, Z.ltb_ge in H2.
  eapply uses_bind; [eapply (read_loop_uses fs live limit); lia|intros content _].
  win_step. win_step. win_step. lia.
Qed.

Variable deadline : Z.

Lemma verifyPinnedContent_uses n h expected digest :
  uses live n n (verifyPinnedContent fs win deadline h expected digest) (fun _ => True) reason.
Proof.
  unfold verifyPinnedContent. eapply uses_bind; [apply win_digestOpenedFile_uses|].
  intros [[? ?] ?] _. win_step. by win_step.
Qed.

Lemma verify_reopened_uses n opened expected digest :
  opens n opened -> uses live n n (verify_reopened fs win deadline opened expected digest) (fun _ => True) reason.
Proof.
  intros Ho. unfold verify_reopened. apply (uses_open _ _ _ _ (fun _ => True)).
  - apply uses_wrap. eapply uses_impl; [exact Ho|done|]. intros e _. by apply reason_domain.
  - intros actual _. eapply (uses_defer fs live limit). win_step. win_step.
    destruct (digest =s EmptyString); cbn [negb]; [by win_step|apply verifyPinnedContent_uses].
Qed.

(** What a successful re-verification has seen: the file opened again, and,
    unless no digest is expected, its content hashed again to that digest. *)
Definition confirmed (opened : io W open_failure H) (digest : string) : Prop :=
  exists h w1 w2, opened w1 = (Ok h, w2)
    /\ (digest = EmptyString \/
        exists maxBytes bytes state w3 w4,
          digestOpenedFile fs win h deadline maxBytes w3 = (Ok (digest, bytes, state), w4)).

Lemma verify_reopened_ok opened expected digest w w' :
  verify_reopened fs win deadline opened expected digest w = (Ok tt, w') -> confirmed opened digest.
Proof.
  unfold verify_reopened. intros (h & w1 & Hopen & Hrest)%bind_ok. apply wrap_ok in Hopen.
  exists h, w, w1. split; [exact Hopen|]. unfold defer in Hrest.
  destruct (bind _ _ w1) as [r w2] eqn:E in Hrest. injection Hrest as -> _.
  apply bind_ok in E as (state & w3 & _ & E). apply bind_ok in E as (? & w4 & _ & E).
  destruct (String.eqb_spec digest EmptyString) as [->|Hne]; [by left|]. right. cbn [negb] in E.
  unfold verifyPinnedContent in E. apply bind_ok in E as ([[d bytes] s] & w5 & Hd & E).
  apply bind_ok in E as (? & w6 & Hreq & _). apply require_ok in Hreq as [Hreq ->].
  apply andb_true_iff in Hreq as [_ ->%String.eqb_eq].
  by exists (size expected), bytes, s, w4, w5.
Qed.

(** A postcondition may speak of a run that ended with the value. *)
Lemma uses_run {E A} n k (c : io W E A) Q R :
  uses live n k c Q R -> uses live n k c (fun a => Q a /\ exists w w', c w = (Ok a, w')) R.
Proof.
  intros Hc w Hw. specialize (Hc w Hw). destruct (c w) as [[a|e] w'] eqn:Er; [|exact Hc].
  destruct Hc as [Hl Hq]. split; [done|]. split; [done|]. by exists w, w'.
Qed.

Lemma uses_each {E A} n (f : A -> io W E unit) (P : A -> Prop) R l :
  (forall x, uses live n n (f x) (fun _ => P x) R) ->
  uses live n n (foldIO (fun _ x => f x) l tt) (fun _ => Forall P l) R.
Proof.
  intros Hf. induction l as [|x l IH]; cbn [foldIO]; [apply uses_ret; constructor|].
  eapply uses_bind; [apply Hf|]. intros [] Hx. eapply uses_impl; [exact IH| |done].
  intros ? Hl. by constructor.
Qed.

Lemma verify_confirms n opened expected digest :
  opens n opened ->
  uses live n n (verify_reopened fs win deadline opened expected digest)
    (fun _ => confirmed opened digest) reason.
Proof.
  intros Ho. eapply uses_impl; [apply uses_run, verify_reopened_uses, Ho| |done].
  intros [] (_ & w & w' & Hrun). by eapply verify_reopened_ok.
Qed.

Lemma digestOpenedFile_hash n h maxBytes :
  uses live n n (digestOpenedFile fs win h deadline maxBytes)
    (fun r => let '(digest, bytes, _) := r in
              0 <= bytes <= maxBytes /\ exists content, digest = sha256_hex content) reason.
Proof.
  eapply uses_impl; [apply uses_run, win_digestOpenedFile_uses| |done].
  intros [[digest bytes] opened] (Hb & w & w' & Hrun). split; [exact Hb|]. unfold digestOpenedFile in Hrun.
  apply bind_ok in Hrun as (? & ? & _ & Hrun). apply bind_ok in Hrun as (? & ? & _ & Hrun).
  apply bind_ok in Hrun as (? & ? & _ & Hrun). apply bind_ok in Hrun as (content & ? & _ & Hrun).
  apply bind_ok in Hrun as (? & ? & _ & Hrun). apply bind_ok in Hrun as (? & ? & _ & Hrun).
  injection Hrun as <- _ _ _. by exists content.
Qed.

(** ** The walk *)

Variable resolved : Resolved.

Definition key (e : treeEntry) : string := ToLower u (Entry_Path e).

Record well_walked (st : walked) : Prop := {
  ww_limits : w_entries st <> [] ->
    Z.of_nat (length (w_entries st)) <= MaxFiles (artifact_limits resolved)
    /\ w_total st <= MaxBytes (artifact_limits resolved);
  ww_total : w_total st = sizes (w_entries st);
  ww_sizes : Forall (fun e => 0 <= Entry_Size e) (w_entries st);
  ww_seen : w_seen st = map key (w_entries st);
  ww_distinct : NoDup (map key (w_entries st));
  ww_included : Forall (fun e => Includes resolved (Entry_Path e) = true) (w_entries st);
  ww_pinned : Forall (fun e => Entry_SHA256 e <> EmptyString /\ exists p, p ∈ w_pinned st
                /\ pin_path p = Entry_Path e /\ pin_digest p = Entry_SHA256 e) (w_entries st)
}.

Lemma nothing_well_walked root : well_walked (nothing_walked root).
Proof. split; cbn; try done; constructor. Qed.

Lemma pinned_more (l l' : list pinned) (es : list treeEntry) :
  Forall (fun e => Entry_SHA256 e <> EmptyString /\ exists p, p ∈ l
            /\ pin_path p = Entry_Path e /\ pin_digest p = Entry_SHA256 e) es ->
  Forall (fun e => Entry_SHA256 e <> EmptyString /\ exists p, p ∈ l ++ l'
            /\ pin_path p = Entry_Path e /\ pin_digest p = Entry_SHA256 e) es.
Proof.
  intros Hall. eapply Forall_impl; [exact Hall|]. intros e (Hne & p & Hp & H1 & H2).
  split; [done|]. exists p. by split; [apply elem_of_app; left|].
Qed.

Lemma pin_well_walked st path state : well_walked st -> well_walked (pin st path state).
Proof. intros []. split; cbn; try done. by apply pinned_more. Qed.

Lemma add_well_walked st path digest bytes opened :
  well_walked st -> contains (w_seen st) (ToLower u path) = false -> Includes resolved path = true ->
  digest <> EmptyString ->
  wouldExceed (Z.of_nat (length (w_entries st))) (w_total st) bytes
    (MaxFiles (artifact_limits resolved)) (MaxBytes (artifact_limits resolved)) = false ->
  well_walked (add_file NFC u resolved st path digest bytes opened).
Proof.
  intros [Hl Ht Hs Hn Hd Hi Hp] Hc Hinc Hdig [[Hx Hnb]%orb_false_iff Hb]%orb_false_iff. to_prop.
  split; cbn [add_file w_entries w_seen w_total w_pinned].
  - intros _. rewrite length_app. cbn [length]. lia.
  - rewrite sizes_app, Ht. cbn. lia.
  - apply Forall_app. by repeat constructor.
  - by rewrite map_app, Hn.
  - rewrite map_app. apply NoDup_app. split; [done|]. split; [|by repeat constructor; set_solver].
    intros k Hk Heq%list_elem_of_singleton. subst k. unfold contains in Hc. rewrite Hn in Hc.
    rewrite existsb_false, Forall_forall in Hc. specialize (Hc _ Hk).
    cbn in Hc. by rewrite String.eqb_refl in Hc.
  - apply Forall_app. by repeat constructor.
  - apply Forall_app. split; [by apply pinned_more|]. constructor; [|constructor]. split; [done|].
    eexists. split; [apply elem_of_app; right; by apply list_elem_of_singleton|done].
Qed.

Definition well_child (st : walked) (o : win_child) : Prop :=
  match o with
  | WinDir _ after => well_walked after
  | WinSkipped => True
  | WinFile path digest bytes _ =>
      contains (w_seen st) (ToLower u path) = false /\ Includes resolved path = true
      /\ digest <> EmptyString
      /\ wouldExceed (Z.of_nat (length (w_entries st))) (w_total st) bytes
          (MaxFiles (artifact_limits resolved)) (MaxBytes (artifact_limits resolved)) = false
  end.

Lemma win_walk_file_uses n child file normalized st :
  uses live n n (walk_file fs win u deadline resolved child file normalized st) (well_child st) reason.
Proof.
  unfold walk_file. win_step.
  destruct (Includes resolved normalized) eqn:Hi; cbn [negb]; [|by win_step].
  win_step. win_step. eapply uses_bind; [apply digestOpenedFile_hash|].
  intros [[digest bytes] opened] (Hb & content & ->). win_step. cbn [well_child].
  split; [by apply negb_true_iff|]. split; [done|].
  split; [intros He; by pose proof (sha256_hex_length content) as Hlen; rewrite He in Hlen|].
  apply negb_true_iff in H2. unfold wouldExceed in *.
  apply orb_false_iff in H2 as [[Hx _]%orb_false_iff _]. rewrite Hx. cbn [orb].
  rewrite orb_false_iff, !Z.ltb_ge. lia.
Qed.

Lemma win_walk_opened_uses n recurse prefix name child st :
  (forall h p s, well_walked s -> uses live n n (recurse h p s) well_walked reason) -> well_walked st ->
  uses live n n (walk_opened fs win NFC u deadline resolved recurse prefix name child st)
    (well_child st) reason.
Proof.
  intros Hrec Hg. unfold walk_opened.
  eapply uses_bind; [apply uses_wrap; eapply uses_impl; [by eapply (fstat_uses fs live limit)|intros i Hi; exact Hi|]|].
  { intros e _. by apply reason_domain. }
  intros file _. apply (uses_bind _ _ _ _ _ (fun _ => True)).
  { apply uses_lift; [done|]. intros e. destruct (normalizeRelative _ _); [done|].
    intros [= <-]. by apply reason_domain. }
  intros normalized _. destruct (IsDir file); [|apply win_walk_file_uses].
  win_step. eapply uses_bind; [apply Hrec; by apply pin_well_walked|intros after Ha]. by win_step.
Qed.

Lemma win_walk_child_uses n recurse directory prefix st name :
  (forall h p s, well_walked s -> uses live (n + 1) (n + 1) (recurse h p s) well_walked reason) ->
  well_walked st ->
  uses live n n (walk_child fs win NFC u deadline resolved recurse directory prefix st name) well_walked reason.
Proof.
  intros Hrec Hg. unfold walk_child. eapply uses_bind; [by eapply (checkActive_uses fs live limit)|intros _ _].
  apply (uses_open _ _ _ _ (fun _ => True)).
  { apply uses_wrap. eapply uses_impl; [apply win_openChild_opens|done|]. intros e _. apply reason_classify. }
  intros child _. eapply triple_bind; [eapply (uses_defer fs live limit); by apply win_walk_opened_uses|].
  intros outcome w [Hw Ho]. revert w Hw.
  destruct outcome as [state after| |path digest bytes opened]; cbn [well_child] in Ho.
  - eapply uses_bind; [apply verify_reopened_uses, win_openChild_opens|intros _ _]. by win_step.
  - by apply uses_ret.
  - eapply uses_bind; [apply verify_reopened_uses, win_openChild_opens|intros _ _].
    win_step. destruct Ho as (?&?&?&?). by apply add_well_walked.
Qed.

Lemma win_walk_uses fuel n directory prefix st :
  limit < n + Z.of_nat fuel -> well_walked st ->
  uses live n n (walkPinnedDirectory fs win NFC u deadline resolved fuel directory prefix st) well_walked reason.
Proof.
  revert n directory prefix st. induction fuel as [|fuel IH]; intros n directory prefix st Hf Hg.
  { intros w Hw. pose proof (live_limit w). lia. }
  cbn [walkPinnedDirectory]. win_step. apply (uses_bind _ _ _ _ _ (fun _ => True)).
  { apply uses_wrap. eapply uses_impl; [apply quiet, readdir_live|done|]. intros e _. by apply reason_domain. }
  intros children _. eapply uses_bind.
  - apply uses_fold; [exact Hg|]. intros name s0 _ Hs. apply win_walk_child_uses; [|exact Hs].
    intros h p s Hs'. apply IH; [lia|exact Hs'].
  - intros st' Hg'. win_step. win_step. by win_step.
Qed.

(** A file of the listing has been reopened by its path at the end, and read
    a second time with the same digest. *)
Definition read_twice (root : H) (e : treeEntry) : Prop :=
  exists h w1 w2 maxBytes bytes state w3 w4,
    openRelativeNoFollow fs win root (Entry_Path e) w1 = (Ok h, w2)
    /\ digestOpenedFile fs win h deadline maxBytes w3 = (Ok (Entry_SHA256 e, bytes, state), w4).

Definition well_listed (r : list treeEntry * Z * string) : Prop :=
  let '(listing, bytes, _) := r in
  StronglySorted (lt_by compareEntries) listing
  /\ Forall (fun e => Includes resolved (Entry_Path e) = true) listing
  /\ Forall (fun e => 0 <= Entry_Size e) listing
  /\ bytes = sizes listing
  /\ (listing <> [] -> Z.of_nat (length listing) <= MaxFiles (artifact_limits resolved)
                       /\ bytes <= MaxBytes (artifact_limits resolved))
  /\ NoDup (map key listing)
  /\ exists root, Forall (read_twice root) listing.

Lemma listing_keys_distinct (es : list treeEntry) : NoDup (map key es) -> NoDup (map Entry_Path es).
Proof.
  unfold key. rewrite <- (map_map Entry_Path (ToLower u)). apply NoDup_fmap_1.
Qed.

Lemma well_walked_listed root st :
  well_walked st ->
  Forall (fun p => confirmed (openRelativeNoFollow fs win root (pin_path p)) (pin_digest p)) (w_pinned st) ->
  well_listed (SortFunc compareEntries (w_entries st), w_total st, w_entrypoint st).
Proof.
  intros [Hl Ht Hs Hn Hd Hi Hp] Hc. pose proof (SortFunc_perm compareEntries (w_entries st)) as Hperm.
  split; [apply SortFunc_entries_sorted; by apply listing_keys_distinct|].
  split; [by rewrite Hperm|]. split; [by rewrite Hperm|]. split; [by rewrite Hperm|]. split.
  { intros Hne. rewrite (Permutation_length Hperm). apply Hl. intros He. apply Hne. by rewrite He. }
  split; [by rewrite Hperm|]. exists root. rewrite Hperm. eapply Forall_impl; [exact Hp|].
  intros e (Hne & p & Hin & Hpath & Hdig). rewrite Forall_forall in Hc.
  destruct (Hc p Hin) as (h & w1 & w2 & Ho & [He|(m & b & s & w3 & w4 & Hr)]).
  - by rewrite Hdig in He.
  - rewrite Hpath in Ho. rewrite Hdig in Hr. by exists h, w1, w2, m, b, s, w3, w4.
Qed.

Lemma win_digestDirectory_uses n fuel root :
  limit < n + Z.of_nat fuel ->
  uses live n n (digestDirectory fs win NFC u deadline resolved fuel root) well_listed reason.
Proof.
  intros Hf. unfold digestDirectory. win_step.
  eapply uses_bind; [apply win_walk_uses; [exact Hf|apply nothing_well_walked]|intros st Hg].
  eapply uses_bind; [apply uses_each; intros p; apply verify_confirms, win_openRelative_opens|].
  intros [] Hall. apply uses_ret. by eapply well_walked_listed.
Qed.
End WinLawful.

Section WinEntry.
Context {W H : Type} (fs : FS W H) (win : WinFiles W H) (live : W -> Z) (limit : Z).
Context `{!DescriptorLaws fs live limit} `{!WinLaws win live}.
Variable NFC : string -> string.
Variable u : UnicodeTables.
Variable resolved : Resolved.

(** What a successful digest says on Windows. *)
Definition win_sound (obs : ArtifactObservation) : Prop :=
  within_limits resolved obs
  /\ ((FileCount obs = 1 /\ exists deadline, confirmed fs win deadline
         (openArtifactRoot fs win (ArtifactRoot resolved)) (Obs_SHA256 obs))
      \/ exists listing deadline root,
           describes resolved listing obs
           /\ NoDup (map (fun e => ToLower u (Entry_Path e)) listing)
           /\ Forall (read_twice fs win deadline root) listing).

Ltac require_step := apply uses_require; [by apply reason_domain|intros ?].

Lemma win_digest_file_uses n start deadline rootFile :
  uses live n n (digest_file fs win resolved start deadline rootFile) win_sound reason.
Proof.
  unfold digest_file. eapply uses_bind; [by eapply (digestOpenedFile_hash fs win live limit)|].
  intros [[digest bytes] opened] [Hb _]. require_step.
  eapply uses_bind; [eapply (verify_confirms fs win live limit), (win_openArtifactRoot_opens fs win live limit)|].
  intros [] Hc. eapply uses_bind; [by eapply (now_uses fs live limit)|intros t _]. apply uses_ret.
  apply negb_true_iff in H0. apply orb_false_iff in H0 as [[Hx _]%orb_false_iff _].
  apply Z.ltb_ge in Hx. split; [|left; split; [done|by exists deadline]].
  unfold within_limits. cbn [FileCount ByteCount DurationMS]. pose proof (elapsedMS_range start t). lia.
Qed.

Lemma win_digest_tree_uses n fuel start deadline rootFile rootState :
  limit < n + Z.of_nat fuel ->
  uses live n n (digest_tree fs win NFC u fuel resolved start deadline rootFile rootState) win_sound reason.
Proof.
  intros Hf. unfold digest_tree.
  eapply uses_bind; [by eapply (win_digestDirectory_uses fs win live limit)|].
  intros [[listing bytes] entrypoint] (Hs & Hi & Hz & -> & Hl & Hkeys & root & Htwice).
  eapply uses_bind; [eapply (verify_reopened_uses fs win live limit), (win_openArtifactRoot_opens fs win live limit)|].
  intros _ _. require_step. eapply (uses_bind _ _ _ _ _ (fun encoded =>
    Marshal (JArray (map entry_json (SortFunc compareEntries listing))) = Ok encoded)).
  { apply uses_lift; [intros a; apply map_err_ok|]. intros e. destruct (Marshal _); [done|].
    intros [= <-]. by apply reason_domain. }
  intros encoded He. eapply uses_bind; [by eapply (now_uses fs live limit)|intros t _]. apply uses_ret.
  rewrite sort_sorted_id in He by exact Hs.
  assert (Hne : listing <> []) by (by intros ->). specialize (Hl Hne). split.
  - unfold within_limits. cbn [FileCount ByteCount DurationMS]. pose proof (sizes_nonneg _ Hz).
    destruct listing; [done|]. cbn [length] in *. pose proof (elapsedMS_range start t). lia.
  - right. exists listing, deadline, root. split; [|done]. split; [exact Hs|]. split; [exact Hi|]. eauto.
Qed.

Lemma win_Digest_uses n fuel :
  limit < n + 1 + Z.of_nat fuel ->
  uses live n n (Digest fs win NFC u fuel resolved) win_sound reason.
Proof.
  intros Hf. unfold Digest. eapply uses_bind; [by eapply (now_uses fs live limit)|intros start _].
  eapply uses_bind; [by eapply (checkActive_uses fs live limit)|intros _ _].
  apply (uses_open _ _ _ _ (fun _ => True)).
  { apply uses_wrap. eapply uses_impl; [by eapply (win_openArtifactRoot_opens fs win live limit)|done|].
    intros e _. apply reason_classify. }
  intros rootFile _. eapply (uses_defer fs live limit).
  eapply uses_bind; [by eapply (win_state_uses fs win live limit)|intros rs _].
  destruct (IsRegular _); [apply win_digest_file_uses|]. require_step.
  apply win_digest_tree_uses. lia.
Qed.
End WinEntry.

(** C36: the Windows build of [Digest], whatever the file system does under it:
    it closes every handle it opened, ends within the handle limit, and fails
    only with reasons the decision registry knows; and an observation it
    returns is within the declared limits, lists only selected files, no two
    of them equal up to case, and the content of every file in it has been
    read a second time, by its path, with the same digest. *)
Theorem win_Digest_lawful {W H} (fs : FS W H) (win : WinFiles W H) live limit
  `{!DescriptorLaws fs live limit} `{!WinLaws win live} NFC u fuel resolved w :
  limit <= live w + Z.of_nat fuel ->
  match Digest fs win NFC u fuel resolved w with
  | (Ok obs, w') => live w' = live w /\ win_sound fs win u resolved obs
  | (Err e, w') => live w' = live w /\ reason e
  end.
Proof.
  intros Hf. exact (win_Digest_uses fs win live limit NFC u resolved (live w) fuel ltac:(lia) w eq_refl).
Qed.

(** ** The sample tree on a drive *)

Definition drive_files : WinFiles tree_world descriptor := {|
  OpenVolume path := if path =s ("C:" +:+ String backslash EmptyString)
                     then open_node 100 (installed sample_tree) else fun w => (Err OtherErrno, w);
  ReparsePoint h w := (Ok false, w);
  FileIdInfo h w := (Err OtherErrno, w);
  FileIndex h w := (Ok (7, 0, Ino (node_info (at_node h))), w);
  ChangeTime h w := (Ok 0, w);
  win_Clean path := path;
  win_IsAbs path := true;
  win_VolumeName path := stake 2 path |}.

#[export] Instance drive_laws : WinLaws drive_files (tree_live 100).
Proof.
  split; try (intros; cbn; lia). intros path w. cbn [OpenVolume drive_files].
  destruct (path =s _); [apply open_node_live|cbn; lia].
Qed.

Definition drive_resolved : Resolved := {|
  Res_Value := Res_Value sample_resolved; ManifestPath := ManifestPath sample_resolved;
  ArtifactRoot := "C:" +:+ String backslash ("opt" +:+ String backslash "app");
  Res_AllowedRoots := Res_AllowedRoots sample_resolved |}.

Definition drive_digest : result go_error ArtifactObservation * tree_world :=
  Digest (tree_fs (installed sample_tree) 100) drive_files (fun s => s) ascii_tables 100 drive_resolved
    empty_world.

Lemma win_Digest_lawful_witness :
  exists obs w', drive_digest = (Ok obs, w') /\ FileCount obs = 2
    /\ win_sound (tree_fs (installed sample_tree) 100) drive_files ascii_tables drive_resolved obs.
Proof.
  assert (Hc : match fst drive_digest with Ok obs => FileCount obs | Err _ => 0 end = 2)
    by (vm_compute; reflexivity).
  pose proof (win_Digest_lawful (tree_fs (installed sample_tree) 100) drive_files (tree_live 100) 100
                (fun s => s) ascii_tables 100 drive_resolved empty_world ltac:(vm_compute; discriminate)) as Hd.
  fold drive_digest in Hd. destruct drive_digest as [[obs|e] w']; [|discriminate Hc].
  exists obs, w'. split; [reflexivity|]. split; [exact Hc|]. apply Hd.
Defined.
