(* ===== verification/ConfigFile.v ===== *)
(** * Reading a host configuration ([internal/hostprofile/open_nofollow_unix.go])

    [readPinnedConfig] opens a file component by component without following
    a link, reads it twice within its limit, and accepts it only if both
    readings agree and the file did not change meanwhile.  The file system is
    the one of [Artifact], with [lseek]. *)

From S2P Require Import Prelude GoStrings GoPath Model Contract Process Expectation HostParse World Artifact ArtifactTree.

Inductive config_error :=
| InvalidPath
| NotRegular
| ExceedsLimit
| ConfigChanged                    (* [errConfigChanged] *)
| ConfigCancelled
| ConfigIO (e : errno)
| ReadUnfinished.                  (* the bound of the loop; never reached *)

Section ConfigFile.
Context {W H : Type} (fs : FS W H).
(** [file.Seek(0, io.SeekStart)]. *)
Variable Seek : H -> W -> result errno unit * W.
(** The free space of the buffer of [io.ReadAll] that holds so many bytes. *)
Variable room : nat -> nat.
Variable goos : string.                (* [runtime.GOOS] *)

Definition runtimePathPrefix (value prefix : string) : bool :=
  (value =s TrimSuffix prefix sep) || HasPrefix value prefix.

(** On macOS [/var] and [/tmp] are links into [/private]. *)
Definition under_private (prefix cleaned : string) : string :=
  if (goos =s "darwin") && runtimePathPrefix cleaned prefix then "/private" +:+ cleaned else cleaned.

Definition bad_component (component : string) : bool :=
  (component =s EmptyString) || (component =s ".") || (component =s "..").

(** [current] is closed on every path but the one that returns it. *)
Fixpoint open_config (current : H) (components : list string) : io W config_error H :=
  match components with
  | [] => ret current
  | component :: rest =>
      do! next := defer (require! negb (bad_component component) else InvalidPath in
                         wrap_error ConfigIO
                           (Openat fs current component (negb (length rest =? 0)%nat)))
                        (Close fs current) in
      open_config next rest
  end.

(** [io.ReadAll(io.LimitReader(file, remaining))]. *)
Fixpoint read_all (fuel : nat) (h : H) (remaining : Z) (data : string) : io W config_error string :=
  match fuel with
  | O => throw ReadUnfinished
  | S fuel' =>
      if remaining <=? 0 then ret data
      else
        do! chunk := wrap_error ConfigIO
                       (Read fs h (Nat.min (Z.to_nat remaining) (room (String.length data)))) in
        if chunk =s EmptyString then ret data
        else read_all fuel' h (remaining - slen chunk) (data +:+ chunk)
  end.

Definition read_limited (h : H) (maximum : Z) : io W config_error string :=
  read_all (S (Z.to_nat (maximum + 1))) h (maximum + 1) EmptyString.

(** Any failure but the loop's bound, reported as a change. *)
Definition as_change (e : config_error) : config_error :=
  match e with ReadUnfinished => ReadUnfinished | _ => ConfigChanged end.

Definition config_ctx : io W config_error bool := fun w => let '(b, w') := CtxErr fs w in (Ok b, w').

Definition read_twice (file : H) (maximum : Z) : io W config_error string :=
  do! before := wrap_error (fun _ => NotRegular) (Fstat fs file) in
  require! IsRegular before else NotRegular in
  do! data := read_limited file maximum in
  require! slen data <=? maximum else ExceedsLimit in
  do! cancelled := config_ctx in
  require! negb cancelled else ConfigCancelled in
  do! _ := wrap_error (fun _ => ConfigChanged) (Seek file) in
  do! confirmed := wrap_error as_change (read_limited file maximum) in
  require! data =s confirmed else ConfigChanged in
  do! after := wrap_error (fun _ => ConfigChanged) (Fstat fs file) in
  require! SameFile before after && (Size before =? Size after) && (ModTime before =? ModTime after)
    else ConfigChanged in
  ret data.

Definition readPinnedConfig (path : string) (maximum : Z) : io W config_error string :=
  let cleaned := Clean path in
  require! IsAbs cleaned && (0 <? maximum) else InvalidPath in
  let cleaned := under_private "/tmp/" (under_private "/var/" cleaned) in
  do! current := wrap_error ConfigIO (OpenSlash fs) in
  do! file := open_config current (Split (TrimPrefix cleaned sep) slash) in
  defer (read_twice file maximum) (Close fs file).

(** ** Every reading ends, within its limit, and closes what it opened *)

Class SeekLaws (live : W -> Z) : Prop := {
  seek_live : forall h w, live (snd (Seek h w)) = live w;
  read_bound : forall h n w chunk, fst (Read fs h n w) = Ok chunk -> (String.length chunk <= n)%nat
}.

Context (live : W -> Z) (limit : Z) `{!DescriptorLaws fs live limit} `{!SeekLaws live}.

Definition ended (e : config_error) : Prop := e <> ReadUnfinished.

Lemma open_config_consumes n components current :
  triple (fun w => live w = n + 1) (open_config current components)
    (fun _ w => live w = n + 1 /\ True) (fun e w => live w = n /\ ended e).
Proof.
  revert current. induction components as [|c cs IH]; intros current; cbn [open_config].
  - by apply triple_ret.
  - eapply triple_bind; [apply (next_descriptor fs live limit n _ current (fun _ => True) ended)|].
    + apply (uses_require live); [done|intros _]. apply (uses_wrap live).
      replace (n + 2) with ((n + 1) + 1) by lia.
      eapply (uses_impl live); [by eapply (openat_opens fs live limit)|done|done].
    + intros h. cbn beta. eapply triple_conseq; [apply (IH h)|by intros w []|done|done].
Qed.

Lemma read_all_uses n h fuel remaining data :
  Z.max 0 remaining < Z.of_nat fuel ->
  uses live n n (read_all fuel h remaining data)
    (fun d => slen d <= slen data + Z.max 0 remaining) ended.
Proof.
  revert remaining data. induction fuel as [|fuel IH]; intros remaining data Hf; [lia|]. cbn [read_all].
  destruct (Z.leb_spec remaining 0); [apply (uses_ret live); lia|].
  eapply (uses_bind live _ _ _ _ (fun chunk => slen chunk <= remaining)).
  { apply (uses_wrap live), (uses_op live); [|intros w a E|done].
    - intros w. rewrite read_live. destruct (is_ok _); lia.
    - apply read_bound in E. unfold slen. lia. }
  intros chunk Hc. destruct (String.eqb_spec chunk EmptyString) as [|Hne]; [apply (uses_ret live); lia|].
  assert (0 < slen chunk) by (unfold slen; destruct chunk; [done|cbn; lia]).
  eapply (uses_impl live); [apply IH; lia| |done].
  intros d Hd. unfold slen in *. rewrite str_app_length in Hd. lia.
Qed.

Lemma read_limited_uses n h maximum :
  uses live n n (read_limited h maximum) (fun _ => True) ended.
Proof. eapply (uses_impl live); [apply read_all_uses; lia|done|done]. Qed.

Lemma read_twice_uses n file maximum :
  uses live n n (read_twice file maximum) (fun data => slen data <= maximum) ended.
Proof.
  assert (Hstat : forall e, ended e -> uses live n n (wrap_error (fun _ => e) (Fstat fs file)) (fun _ => True) ended).
  { intros e He. apply (uses_wrap live), (uses_op live); [|done|done]. intros w. rewrite fstat_live.
    destruct (is_ok _); lia. }
  unfold read_twice. eapply (uses_bind live); [by apply Hstat|intros before _].
  apply (uses_require live); [done|intros _].
  eapply (uses_bind live); [apply read_limited_uses|intros data _].
  apply (uses_require live); [done|intros Hd%Z.leb_le].
  apply (uses_bind live _ _ _ _ (fun _ => True)).
  { intros w Hw. unfold config_ctx. pose proof (ctx_live w) as Hl. destruct (CtxErr fs w) as [b w'].
    cbn in Hl. split; [lia|done]. }
  intros cancelled _. apply (uses_require live); [done|intros _].
  apply (uses_bind live _ _ _ _ (fun _ => True)).
  { apply (uses_wrap live), (uses_op live); [|done|done]. intros w. rewrite seek_live.
    destruct (is_ok _); lia. }
  intros _ _. apply (uses_bind live _ _ _ _ (fun _ => True)).
  { apply (uses_wrap live). eapply (uses_impl live); [apply read_limited_uses|done|]. by intros []. }
  intros confirmed _. apply (uses_require live); [done|intros _].
  eapply (uses_bind live); [by apply Hstat|intros after _].
  apply (uses_require live); [done|intros _]. by apply (uses_ret live).
Qed.

(** Whatever the file system does, [readPinnedConfig] ends, closes every
    descriptor it opened, and returns a document only for an absolute path and
    within the declared size. *)
Theorem readPinnedConfig_pinned path maximum w :
  live (snd (readPinnedConfig path maximum w)) = live w
  /\ match fst (readPinnedConfig path maximum w) with
     | Ok data => IsAbs (Clean path) = true /\ 0 < maximum /\ slen data <= maximum
     | Err e => e <> ReadUnfinished
     end.
Proof.
  cut (uses live (live w) (live w) (readPinnedConfig path maximum)
         (fun data => IsAbs (Clean path) = true /\ 0 < maximum /\ slen data <= maximum) ended).
  { intros Hu. specialize (Hu w eq_refl). by destruct (readPinnedConfig path maximum w) as [[data|e] w']. }
  unfold readPinnedConfig. apply (uses_require live); [done|].
  intros [Ha Hm%Z.ltb_lt]%andb_true_iff.
  apply (triple_bind _ _ _ (fun _ w0 => live w0 = live w + 1 /\ True)).
  { apply (uses_wrap live), (uses_op live); [|done|done]. intros w0. rewrite slash_live.
    destruct (is_ok _); cbn; lia. }
  intros current. apply (triple_bind _ _ _ (fun _ w0 => live w0 = live w + 1 /\ True)).
  { eapply triple_conseq; [apply (open_config_consumes (live w))|by intros w0 []|done|done]. }
  intros file. eapply triple_conseq; [eapply (uses_defer fs live limit), read_twice_uses|by intros w0 []| |done].
  by intros data w0 [Hl Hd].
Qed.
End ConfigFile.

(** ** On a file system that stays still *)

Definition tree_seek (h : descriptor) (w : tree_world) : result errno unit * tree_world :=
  (Ok tt, {| next_fd := next_fd w; unread := <[fd h := node_content (at_node h)]> (unread w);
             in_use := in_use w |}).

(** The node a sequence of names leads to, links not followed. *)
Fixpoint locate (d : node) (components : list string) : result config_error node :=
  match components with
  | [] => Ok d
  | name :: rest =>
      match d with
      | NDir _ children =>
          match assoc children name with
          | None => Err (ConfigIO ENOENT)
          | Some (NLink _) => Err (ConfigIO ELOOP)
          | Some (NDir m grandchildren) => locate (NDir m grandchildren) rest
          | Some t => if negb (length rest =? 0)%nat then Err (ConfigIO ENOTDIR) else Ok t
          end
      | _ => Err (ConfigIO ENOTDIR)
      end
  end.

(** The components of a path, with the links of macOS resolved. *)
Definition pinned_comps (goos path : string) : list string :=
  match abs_comps path with
  | c :: cs => if (goos =s "darwin") && ((c =s "var") || (c =s "tmp")) then "private" :: c :: cs else c :: cs
  | [] => []
  end.

(** What reading a path means. *)
Definition reference_read (goos : string) (root : node) (path : string) (maximum : Z)
  : result config_error string :=
  if negb (IsAbs path && (0 <? maximum)) then Err InvalidPath
  else if (length (pinned_comps goos path) =? 0)%nat then Err InvalidPath
  else match locate root (pinned_comps goos path) with
       | Err e => Err e
       | Ok (NFile _ content) => if slen content <=? maximum then Ok content else Err ExceedsLimit
       | Ok _ => Err NotRegular
       end.

(** The test for a directory at the root looks at the first component. *)
Lemma runtimePathPrefix_first name c cs :
  has_byte name slash = false -> TrimSuffix (sep +:+ name +:+ sep) sep = sep +:+ name ->
  Forall normal_comp (c :: cs) ->
  runtimePathPrefix (sep +:+ Join (c :: cs) sep) (sep +:+ name +:+ sep) = (c =s name).
Proof.
  intros Hn Ht Hc. unfold runtimePathPrefix. rewrite Ht.
  assert (HS : Split (Join (c :: cs) sep) slash = c :: cs) by (apply Split_Join; [done|by apply normal_no_sep]).
  assert (Hc' : c = name -> exists t, sep +:+ Join (c :: cs) sep = sep +:+ name \/ sep +:+ Join (c :: cs) sep
                                       = (sep +:+ name +:+ sep) +:+ t).
  { intros ->. destruct cs as [|c' cs]; [exists EmptyString; by left|].
    exists (Join (c' :: cs) sep). right. cbn [Join]. by rewrite !str_app_assoc. }
  generalize dependent (Join (c :: cs) sep). intros joined HS Hc'.
  apply eq_true_iff_eq. rewrite orb_true_iff, HasPrefix_iff. split.
  - intros [H|[t H]].
    + apply String.eqb_eq in H. injection H as ->. rewrite Split_single in HS by done.
      injection HS as <- _. apply String.eqb_refl.
    + injection H as H. rewrite str_app_assoc in H. apply HasPrefix_Split_head in H; [|done]. rewrite HS in H.
      injection H as ->. apply String.eqb_refl.
  - intros H%String.eqb_eq%Hc'. destruct H as [t [->| ->]]; [left; apply String.eqb_refl|right; by exists t].
Qed.

Lemma under_private_comps goos path :
  IsAbs path = true ->
  TrimPrefix (under_private goos "/tmp/" (under_private goos "/var/" (Clean path))) sep
  = Join (pinned_comps goos path) sep.
Proof.
  intros Ha. rewrite Clean_abs by done. unfold pinned_comps, under_private.
  pose proof (abs_comps_normal path) as Hc. destruct (goos =s "darwin"); cbn [andb].
  2: { rewrite TrimPrefix_app. by destruct (abs_comps path). }
  destruct (abs_comps path) as [|c cs]; [done|].
  assert (Hv : forall c cs, Forall normal_comp (c :: cs) ->
     runtimePathPrefix (sep +:+ Join (c :: cs) sep) "/var/" = (c =s "var")
     /\ runtimePathPrefix (sep +:+ Join (c :: cs) sep) "/tmp/" = (c =s "tmp")).
  { intros c0 cs0 H. split; [by apply (runtimePathPrefix_first "var")|by apply (runtimePathPrefix_first "tmp")]. }
  destruct (Hv c cs Hc) as [-> Ht].
  assert (Hp : Forall normal_comp ("private" :: c :: cs)).
  { constructor; [|done]. by repeat split. }
  assert (E : "/private" +:+ sep +:+ Join (c :: cs) sep = sep +:+ Join ("private" :: c :: cs) sep) by done.
  destruct (c =s "var") eqn:Ev; cbn [orb].
  - rewrite E. rewrite (proj2 (Hv "private" (c :: cs) Hp)).
    change ("private" =s "tmp") with false. cbv iota. by rewrite TrimPrefix_app.
  - rewrite Ht. destruct (c =s "tmp"); [rewrite E|]; by rewrite TrimPrefix_app.
Qed.

Lemma pinned_comps_normal goos path : Forall normal_comp (pinned_comps goos path).
Proof.
  unfold pinned_comps. pose proof (abs_comps_normal path) as Hc. destruct (abs_comps path) as [|c cs]; [done|].
  destruct (_ && _); [|done]. constructor; [|done]. by repeat split.
Qed.

Section Still.
Variable root : node.
Variable limit : Z.
Variable room : nat -> nat.
Variable goos : string.
Hypothesis room_positive : forall n, (0 < room n)%nat.
Notation fs := (tree_fs root limit).

(** [c] answers [r], one descriptor being open on the node of a success. *)
Definition arrives (n : Z) (P : tree_world -> Prop) (c : io tree_world config_error descriptor)
  (r : result config_error node) : Prop :=
  triple P c (fun h w => exists t, r = Ok t /\ opened n h t w) (fun e _ => r = Err e).

Lemma open_config_arrives n components current d :
  Forall (fun name => bad_component name = false) components -> n + 2 <= limit ->
  arrives n (opened n current d) (open_config fs current components) (locate d components).
Proof.
  revert current d. induction components as [|name rest IH]; intros current d Hb Hn.
  { intros w Hw. by exists d. }
  apply Forall_cons in Hb as [Hb Hrest]. cbn [open_config locate]. intros w (Hu & Hd & Hf & Hr).
  unfold bind at 1, defer, wrap_error. cbn [Openat tree_fs]. rewrite Hb. cbn [negb].
  unfold bind, require, lift, guard_. unfold tree_openat. rewrite Hd. destruct d as [|m children| |]; try done.
  destruct (assoc children name) as [t|]; [|done].
  assert (Hgo : forall t, match (Ok {| fd := next_fd w; at_node := t |} : result config_error descriptor) with
     | Ok h => opened n h t (Close fs current
         {| next_fd := S (next_fd w); unread := <[next_fd w := node_content t]> (unread w);
            in_use := in_use w + 1 |}) | Err _ => True end).
  { intros t0. unfold opened. cbn [Close tree_fs in_use at_node fd next_fd unread].
    split; [lia|]. split; [done|]. split; [lia|].
    rewrite lookup_delete_ne by lia. by rewrite lookup_insert_eq. }
  destruct t as [m0 c0|m0 ch0|tg|m0]; try done.
  - destruct (negb (length rest =? 0)%nat) eqn:El; [done|]. rewrite open_node_ok by lia. cbn [map_err].
    apply negb_false_iff, Nat.eqb_eq, nil_length_inv in El as ->. eexists. split; [done|]. apply (Hgo (NFile m0 c0)).
  - rewrite open_node_ok by lia. cbn [map_err].
    apply (IH {| fd := next_fd w; at_node := NDir m0 ch0 |} (NDir m0 ch0) Hrest Hn). apply (Hgo (NDir m0 ch0)).
  - destruct (negb (length rest =? 0)%nat) eqn:El; [done|]. rewrite open_node_ok by lia. cbn [map_err].
    apply negb_false_iff, Nat.eqb_eq, nil_length_inv in El as ->. eexists. split; [done|]. apply (Hgo (NOther m0)).
Qed.

Lemma stake_min a b s : stake a (stake b s) = stake (Nat.min a b) s.
Proof. revert b s. induction a as [|a IH]; intros [|b] [|c s]; cbn; try done. by rewrite IH. Qed.

Lemma stake_add a b s : stake (a + b) s = stake a s +:+ stake b (sdrop a s).
Proof. revert s. induction a as [|a IH]; intros s; [done|]. destruct s as [|c s]; cbn; [by destruct b|by rewrite IH]. Qed.

Lemma read_all_reads h fuel remaining data rest :
  Z.max 0 remaining < Z.of_nat fuel ->
  triple (fun w => unread w !! fd h = Some rest) (read_all fs room fuel h remaining data)
    (fun out _ => out = data +:+ stake (Z.to_nat remaining) rest) (fun _ _ => False).
Proof.
  revert remaining data rest. induction fuel as [|fuel IH]; intros remaining data rest Hf; [lia|].
  cbn [read_all]. destruct (Z.leb_spec remaining 0) as [Hr|Hr].
  { apply triple_ret. intros w _. replace (Z.to_nat remaining) with 0%nat by lia. cbn. by rewrite str_app_nil_r. }
  set (count := Nat.min (Z.to_nat remaining) (room (String.length data))).
  assert (Hcount : (0 < count <= Z.to_nat remaining)%nat)
    by (pose proof (room_positive (String.length data)); subst count; lia).
  apply (triple_bind _ _ _ (fun chunk w => chunk = stake count rest /\ unread w !! fd h = Some (sdrop count rest))).
  { intros w Hw. unfold wrap_error. cbn [Read tree_fs]. unfold tree_read. rewrite Hw.
    cbn [map_err unread]. by rewrite lookup_insert_eq. }
  intros chunk. apply triple_pure. intros ->.
  destruct (String.eqb_spec (stake count rest) EmptyString) as [He|Hne].
  - apply sdrop_stake_nil in He as ->; [|lia]. apply triple_ret. intros w _.
    destruct (Z.to_nat remaining); cbn; by rewrite str_app_nil_r.
  - assert (Hlen : slen (stake count rest) = Z.of_nat (Nat.min count (String.length rest)))
      by (unfold slen; by rewrite stake_length).
    assert (Hpos : 0 < slen (stake count rest)) by (destruct (stake count rest); [done|unfold slen; cbn; lia]).
    eapply triple_conseq; [apply (IH _ _ (sdrop count rest)); lia|done| |done].
    intros out w ->. rewrite str_app_assoc. f_equal.
    destruct (Nat.le_gt_cases (String.length rest) count) as [Hs|Hs].
    + rewrite !(stake_short _ rest) by lia.
      assert (Hd : sdrop count rest = EmptyString) by by apply sdrop_short. rewrite Hd.
      rewrite (stake_short _ EmptyString) by (cbn; lia). by rewrite str_app_nil_r.
    + assert (E : stake (Z.to_nat remaining) rest
                  = stake count rest +:+ stake (Z.to_nat remaining - count) (sdrop count rest))
        by (rewrite <- stake_add; f_equal; lia).
      rewrite E. do 2 f_equal. lia.
Qed.

Lemma read_limited_reads h maximum content :
  triple (fun w => unread w !! fd h = Some content) (read_limited fs room h maximum)
    (fun out _ => out = stake (Z.to_nat (maximum + 1)) content) (fun _ _ => False).
Proof. apply (read_all_reads h _ (maximum + 1) EmptyString content). lia. Qed.

(** What a regular file of that content yields. *)
Definition limited (content : string) (maximum : Z) : result config_error string :=
  if slen content <=? maximum then Ok content else Err ExceedsLimit.

Lemma read_twice_reads n h t maximum w :
  0 < maximum -> opened n h t w ->
  fst (read_twice fs tree_seek room h maximum w)
  = match t with NFile _ content => limited content maximum | _ => Err NotRegular end.
Proof.
  intros Hm (_ & Ht & _ & Hr). unfold read_twice. unfold bind at 1. rewrite still_fstat, Ht.
  destruct t as [m content| | |]; try reflexivity. cbn [node_content] in Hr.
  unfold bind at 1, require at 1, lift at 1. cbn [node_info info_of IsRegular Mode guard_].
  unfold bind at 1. pose proof (read_limited_reads h maximum content w Hr) as H1.
  destruct (read_limited fs room h maximum w) as [[data|e] w1]; [|done]. subst data.
  set (data := stake _ content).
  assert (Hd : (slen data <=? maximum) = (slen content <=? maximum) /\ (slen content <= maximum -> data = content)).
  { unfold data, slen. rewrite stake_length. split; [|intros H; apply stake_short; lia].
    destruct (Z.leb_spec (Z.of_nat (String.length content)) maximum);
      [apply Z.leb_le; lia|apply Z.leb_gt; lia]. }
  destruct Hd as [Hle Heq]. unfold bind at 1, require at 1, lift at 1, limited. rewrite Hle.
  destruct (Z.leb_spec (slen content) maximum) as [Hs|Hs]; [|reflexivity]. cbn [guard_].
  unfold bind at 1, config_ctx. cbn [CtxErr tree_fs]. unfold bind at 1, require at 1, lift at 1. cbn [negb guard_].
  unfold bind at 1, wrap_error at 1. cbn [tree_seek map_err]. unfold bind at 1, wrap_error at 1.
  set (w2 := {| next_fd := _ |}).
  assert (Hr2 : unread w2 !! fd h = Some content)
    by (unfold w2; cbn [unread]; rewrite lookup_insert_eq, Ht; done).
  pose proof (read_limited_reads h maximum content w2 Hr2) as H2.
  destruct (read_limited fs room h maximum w2) as [[confirmed|e] w3]; [|done]. subst confirmed. cbn [map_err].
  fold data. unfold bind at 1, require at 1, lift at 1. rewrite String.eqb_refl. cbn [guard_].
  unfold bind at 1. rewrite still_fstat, Ht. unfold bind, require, lift.
  unfold SameFile. rewrite !Z.eqb_refl. cbn [andb guard_ ret fst]. by rewrite Heq.
Qed.

Lemma normal_not_bad c : normal_comp c -> bad_component c = false.
Proof.
  intros (H1 & H2 & H3 & _). unfold bad_component. apply String.eqb_neq in H1, H2, H3. by rewrite H1, H2, H3.
Qed.

Lemma tree_reads path maximum w :
  in_use w + 2 <= limit ->
  fst (readPinnedConfig fs tree_seek room goos path maximum w) = reference_read goos root path maximum.
Proof.
  intros Hlim. unfold readPinnedConfig, reference_read.
  cbv zeta. unfold bind at 1, require at 1, lift at 1. rewrite IsAbs_Clean_iff.
  destruct (IsAbs path && (0 <? maximum)) eqn:E; [|reflexivity]. cbn [guard_ negb].
  apply andb_true_iff in E as [Ha Hm%Z.ltb_lt].
  unfold bind at 1, wrap_error at 1. cbn [OpenSlash tree_fs]. rewrite open_node_ok by lia. cbn [map_err].
  set (current := {| fd := next_fd w; at_node := root |}). set (w1 := {| next_fd := S (next_fd w) |}).
  assert (Hopen : opened (in_use w) current root w1).
  { unfold opened, current, w1. cbn [in_use at_node fd next_fd unread]. repeat split; [lia|].
    by rewrite lookup_insert_eq. }
  rewrite under_private_comps by done.
  pose proof (pinned_comps_normal goos path) as Hc. destruct (pinned_comps goos path) as [|c cs] eqn:Ec.
  { cbn [Join Split]. cbn [length Nat.eqb].
    unfold bind at 1. cbn [open_config]. unfold bind at 1, defer. reflexivity. }
  assert (HS : Split (Join (c :: cs) sep) slash = c :: cs)
    by (apply Split_Join; [done|by apply normal_no_sep]).
  rewrite HS. cbn [length Nat.eqb]. unfold bind at 1.
  pose proof (open_config_arrives (in_use w) (c :: cs) current root
    ltac:(eapply Forall_impl; [exact Hc|apply normal_not_bad]) ltac:(lia) w1 Hopen) as Harr.
  destruct (open_config fs current (c :: cs) w1) as [[h|e] w2]; [|by rewrite Harr].
  destruct Harr as (t & -> & Ht). unfold defer.
  pose proof (read_twice_reads _ h t maximum w2 Hm Ht) as Hread.
  destruct (read_twice fs tree_seek room h maximum w2) as [r w3]. cbn [fst] in *.
  rewrite Hread. by destruct t.
Qed.
(** On a file system that nobody changes, reading a configuration is
    exactly looking its path up from the root without following any link and
    taking the content of the regular file found there if it is not longer
    than the limit; every other case is an error, and which one is determined
    by the first component that fails. *)
Theorem readPinnedConfig_tree path maximum w :
  in_use w + 2 <= limit ->
  fst (readPinnedConfig fs tree_seek room goos path maximum w) = reference_read goos root path maximum.
Proof using room_positive. apply tree_reads. Qed.
End Still.

Lemma readPinnedConfig_tree_witness :
  fst (readPinnedConfig (tree_fs (installed sample_tree) 100) tree_seek (fun _ => 512%nat) "linux"
         "/opt/app/../app/bin/runtime" 5 empty_world) = Ok "hello".
Proof.
  exact (readPinnedConfig_tree (installed sample_tree) 100 (fun _ => 512%nat) "linux"
           ltac:(intros; cbn; lia) "/opt/app/../app/bin/runtime" 5 empty_world ltac:(vm_compute; discriminate)).
Defined.

#[export] Instance tree_seek_laws root limit : SeekLaws (tree_fs root limit) tree_seek (tree_live limit).
Proof.
  split; [done|]. intros h n w chunk. cbn [Read tree_fs]. unfold tree_read.
  destruct (unread w !! fd h) as [rest|]; [|done]. intros [= <-]. rewrite stake_length. lia.
Qed.

Lemma readPinnedConfig_pinned_witness :
  tree_live 100 (snd (readPinnedConfig (tree_fs (installed sample_tree) 100) tree_seek (fun _ => 1%nat)
                        "linux" "/opt" 5 empty_world)) = 0.
Proof.
  exact (proj1 (readPinnedConfig_pinned (tree_fs (installed sample_tree) 100) tree_seek (fun _ => 1%nat) "linux"
                  (tree_live 100) 100 "/opt" 5 empty_world)).
Defined.
