(* ===== verification/ConfigWindows.v ===== *)
(** * Reading a host configuration on Windows ([internal/hostprofile/open_nofollow_windows.go])

    The same reading as in [ConfigFile], after an opening of its own: from the
    root directory of a local drive, component by component relative to the
    handle before, every handle refused if it is a reparse point.  Path
    functions and [GetFileInformationByHandle] are those of [ArtifactWindows];
    the handles are opened here with other rights, by operations of their own. *)

From S2P Require Import Prelude GoStrings GoPath Model Process World Artifact ArtifactTree ArtifactWindows ConfigFile.

(** What [NtCreateFile] says of a failure. *)
Inductive nt_status :=
| STATUS_NO_SUCH_FILE
| STATUS_OBJECT_NAME_NOT_FOUND
| STATUS_OBJECT_PATH_NOT_FOUND
| OtherStatus.

Record ConfigHandles (W H : Type) := {
  OpenConfigRoot : string -> W -> result errno H * W;           (* [CreateFile] *)
  NewNTUnicodeString : string -> bool;
  NtCreateFile : H -> string -> W -> result nt_status H * W     (* a name below a handle *)
}.
Arguments OpenConfigRoot {W H}. Arguments NewNTUnicodeString {W H}. Arguments NtCreateFile {W H}.

Inductive win_config_error :=
| Common (e : config_error)          (* as on Unix *)
| ConfigMissing                      (* [os.ErrNotExist] *)
| ReparseRejected
| InvalidComponent
| SystemError.

Definition status_error (status : nt_status) : win_config_error :=
  match status with OtherStatus => SystemError | _ => ConfigMissing end.

(** [errors.Is(err, os.ErrNotExist)]. *)
Definition win_read_error (e : win_config_error) : sys_error :=
  match e with ConfigMissing => NotExist | _ => OtherSys end.

Section ConfigWindows.
Context {W H : Type} (fs : FS W H) (win : WinFiles W H) (handles : ConfigHandles W H).
Variable Seek : H -> W -> result errno unit * W.
Variable room : nat -> nat.

Definition rejectConfigReparse (h : H) : io W win_config_error unit :=
  do! reparse := wrap_error (fun _ => SystemError) (ReparsePoint win h) in
  require! negb reparse else ReparseRejected in
  ret tt.

(** A handle just opened is closed again if it is a reparse point. *)
Definition keep_config (opened : io W win_config_error H) : io W win_config_error H :=
  do! h := opened in
  do! _ := close_on_error fs h (rejectConfigReparse h) in
  ret h.

Definition openConfigVolume (path : string) : io W win_config_error H :=
  keep_config (wrap_error (fun _ => SystemError) (OpenConfigRoot handles path)).

Definition openConfigChild (parent : H) (name : string) : io W win_config_error H :=
  require! negb (invalid_component name) else InvalidComponent in
  require! NewNTUnicodeString handles name else SystemError in
  keep_config (wrap_error status_error (NtCreateFile handles parent name)).

(** [current] is closed on every path but the one that returns it. *)
Fixpoint open_config_below (current : H) (components : list string) : io W win_config_error H :=
  match components with
  | [] => ret current
  | component :: rest =>
      do! next := defer (openConfigChild current component) (close fs current) in
      open_config_below next rest
  end.

Definition volume_root (path : string) : string :=
  win_VolumeName win (win_Clean win path) +:+ String backslash EmptyString.

Definition config_components (path : string) : list string :=
  components_of (trim_left (String backslash sep)
                   (TrimPrefix (win_Clean win path) (win_VolumeName win (win_Clean win path)))).

Definition config_path_valid (path : string) : bool :=
  win_IsAbs win (win_Clean win path) && local_volume (win_VolumeName win (win_Clean win path)).

Definition readPinnedConfig (path : string) (maximum : Z) : io W win_config_error string :=
  require! config_path_valid path && (0 <? maximum) else Common InvalidPath in
  do! current := openConfigVolume (volume_root path) in
  do! file := open_config_below current (config_components path) in
  defer (wrap_error Common (read_twice fs Seek room file maximum)) (close fs file).

(** ** What has been read *)

(** A handle that was reached from a root directory through handles none of
    which was a reparse point. *)
Inductive plainly_opened (root : string) : list string -> H -> Prop :=
| plain_root h w w1 w2 :
    OpenConfigRoot handles root w = (Ok h, w1) -> ReparsePoint win h w1 = (Ok false, w2) ->
    plainly_opened root [] h
| plain_child parent components name h w w1 w2 :
    plainly_opened root components parent -> invalid_component name = false ->
    NtCreateFile handles parent name w = (Ok h, w1) -> ReparsePoint win h w1 = (Ok false, w2) ->
    plainly_opened root (components ++ [name]) h.

(** [data] is the content of the regular file behind [h], by two readings. *)
Definition read_twice_from (h : H) (maximum : Z) (data : string) : Prop :=
  slen data <= maximum
  /\ (exists before w w', Fstat fs h w = (Ok before, w') /\ IsRegular before = true)
  /\ (exists w w', read_limited fs room h maximum w = (Ok data, w'))
  /\ exists w0 w1 w2, Seek h w0 = (Ok tt, w1) /\ read_limited fs room h maximum w1 = (Ok data, w2).

Lemma read_twice_ok h maximum w data w' :
  read_twice fs Seek room h maximum w = (Ok data, w') -> read_twice_from h maximum data.
Proof.
  unfold read_twice. intros H1.
  apply bind_ok in H1 as (before & w1 & Hb%wrap_ok & H1). apply bind_ok in H1 as ([] & w1' & [Hreg ->]%require_ok & H1).
  apply bind_ok in H1 as (d & w2 & Hd & H1). apply bind_ok in H1 as ([] & w2' & [Hlen ->]%require_ok & H1).
  apply bind_ok in H1 as (cancelled & w3 & _ & H1). apply bind_ok in H1 as ([] & w3' & [_ ->]%require_ok & H1).
  apply bind_ok in H1 as ([] & w4 & Hs%wrap_ok & H1). apply bind_ok in H1 as (c & w5 & Hc%wrap_ok & H1).
  apply bind_ok in H1 as ([] & w5' & [->%String.eqb_eq ->]%require_ok & H1).
  apply bind_ok in H1 as (after & w6 & _ & H1). apply bind_ok in H1 as ([] & w6' & [_ ->]%require_ok & H1).
  apply ret_ok in H1 as [-> ->]. apply Z.leb_le in Hlen.
  split; [done|]. split; [by exists before, w, w1|]. split; [by exists w1, w2|by exists w3, w4, w5].
Qed.

(** Neither of the two new operations leaks a handle. *)
Class HandleLaws (live : W -> Z) : Prop := {
  config_root_live : forall path w,
    live (snd (OpenConfigRoot handles path w)) = live w + Z.b2z (is_ok (fst (OpenConfigRoot handles path w)));
  config_child_live : forall h name w,
    live (snd (NtCreateFile handles h name w)) = live w + Z.b2z (is_ok (fst (NtCreateFile handles h name w)))
}.

Context (live : W -> Z) (limit : Z).
Context `{!DescriptorLaws fs live limit} `{!WinLaws win live} `{!HandleLaws live} `{!SeekLaws fs Seek live}.

Definition win_ended (e : win_config_error) : Prop := e <> Common ReadUnfinished.

(** A handle that is kept has been asked for and is no reparse point. *)
Definition kept {E} (opened : io W E H) (h : H) : Prop :=
  exists w w1 w2, opened w = (Ok h, w1) /\ ReparsePoint win h w1 = (Ok false, w2).

Lemma keep_config_uses {E} n (f : E -> win_config_error) (opened : io W E H) :
  (forall e, win_ended (f e)) ->
  (forall w, live (snd (opened w)) = live w + Z.b2z (is_ok (fst (opened w)))) ->
  uses live n (n + 1) (keep_config (wrap_error f opened)) (kept opened) win_ended.
Proof.
  intros Hf Hl w Hw. unfold keep_config, bind at 1, wrap_error.
  specialize (Hl w). destruct (opened w) as [[h|e] w1] eqn:Eo; cbn [map_err fst snd is_ok Z.b2z] in *; [|by split; [lia|apply Hf]].
  unfold bind, close_on_error, rejectConfigReparse, bind, wrap_error.
  pose proof (reparse_live h w1) as Hr. destruct (ReparsePoint win h w1) as [[reparse|e] w2] eqn:Er; cbn [map_err snd] in *.
  - unfold require, lift. destruct reparse; cbn [negb guard_ ret].
    + rewrite close_live. by split; [lia|].
    + split; [lia|]. by exists w, w1, w2.
  - rewrite close_live. by split; [lia|].
Qed.

Lemma openConfigChild_uses n parent name :
  uses live n (n + 1) (openConfigChild parent name)
    (fun h => invalid_component name = false /\ kept (NtCreateFile handles parent name) h) win_ended.
Proof.
  unfold openConfigChild. apply (uses_require live); [done|intros Hi%negb_true_iff].
  apply (uses_require live); [done|intros _].
  eapply (uses_impl live); [apply keep_config_uses; [by intros []|intros w; apply config_child_live]|done|done].
Qed.

Lemma open_config_below_consumes n root components seen current :
  plainly_opened root seen current ->
  triple (fun w => live w = n + 1) (open_config_below current components)
    (fun h w => live w = n + 1 /\ plainly_opened root (seen ++ components) h)
    (fun e w => live w = n /\ win_ended e).
Proof.
  revert seen current. induction components as [|c cs IH]; intros seen current Hp; cbn [open_config_below].
  - apply triple_ret. intros w Hw. by rewrite app_nil_r.
  - eapply triple_bind.
    + apply (next_descriptor fs live limit n _ current
               (fun h => invalid_component c = false /\ kept (NtCreateFile handles current c) h) win_ended).
      replace (n + 2) with ((n + 1) + 1) by lia. apply openConfigChild_uses.
    + intros h w [Hw [Hc (w0 & w1 & w2 & Ho & Hr)]].
      pose proof (IH (seen ++ [c]) h (plain_child _ _ _ _ _ _ _ _ Hp Hc Ho Hr) w Hw) as H1.
      by rewrite <- app_assoc in H1.
Qed.

(** What a document returned by the reader is. *)
Definition pinned_document (path : string) (maximum : Z) (data : string) : Prop :=
  config_path_valid path = true /\ 0 < maximum
  /\ exists h, plainly_opened (volume_root path) (config_components path) h /\ read_twice_from h maximum data.

Lemma readPinnedConfig_uses n path maximum :
  uses live n n (readPinnedConfig path maximum) (pinned_document path maximum) win_ended.
Proof.
  unfold readPinnedConfig. apply (uses_require live); [done|intros [Hv Hm%Z.ltb_lt]%andb_true_iff].
  apply (uses_open live _ _ _ (kept (OpenConfigRoot handles (volume_root path)))).
  { apply keep_config_uses; [done|intros w; apply config_root_live]. }
  intros current (w0 & w1 & w2 & Ho & Hr).
  eapply triple_bind; [apply (open_config_below_consumes n (volume_root path) _ []), (plain_root _ _ w0 w1 w2 Ho Hr)|].
  intros h w [Hw Hp]. revert w Hw.
  apply (uses_defer fs live limit). intros w Hw. unfold wrap_error.
  pose proof (read_twice_uses fs Seek room live limit (n + 1) h maximum w Hw) as Hu.
  destruct (read_twice fs Seek room h maximum w) as [[data|e] w'] eqn:E; cbn [map_err]; destruct Hu as [Hl Hq].
  - split; [done|]. split; [done|]. split; [done|]. exists h. split; [done|]. by apply read_twice_ok in E.
  - split; [done|]. intros [= ->]. by apply Hq.
Qed.
End ConfigWindows.

(** C27: Whatever the system does, the Windows reader of configurations ends and
    closes every handle it opened; and a document it returns was read twice,
    equal and within the limit, from a regular file that was reached from the
    root directory of a local drive through handles none of which was a
    reparse point. *)
Theorem win_readPinnedConfig_lawful {W H} (fs : FS W H) win handles Seek room live limit
  `{!DescriptorLaws fs live limit} `{!WinLaws win live} `{!HandleLaws handles live} `{!SeekLaws fs Seek live}
  path maximum w :
  match readPinnedConfig fs win handles Seek room path maximum w with
  | (Ok data, w') => live w' = live w /\ pinned_document fs win handles Seek room path maximum data
  | (Err e, w') => live w' = live w /\ e <> Common ReadUnfinished
  end.
Proof.
  exact (readPinnedConfig_uses fs win handles Seek room live limit (live w) path maximum w eq_refl).
Qed.

(** ** The sample tree on a drive *)

Definition drive_handles : ConfigHandles tree_world descriptor := {|
  OpenConfigRoot := OpenVolume drive_files;
  NewNTUnicodeString _ := true;
  NtCreateFile h name w :=
    match tree_openat 100 h name false w with
    | (Ok child, w') => (Ok child, w')
    | (Err ENOENT, w') => (Err STATUS_OBJECT_NAME_NOT_FOUND, w')
    | (Err _, w') => (Err OtherStatus, w')
    end |}.

#[export] Instance drive_handle_laws : HandleLaws drive_handles (tree_live 100).
Proof.
  split.
  - intros path w. cbn [OpenConfigRoot drive_handles]. apply (volume_live (win := drive_files)).
  - intros h name w. cbn [NtCreateFile drive_handles].
    pose proof (openat_live (fs := tree_fs (installed sample_tree) 100) h name false w) as Hl.
    cbn [Openat tree_fs] in Hl. by destruct (tree_openat 100 h name false w) as [[child|[]] w'].
Qed.

Definition drive_read (path : string) : result win_config_error string * tree_world :=
  readPinnedConfig (tree_fs (installed sample_tree) 100) drive_files drive_handles tree_seek (fun _ => 512%nat)
    path 5 empty_world.

Definition drive_path (components : list string) : string := "C:\" +:+ Join components "\".

Lemma win_readPinnedConfig_lawful_witness :
  fst (drive_read (drive_path ["opt"; "app"; "bin"; "runtime"])) = Ok "hello"
  /\ fst (drive_read (drive_path ["opt"; "missing"])) = Err ConfigMissing
  /\ pinned_document (tree_fs (installed sample_tree) 100) drive_files drive_handles tree_seek (fun _ => 512%nat)
       (drive_path ["opt"; "app"; "bin"; "runtime"]) 5 "hello".
Proof.
  assert (Hr : fst (drive_read (drive_path ["opt"; "app"; "bin"; "runtime"])) = Ok "hello")
    by (vm_compute; reflexivity).
  split; [exact Hr|]. split; [vm_compute; reflexivity|].
  pose proof (win_readPinnedConfig_lawful (tree_fs (installed sample_tree) 100) drive_files drive_handles tree_seek
                (fun _ => 512%nat) (tree_live 100) 100 (drive_path ["opt"; "app"; "bin"; "runtime"]) 5 empty_world) as Hl.
  fold (drive_read (drive_path ["opt"; "app"; "bin"; "runtime"])) in Hl.
  destruct (drive_read _) as [[data|e] w']; [|discriminate Hr]. injection Hr as ->. apply Hl.
Defined.
