(* ===== verification/HostFiles.v ===== *)
(** * Host discovery over the file system

    [Discover] of [HostDiscovery] with the reader of [ConfigFile], as
    [discovery.go] sets [readConfigFile = readPinnedConfig].  What discovery
    needs of a reader is the class [ReaderLaws]; the readers of both builds
    keep it.  On files that nobody changes, discovery is a function of them. *)

From S2P Require Import Prelude GoStrings GoPath Model Contract Process HostBinding HostParse World HostDiscovery Artifact ArtifactTree ArtifactWindows ConfigFile ConfigWindows.

(** [errors.Is(err, os.ErrNotExist)] is all that discovery asks. *)
Definition read_error (e : config_error) : sys_error :=
  match e with ConfigIO ENOENT => NotExist | _ => OtherSys end.

(** The codes of the errors of discovery. *)
Definition host_codes : list string :=
  ["HOST_PROFILE_INVALID"; "HOST_PROFILE_NOT_FOUND"; "HOST_PROFILE_UNSUPPORTED"; "HOST_CONFIG_INVALID";
   "HOST_CONFIG_INACCESSIBLE"; "HOST_DISCOVERY_CANCELLED"; "HOST_BINDING_AMBIGUOUS"].

Definition host_failure (e : go_error) : Prop := exists code, e = HostError code /\ code ∈ host_codes.

(** What discovery asks of the reader of files and of the context. *)
Class ReaderLaws {W} (reader : string -> Z -> io W sys_error string) (ctx_done : W -> bool * W)
  (live : W -> Z) : Prop := {
  reader_live : forall path maximum w, live (snd (reader path maximum w)) = live w;
  done_live : forall w, live (snd (ctx_done w)) = live w
}.

(** The readers of the two builds. *)
Definition readConfigFile {W H} (fs : FS W H) Seek room goos (path : string) (maximum : Z)
  : io W sys_error string :=
  wrap_error read_error (ConfigFile.readPinnedConfig fs Seek room goos path maximum).

Definition win_readConfigFile {W H} (fs : FS W H) win handles Seek room (path : string) (maximum : Z)
  : io W sys_error string :=
  wrap_error win_read_error (ConfigWindows.readPinnedConfig fs win handles Seek room path maximum).

#[export] Instance unix_reader {W H} (fs : FS W H) Seek room goos live limit
  `{!DescriptorLaws fs live limit} `{!SeekLaws fs Seek live} :
  ReaderLaws (readConfigFile fs Seek room goos) (CtxErr fs) live.
Proof.
  split; [|exact ctx_live]. intros path maximum w. unfold readConfigFile, wrap_error.
  pose proof (readPinnedConfig_pinned fs Seek room goos live limit path maximum w) as [Hl _].
  by destruct (ConfigFile.readPinnedConfig _ _ _ _ path maximum w).
Qed.

#[export] Instance windows_reader {W H} (fs : FS W H) win handles Seek room live limit
  `{!DescriptorLaws fs live limit} `{!WinLaws win live} `{!HandleLaws handles live} `{!SeekLaws fs Seek live} :
  ReaderLaws (win_readConfigFile fs win handles Seek room) (CtxErr fs) live.
Proof.
  split; [|exact ctx_live]. intros path maximum w. unfold win_readConfigFile, wrap_error.
  pose proof (readPinnedConfig_uses fs win handles Seek room live limit (live w) path maximum w eq_refl) as Hl.
  by destruct (ConfigWindows.readPinnedConfig _ _ _ _ _ path maximum w) as [[data|e] w']; destruct Hl as [Hl _].
Qed.

(** ** Errors and descriptors *)

Section Reader.
Variable u : UnicodeTables.
Variable hujson_Standardize : string -> option string.
Variable toml_Unmarshal : string -> option (list (string * json)).
Variable yaml_documents : string -> option (list yaml_node).
Variable schema_ok : string -> json -> bool.
Variable embedded : list string.
Variable goos : string.

Notation merge := (merge_document u hujson_Standardize toml_Unmarshal yaml_documents).

Ltac host_code := eexists; split; [reflexivity|unfold host_codes; set_solver].

Lemma merge_binding_failure hash bindings raw e :
  merge_binding hash bindings raw = Err e -> host_failure e.
Proof.
  unfold merge_binding. destruct (bindings !! _); [|done]. destruct (negb _); [|done].
  intros [= <-]. host_code.
Qed.

Lemma merge_document_failure profile request source bindings read e :
  merge profile request source bindings read = Err e -> host_failure e.
Proof.
  unfold merge_document. destruct read as [document|[]]; [|destruct (_ =s _)|..]; try (intros [= <-]; host_code).
  destruct (parseConfig _ _ _ _ _ _ _) as [raws|]; cbn [map_err rbind]; [|intros [= <-]; host_code].
  apply foldM_err. intros b raw e0. apply merge_binding_failure.
Qed.

Lemma inputs_failure profile platform request e :
  discovery_inputs u profile platform request = Err e -> host_failure e.
Proof.
  unfold discovery_inputs. destruct (negb _).
  - unfold selectExplicitSource. destruct (List.filter _ _); cbn [rbind]; [|done]. intros [= <-]. host_code.
  - destruct (mapM_ _ _) as [groups|e'] eqn:E; cbn [rbind]; [done|]. intros [= <-]. revert E.
    apply mapM_err. intros source e''. apply mapM_err. intros candidate e3.
    destruct (expandCandidate candidate request); [done|]. intros [= <-]. host_code.
Qed.

Lemma plan_failure request e :
  plan u schema_ok embedded goos request = Err e -> host_failure e.
Proof.
  unfold plan. destruct (LoadEmbeddedCatalog _ _) as [catalog|]; cbn [map_err rbind]; [|intros [= <-]; host_code].
  destruct (Host _ _) as [profile|]; [|intros [= <-]; host_code].
  destruct (contains _ _); cbn [guard_ rbind]; [|intros [= <-]; host_code].
  destruct (discovery_inputs _ _ _ _) eqn:E; cbn [rbind]; [done|]. intros [= <-]. by eapply inputs_failure.
Qed.

Context {W : Type} (reader : string -> Z -> io W sys_error string) (ctx_done : W -> bool * W) (live : W -> Z).
Context `{!ReaderLaws reader ctx_done live}.

Lemma read_input_uses n profile request bindings candidate :
  uses live n n (read_input u hujson_Standardize toml_Unmarshal yaml_documents reader ctx_done
                   profile request bindings candidate) (fun _ => True) host_failure.
Proof.
  destruct candidate as [source path]. unfold read_input.
  eapply (uses_bind live _ _ _ _ (fun _ => True)).
  { intros w Hw. unfold not_done. pose proof (done_live w) as Hl. destruct (ctx_done w) as [b w'].
    cbn [snd] in Hl. destruct b; cbn [negb guard_]; (split; [lia|]); [host_code|done]. }
  intros _ _. eapply (uses_bind live _ _ _ _ (fun _ => True)).
  { intros w Hw. unfold attempt. pose proof (reader_live path (MaximumBytes source) w) as Hl.
    destruct (reader path _ w) as [r w']. cbn [snd] in Hl. split; [lia|done]. }
  intros read _. apply (uses_lift live); [done|]. intros e. apply merge_document_failure.
Qed.

Notation Discover := (Discover u hujson_Standardize toml_Unmarshal yaml_documents schema_ok embedded goos).

Lemma Discover_uses n request : uses live n n (Discover reader ctx_done request) (fun _ => True) host_failure.
Proof.
  unfold HostDiscovery.Discover. eapply (uses_bind live _ _ _ _ (fun _ => True)).
  { apply (uses_lift live); [done|]. intros e. apply plan_failure. }
  intros [profile inputs] _. eapply (uses_bind live _ _ _ _ (fun _ => True)); [|intros b _; by apply (uses_ret live)].
  apply (uses_fold live _ (fun _ => True)); [done|]. intros c s0 _ _. apply read_input_uses.
Qed.

(** C39: Discovery with any reader that closes what it opens (both builds' do):
    it closes everything, and an error is one of its own codes, so that
    nothing of the file system (a path, an error text) leaks into it. *)
Theorem Discover_closes request w :
  let '(r, w') := Discover reader ctx_done request w in
  live w' = live w /\ match r with Ok _ => True | Err e => host_failure e end.
Proof using ReaderLaws0.
  pose proof (Discover_uses (live w) request w eq_refl) as Hu.
  by destruct (Discover reader ctx_done request w) as [[bs|e] w'].
Qed.
End Reader.

(** ** On a file system that stays still *)

Section OnTree.
Variable root : node.
Variable limit : Z.
Variable room : nat -> nat.
Variable goos : string.
Hypothesis room_positive : forall n, (0 < room n)%nat.
Variable u : UnicodeTables.
Variable hujson : string -> option string.
Variable toml : string -> option (list (string * json)).
Variable yaml : string -> option (list yaml_node).
Variable schema_ok : string -> json -> bool.
Variable embedded : list string.
Notation fs := (tree_fs root limit).

(** [Discover] as the Unix build runs it. *)
Definition discover (request : Request) : io tree_world go_error (list Binding) :=
  Discover u hujson toml yaml schema_ok embedded goos (readConfigFile fs tree_seek room goos) (CtxErr fs) request.

(** What reading a path tells discovery. *)
Definition found_at (path : string) (maximum : Z) : result sys_error string :=
  map_err read_error (reference_read goos root path maximum).

(** Discovery as a function of the tree. *)
Definition reference_discovery (request : Request) : result go_error (list Binding) :=
  let! (profile, inputs) := plan u schema_ok embedded goos request in
  let! bindings := foldM (fun bindings input =>
    merge_document u hujson toml yaml profile request (fst input) bindings
      (found_at (snd input) (MaximumBytes (fst input)))) inputs ∅ in
  Ok (sorted_bindings bindings).

(** Two descriptors are free, and [c] answers [r] and leaves them free. *)
Definition answers {E A} (c : io tree_world E A) (r : result E A) : Prop :=
  forall w, in_use w + 2 <= limit -> exists w', c w = (r, w') /\ in_use w' + 2 <= limit.

Lemma answers_bind {E A B} (c : io tree_world E A) r (k : A -> io tree_world E B) f :
  answers c r -> (forall a, answers (k a) (f a)) -> answers (bind c k) (rbind r f).
Proof.
  intros Hc Hk w Hw. destruct (Hc w Hw) as (w1 & E1 & Hw1). unfold bind. rewrite E1.
  destruct r as [a|e]; cbn [rbind]; [by apply Hk|by exists w1].
Qed.

Lemma answers_fold {E A S} (f : S -> A -> io tree_world E S) g l s :
  (forall s x, answers (f s x) (g s x)) -> answers (foldIO f l s) (foldM g l s).
Proof.
  intros Hf. revert s. induction l as [|x l IH]; intros s; cbn [foldIO foldM]; [intros w Hw; by exists w|].
  apply answers_bind; [apply Hf|exact IH].
Qed.

Lemma answers_lift {E A} (r : result E A) : answers (lift r) r.
Proof. intros w Hw. by exists w. Qed.

Lemma reading_answers path maximum :
  answers (readConfigFile fs tree_seek room goos path maximum) (found_at path maximum).
Proof.
  intros w Hw. unfold readConfigFile, wrap_error, found_at.
  pose proof (tree_reads root limit room goos room_positive path maximum w Hw) as Hr.
  pose proof (readPinnedConfig_pinned fs tree_seek room goos (tree_live limit) limit path maximum w) as [Hl _].
  destruct (ConfigFile.readPinnedConfig _ _ _ _ path maximum w) as [r w']. cbn [fst snd] in *. subst r.
  exists w'. split; [done|]. unfold tree_live in Hl. lia.
Qed.

Lemma input_answers profile request bindings input :
  answers (read_input u hujson toml yaml (readConfigFile fs tree_seek room goos) (CtxErr fs) profile request
             bindings input)
          (merge_document u hujson toml yaml profile request (fst input) bindings
             (found_at (snd input) (MaximumBytes (fst input)))).
Proof.
  destruct input as [source path]. cbn [fst snd]. intros w Hw. unfold read_input, bind at 1, not_done.
  cbn [CtxErr tree_fs negb guard_]. unfold bind, attempt.
  destruct (reading_answers path (MaximumBytes source) w Hw) as (w' & -> & Hw'). by exists w'.
Qed.

Lemma discover_answers request :
  answers (discover request)
          (reference_discovery request).
Proof.
  unfold discover, Discover, reference_discovery. apply answers_bind; [apply answers_lift|].
  intros [profile inputs]. apply answers_bind; [apply answers_fold; intros; apply input_answers|].
  intros bindings w Hw. by exists w.
Qed.
End OnTree.

(** C26: host discovery on files that nobody changes is a function of them:
    the profile decides which paths are looked up, each is looked up from the
    root without following any link, a regular file within the limit of its
    source is parsed, one that does not exist is skipped (unless it was asked
    for explicitly), and anything else is an error; the bindings are merged in
    the order of the profile and sorted. *)
Theorem discover_on_tree root limit room goos u hujson toml yaml schema_ok embedded request w :
  (forall n, (0 < room n)%nat) -> in_use w + 2 <= limit ->
  fst (discover root limit room goos u hujson toml yaml schema_ok embedded request w)
  = reference_discovery root goos u hujson toml yaml schema_ok embedded request.
Proof.
  intros Hroom Hw.
  destruct (discover_answers root limit room goos Hroom u hujson toml yaml schema_ok embedded request w Hw)
    as (w' & -> & _). reflexivity.
Qed.

(** A home directory with a configuration and, for a second source, a link. *)
Definition home_tree (config : node) : node :=
  NDir (sample_meta 2) [("home", NDir (sample_meta 3) [("u", NDir (sample_meta 4) [(".c.json", config)])])].

Definition home_discovery (root : node) : result go_error (list Binding) :=
  fst (discover root 100 (fun _ => 512%nat) "linux" ascii_tables (fun _ => None)
         (fun _ => None) (fun _ => None) (fun _ _ => true) sample_catalog sample_request empty_world).

Definition identifiers (r : result go_error (list Binding)) : option (list string) :=
  match r with Ok bindings => Some (map B_ID bindings) | Err _ => None end.

(** The file is read, a missing one skipped, a link refused. *)
Lemma discover_on_tree_witness :
  let root := home_tree (NFile (sample_meta 5) sample_config) in
  identifiers (home_discovery root) = Some ["host.srv"]
  /\ home_discovery (NDir (sample_meta 2) []) = Ok []
  /\ home_discovery (home_tree (NLink "/etc/c.json")) = Err (HostError "HOST_CONFIG_INACCESSIBLE")
  /\ home_discovery root
     = reference_discovery root "linux" ascii_tables (fun _ => None)
         (fun _ => None) (fun _ => None) (fun _ _ => true) sample_catalog sample_request.
Proof.
  cbv zeta. do 3 (split; [vm_compute; reflexivity|]).
  apply discover_on_tree; [intros; lia|vm_compute; discriminate].
Defined.

(** A link in place of the configuration: an error code, and nothing open. *)
Lemma Discover_closes_witness :
  let '(r, w') := discover (home_tree (NLink "/etc/c.json")) 100 (fun _ => 512%nat) "linux" ascii_tables
                    (fun _ => None) (fun _ => None) (fun _ => None) (fun _ _ => true) sample_catalog sample_request
                    empty_world in
  r = Err (HostError "HOST_CONFIG_INACCESSIBLE")
  /\ tree_live 100 w' = tree_live 100 empty_world
  /\ match r with Ok _ => True | Err e => host_failure e end.
Proof.
  pose proof (Discover_closes ascii_tables (fun _ => None) (fun _ => None) (fun _ => None) (fun _ _ => true)
                sample_catalog "linux" _ _ (tree_live 100)
                (ReaderLaws0 := unix_reader (tree_fs (home_tree (NLink "/etc/c.json")) 100) tree_seek
                                  (fun _ => 512%nat) "linux" (tree_live 100) 100) sample_request empty_world) as H.
  assert (E : home_discovery (home_tree (NLink "/etc/c.json")) = Err (HostError "HOST_CONFIG_INACCESSIBLE"))
    by (vm_compute; reflexivity).
  unfold home_discovery, discover in *. destruct (Discover _ _ _ _ _ _ _ _ _ _ empty_world) as [r w'].
  cbn [fst] in E. by split.
Defined.
