(* ===== verification/Flags.v ===== *)
(** * Command-line flags ([flag] and [strconv] of Go's standard library)

    What [internal/cli/run.go] uses of them: [FlagSet.Parse] with
    [ContinueOnError] over integer, string, boolean, duration and repeatable
    flags, [strconv.ParseInt] with base 0, [strconv.ParseBool] and
    [time.ParseDuration].  A flag set is a function from names to kinds, and
    parsing yields the assignments in the order they are made. *)

From S2P Require Import Prelude GoStrings.

(** ** [strconv.ParseInt(s, 0, 64)] *)

Definition lower_byte (c : ascii) : Z := Z.lor (byte_val c) 32.

Definition underscore : ascii := "_".

(** The digit a byte stands for, if any; letters count from ten. *)
Definition digit_value (c : ascii) : option Z :=
  if is_digit c then Some (byte_val c - 48)
  else if in_range 97 122 (lower_byte c) then Some (lower_byte c - 97 + 10)
  else None.

(** The digits in base [base]; underscores are passed over. *)
Fixpoint base_digits (base : Z) (s : string) (acc : Z) : option Z :=
  match s with
  | EmptyString => Some acc
  | String c t =>
      if Ascii.eqb c underscore then base_digits base t acc
      else match digit_value c with
           | Some d => if d <? base then base_digits base t (acc * base + d) else None
           | None => None
           end
  end.

Definition prefix_base (c : ascii) : option Z :=
  if lower_byte c =? 98 then Some 2
  else if lower_byte c =? 111 then Some 8
  else if lower_byte c =? 120 then Some 16
  else None.

(** The base a literal announces, and its digits. *)
Definition literal_base (s : string) : Z * string :=
  match s with
  | String "0" (String c (String d t)) =>
      match prefix_base c with
      | Some base => (base, String d t)
      | None => (8, String c (String d t))
      end
  | String "0" t => (8, t)
  | _ => (10, s)
  end.

(** What [underscoreOK] has just seen. *)
Inductive seen := SeenStart | SeenDigit | SeenUnderscore | SeenOther.

Fixpoint underscores_from (hexadecimal : bool) (s : string) (saw : seen) : bool :=
  match s with
  | EmptyString => match saw with SeenUnderscore => false | _ => true end
  | String c t =>
      if is_digit c || (hexadecimal && in_range 97 102 (lower_byte c))
      then underscores_from hexadecimal t SeenDigit
      else if Ascii.eqb c underscore
      then match saw with
           | SeenDigit => underscores_from hexadecimal t SeenUnderscore
           | _ => false
           end
      else match saw with
           | SeenUnderscore => false
           | _ => underscores_from hexadecimal t SeenOther
           end
  end.

Definition underscoreOK (s : string) : bool :=
  match s with
  | String "0" (String c t) =>
      match prefix_base c with
      | Some base => underscores_from (base =? 16) t SeenDigit
      | None => underscores_from false s SeenStart
      end
  | _ => underscores_from false s SeenStart
  end.

Definition ParseUint0 (s : string) : option Z :=
  match s with
  | EmptyString => None
  | _ =>
      let '(base, digits) := literal_base s in
      match base_digits base digits 0 with
      | Some v => if has_byte digits underscore && negb (underscoreOK s) then None else Some v
      | None => None
      end
  end.

Definition ParseInt0 (s : string) : option Z :=
  match s with
  | EmptyString => None
  | String c t =>
      let negative := Ascii.eqb c "-" in
      match ParseUint0 (if negative || Ascii.eqb c "+" then t else s) with
      | Some v =>
          if negative then if v <=? 2 ^ 63 then Some (- v) else None
          else if v <? 2 ^ 63 then Some v else None
      | None => None
      end
  end.

(** [strconv.ParseBool]. *)
Definition ParseBool (s : string) : option bool :=
  if existsb (fun t => s =s t) ["1"; "t"; "T"; "true"; "TRUE"; "True"] then Some true
  else if existsb (fun t => s =s t) ["0"; "f"; "F"; "false"; "FALSE"; "False"] then Some false
  else None.

(** ** [time.ParseDuration] *)

Definition unit_nanoseconds (unit : string) : option Z :=
  if unit =s "ns" then Some 1
  else if (unit =s "us") || (unit =s String (byte_of 194) (String (byte_of 181) "s"))
          || (unit =s String (byte_of 206) (String (byte_of 188) "s")) then Some 1000
  else if unit =s "ms" then Some 1000000
  else if unit =s "s" then Some 1000000000
  else if unit =s "m" then Some 60000000000
  else if unit =s "h" then Some 3600000000000
  else None.

(** The longest prefix of bytes that pass a test, and what follows. *)
Fixpoint span (f : ascii -> bool) (s : string) : string * string :=
  match s with
  | String c t => if f c then let '(a, b) := span f t in (String c a, b) else (EmptyString, s)
  | EmptyString => (EmptyString, EmptyString)
  end.

Definition number_byte (c : ascii) : bool := Ascii.eqb c "." || is_digit c.

(** [leadingFraction] drops the digits that no longer fit in 63 bits; it
    returns the fraction and the number of digits kept. *)
Fixpoint leading_fraction (s : string) (overflow : bool) (f : Z) (scale : Z) : Z * Z :=
  match s with
  | EmptyString => (f, scale)
  | String c t =>
      if overflow then leading_fraction t true f scale
      else if (2 ^ 63 - 1) / 10 <? f then leading_fraction t true f scale
      else let y := f * 10 + (byte_val c - 48) in
           if 2 ^ 63 <? y then leading_fraction t true f scale
           else leading_fraction t false y (scale + 1)
  end.

Section Duration.
(** [uint64(float64(f) * (float64(unit) / scale))] for a fraction [f] of
    [digits] decimal digits, in the machine's floating point. *)
Variable fraction_nanoseconds : Z -> Z -> Z -> Z.

(** One number and its unit. *)
Definition duration_term (s : string) : option (Z * string) :=
  let '(whole, s1) := span is_digit s in
  let '(dotted, s2) := match s1 with String "." t => (true, t) | _ => (false, s1) end in
  let '(fraction, s3) := if dotted then span is_digit s2 else (EmptyString, s2) in
  if (whole =s EmptyString) && (fraction =s EmptyString) then None
  else
    let '(name, rest) := span (fun c => negb (number_byte c)) s3 in
    match parse_digits whole 0, unit_nanoseconds name with
    | Some v, Some unit =>
        let '(f, digits) := leading_fraction fraction false 0 0 in
        let total := (v * unit + (if 0 <? f then fraction_nanoseconds f unit digits else 0)) mod 2 ^ 64 in
        if (2 ^ 63 <? v) || (2 ^ 63 / unit <? v) || (2 ^ 63 <? total) then None
        else Some (total, rest)
    | _, _ => None
    end.

Fixpoint duration_terms (fuel : nat) (s : string) (d : Z) : option Z :=
  match s, fuel with
  | EmptyString, _ => Some d
  | _, O => None
  | _, S fuel' =>
      match duration_term s with
      | Some (v, rest) =>
          let d' := (d + v) mod 2 ^ 64 in
          if 2 ^ 63 <? d' then None else duration_terms fuel' rest d'
      | None => None
      end
  end.

Definition ParseDuration (orig : string) : option Z :=
  let '(negative, s) :=
    match orig with
    | String "-" t => (true, t)
    | String "+" t => (false, t)
    | _ => (false, orig)
    end in
  if s =s "0" then Some 0
  else if s =s EmptyString then None
  else match duration_terms (String.length s) s 0 with
       | Some d => if negative then Some (- d) else if 2 ^ 63 - 1 <? d then None else Some d
       | None => None
       end.

(** ** Flag sets *)

Inductive flag_kind := IntFlag | StringFlag | BoolFlag | DurationFlag | ListFlag.

Inductive flag_value :=
| IntValue (n : Z)
| StringValue (s : string)
| BoolValue (b : bool)
| DurationValue (nanoseconds : Z)
| ListItem (s : string).

(** [Value.Set]. *)
Definition set_flag (kind : flag_kind) (text : string) : option flag_value :=
  match kind with
  | IntFlag => option_map IntValue (ParseInt0 text)
  | StringFlag => Some (StringValue text)
  | BoolFlag => option_map BoolValue (ParseBool text)
  | DurationFlag => option_map DurationValue (ParseDuration text)
  | ListFlag => Some (ListItem text)
  end.

Definition is_bool_flag (kind : flag_kind) : bool :=
  match kind with BoolFlag => true | _ => false end.

(** The name of a flag and the value after the first [=] that is not at its
    beginning. *)
Definition split_flag (name : string) : string * option string :=
  match name with
  | EmptyString => (EmptyString, None)
  | String c t =>
      match IndexByte t "=" with
      | Some i => (String c (stake i t), Some (sdrop (S i) t))
      | None => (name, None)
      end
  end.

Inductive flag_syntax := NotAFlag | EndOfFlags | BadFlag | FlagNamed (name : string).

Definition flag_name (name : string) : flag_syntax :=
  match name with
  | EmptyString | String "-" _ | String "=" _ => BadFlag
  | _ => FlagNamed name
  end.

Definition classify (s : string) : flag_syntax :=
  match s with
  | String "-" (String "-" EmptyString) => EndOfFlags
  | String "-" (String "-" name) => flag_name name
  | String "-" EmptyString => NotAFlag
  | String "-" name => flag_name name
  | _ => NotAFlag
  end.

Variable formal : string -> option flag_kind.

Definition assignments : Type := list (string * flag_value).

(** [FlagSet.Parse]: the assignments, and the arguments that are not flags;
    [None] on any error, the request for help included. *)
Fixpoint Parse (arguments : list string) (set : assignments) : option (assignments * list string) :=
  match arguments with
  | [] => Some (set, [])
  | s :: rest =>
      match classify s with
      | NotAFlag => Some (set, arguments)
      | EndOfFlags => Some (set, rest)
      | BadFlag => None
      | FlagNamed full =>
          let '(name, inline) := split_flag full in
          match formal name, inline, rest with
          | None, _, _ => None
          | Some kind, Some value, _ =>
              match set_flag kind value with
              | Some v => Parse rest (set ++ [(name, v)])
              | None => None
              end
          | Some BoolFlag, None, _ => Parse rest (set ++ [(name, BoolValue true)])
          | Some _, None, [] => None
          | Some kind, None, value :: rest' =>
              match set_flag kind value with
              | Some v => Parse rest' (set ++ [(name, v)])
              | None => None
              end
          end
      end
  end.
End Duration.

(** The value a flag ends up with: its last assignment, or the default. *)
Definition last_value {A} (pick : flag_value -> option A) (set : assignments) (name : string) (default : A) : A :=
  fold_left (fun acc p => if fst p =s name then match pick (snd p) with Some v => v | None => acc end else acc)
    set default.

Definition int_value (v : flag_value) : option Z := match v with IntValue n => Some n | _ => None end.
Definition string_value (v : flag_value) : option string := match v with StringValue s => Some s | _ => None end.
Definition bool_value (v : flag_value) : option bool := match v with BoolValue b => Some b | _ => None end.
Definition duration_value (v : flag_value) : option Z := match v with DurationValue d => Some d | _ => None end.

Definition list_values (set : assignments) (name : string) : list string :=
  concat (map (fun p => if fst p =s name then match snd p with ListItem s => [s] | _ => [] end else []) set).

(** ** Parsing a decimal number *)

Lemma is_digit_not_underscore c : is_digit c = true -> Ascii.eqb c underscore = false.
Proof.
  unfold is_digit. rewrite in_range_iff. intros H. rewrite ascii_eqb_val. apply Z.eqb_neq.
  change (byte_val underscore) with 95. lia.
Qed.

Lemma base_digits_decimal s acc :
  sforall is_digit s = true -> base_digits 10 s acc = parse_digits s acc.
Proof.
  revert acc. induction s as [|c t IH]; intros acc; [done|]. rewrite sforall_cons, andb_true_iff.
  intros [Hc Ht]. cbn [base_digits parse_digits]. rewrite is_digit_not_underscore by done.
  unfold digit_value. rewrite Hc.
  replace (byte_val c - 48 <? 10) with true; [by apply IH|]. symmetry. apply Z.ltb_lt.
  unfold is_digit in Hc. rewrite in_range_iff in Hc. lia.
Qed.

Lemma digits_no_underscore s : sforall is_digit s = true -> has_byte s underscore = false.
Proof.
  unfold has_byte. induction s as [|c t IH]; [done|]. rewrite sforall_cons, andb_true_iff.
  intros [Hc Ht]. cbn [sexists]. rewrite IH, orb_false_r by done. rewrite ascii_eqb_val, Z.eqb_sym.
  rewrite <- ascii_eqb_val. by apply is_digit_not_underscore.
Qed.

(** A number that does not start with a zero is decimal. *)
Lemma ParseUint0_decimal c t :
  Ascii.eqb c "0" = false -> sforall is_digit (String c t) = true ->
  ParseUint0 (String c t) = parse_digits (String c t) 0.
Proof.
  intros Hz Hd. unfold ParseUint0.
  assert (Hl : literal_base (String c t) = (10, String c t)).
  { unfold literal_base. destruct c as [[] [] [] [] [] [] [] []]; done. }
  rewrite Hl, base_digits_decimal, digits_no_underscore by done.
  by destruct (parse_digits _ _).
Qed.

(** A positive number given in decimal is read back. *)
Lemma ParseInt0_FormatInt n : 0 < n <= int64_max -> ParseInt0 (FormatInt n) = Some n.
Proof.
  unfold int64_max. intros Hn. unfold FormatInt. rewrite (proj2 (Z.ltb_ge n 0)) by lia.
  rewrite digits_fuel_of, str_app_nil_r.
  destruct (digits_of_head 20 n ltac:(cbn; lia)) as (c & t & E & Hz).
  assert (Hc : Ascii.eqb c "0" = false).
  { rewrite ascii_eqb_val. change (byte_val "0") with 48. apply Z.eqb_neq. lia. }
  pose proof (digits_of_digits 20 n ltac:(lia)) as Hd.
  pose proof (parse_digits_of 20 n ltac:(cbn; lia)) as Hp. rewrite E in *.
  unfold ParseInt0. pose proof Hd as Hsign. rewrite sforall_cons, andb_true_iff in Hsign.
  destruct Hsign as [[-> ->]%digit_not_sign _]. cbn [orb].
  rewrite ParseUint0_decimal, Hp by done. by rewrite (proj2 (Z.ltb_lt n (2 ^ 63))) by lia.
Qed.

(** ** Some command lines *)

Example parse_hexadecimal : ParseInt0 "0x1_F" = Some 31 /\ ParseInt0 "08" = None /\ ParseInt0 "-017" = Some (-15).
Proof. by vm_compute. Qed.

Example parse_durations :
  ParseDuration (fun f unit digits => f * unit / 10 ^ digits) "1.5s" = Some 1500000000
  /\ ParseDuration (fun _ _ _ => 0) "-1m2s" = Some (-62000000000)
  /\ ParseDuration (fun _ _ _ => 0) "5" = None.
Proof. by vm_compute. Qed.

Example parse_arguments :
  Parse (fun _ _ _ => 0) (fun name => if name =s "pid" then Some IntFlag
                                      else if name =s "all" then Some BoolFlag else None)
    ["-pid=7"; "--all"; "--pid"; "8"; "rest"; "--pid"] []
  = Some ([("pid", IntValue 7); ("all", BoolValue true); ("pid", IntValue 8)], ["rest"; "--pid"]).
Proof. by vm_compute. Qed.
