(* ===== verification/App.v ===== *)
(** * The application service ([internal/app])

    [Inspect] and [Verify] of [service.go]: they select a process, observe
    it, digest the declared artifact, observe the process again, evaluate and
    build the proof.  The observer, the artifact reader, the clock and the
    host profiles are interfaces in the code and records of operations on a
    world here; any of them may fail, or answer differently each time. *)

From S2P Require Import Prelude GoStrings GoPath Model Canonical Contract Wire.
From S2P Require Import Expectation Process Evaluator HostBinding HostParse Privacy ProofId World.

(** [processobserver.Observer]. *)
Record Observer (W : Type) := {
  O_Snapshot : Z -> io W go_error Candidate;
  O_List : Z -> io W go_error (list Candidate);
  O_Revalidate : Candidate -> io W go_error unit
}.
Arguments O_Snapshot {W}. Arguments O_List {W}. Arguments O_Revalidate {W}.

(** [HostProfileResolver]. *)
Record HostProfileResolver (W : Type) := {
  R_Binding : string -> io W go_error Binding;
  R_Bindings : string -> io W go_error (list Binding)
}.
Arguments R_Binding {W}. Arguments R_Bindings {W}.

(** [Service], with [ctx] and the clock; an absent interface is [nil]. *)
Record Service (W : Type) := {
  Svc_Observer : option (Observer W);
  Svc_Now : W -> string * W;                 (* in UTC, RFC 3339 *)
  Svc_CtxErr : W -> bool * W;
  Svc_Tool : ToolInfo;
  Svc_LoadExpectation : string -> io W unit Resolved;
  Svc_ResolveInline : Expectation -> io W unit Resolved;
  Svc_DigestArtifact : Resolved -> io W go_error ArtifactObservation;
  Svc_HostProfiles : option (HostProfileResolver W)
}.
Arguments Svc_Observer {W}. Arguments Svc_Now {W}. Arguments Svc_CtxErr {W}. Arguments Svc_Tool {W}.
Arguments Svc_LoadExpectation {W}. Arguments Svc_ResolveInline {W}.
Arguments Svc_DigestArtifact {W}. Arguments Svc_HostProfiles {W}.

Inductive app_error :=
| ErrInvalidInput
| ContextError
| ObserverUnavailable
| NilDereference                  (* a method call on a nil interface panics *)
| Operation (e : go_error)
| ProofRejected (e : proof_error).

Record InspectRequest := {
  IR_PID : Z;
  IR_HostID : string;
  IR_BindingID : string;
  IR_All : bool;
  IR_Limit : Z
}.

Record VerifyRequest := {
  VR_PID : Z;
  VR_BindingID : string;
  VR_ExpectationPath : string;
  VR_Expectation : option Expectation;
  VR_KnownPriorDigests : list string
}.

Definition defaultInventoryLimit : Z := 256.
Definition maximumInventoryLimit : Z := 4096.

Definition attribution (binding : Binding) : HostAttribution :=
  {| Attr_HostID := B_HostID binding; Attr_BindingID := B_ID binding;
     Attr_ConfigSourceHash := ConfigSourceHash binding; Attr_Confidence := Confidence binding |}.

(** Only of a binding that has an identifier. *)
Definition attributed (binding : option Binding) : option HostAttribution :=
  match binding with
  | Some b => if B_ID b =s EmptyString then None else Some (attribution b)
  | None => None
  end.

Definition hostErrorOnly (bindingID : string) (err : option go_error) : option go_error :=
  if bindingID =s EmptyString then None
  else match err with Some (HostError code) => Some (HostError code) | _ => None end.

(** What is left of an observation once the process has been looked at again. *)
Definition observed : Type := option Candidate * option go_error.

Definition inspect_input (found : observed) (host : option go_error) : Input := {|
  In_Candidate := fst found; In_Expectation := None; In_Artifact := None;
  In_ProcessError := snd found; In_ArtifactError := None; In_HostError := host;
  KnownPriorDigests := [] |}.

Definition no_observation : observed := (None, None).

Definition selectors (request : InspectRequest) : Z :=
  Z.b2z (0 <? IR_PID request) + Z.b2z (negb (IR_BindingID request =s EmptyString))
  + Z.b2z (IR_All request).

(** The request check of [Inspect]. *)
Definition inspect_valid (request : InspectRequest) : bool :=
  negb (negb (selectors request =? 1) || (IR_PID request <? 0) || (IR_Limit request <? 0)
        || (maximumInventoryLimit <? IR_Limit request)
        || (negb (IR_All request) && negb (IR_Limit request =? 0))
        || (negb (IR_HostID request =s EmptyString) && negb (IR_All request))).

Definition verify_valid (request : VerifyRequest) : bool :=
  negb (Bool.eqb (0 <? VR_PID request) (negb (VR_BindingID request =s EmptyString))
        || (VR_PID request <? 0)
        || Bool.eqb (VR_ExpectationPath request =s EmptyString)
                    (match VR_Expectation request with None => true | Some _ => false end)).

Section App.
Context {W : Type}.
Variable schema_ok : string -> json -> bool.
Variable u : UnicodeTables.
Variable build_platform : Platform.
Variable service : Service W.

Definition now : io W app_error string := fun w => let '(t, w') := Svc_Now service w in (Ok t, w').

Definition ctx_err : io W app_error bool :=
  fun w => let '(b, w') := Svc_CtxErr service w in (Ok b, w').

(** [if err := ctx.Err(); err != nil { return err }]. *)
Definition check_context : io W app_error unit :=
  do! cancelled := ctx_err in
  require! negb cancelled else ContextError in
  ret tt.

(** A method call on the observer. *)
Definition observer : io W app_error (Observer W) :=
  match Svc_Observer service with Some o => ret o | None => throw NilDereference end.

Definition build (input : string -> ProofInput) : io W app_error Proof :=
  do! observedAt := now in
  lift (map_err ProofRejected (Build schema_ok u build_platform (input observedAt))).

(** [candidatePointer = &candidate], dropped if the process has changed. *)
Definition look_again (o : Observer W) (candidate : Candidate) : io W app_error observed :=
  do! again := attempt (O_Revalidate o candidate) in
  ret (match again with Ok _ => (Some candidate, None) | Err e => (None, Some e) end).

(** The end of every branch of [Inspect]. *)
Definition inspect_proof (found : observed) (host_error : option go_error)
  (host : option HostAttribution) : io W app_error Proof :=
  let input := inspect_input found host_error in
  let decided := Evaluate input in
  build (fun observedAt => {|
    PI_Candidate := fst found; PI_Expectation := None; PI_Artifact := None;
    PI_Decision := decided; PI_Tool := Svc_Tool service; PI_ObservedAt := observedAt;
    PI_Host := host |}).

(** The binding found, if any, and the process it matches or the failure. *)
Definition bindingCandidate (bindingID : string)
  : io W app_error (option Binding * result go_error Candidate) :=
  match Svc_HostProfiles service with
  | None => ret (None, Err (HostError "HOST_CONFIG_INACCESSIBLE"))
  | Some profiles =>
      do! found := attempt (R_Binding profiles bindingID) in
      match found with
      | Err e => ret (None, Err e)
      | Ok binding =>
          do! o := observer in
          do! listed := attempt (O_List o maximumInventoryLimit) in
          match listed with
          | Err e => ret (Some binding, Err e)
          | Ok candidates => ret (Some binding, Match binding candidates)
          end
      end
  end.

Definition revalidated (found : result go_error Candidate) : io W app_error observed :=
  match found with
  | Err e => ret (None, Some e)
  | Ok candidate => do! o := observer in look_again o candidate
  end.

Definition hostFailureProof (hostErr : go_error) : io W app_error (list Proof) :=
  do! value := inspect_proof no_observation (Some hostErr) None in
  ret [value].

Definition inspect_binding (candidates : list Candidate) (proofs : list Proof) (binding : Binding)
  : io W app_error (list Proof) :=
  do! found := revalidated (Match binding candidates) in
  do! value := inspect_proof found (hostErrorOnly (B_ID binding) (snd found))
                 (Some (attribution binding)) in
  ret (proofs ++ [value]).

Definition effective_limit (limit : Z) : Z := if limit =? 0 then defaultInventoryLimit else limit.

Definition inspectHost (hostID : string) (limit : Z) : io W app_error (list Proof) :=
  match Svc_HostProfiles service with
  | None => hostFailureProof (HostError "HOST_CONFIG_INACCESSIBLE")
  | Some profiles =>
      do! found := attempt (R_Bindings profiles hostID) in
      match found with
      | Err e => hostFailureProof e
      | Ok bindings =>
          do! o := observer in
          do! candidates := wrap_error Operation (O_List o (effective_limit limit)) in
          foldIO (inspect_binding candidates) bindings []
      end
  end.

Definition inspect_candidate (o : Observer W) (proofs : list Proof) (candidate : Candidate)
  : io W app_error (list Proof) :=
  do! _ := check_context in
  do! found := look_again o candidate in
  do! value := inspect_proof found None None in
  ret (proofs ++ [value]).

Definition inspect_pid (o : Observer W) (pid : Z) : io W app_error (list Proof) :=
  do! snapshot := attempt (O_Snapshot o pid) in
  do! _ := check_context in
  do! found := revalidated snapshot in
  do! value := inspect_proof found None None in
  ret [value].

Definition inspect_bindingID (bindingID : string) : io W app_error (list Proof) :=
  do! found := bindingCandidate bindingID in
  do! seen := revalidated (snd found) in
  do! value := inspect_proof seen (hostErrorOnly bindingID (snd seen)) (attributed (fst found)) in
  ret [value].

(** [InspectResult] is its list of proofs. *)
Definition Inspect (request : InspectRequest) : io W app_error (list Proof) :=
  do! _ := check_context in
  require! inspect_valid request else ErrInvalidInput in
  match Svc_Observer service with
  | None => throw ObserverUnavailable
  | Some o =>
      if 0 <? IR_PID request then inspect_pid o (IR_PID request)
      else if negb (IR_BindingID request =s EmptyString) then inspect_bindingID (IR_BindingID request)
      else if negb (IR_HostID request =s EmptyString)
      then inspectHost (IR_HostID request) (IR_Limit request)
      else
        do! listed := attempt (O_List o (effective_limit (IR_Limit request))) in
        match listed with
        | Err e => do! _ := check_context in throw (Operation e)
        | Ok candidates => foldIO (inspect_candidate o) candidates []
        end
  end.

(** ** Verify *)

Definition resolve_expectation (request : VerifyRequest) : io W app_error Resolved :=
  wrap_error (fun _ => ErrInvalidInput)
    (match VR_Expectation request with
     | Some value => Svc_ResolveInline service value
     | None => Svc_LoadExpectation service (VR_ExpectationPath request)
     end).

Definition select_process (request : VerifyRequest)
  : io W app_error (option Binding * result go_error Candidate) :=
  if negb (VR_BindingID request =s EmptyString) then bindingCandidate (VR_BindingID request)
  else
    do! o := observer in
    do! snapshot := attempt (O_Snapshot o (VR_PID request)) in
    ret (None, snapshot).

(** What [Verify] hands to the evaluator of one process: the candidate, the
    artifact, the process error and the artifact error. *)
Record evidence_record := {
  E_Candidate : option Candidate;
  E_Artifact : option ArtifactObservation;
  E_ProcessError : option go_error;
  E_ArtifactError : option go_error
}.

(** The artifact is read between two looks at the process; if the second one
    fails, what was observed is dropped. *)
Definition gather (resolved : Resolved) (selected : result go_error Candidate)
  : io W app_error evidence_record :=
  match selected with
  | Err e => ret {| E_Candidate := None; E_Artifact := None; E_ProcessError := Some e;
                    E_ArtifactError := None |}
  | Ok candidate =>
      do! digested := attempt (Svc_DigestArtifact service resolved) in
      do! o := observer in
      do! again := attempt (O_Revalidate o candidate) in
      ret (match again with
           | Err e => {| E_Candidate := None; E_Artifact := None; E_ProcessError := Some e;
                         E_ArtifactError := None |}
           | Ok _ =>
               {| E_Candidate := Some candidate;
                  E_Artifact := match digested with Ok a => Some a | Err _ => None end;
                  E_ProcessError := None;
                  E_ArtifactError := match digested with Ok _ => None | Err e => Some e end |}
           end)
  end.

Definition verify_input (request : VerifyRequest) (resolved : Resolved) (e : evidence_record)
  : Input := {|
  In_Candidate := E_Candidate e; In_Expectation := Some resolved; In_Artifact := E_Artifact e;
  In_ProcessError := E_ProcessError e; In_ArtifactError := E_ArtifactError e;
  In_HostError := hostErrorOnly (VR_BindingID request) (E_ProcessError e);
  KnownPriorDigests := VR_KnownPriorDigests request |}.

Definition verify_proof_input (request : VerifyRequest) (resolved : Resolved) (e : evidence_record)
  (host : option HostAttribution) (observedAt : string) : ProofInput := {|
  PI_Candidate := E_Candidate e; PI_Expectation := Some resolved; PI_Artifact := E_Artifact e;
  PI_Decision := Evaluate (verify_input request resolved e); PI_Tool := Svc_Tool service;
  PI_ObservedAt := observedAt; PI_Host := host |}.

(** [VerifyResult] is its proof. *)
Definition Verify (request : VerifyRequest) : io W app_error Proof :=
  do! _ := check_context in
  require! verify_valid request else ErrInvalidInput in
  do! resolved := resolve_expectation request in
  do! selected := select_process request in
  do! _ := check_context in
  do! e := gather resolved (snd selected) in
  do! _ := check_context in
  build (verify_proof_input request resolved e (attributed (fst selected))).
End App.

(** ** Decisions and what was observed *)

(** Errors come without observations. *)
Definition coherent (input : Input) : Prop :=
  In_HostError input <> None \/ In_ProcessError input <> None ->
  In_Candidate input = None /\ In_Artifact input = None.

Definition not_running (d : Decision) : Prop := D_Verdict d = "NOT_RUNNING".

Lemma artifact_decision_verdict err : D_Verdict (artifact_decision err) = "UNKNOWN".
Proof. unfold artifact_decision. by repeat case_match. Qed.

Lemma compare_digest_running input r a : D_Verdict (compare_digest input r a) <> "NOT_RUNNING".
Proof. unfold compare_digest. by repeat case_match. Qed.

(** Nothing is declared absent unless a step failed. *)
Lemma not_running_failed input :
  not_running (Evaluate input) -> In_HostError input <> None \/ In_ProcessError input <> None.
Proof.
  unfold not_running, Evaluate, artifact_checks.
  destruct (In_Expectation input) as [r|]; [|done].
  destruct (In_HostError input); [by left|]. destruct (In_ProcessError input); [by right|].
  destruct (In_Candidate input) as [c|]; [|done].
  do 2 (destruct (_ && _); [done|]).
  destruct (In_ArtifactError input); [by rewrite artifact_decision_verdict|].
  destruct (In_Artifact input) as [a|]; [|done].
  do 3 (destruct (_ && _); [done|]). by intros ?%compare_digest_running.
Qed.

(** The texts of a decision are ASCII constants of the program, apart from an
    artifact reason. *)
Lemma registered_valid code rule : find_rule decisions code = Some rule -> ValidString code = true.
Proof.
  intros [Hin Hc]%find_some. apply String.eqb_eq in Hc as <-.
  assert (Hall : forallb (fun e => ValidString (Code e)) (RegistryReasonCodes decisions) = true)
    by (vm_compute; reflexivity).
  rewrite forallb_forall in Hall. by apply Hall.
Qed.

Lemma lawful_valid d :
  lawful d -> Forall (fun code => ValidString code = true) (D_ReasonCodes d ++ D_Limitations d).
Proof.
  intros Hd%eachM_ok. eapply Forall_impl; [exact Hd|]. intros code. cbn beta. unfold check_reason.
  destruct (find_rule decisions code) as [rule|] eqn:E; [|done]. intros _. by eapply registered_valid.
Qed.

Definition plain_verdict (d : Decision) : Prop :=
  ValidString (D_Verdict d) = true /\ ValidString (D_ProofLevel d) = true.

Lemma Evaluate_plain input : plain_verdict (Evaluate input).
Proof.
  unfold Evaluate, artifact_checks, compare_digest, host_decision, process_decision,
    artifact_decision, missing_expectation.
  by repeat case_match.
Qed.

(** ** The semantic rules on a built proof *)

Lemma ToValidUTF8_map l :
  Forall (fun s => ValidString s = true) l -> map ToValidUTF8 l = l.
Proof. induction 1; cbn [map]; [done|]. f_equal; [by apply ToValidUTF8_id|done]. Qed.

Lemma stringArray_normal l : stringArray (normalize (strs l)) = Ok (map ToValidUTF8 l).
Proof.
  replace (normalize (strs l)) with (strs (map ToValidUTF8 l)); [apply stringArray_strs|].
  unfold strs. cbn [normalize]. by rewrite !map_map.
Qed.

Lemma Observation_normal o :
  exists rest, normalize (Observation_json o) = JObject
    (("process", normalize (nullable ProcessIdentity_json (Obs_Process o)))
     :: ("executable", normalize (nullable ExecutableObservation_json (Obs_Executable o)))
     :: ("artifact", normalize (nullable ArtifactObservation_json (Obs_Artifact o))) :: rest).
Proof. eexists. reflexivity. Qed.

(** The members the semantic rules read. *)
Lemma Proof_normal p :
  Proof_Extensions p = [] ->
  exists members, normalize (Proof_json p) = JObject members
    /\ field members "expectation"
       = normalize (nullable ExpectationProjection_json (Proof_Expectation p))
    /\ field members "observation" = normalize (Observation_json (Proof_Observation p))
    /\ field members "verdict" = JString (ToValidUTF8 (Verdict p))
    /\ field members "proof_level" = JString (ToValidUTF8 (ProofLevel p))
    /\ field members "reason_codes" = normalize (strs (ReasonCodes p))
    /\ field members "limitations" = normalize (strs (Limitations p)).
Proof.
  intros He. destruct p as [sv id at_ tl pl su ex ob ha ve le rc ev pr li xs].
  cbn [Proof_Extensions] in He. subst xs.
  destruct id as [|c id]; (eexists; split; [reflexivity|]); repeat split; reflexivity.
Qed.

Lemma nullable_nil {A} (f : A -> json) o :
  (forall a, is_nil (normalize (f a)) = false) ->
  is_nil (normalize (nullable f o)) = match o with None => true | Some _ => false end.
Proof. intros Hf. destruct o; [apply Hf|done]. Qed.

(** What a proof's decision and observations must satisfy together. *)
Definition justified (p : Proof) : Prop :=
  (Proof_Expectation p = None -> Verdict p = "UNKNOWN" /\ contains (ReasonCodes p) "EXPECTATION_MISSING" = true)
  /\ (conclusive (Verdict p) ->
      Obs_Process (Proof_Observation p) <> None /\ Obs_Executable (Proof_Observation p) <> None)
  /\ (Verdict p = "MATCHED" -> Obs_Artifact (Proof_Observation p) <> None)
  /\ (Verdict p = "NOT_RUNNING" -> Obs_Process (Proof_Observation p) = None
      /\ Obs_Executable (Proof_Observation p) = None /\ Obs_Artifact (Proof_Observation p) = None).

Lemma justified_semantics p :
  Proof_Extensions p = [] -> justified p ->
  ValidString (Verdict p) = true -> ValidString (ProofLevel p) = true ->
  Forall (fun code => ValidString code = true) (ReasonCodes p ++ Limitations p) ->
  eachM (check_reason decisions (Verdict p) (ProofLevel p)) (ReasonCodes p ++ Limitations p) = Ok tt ->
  exists members, normalize (Proof_json p) = JObject members
                  /\ validateProofSemantics members = Ok tt.
Proof.
  intros He (Hx & Hc & Hm & Hn) Hv Hl Hr Hlaw.
  destruct (Proof_normal p He) as (members & Heq & F1 & F2 & F3 & F4 & F5 & F6).
  exists members. split; [exact Heq|]. unfold validateProofSemantics.
  destruct (Observation_normal (Proof_Observation p)) as (rest & Ho).
  rewrite F1, F2, F3, F4, F5, F6, Ho, !stringArray_normal. cbn [as_string as_object rbind field].
  cbn [String.eqb Ascii.eqb Bool.eqb].
  apply Forall_app in Hr as [Hr1 Hr2].
  rewrite (ToValidUTF8_id (Verdict p)), (ToValidUTF8_id (ProofLevel p)) by done.
  rewrite (ToValidUTF8_map (ReasonCodes p)), (ToValidUTF8_map (Limitations p)) by done.
  rewrite !nullable_nil by (intros []; reflexivity).
  set (process := Obs_Process (Proof_Observation p)) in *.
  set (executable := Obs_Executable (Proof_Observation p)) in *.
  set (artifact := Obs_Artifact (Proof_Observation p)) in *.
  assert (G1 : negb (match Proof_Expectation p with None => true | Some _ => false end
     && (negb (Verdict p =s "UNKNOWN") || negb (contains (ReasonCodes p) "EXPECTATION_MISSING"))) = true).
  { destruct (Proof_Expectation p); [done|]. by destruct Hx as [-> ->]. }
  assert (G2 : negb (((Verdict p =s "MATCHED") || (Verdict p =s "STALE") || (Verdict p =s "LEAKED"))
     && (negb (negb (match process with None => true | Some _ => false end))
         || negb (negb (match executable with None => true | Some _ => false end)))) = true).
  { destruct ((Verdict p =s "MATCHED") || _ || _) eqn:E; [|done].
    destruct Hc as [Hp Hex]; [|by destruct process, executable].
    rewrite !orb_true_iff in E. unfold conclusive. destruct E as [[E|E]|E]; to_prop; tauto. }
  assert (G3 : negb ((Verdict p =s "MATCHED")
     && negb (negb (match artifact with None => true | Some _ => false end))) = true).
  { destruct (String.eqb_spec (Verdict p) "MATCHED") as [E|]; [|done].
    specialize (Hm E). by destruct artifact. }
  assert (G4 : negb ((Verdict p =s "NOT_RUNNING")
     && (negb (match process with None => true | Some _ => false end)
         || negb (match executable with None => true | Some _ => false end)
         || negb (match artifact with None => true | Some _ => false end))) = true).
  { destruct (String.eqb_spec (Verdict p) "NOT_RUNNING") as [E|]; [|done].
    by destruct (Hn E) as (-> & -> & ->). }
  rewrite G1. cbn [guard_ rbind]. rewrite G2. cbn [guard_ rbind]. rewrite G3. cbn [guard_ rbind].
  rewrite G4. exact Hlaw.
Qed.

(** ** Proofs assembled from an evaluation *)

Section Facts.
Context {W : Type}.
Variable schema_ok : string -> json -> bool.
Variable u : UnicodeTables.
Variable build_platform : Platform.
Variable service : Service W.

(** The proof input that goes with an evaluation. *)
Definition from_evaluation (input : Input) (pin : ProofInput) : Prop :=
  PI_Candidate pin = In_Candidate input /\ PI_Expectation pin = In_Expectation input
  /\ PI_Artifact pin = In_Artifact input /\ PI_Decision pin = Evaluate input.

Lemma missing_unknown input :
  In_Expectation input = None ->
  D_Verdict (Evaluate input) = "UNKNOWN"
  /\ contains (D_ReasonCodes (Evaluate input)) "EXPECTATION_MISSING" = true.
Proof. intros Hx. unfold Evaluate. by rewrite Hx. Qed.

Lemma assembled_justified input pin id :
  from_evaluation input pin -> coherent input ->
  justified (with_id (assemble u build_platform pin) id).
Proof.
  intros (Hc & Hx & Ha & Hd) Hco. unfold justified, assemble, with_id.
  cbn [Proof_Expectation Verdict ReasonCodes Proof_Observation P_Expectation P_Observation Project
       Obs_Process Obs_Executable Obs_Artifact].
  rewrite Hc, Hx, Ha, Hd. split; [|split; [|split]].
  - intros He. apply missing_unknown. by destruct (In_Expectation input).
  - intros (r & c & _ & _ & _ & -> & _)%Evaluate_conclusive. done.
  - intros Hm. assert (Hcc : conclusive (D_Verdict (Evaluate input))) by by left.
    apply Evaluate_conclusive in Hcc as (r & c & _ & _ & _ & _ & [(_ & _ & He)|(a & Hev & _)]).
    + by rewrite He in Hm.
    + destruct Hev as (_ & _ & _ & _ & _ & ->). done.
  - intros Hn. destruct (Hco (not_running_failed input Hn)) as [-> ->]. done.
Qed.

(** The builder can still refuse a proof for its shape or its encoding. *)
Definition semantic_rejection (e : app_error) : bool :=
  match e with ProofRejected (ProofInvalid (SemanticsFailed _)) => true | _ => false end.

Lemma assembled_semantics input pin id :
  from_evaluation input pin -> registered_error (In_ArtifactError input) ->
  justified (with_id (assemble u build_platform pin) id) ->
  exists members, normalize (Proof_json (with_id (assemble u build_platform pin) id)) = JObject members
                  /\ validateProofSemantics members = Ok tt.
Proof.
  intros (_ & _ & _ & Hd) Hr Hj.
  pose proof (decision_lawful input Hr) as Hl. pose proof (Evaluate_plain input) as [Hv Hpl].
  rewrite <- Hd in Hl, Hv, Hpl. pose proof (lawful_valid _ Hl) as Hvalid.
  apply justified_semantics; [reflexivity|exact Hj|exact Hv|exact Hpl|exact Hvalid|exact Hl].
Qed.

Lemma Build_no_semantic_rejection input pin e :
  from_evaluation input pin -> coherent input -> registered_error (In_ArtifactError input) ->
  Build schema_ok u build_platform pin = Err e -> semantic_rejection (ProofRejected e) = false.
Proof.
  intros Hf Hco Hr. unfold Build.
  destruct (AssignID (assemble u build_platform pin)) as [value|] eqn:E; cbn [map_err rbind];
    [|by intros [= <-]].
  apply AssignID_ok in E as (encoded & _ & ->).
  pose proof (assembled_justified input pin (identity_hash encoded) Hf Hco) as Hj.
  destruct (assembled_semantics input pin (identity_hash encoded) Hf Hr Hj) as (members & Hn & Hs).
  set (p := with_id (assemble u build_platform pin) (identity_hash encoded)) in *. clearbody p.
  unfold Validate_tree, ValidateProof_tree. rewrite Hn.
  destruct (validate_schema _ _ _) as [|ve] eqn:Ev; cbn [rbind map_err].
  - unfold proof_semantics. cbn [as_object map_err rbind]. rewrite Hs. cbn [map_err rbind].
    destruct (Proof_of _); cbn [map_err rbind]; [|by intros [= <-]].
    destruct (VerifyID _); cbn [map_err rbind]; [done|by intros [= <-]].
  - intros [= <-]. unfold validate_schema, guard_ in Ev. destruct (schema_ok _ _); [done|].
    by injection Ev as <-.
Qed.

(** The errors allowed: at least those of the context, of the interfaces and
    of a builder that has no semantic objection. *)
Variable R : app_error -> Prop.
Hypothesis R_context : R ContextError.
Hypothesis R_nil : R NilDereference.
Hypothesis R_unavailable : R ObserverUnavailable.
Hypothesis R_operation : forall e, R (Operation e).
Hypothesis R_proof : forall e, semantic_rejection (ProofRejected e) = false -> R (ProofRejected e).

(** [c] yields values in [Q] and errors in [R]. *)
Definition safe {A} (c : io W app_error A) (Q : A -> Prop) : Prop :=
  triple (fun _ => True) c (fun a _ => Q a) (fun e _ => R e).

Lemma safe_bind {A B} (c : io W app_error A) (k : A -> io W app_error B) M Q :
  safe c M -> (forall a, M a -> safe (k a) Q) -> safe (bind c k) Q.
Proof.
  intros Hc Hk. eapply triple_bind; [exact Hc|]. intros a w Ha. by apply Hk.
Qed.

Lemma safe_ret {A} (a : A) (Q : A -> Prop) : Q a -> safe (ret a) Q.
Proof. intros Ha. by apply triple_ret. Qed.

Lemma safe_throw {A} e (Q : A -> Prop) : R e -> safe (throw e) Q.
Proof. intros He. by apply triple_throw. Qed.

Lemma safe_require {A} (b : bool) e (k : unit -> io W app_error A) Q :
  (b = false -> R e) -> safe (k tt) Q -> safe (bind (require b e) k) Q.
Proof. intros He Hk. apply triple_require; [done|]. intros Hb w _. by apply He. Qed.

Lemma safe_attempt {A} (c : io W go_error A) (Q : result go_error A -> Prop) :
  (forall w, Q (fst (c w))) -> safe (attempt c) Q.
Proof. intros HQ w _. unfold attempt. specialize (HQ w). by destruct (c w). Qed.

Lemma safe_wrap {E A} (f : E -> app_error) (c : io W E A) :
  (forall e, R (f e)) -> safe (wrap_error f c) (fun _ => True).
Proof. intros Hf w _. unfold wrap_error. by destruct (c w) as [[a|e] w']; cbn [map_err]. Qed.

Lemma safe_context : safe (check_context service) (fun _ => True).
Proof.
  intros w _. unfold check_context, ctx_err, bind. destruct (Svc_CtxErr service w) as [b w'].
  by destruct b.
Qed.

Lemma safe_observer : safe (observer service) (fun _ => True).
Proof. unfold observer. destruct (Svc_Observer service); [by apply safe_ret|by apply safe_throw]. Qed.

Lemma safe_fold {A S} (I : S -> Prop) (f : S -> A -> io W app_error S) l s :
  I s -> (forall x s0, I s0 -> safe (f s0 x) I) -> safe (foldIO f l s) I.
Proof.
  intros Hs Hf. eapply triple_conseq.
  - apply (triple_foldIO (fun _ s0 _ => I s0)). intros x rest s0 _ w Hi. by apply Hf.
  - done.
  - done.
  - done.
Qed.

(** The proof input goes with an evaluation of coherent evidence. *)
Lemma safe_build input (pin : string -> ProofInput) (Q : Proof -> Prop) :
  (forall t, from_evaluation input (pin t)) -> coherent input ->
  registered_error (In_ArtifactError input) ->
  (forall t p, Build schema_ok u build_platform (pin t) = Ok p -> Q p) ->
  safe (build schema_ok u build_platform service pin) Q.
Proof.
  intros Hf Hco Hr HQ. unfold build. apply (safe_bind _ _ (fun _ => True)).
  { intros w _. unfold now. by destruct (Svc_Now service w). }
  intros t _. apply triple_lift.
  - intros p Hp w _. apply map_err_ok in Hp. by eapply HQ.
  - intros e He w _. destruct (Build _ _ _ (pin t)) as [|pe] eqn:E; [done|]. injection He as <-.
    by eapply R_proof, Build_no_semantic_rejection.
Qed.

Lemma safe_bindingCandidate bindingID : safe (bindingCandidate service bindingID) (fun _ => True).
Proof.
  unfold bindingCandidate. destruct (Svc_HostProfiles service) as [profiles|]; [|by apply safe_ret].
  apply (safe_bind _ _ (fun _ => True)); [by apply safe_attempt|].
  intros [binding|e] _; [|by apply safe_ret].
  eapply safe_bind; [apply safe_observer|intros o _].
  apply (safe_bind _ _ (fun _ => True)); [by apply safe_attempt|].
  intros [candidates|e] _; by apply safe_ret.
Qed.

(** A failure leaves no observation. *)
Definition sound_observed (found : observed) : Prop := snd found <> None -> fst found = None.

Lemma safe_revalidated found : safe (revalidated service found) sound_observed.
Proof.
  unfold revalidated. destruct found as [candidate|e]; [|by apply safe_ret].
  eapply safe_bind; [apply safe_observer|intros o _].
  apply (safe_bind _ _ (fun _ => True)); [by apply safe_attempt|].
  intros [[]|e] _; apply safe_ret; intros H; [by destruct H|done].
Qed.

(** What every proof of an inspection says. *)
Definition inspection_proof (p : Proof) : Prop :=
  Verdict p = "UNKNOWN" /\ ProofLevel p = "PROCESS_OBSERVED" /\ Proof_Expectation p = None
  /\ head (ReasonCodes p) = Some "EXPECTATION_MISSING" /\ Obs_Artifact (Proof_Observation p) = None.

Lemma Build_fields pin p :
  Build schema_ok u build_platform pin = Ok p ->
  exists id, p = with_id (assemble u build_platform pin) id.
Proof.
  unfold Build. intros (v & Hv & H)%rbind_ok. apply map_err_ok, AssignID_ok in Hv as (e & _ & ->).
  apply rbind_ok in H as (q & _ & [= <-]). eauto.
Qed.

Lemma safe_inspect_proof found host_error host :
  (snd found <> None \/ host_error <> None -> fst found = None) ->
  safe (inspect_proof schema_ok u build_platform service found host_error host) inspection_proof.
Proof.
  intros Hs. unfold inspect_proof. apply (safe_build (inspect_input found host_error)); [done|..].
  - intros Hf. cbn [inspect_input In_HostError In_ProcessError In_Candidate In_Artifact] in *.
    split; [|done]. apply Hs. tauto.
  - done.
  - intros t p Hp. apply Build_fields in Hp as [id ->]. by repeat split.
Qed.

Lemma safe_hostFailureProof e :
  safe (hostFailureProof schema_ok u build_platform service e) (Forall inspection_proof).
Proof.
  eapply safe_bind; [by apply safe_inspect_proof|]. intros p Hp. apply safe_ret. by constructor.
Qed.

Lemma hostErrorOnly_some bindingID err : hostErrorOnly bindingID err <> None -> err <> None.
Proof. unfold hostErrorOnly. destruct (_ =s _), err; done. Qed.

Lemma safe_observed_proof found bindingID host :
  sound_observed found ->
  safe (inspect_proof schema_ok u build_platform service found
          (hostErrorOnly bindingID (snd found)) host) inspection_proof.
Proof.
  intros Hs. apply safe_inspect_proof. intros [He|He%hostErrorOnly_some]; by apply Hs.
Qed.

Lemma safe_inspect_binding candidates proofs binding :
  Forall inspection_proof proofs ->
  safe (inspect_binding schema_ok u build_platform service candidates proofs binding)
    (Forall inspection_proof).
Proof.
  intros Hp. unfold inspect_binding. eapply safe_bind; [apply safe_revalidated|intros found Hf].
  eapply safe_bind; [by apply safe_observed_proof|intros p Hnew]. apply safe_ret.
  apply Forall_app. split; [done|]. by constructor.
Qed.

Lemma safe_inspectHost hostID limit :
  safe (inspectHost schema_ok u build_platform service hostID limit) (Forall inspection_proof).
Proof.
  unfold inspectHost. destruct (Svc_HostProfiles service) as [profiles|];
    [|apply safe_hostFailureProof].
  apply (safe_bind _ _ (fun _ => True)); [by apply safe_attempt|].
  intros [bindings|e] _; [|apply safe_hostFailureProof].
  eapply safe_bind; [apply safe_observer|intros o _].
  eapply safe_bind; [by apply safe_wrap|intros candidates _].
  apply safe_fold; [constructor|]. intros b proofs Hp. by apply safe_inspect_binding.
Qed.

Lemma safe_inspect_candidate o proofs candidate :
  Svc_Observer service = Some o -> Forall inspection_proof proofs ->
  safe (inspect_candidate schema_ok u build_platform service o proofs candidate)
    (Forall inspection_proof).
Proof.
  intros Ho Hp. unfold inspect_candidate. eapply safe_bind; [apply safe_context|intros _ _].
  eapply safe_bind.
  { pose proof (safe_revalidated (Ok candidate)) as H. unfold revalidated, observer in H.
    rewrite Ho in H. exact H. }
  intros found Hf. eapply safe_bind; [apply safe_inspect_proof|].
  - intros [He|He]; [by apply Hf|done].
  - intros p Hnew. apply safe_ret. apply Forall_app. split; [done|]. by constructor.
Qed.

Lemma safe_Inspect request :
  (inspect_valid request = false -> R ErrInvalidInput) ->
  safe (Inspect schema_ok u build_platform service request) (Forall inspection_proof).
Proof.
  intros Hvalid.
  unfold Inspect. eapply safe_bind; [apply safe_context|intros _ _]. apply safe_require; [done|].
  destruct (Svc_Observer service) as [o|] eqn:Ho; [|by apply safe_throw].
  destruct (0 <? _); [|destruct (negb _); [|destruct (negb _); [apply safe_inspectHost|]]].
  - unfold inspect_pid. apply (safe_bind _ _ (fun _ => True)); [by apply safe_attempt|intros s _].
    eapply safe_bind; [apply safe_context|intros _ _].
    eapply safe_bind; [apply safe_revalidated|intros found Hf].
    eapply safe_bind; [apply safe_inspect_proof; intros [He|He]; [by apply Hf|done]|].
    intros p Hp. apply safe_ret. by constructor.
  - unfold inspect_bindingID. eapply safe_bind; [apply safe_bindingCandidate|intros found _].
    eapply safe_bind; [apply safe_revalidated|intros seen Hf].
    eapply safe_bind; [by apply safe_observed_proof|].
    intros p Hp. apply safe_ret. by constructor.
  - apply (safe_bind _ _ (fun _ => True)); [by apply safe_attempt|].
    intros [candidates|e] _.
    + apply safe_fold; [constructor|]. intros c proofs Hp. by apply safe_inspect_candidate.
    + eapply safe_bind; [apply safe_context|intros _ _]. by apply safe_throw.
Qed.

Hypothesis artifact_registered : forall resolved w,
  match fst (Svc_DigestArtifact service resolved w) with
  | Ok _ => True | Err e => registered_error (Some e) end.

Definition sound_record (e : evidence_record) : Prop :=
  registered_error (E_ArtifactError e)
  /\ (E_ProcessError e <> None -> E_Candidate e = None /\ E_Artifact e = None).

Lemma safe_gather resolved selected :
  safe (gather service resolved selected) sound_record.
Proof.
  unfold gather. destruct selected as [candidate|e]; [|by apply safe_ret].
  apply (safe_bind _ _ (fun r => match r with Ok _ => True | Err e => registered_error (Some e) end)).
  { apply safe_attempt. intros w. exact (artifact_registered resolved w). }
  intros digested Hd. eapply safe_bind; [apply safe_observer|intros o _].
  apply (safe_bind _ _ (fun _ => True)); [by apply safe_attempt|].
  intros [[]|e] _; apply safe_ret; [|by split]. split; [by destruct digested|]. intros H. by destruct H.
Qed.

Lemma safe_Verify request :
  R ErrInvalidInput ->
  safe (Verify schema_ok u build_platform service request) (fun _ => True).
Proof.
  intros Hinput.
  unfold Verify. eapply safe_bind; [apply safe_context|intros _ _]. apply safe_require; [done|].
  eapply safe_bind; [by apply safe_wrap|intros resolved _].
  apply (safe_bind _ _ (fun _ => True)).
  { unfold select_process. destruct (negb _); [apply safe_bindingCandidate|].
    eapply safe_bind; [apply safe_observer|intros o _].
    apply (safe_bind _ _ (fun _ => True)); [by apply safe_attempt|]. intros s _. by apply safe_ret. }
  intros selected _. eapply safe_bind; [apply safe_context|intros _ _].
  eapply safe_bind; [apply safe_gather|intros e [Hr Hc]].
  eapply safe_bind; [apply safe_context|intros _ _].
  apply (safe_build (verify_input request resolved e)); [done| |exact Hr|done].
  intros [H%hostErrorOnly_some|H]; by apply Hc.
Qed.
End Facts.

(** C31: inspection never claims more than it looked at: every proof [Inspect]
    returns, on each of its branches, is [UNKNOWN] at level
    [PROCESS_OBSERVED] for want of an expectation, with no artifact; and the
    builder never refuses such a proof for contradicting the decision
    registry, whatever the observer, the host profiles and the clock do. *)
Theorem Inspect_unknown {W} schema_ok u platform (service : Service W) request w :
  match fst (Inspect schema_ok u platform service request w) with
  | Ok proofs => Forall inspection_proof proofs
  | Err e => semantic_rejection e = false
  end.
Proof.
  pose proof (safe_Inspect schema_ok u platform service (fun e => semantic_rejection e = false)
    eq_refl eq_refl eq_refl (fun _ => eq_refl) (fun _ H => H) request (fun _ => eq_refl) w I) as H.
  by destruct (Inspect _ _ _ _ _ w) as [[a|e] w'].
Qed.

(** C30: the decision [Verify] reaches and the observations it keeps always
    agree: provided artifact errors carry registered reasons (which
    [Digest] guarantees), the builder never refuses the proof on semantic
    grounds. *)
Theorem Verify_consistent {W} schema_ok u platform (service : Service W) request w e w' :
  (forall resolved w0, match fst (Svc_DigestArtifact service resolved w0) with
                       | Ok _ => True | Err err => registered_error (Some err) end) ->
  Verify schema_ok u platform service request w = (Err e, w') -> semantic_rejection e = false.
Proof.
  intros Hd E. assert (H : safe (fun e => semantic_rejection e = false)
    (Verify schema_ok u platform service request) (fun _ => True)) by by apply safe_Verify.
  specialize (H w I). by rewrite E in H.
Qed.

Lemma gather_ok {W} (service : Service W) resolved selected w e w' candidate :
  gather service resolved selected w = (Ok e, w') -> E_Candidate e = Some candidate ->
  selected = Ok candidate /\ E_ProcessError e = None
  /\ exists o digested w1,
       Svc_Observer service = Some o
       /\ Svc_DigestArtifact service resolved w = (digested, w1)
       /\ O_Revalidate o candidate w1 = (Ok tt, w')
       /\ E_Artifact e = match digested with Ok a => Some a | Err _ => None end.
Proof.
  unfold gather. destruct selected as [c|err]; intros H Hc; [|inv_io; done].
  inv_io. unfold observer in Ha0. destruct (Svc_Observer service) as [o|] eqn:Ho; [|inv_io].
  inv_io. destruct a1 as [[]|err]; [|inv_io; done]. injection Hc as ->.
  split; [done|]. split; [done|]. by exists o, a, w0.
Qed.

(** The sandwich of observations behind a proof: with the expectation of the
    request resolved, the process was selected, the artifact was read, then the very same process was confirmed once more,
    in this order and with nothing in between; the proof names that process.
    A [MATCHED] proof moreover has the digest the expectation demands, read
    from the file the process is running. *)
Definition evidence_of {W} (service : Service W) (request : VerifyRequest) (p : Proof) : Prop :=
  exists resolved binding candidate o digested w w0 w1 w2 w3 w4,
    resolve_expectation service request w = (Ok resolved, w0)
    /\ select_process service request w0 = (Ok (binding, Ok candidate), w1)
    /\ Svc_Observer service = Some o
    /\ Svc_DigestArtifact service resolved w2 = (digested, w3)
    /\ O_Revalidate o candidate w3 = (Ok tt, w4)
    /\ Obs_Process (Proof_Observation p) = Some (Cand_Process candidate)
    /\ (Verdict p = "MATCHED" ->
        is_native resolved = true
        /\ exists artifact, digested = Ok artifact /\ same_image resolved candidate artifact
             /\ Obs_SHA256 artifact = Art_SHA256 (Artifact (Res_Value resolved))).

Lemma Verify_evidence {W} schema_ok u platform (service : Service W) request w p w' :
  Verify schema_ok u platform service request w = (Ok p, w') -> conclusive (Verdict p) ->
  evidence_of service request p.
Proof.
  unfold Verify, evidence_of. intros H Hc.
  apply bind_ok in H as (? & v0 & _ & H). apply bind_ok in H as (? & v1 & _ & H).
  apply bind_ok in H as (resolved & v2 & Hres & H).
  apply bind_ok in H as ([binding found] & v3 & Hsel & H).
  apply bind_ok in H as (? & v4 & _ & H). apply bind_ok in H as (e & v5 & Hg & H).
  apply bind_ok in H as (? & v6 & _ & H). apply bind_ok in H as (t & v7 & _ & H).
  apply lift_ok in H as [H _]. apply map_err_ok, Build_fields in H as [id ->].
  cbn [snd fst] in *.
  cbn [with_id assemble Verdict verify_proof_input PI_Decision Proof_Observation P_Observation
       Project PI_Candidate Obs_Process] in *.
  pose proof (Evaluate_conclusive _ Hc) as (r & c & Hr & _ & _ & Hcand & Hcase).
  cbn [verify_input In_Expectation In_Candidate] in Hr, Hcand. injection Hr as <-.
  destruct (gather_ok _ _ _ _ _ _ _ Hg Hcand) as (-> & _ & o & digested & v8 & Ho & Hd & Hrev & Hart).
  exists resolved, binding, c, o, digested. do 6 eexists.
  split; [exact Hres|]. split; [exact Hsel|]. split; [exact Ho|]. split; [exact Hd|]. split; [exact Hrev|].
  split; [by rewrite Hcand|]. intros Hm.
  destruct Hcase as [(_ & _ & He)|(a9 & Hev & Hs & He)]; rewrite He in Hm; [done|].
  apply compare_digest_matched in Hm as [Hn Hdig]. split; [exact Hn|].
  exists a9. destruct Hev as (_ & _ & _ & _ & _ & Ha9). cbn [verify_input In_Artifact] in Ha9.
  rewrite Hart in Ha9. split; [destruct digested; congruence|]. split; [by apply Hs|exact Hdig].
Qed.

(** C5: a conclusive proof of [Verify] rests on a sandwich of observations
    ([evidence_of]): with the expectation of the
    request resolved, the process was selected, the artifact was read, and then
    the very same process was confirmed once more, in this order and with
    nothing in between; the proof names that process.  A [MATCHED] proof
    moreover has the digest the expectation demands, read from the file the
    process is running. *)
Theorem Verify_conclusive {W} schema_ok u platform (service : Service W) request w p w' :
  Verify schema_ok u platform service request w = (Ok p, w') -> conclusive (Verdict p) ->
  evidence_of service request p.
Proof. apply Verify_evidence. Qed.

(** ** A service that sees one process *)

Definition sample_candidate : Candidate := {|
  Cand_Platform := {| OS := "linux"; Arch := "amd64" |};
  Cand_Process := {| PID := 7; CreatedAtUnixNano := "5"; BootIDHash := "h" |};
  Cand_Executable := {| Basename := "runtime"; PathHash := "p"; FileIDHash := "f" |};
  ParentPID := 1; ExecutablePath := "/opt/app/bin/runtime";
  DeclaredExecutablePath := "/opt/app/bin/runtime"; ExecutableFileIdentity := "1:14";
  ExecutableDeleted := false; Cand_ArgumentFingerprints := []; Inaccessible := [] |}.

Definition sample_artifact : ArtifactObservation := {|
  Obs_SHA256 := "aa"; FileCount := 2; ByteCount := 5; DurationMS := 0;
  EntrypointFileIdentity := "1:14" |}.

Definition steady {A B} (a : A) : B -> io nat go_error A := fun _ w => (Ok a, S w).

(** Its world counts the operations. *)
Definition sample_service : Service nat := {|
  Svc_Observer := Some {| O_Snapshot := steady sample_candidate; O_List := steady [sample_candidate];
                          O_Revalidate := steady tt |};
  Svc_Now w := ("2026-01-01T00:00:00Z", w); Svc_CtxErr w := (false, w);
  Svc_Tool := {| Tool_Name := "arp"; Tool_Version := "1"; Tool_Commit := "c"; Toolchain := "go" |};
  Svc_LoadExpectation _ w := (Ok sample_resolved, w);
  Svc_ResolveInline _ w := (Ok sample_resolved, w);
  Svc_DigestArtifact := steady sample_artifact; Svc_HostProfiles := None |}.

Definition verify_request : VerifyRequest := {|
  VR_PID := 7; VR_BindingID := EmptyString; VR_ExpectationPath := "m.json"; VR_Expectation := None;
  VR_KnownPriorDigests := [] |}.

Definition sample_platform : Platform := {| OS := "linux"; Arch := "amd64" |}.

Definition sample_run : result app_error Proof * nat :=
  Verify (fun _ _ => true) ascii_tables sample_platform sample_service verify_request 0%nat.

Definition proof_of (r : result app_error Proof) : option Proof :=
  match r with Ok p => Some p | Err _ => None end.

Lemma run_ok (r : result app_error Proof * nat) v :
  option_map Verdict (proof_of (fst r)) = Some v -> exists p w, r = (Ok p, w) /\ Verdict p = v.
Proof. destruct r as [[p|e] w]; cbn; [intros [= <-]; eauto|done]. Qed.

Lemma Verify_conclusive_witness :
  option_map Verdict (proof_of (fst sample_run)) = Some "MATCHED"
  /\ exists p, evidence_of sample_service verify_request p.
Proof.
  assert (Hm : option_map Verdict (proof_of (fst sample_run)) = Some "MATCHED")
    by (vm_compute; reflexivity).
  split; [exact Hm|].
  destruct (run_ok sample_run "MATCHED" Hm) as (p & w & E & Ev). exists p.
  exact (Verify_conclusive (fun _ _ => true) ascii_tables sample_platform sample_service
           verify_request 0%nat p w E (or_introl Ev)).
Defined.

(** The same service with an inaccessible artifact and a strict schema. *)
Definition refusing_service : Service nat := {|
  Svc_Observer := Svc_Observer sample_service; Svc_Now := Svc_Now sample_service;
  Svc_CtxErr := Svc_CtxErr sample_service; Svc_Tool := Svc_Tool sample_service;
  Svc_LoadExpectation := Svc_LoadExpectation sample_service;
  Svc_ResolveInline := Svc_ResolveInline sample_service;
  Svc_DigestArtifact _ w := (Err (ArtifactError "ARTIFACT_INACCESSIBLE"), S w);
  Svc_HostProfiles := None |}.

Lemma Verify_consistent_witness :
  semantic_rejection (ProofRejected (ProofInvalid (SchemaFailed proof_schema))) = false.
Proof.
  apply (Verify_consistent (fun _ _ => false) ascii_tables sample_platform refusing_service
           verify_request 0%nat _ 3%nat).
  - intros resolved w0. cbn. do 2 right. left.
  - vm_compute. reflexivity.
Defined.
