(* ===== verification/Answers.v ===== *)
(** * The service always has an answer

    [Inspect] and [Verify] end by building a proof, and the builder validates
    what it has built against the embedded schema.  If the interfaces of the
    service return what fits the schema ([FittingInterfaces]), the builder
    accepts every proof they assemble: a request is refused for its input, its
    context or an interface, never because its answer could not be issued. *)

From S2P Require Import Prelude GoStrings GoPath GoSha256 GoRegexp Model GoJson Canonical Contract RoundTrip Wire Protected Expectation Process Evaluator HostBinding HostParse Privacy ProofId World Embedded JsonSchema Schemas Conformance Issue App.

(** ** What the interfaces have to return *)

Definition nonempty (s : string) : bool := negb (s =s EmptyString).

Definition candidate_fits (c : Candidate) : bool :=
  platform_fits (Cand_Platform c) && process_fits (Cand_Process c) && safe_int (PID (Cand_Process c))
  && nonempty (Basename (Cand_Executable c)) && prefixed_text (PathHash (Cand_Executable c))
  && or_empty prefixed_text (FileIDHash (Cand_Executable c))
  && (distinct (Inaccessible c) && forallb name_text (Inaccessible c)).

Definition resolved_fits (r : Resolved) : bool :=
  let value := Res_Value r in
  nonempty (DisplayName (Exp_Subject value)) && nonempty (Subj_Version (Exp_Subject value))
  && one_of source_kinds (Source_Kind (Source value)) && sha256_text (LocatorHash (Source value))
  && one_of trusts (Trust (Source value)) && sha256_text (Art_SHA256 (Artifact value))
  && between 1 1000000 (MaxFiles (Artifact value)) && between 1 1099511627776 (MaxBytes (Artifact value)).

Definition observation_issuable (a : ArtifactObservation) : bool :=
  artifact_fits a && safe_int (FileCount a) && safe_int (ByteCount a) && safe_int (DurationMS a).

Definition binding_fits (b : Binding) : bool := attribution_fits (attribution b).

(** ** Labels *)

Lemma RuneCount_positive s : nonempty s = true -> 1 <= RuneCountInString s.
Proof.
  unfold nonempty, RuneCountInString. intros H. destruct s as [|c t]; [done|]. rewrite runes_cons by done.
  cbn [length]. lia.
Qed.

Lemma truncate_positive s limit : nonempty s = true -> 1 <= limit -> 1 <= RuneCountInString (truncateRunes s limit).
Proof.
  intros Hs Hl. pose proof (RuneCount_positive s Hs) as Hp. unfold truncateRunes.
  destruct (RuneCountInString s <=? limit); [done|]. unfold take_runes, RuneCountInString in *.
  rewrite runes_firstn, length_take. lia.
Qed.

Lemma safeField_text u s : nonempty s = true -> text 1 128 (safeField u s) = true.
Proof.
  intros Hs. unfold text. apply andb_true_iff. rewrite !Z.leb_le. unfold safeField. destruct (negb _).
  - split; [by apply truncate_positive|by apply truncateRunes_count].
  - split; [apply RuneCount_positive; reflexivity|]. pose proof (redacted_count s). lia.
Qed.

Lemma text_nonempty least most s : 1 <= least -> text least most s = true -> nonempty s = true.
Proof.
  intros Hl Ht. unfold nonempty. destruct (String.eqb_spec s EmptyString) as [->|]; [|done]. exfalso.
  unfold text in Ht. apply andb_true_iff in Ht as [Ht _]. apply Z.leb_le in Ht.
  change (RuneCountInString EmptyString) with 0 in Ht. lia.
Qed.

Lemma truncated_text s limit : nonempty s = true -> 1 <= limit -> text 1 limit (truncateRunes s limit) = true.
Proof.
  intros Hs Hl. unfold text. apply andb_true_iff. rewrite !Z.leb_le.
  split; [by apply truncate_positive|apply truncateRunes_count; lia].
Qed.

Lemma safeSubject_fits u value :
  nonempty (DisplayName value) = true -> nonempty (Subj_Version value) = true ->
  subject_fits (safeSubject u value) = true.
Proof.
  intros Hd Hv. unfold subject_fits, safeSubject. cbn [Subj_ID DisplayName Subj_Version].
  rewrite id_text_spec, sanitizeID_schema, (safeField_text u _ Hd). apply truncated_text; [|done].
  by apply (text_nonempty 1 128), safeField_text.
Qed.

Lemma inferredSubject_fits u candidate : subject_fits (inferredSubject u candidate) = true.
Proof.
  unfold inferredSubject. set (name := match candidate with Some _ => _ | None => _ end).
  assert (Hn : nonempty name = true).
  { unfold name. destruct candidate as [c|]; [|done].
    destruct (negb (Basename (Cand_Executable c) =s EmptyString)) eqn:E; [|done].
    apply (text_nonempty 1 128); [done|]. by apply truncated_text. }
  clearbody name. unfold subject_fits. cbn [Subj_ID DisplayName Subj_Version].
  rewrite id_text_spec, sanitizeID_schema, (safeField_text u _ Hn). vm_compute. reflexivity.
Qed.

(** ** Decisions *)

Definition decision_fits (d : Decision) : bool :=
  one_of verdicts (D_Verdict d) && one_of (map fst (ProofLevels decisions)) (D_ProofLevel d)
  && ((1 <=? Z.of_nat (length (D_ReasonCodes d))) && distinct (D_ReasonCodes d)
      && forallb (one_of registered_codes) (D_ReasonCodes d))
  && (distinct (D_Limitations d) && forallb (one_of registered_codes) (D_Limitations d)).

(** A single reason cannot come from the host and from the process. *)
Definition one_failure (input : Input) : Prop :=
  hostReason (In_HostError input) = EmptyString \/ processReason (In_ProcessError input) = EmptyString.

Lemma host_decision_fits err : decision_fits (host_decision err) = true.
Proof. unfold host_decision. repeat case_match; vm_compute; reflexivity. Qed.
Lemma process_decision_fits err : decision_fits (process_decision err) = true.
Proof. unfold process_decision. repeat case_match; vm_compute; reflexivity. Qed.

Lemma artifact_decision_fits err : registered_error (Some err) -> decision_fits (artifact_decision err) = true.
Proof.
  unfold artifact_decision. intros Hr.
  destruct err as [| |reason|]; try (vm_compute; reflexivity).
  cbn [registered_error] in Hr. unfold artifact_reasons in Hr.
  repeat (apply elem_of_cons in Hr as [->|Hr]; [vm_compute; reflexivity|]). by apply elem_of_nil in Hr.
Qed.

Lemma compare_digest_fits input r a : decision_fits (compare_digest input r a) = true.
Proof. unfold compare_digest. repeat case_match; vm_compute; reflexivity. Qed.

Lemma missing_expectation_fits input : one_failure input -> decision_fits (missing_expectation input) = true.
Proof.
  unfold one_failure, missing_expectation, hostReason, processReason. intros Hf.
  repeat case_match; destruct Hf as [Hf|Hf]; try discriminate Hf; vm_compute; reflexivity.
Qed.

Lemma Evaluate_fits input :
  registered_error (In_ArtifactError input) -> one_failure input -> decision_fits (Evaluate input) = true.
Proof.
  intros Hr Hf. unfold Evaluate. destruct (In_Expectation input) as [r|]; [|by apply missing_expectation_fits].
  destruct (In_HostError input); [apply host_decision_fits|].
  destruct (In_ProcessError input); [apply process_decision_fits|].
  destruct (In_Candidate input); [|vm_compute; reflexivity].
  destruct (_ && _); [vm_compute; reflexivity|]. destruct (_ && _); [vm_compute; reflexivity|].
  unfold artifact_checks. destruct (In_ArtifactError input); [by apply artifact_decision_fits|].
  destruct (In_Artifact input); [|vm_compute; reflexivity].
  do 3 (destruct (_ && _); [vm_compute; reflexivity|]). apply compare_digest_fits.
Qed.

(** ** Assembled proofs *)

Section Assembled.
Variable u : UnicodeTables.
Variable build_platform : Platform.
Variable pin : ProofInput.
Hypothesis platform_ok_ : platform_fits build_platform = true.
Hypothesis tool_ok_ : tool_fits (PI_Tool pin) = true.
Hypothesis candidate_ok_ : if_present candidate_fits (PI_Candidate pin) = true.
Hypothesis resolved_ok_ : if_present resolved_fits (PI_Expectation pin) = true.
Hypothesis artifact_ok_ : if_present observation_issuable (PI_Artifact pin) = true.
Hypothesis host_ok_ : if_present attribution_fits (PI_Host pin) = true.
Hypothesis decision_ok_ : decision_fits (PI_Decision pin) = true.

Notation p := (assemble u build_platform pin).

Lemma candidate_parts c :
  candidate_fits c = true ->
  platform_fits (Cand_Platform c) = true /\ process_fits (Cand_Process c) = true
  /\ safe_int (PID (Cand_Process c)) = true /\ executable_fits (safe_executable u (Cand_Executable c)) = true
  /\ distinct (Inaccessible c) && forallb name_text (Inaccessible c) = true.
Proof.
  unfold candidate_fits.
  intros [[[[[[H1 H2]%andb_true_iff H3]%andb_true_iff Hbase]%andb_true_iff Hpath]%andb_true_iff Hid]%andb_true_iff H5]%andb_true_iff.
  split; [exact H1|split; [exact H2|split; [exact H3|split; [|exact H5]]]]. unfold executable_fits, safe_executable.
  cbn [Basename PathHash FileIDHash].
  assert (Ht : text 1 255 (safeField u (Basename (Cand_Executable c))) = true).
  { pose proof (safeField_text u _ ltac:(eassumption)) as Ht. unfold text in *. destruct_hyps. to_prop.
    apply andb_true_iff. rewrite !Z.leb_le. lia. }
  rewrite Ht. fields.
Qed.

Lemma resolved_parts r :
  resolved_fits r = true ->
  subject_fits (safeSubject u (Exp_Subject (Res_Value r))) = true
  /\ projection_fits (project_expectation u r) = true.
Proof.
  unfold resolved_fits. intros H. destruct_hyps. split; [by apply safeSubject_fits|].
  unfold projection_fits, project_expectation.
  cbn [SourceKind SourceLocatorHash Proj_Trust ExpectedVersion ExpectedArtifactSHA256].
  rewrite truncated_text; [fields|by apply (text_nonempty 1 128), safeField_text|done].
Qed.

Lemma artifact_parts a :
  observation_issuable a = true ->
  artifact_fits a = true
  /\ safe_int (FileCount a) && safe_int (ByteCount a) && safe_int (DurationMS a) = true
  /\ prefixed_text ("sha256:" +:+ Obs_SHA256 a) = true.
Proof.
  unfold observation_issuable. intros H. destruct_hyps. split; [done|]. split; [fields|]. rewrite prefixed_spec.
  unfold artifact_fits in H. by destruct_hyps.
Qed.

Lemma assembled_subject : subject_fits (Proof_Subject p) = true.
Proof.
  unfold assemble, Project. cbn [Proof_Subject P_Subject].
  destruct (PI_Expectation pin) as [r|]; [by apply resolved_parts|apply inferredSubject_fits].
Qed.

Lemma assembled_observation : observation_fits (Proof_Observation p) = true.
Proof.
  unfold assemble, Project, observation_fits.
  cbn [Proof_Observation P_Observation Obs_Process Obs_Executable Obs_Artifact InaccessibleFields].
  assert (Ha : if_present artifact_fits (PI_Artifact pin) = true)
    by (destruct (PI_Artifact pin); [by apply artifact_parts|done]).
  rewrite Ha. destruct (PI_Candidate pin) as [c|]; [|done]. cbn [option_map if_present].
  destruct (candidate_parts c candidate_ok_) as (_ & -> & _ & -> & ->). done.
Qed.

Lemma assembled_evidence : forallb evidence_fits (Evidence p) = true.
Proof.
  unfold assemble, Project. cbn [Evidence P_Evidence]. rewrite forallb_app. apply andb_true_iff. split.
  - destruct (PI_Candidate pin); [|done]. cbn [forallb]. unfold evidence_fits, or_empty.
    cbn [Ev_Type Ev_Digest]. rewrite hashJSON_fits, orb_true_r. done.
  - destruct (PI_Artifact pin) as [a|]; [|done]. cbn [forallb]. unfold evidence_fits, or_empty.
    cbn [Ev_Type Ev_Digest]. destruct (artifact_parts a artifact_ok_) as (_ & _ & ->). by rewrite orb_true_r.
Qed.

Lemma assembled_privacy : privacy_fits (Proof_Privacy p) = true.
Proof. vm_compute. reflexivity. Qed.

(** What is assembled fits the schema, whatever hash identifies it. *)
Lemma assembled_fits encoded : proof_fits (with_id p (identity_hash encoded)) = true.
Proof.
  unfold decision_fits in decision_ok_. unfold proof_fits, with_id.
  cbn [SchemaVersion ProofID Tool Proof_Platform Proof_Subject Proof_Expectation Proof_Observation
       Proof_HostAttribution Verdict ProofLevel ReasonCodes Evidence Proof_Privacy Limitations].
  rewrite identity_hash_fits, assembled_subject, assembled_observation, assembled_evidence, assembled_privacy.
  assert (Hplat : platform_fits (Proof_Platform p) = true).
  { unfold assemble, Project. cbn [Proof_Platform P_Platform]. destruct (PI_Candidate pin) as [c|]; [|done].
    by apply (candidate_parts c). }
  assert (Hexp : if_present projection_fits (Proof_Expectation p) = true).
  { unfold assemble, Project. cbn [Proof_Expectation P_Expectation].
    destruct (PI_Expectation pin) as [r|]; [|done]. by apply (resolved_parts r). }
  rewrite Hplat, Hexp. unfold assemble.
  cbn [SchemaVersion Tool Proof_HostAttribution Verdict ProofLevel ReasonCodes Limitations].
  rewrite tool_ok_, host_ok_. destruct_hyps.
  repeat match goal with H : _ = true |- _ => rewrite H; clear H end. done.
Qed.

Lemma assembled_safe : proof_safe p = true.
Proof.
  unfold proof_safe, assemble, Project. cbn [Proof_Observation P_Observation Obs_Process Obs_Artifact].
  apply andb_true_iff. split.
  - destruct (PI_Candidate pin) as [c|]; [|done]. by apply (candidate_parts c).
  - destruct (PI_Artifact pin) as [a|]; [|done]. by apply (artifact_parts a).
Qed.

Lemma safe_ints : proof_safe p = true -> observation_ints (Proof_Observation p).
Proof.
  unfold proof_safe. intros [Hp Ha]%andb_true_iff. split.
  - intros q Hq. rewrite Hq in Hp. by apply safe_int64.
  - intros a Hq. rewrite Hq in Ha. cbn [if_present] in Ha. destruct_hyps. unfold artifact_ints.
    auto using safe_int64.
Qed.
End Assembled.

(** An issuable answer is issued. *)
Lemma Build_issued schema_ok u build_platform input pin :
  engine_agrees schema_ok -> platform_fits build_platform = true -> tool_fits (PI_Tool pin) = true ->
  if_present candidate_fits (PI_Candidate pin) = true -> if_present resolved_fits (PI_Expectation pin) = true ->
  if_present observation_issuable (PI_Artifact pin) = true -> if_present attribution_fits (PI_Host pin) = true ->
  from_evaluation input pin -> coherent input -> registered_error (In_ArtifactError input) -> one_failure input ->
  exists p, Build schema_ok u build_platform pin = Ok p.
Proof.
  intros He Hb Ht Hc Hr Ha Hh Hf Hco Hre Hof. apply is_ok_true.
  assert (Hd : decision_fits (PI_Decision pin) = true).
  { destruct Hf as (_ & _ & _ & ->). by apply Evaluate_fits. }
  assert (Hs : proof_safe (assemble u build_platform pin) = true) by by apply assembled_safe.
  pose proof (safe_ints u build_platform pin Hs) as Hi. rewrite Build_spec by done. rewrite Hs. cbn [andb].
  pose proof (Marshal_proof_ok (assemble u build_platform pin) eq_refl Hi) as Hm. rewrite Hs in Hm.
  unfold AssignID. apply is_ok_true in Hm as [encoded ->]. cbn [map_err rbind]. apply andb_true_iff. split.
  - apply proof_utf8. by apply assembled_fits.
  - pose proof (assembled_justified u build_platform input pin (identity_hash encoded) Hf Hco) as Hj.
    destruct (assembled_semantics u build_platform input pin (identity_hash encoded) Hf Hre Hj)
      as (members & Hn & Hv).
    rewrite proof_normal in Hn by done. rewrite Hn. unfold proof_semantics. cbn [as_object map_err rbind].
    by rewrite Hv.
Qed.

(** ** The service *)

Section Yields.
Context {W : Type} (Inv : W -> Prop).

(** From the invariant and back to it, with values in [Q] and errors in [R]. *)
Definition yields {E A} (c : io W E A) (Q : A -> Prop) (R : E -> Prop) : Prop :=
  triple Inv c (fun a w => Q a /\ Inv w) (fun e w => R e /\ Inv w).

(** [c] returns what satisfies [Q], whenever it returns. *)
Definition returns {E A} (c : io W E A) (Q : A -> Prop) : Prop := yields c Q (fun _ => True).

Context {E : Type} {R : E -> Prop}.

Lemma yields_bind {A B} (c : io W E A) (k : A -> io W E B) M Q :
  yields c M R -> (forall a, M a -> yields (k a) Q R) -> yields (bind c k) Q R.
Proof.
  intros Hc Hk. eapply triple_bind; [exact Hc|]. intros a w [Ha Hw]. by apply Hk.
Qed.

Lemma yields_ret {A} (a : A) (Q : A -> Prop) : Q a -> yields (ret a) Q R.
Proof. intros Ha. by apply triple_ret. Qed.

Lemma yields_throw {A} e (Q : A -> Prop) : R e -> yields (throw e) Q R.
Proof. intros He. by apply triple_throw. Qed.

Lemma yields_lift {A} (r : result E A) (Q : A -> Prop) :
  (forall a, r = Ok a -> Q a) -> (forall e, r = Err e -> R e) -> yields (lift r) Q R.
Proof. intros Ha He. apply triple_lift; auto. Qed.

Lemma yields_require {A} (b : bool) e (k : unit -> io W E A) Q :
  (b = false -> R e) -> yields (k tt) Q R -> yields (bind (require b e) k) Q R.
Proof. intros He Hk. apply triple_require; [done|]. intros Hb w Hw. by split; [apply He|]. Qed.

Lemma yields_attempt {F A} (c : io W F A) (Q : A -> Prop) (R' : F -> Prop) :
  yields c Q R' ->
  yields (attempt c) (fun r => match r with Ok a => Q a | Err e => R' e end) R.
Proof. intros Hc w Hw. specialize (Hc w Hw). unfold attempt. by destruct (c w) as [[a|e] w']. Qed.

Lemma yields_wrap {F A} (f : F -> E) (c : io W F A) (Q : A -> Prop) :
  returns c Q -> (forall e, R (f e)) -> yields (wrap_error f c) Q R.
Proof.
  intros Hc Hf. apply triple_wrap. eapply triple_conseq; [exact Hc|done|done|]. intros e w [_ Hw]. by split; [apply Hf|].
Qed.

(** A loop over what fits. *)
Lemma yields_fold {A S} (P : A -> Prop) (I : S -> Prop) (f : S -> A -> io W E S) l s :
  Forall P l -> I s -> (forall s0 x, I s0 -> P x -> yields (f s0 x) I R) -> yields (foldIO f l s) I R.
Proof.
  intros Hl Hs Hf. revert s Hs. induction Hl as [|x l Hx _ IH]; intros s Hs; [by apply yields_ret|].
  eapply yields_bind; [by apply Hf|]. exact IH.
Qed.
End Yields.

Definition true_of {A} (b : A -> bool) : A -> Prop := fun a => b a = true.

(** The numbers of an expectation given as a value are machine integers. *)
Definition expectation_ints (value : Expectation) : Prop :=
  in_int64 (MaxFiles (Artifact value)) /\ in_int64 (MaxBytes (Artifact value)).

(** What the interfaces of a service promise the builder, in the worlds of an
    invariant that all of them keep. *)
Class FittingInterfaces {W} (Inv : W -> Prop) (service : Service W) : Prop := {
  fit_tool : tool_fits (Svc_Tool service) = true;
  fit_now w : Inv w -> Inv (snd (Svc_Now service w));
  fit_context w : Inv w -> Inv (snd (Svc_CtxErr service w));
  fit_snapshot o pid : Svc_Observer service = Some o -> pid <= maxSafeInteger ->
    returns Inv (O_Snapshot o pid) (true_of candidate_fits);
  fit_list o limit : Svc_Observer service = Some o ->
    returns Inv (O_List o limit) (Forall (true_of candidate_fits));
  fit_revalidate o candidate : Svc_Observer service = Some o ->
    returns Inv (O_Revalidate o candidate) (fun _ => True);
  fit_load path : returns Inv (Svc_LoadExpectation service path) (true_of resolved_fits);
  fit_inline value : expectation_ints value ->
    returns Inv (Svc_ResolveInline service value) (true_of resolved_fits);
  fit_digest resolved : resolved_fits resolved = true ->
    yields Inv (Svc_DigestArtifact service resolved) (true_of observation_issuable)
      (fun e => registered_error (Some e));
  fit_binding profiles id : Svc_HostProfiles service = Some profiles -> slen id <= 128 ->
    returns Inv (R_Binding profiles id) (true_of binding_fits)
}.

(** The bindings of a whole host fit if their identifiers are short enough,
    which depends on the names in its files. *)
Definition hosts_fit {W} (Inv : W -> Prop) (service : Service W) : Prop :=
  forall profiles id, Svc_HostProfiles service = Some profiles -> id <> EmptyString ->
    returns Inv (R_Bindings profiles id) (Forall (true_of binding_fits)).

Definition inspect_request_fits {W} (Inv : W -> Prop) (service : Service W) (request : InspectRequest) : Prop :=
  IR_PID request <= maxSafeInteger /\ slen (IR_BindingID request) <= 128
  /\ (IR_HostID request = EmptyString \/ hosts_fit Inv service).

Definition verify_request_fits (request : VerifyRequest) : Prop :=
  VR_PID request <= maxSafeInteger /\ slen (VR_BindingID request) <= 128
  /\ forall value, VR_Expectation request = Some value -> expectation_ints value.

(** Everything but a proof that could not be issued. *)
Definition answered (e : app_error) : Prop := match e with ProofRejected _ => False | _ => True end.

Definition outcome_fits {A} (Q : A -> Prop) (r : result go_error A) : Prop :=
  match r with Ok a => Q a | Err _ => True end.

Section Service.
Context {W : Type} (Inv : W -> Prop).
Variable schema_ok : string -> json -> bool.
Variable u : UnicodeTables.
Variable build_platform : Platform.
Variable service : Service W.
Context {fit : FittingInterfaces Inv service}.
Hypothesis engine : engine_agrees schema_ok.
Hypothesis platform_fit : platform_fits build_platform = true.

(** [c] gives values in [Q] or an error that is an answer. *)
Definition sound {A} (c : io W app_error A) (Q : A -> Prop) : Prop := yields Inv c Q answered.

Lemma sound_context : sound (check_context service) (fun _ => True).
Proof using fit.
  intros w Hw. unfold check_context, ctx_err, bind. pose proof (fit_context w Hw) as Hc.
  destruct (Svc_CtxErr service w) as [b w']. by destruct b.
Qed.

Lemma sound_observer : sound (observer service) (fun o => Svc_Observer service = Some o).
Proof. unfold observer. destruct (Svc_Observer service); [by apply yields_ret|by apply yields_throw]. Qed.

Definition fit_observed (found : observed) : Prop :=
  if_present candidate_fits (fst found) = true /\ (snd found <> None -> fst found = None).

Lemma sound_build input (pin : string -> ProofInput) :
  (forall t, from_evaluation input (pin t)) -> coherent input -> registered_error (In_ArtifactError input) ->
  one_failure input -> (forall t, tool_fits (PI_Tool (pin t)) = true) ->
  if_present candidate_fits (In_Candidate input) = true -> if_present resolved_fits (In_Expectation input) = true ->
  if_present observation_issuable (In_Artifact input) = true ->
  (forall t, if_present attribution_fits (PI_Host (pin t)) = true) ->
  sound (build schema_ok u build_platform service pin) (fun _ => True).
Proof.
  intros Hf Hco Hre Hof Ht Hc Hr Ha Hh. unfold build. apply (yields_bind _ _ _ (fun _ => True)).
  { intros w Hw. unfold now. pose proof (fit_now w Hw). by destruct (Svc_Now service w). }
  intros t _. apply yields_lift; [done|]. intros e He.
  pose proof (Hf t) as (Hpc & Hpe & Hpa & _).
  destruct (Build_issued schema_ok u build_platform input (pin t)) as [p Hp];
    rewrite ?Hpc, ?Hpe, ?Hpa; auto. by rewrite Hp in He.
Qed.

Lemma sound_inspect_proof found host_error host :
  fit_observed found -> (host_error <> None -> fst found = None) ->
  hostReason host_error = EmptyString \/ processReason (snd found) = EmptyString ->
  if_present attribution_fits host = true ->
  sound (inspect_proof schema_ok u build_platform service found host_error host) (fun _ => True).
Proof.
  intros [Hc Hs] He Hof Hh. unfold inspect_proof.
  apply (sound_build (inspect_input found host_error)); try done; [|intros t; apply fit_tool].
  intros Hf. cbn [inspect_input In_HostError In_ProcessError In_Candidate In_Artifact] in *.
  split; [|done]. destruct Hf; auto.
Qed.

Lemma one_error bindingID err :
  hostReason (hostErrorOnly bindingID err) = EmptyString \/ processReason err = EmptyString.
Proof. unfold hostErrorOnly. destruct (_ =s _); [by left|]. destruct err as [[]|]; auto. Qed.

Lemma sound_look_again o candidate :
  candidate_fits candidate = true -> Svc_Observer service = Some o -> sound (look_again o candidate) fit_observed.
Proof.
  intros Hc Ho. unfold look_again. eapply yields_bind; [apply yields_attempt, (fit_revalidate o candidate Ho)|].
  intros [[]|e] _; apply yields_ret; split; cbn [fst snd if_present]; done.
Qed.

Lemma sound_revalidated found :
  outcome_fits (true_of candidate_fits) found -> sound (revalidated service found) fit_observed.
Proof.
  intros Hf. unfold revalidated. destruct found as [c|e]; [|by apply yields_ret].
  eapply yields_bind; [apply sound_observer|intros o Ho]. by apply sound_look_again.
Qed.

Lemma Match_fits b candidates :
  Forall (true_of candidate_fits) candidates -> outcome_fits (true_of candidate_fits) (Match b candidates).
Proof.
  intros Hc. unfold Match. destruct (_ || _); [done|].
  assert (Hf : Forall (true_of candidate_fits) (List.filter (matches b) candidates)).
  { rewrite Forall_forall in *. intros x Hx.
    apply list_elem_of_In, filter_In in Hx as [Hx _]. by apply Hc, list_elem_of_In. }
  destruct (List.filter _ _) as [|c [|? ?]]; try exact I.
  apply Forall_cons in Hf as [Hc' _]. exact Hc'.
Qed.

(** A binding is named in a proof only if it has an identifier. *)
Lemma attributed_fits b : binding_fits b = true -> if_present attribution_fits (attributed (Some b)) = true.
Proof. intros Hb. unfold attributed. by destruct (B_ID b =s EmptyString). Qed.

Definition fit_selection (found : option Binding * result go_error Candidate) : Prop :=
  if_present attribution_fits (attributed (fst found)) = true
  /\ outcome_fits (true_of candidate_fits) (snd found).

Lemma sound_bindingCandidate bindingID :
  slen bindingID <= 128 -> sound (bindingCandidate service bindingID) fit_selection.
Proof.
  intros Hlen. unfold bindingCandidate. destruct (Svc_HostProfiles service) as [profiles|] eqn:Hp; [|by apply yields_ret].
  eapply yields_bind; [apply yields_attempt, (fit_binding profiles _ Hp Hlen)|].
  intros [binding|e] Hb; [|by apply yields_ret].
  eapply yields_bind; [apply sound_observer|intros o Ho].
  eapply yields_bind; [apply yields_attempt, (fit_list o _ Ho)|].
  cbn [outcome_fits] in Hb. apply attributed_fits in Hb. unfold fit_selection.
  intros [candidates|e] Hc; apply yields_ret; cbn [fst snd]; split; try exact Hb; [by apply Match_fits|done].
Qed.

Lemma sound_hostFailureProof e :
  sound (hostFailureProof schema_ok u build_platform service e) (fun _ => True).
Proof.
  unfold hostFailureProof. eapply yields_bind; [|intros p _; by apply yields_ret].
  apply sound_inspect_proof; [done|done|by right|done].
Qed.

Lemma sound_inspect_binding candidates proofs binding :
  Forall (true_of candidate_fits) candidates -> binding_fits binding = true ->
  sound (inspect_binding schema_ok u build_platform service candidates proofs binding) (fun _ => True).
Proof.
  intros Hc Hb. unfold inspect_binding.
  eapply yields_bind; [by apply sound_revalidated, Match_fits|intros found Hf].
  eapply yields_bind; [|intros p _; by apply yields_ret].
  apply sound_inspect_proof; [done| |apply one_error|done]. intros He. by apply Hf, (hostErrorOnly_some _ _ He).
Qed.

Lemma sound_inspectHost hostID limit :
  hosts_fit Inv service -> hostID <> EmptyString -> sound (inspectHost schema_ok u build_platform service hostID limit) (fun _ => True).
Proof.
  intros Hhosts Hid. unfold inspectHost. destruct (Svc_HostProfiles service) as [profiles|] eqn:Hp; [|apply sound_hostFailureProof].
  eapply yields_bind; [apply yields_attempt, (Hhosts profiles _ Hp Hid)|].
  intros [bindings|e] Hb; [|apply sound_hostFailureProof].
  eapply yields_bind; [apply sound_observer|intros o Ho].
  eapply yields_bind; [apply yields_wrap; [apply (fit_list o _ Ho)|done]|].
  intros candidates Hc. apply (yields_fold _ (true_of binding_fits)); [done|done|]. intros proofs b _ Hbf.
  by apply sound_inspect_binding.
Qed.

Lemma sound_Inspect request :
  inspect_request_fits Inv service request -> sound (Inspect schema_ok u build_platform service request) (fun _ => True).
Proof.
  intros (Hpid & Hlen & Hhosts). unfold Inspect. eapply yields_bind; [apply sound_context|intros _ _]. apply yields_require; [done|].
  destruct (Svc_Observer service) as [o|] eqn:Ho; [|by apply yields_throw].
  destruct (0 <? _); [|destruct (negb _); [|destruct (String.eqb_spec (IR_HostID request) EmptyString) as [Hh|Hh]; cbn [negb];
    [|apply sound_inspectHost; by destruct Hhosts]]].
  - unfold inspect_pid. eapply yields_bind; [apply yields_attempt, (fit_snapshot o _ Ho Hpid)|intros s Hs].
    eapply yields_bind; [apply sound_context|intros _ _].
    eapply yields_bind; [by apply sound_revalidated|intros found Hf].
    eapply yields_bind; [|intros p _; by apply yields_ret].
    apply sound_inspect_proof; [done|done|by left|done].
  - unfold inspect_bindingID. eapply yields_bind; [by apply sound_bindingCandidate|intros found [Hb Hc]].
    eapply yields_bind; [by apply sound_revalidated|intros seen Hf].
    eapply yields_bind; [|intros p _; by apply yields_ret].
    apply sound_inspect_proof; [done| |apply one_error|done]. intros He. by apply Hf, (hostErrorOnly_some _ _ He).
  - eapply yields_bind; [apply yields_attempt, (fit_list o _ Ho)|].
    intros [candidates|e] Hc.
    + apply (yields_fold _ (true_of candidate_fits)); [done|done|]. intros proofs c _ Hcf. unfold inspect_candidate.
      eapply yields_bind; [apply sound_context|intros _ _].
      eapply yields_bind; [by apply sound_look_again|intros found Hf].
      eapply yields_bind; [|intros p _; by apply yields_ret].
      apply sound_inspect_proof; [done|done|by left|done].
    + eapply yields_bind; [apply sound_context|intros _ _]. by apply yields_throw.
Qed.

Definition fit_record (e : evidence_record) : Prop :=
  if_present candidate_fits (E_Candidate e) = true /\ if_present observation_issuable (E_Artifact e) = true
  /\ registered_error (E_ArtifactError e)
  /\ (E_ProcessError e <> None -> E_Candidate e = None /\ E_Artifact e = None).

Lemma sound_gather resolved selected :
  resolved_fits resolved = true -> outcome_fits (true_of candidate_fits) selected ->
  sound (gather service resolved selected) fit_record.
Proof.
  intros Hr Hs. unfold gather. destruct selected as [candidate|e]; [|by apply yields_ret].
  eapply yields_bind; [by apply yields_attempt, fit_digest|].
  intros digested Hd. eapply yields_bind; [apply sound_observer|intros o Ho].
  eapply yields_bind; [apply yields_attempt, (fit_revalidate o candidate Ho)|].
  intros [[]|e] _; apply yields_ret; [|by repeat split].
  split; [exact Hs|]. cbn [E_Artifact E_ArtifactError E_ProcessError]. destruct digested as [a|e].
  - split; [exact Hd|]. split; [exact I|]. by intros [].
  - split; [reflexivity|]. split; [exact Hd|]. by intros [].
Qed.

Lemma sound_Verify request :
  verify_request_fits request -> sound (Verify schema_ok u build_platform service request) (fun _ => True).
Proof.
  intros (Hpid & Hlen & Hints). unfold Verify. eapply yields_bind; [apply sound_context|intros _ _]. apply yields_require; [done|].
  apply (yields_bind _ _ _ (true_of resolved_fits)).
  { unfold resolve_expectation. destruct (VR_Expectation request) as [value|] eqn:Hv.
    - apply yields_wrap; [|done]. by apply fit_inline, Hints.
    - apply yields_wrap; [|done]. apply fit_load. }
  intros resolved Hr. apply (yields_bind _ _ _ fit_selection).
  { unfold select_process. destruct (negb _); [by apply sound_bindingCandidate|].
    eapply yields_bind; [apply sound_observer|intros o Ho].
    eapply yields_bind; [apply yields_attempt, (fit_snapshot o _ Ho Hpid)|intros s Hs]. by apply yields_ret. }
  intros selected [Hb Hc]. eapply yields_bind; [apply sound_context|intros _ _].
  eapply yields_bind; [by apply sound_gather|intros e (Hec & Hea & Her & Hex)].
  eapply yields_bind; [apply sound_context|intros _ _].
  apply (sound_build (verify_input request resolved e)); try done; try apply one_error.
  - intros [H%hostErrorOnly_some|H]; by apply Hex.
  - intros t. apply fit_tool.
Qed.
End Service.

(** The service always has an answer: with interfaces that return what fits
    the schemas (in the worlds of some invariant they keep), and an engine that
    interprets the two schemas of the answers as the standard says, no
    inspection and no verification ever ends because the proof it assembled is
    refused by its own builder, and they keep the invariant. *)
Theorem requests_answered {W} (Inv : W -> Prop) schema_ok u build_platform (service : Service W)
  `{!FittingInterfaces Inv service} :
  engine_agrees schema_ok -> platform_fits build_platform = true ->
  (forall request, inspect_request_fits Inv service request ->
     yields Inv (Inspect schema_ok u build_platform service request) (fun _ => True) answered)
  /\ (forall request, verify_request_fits request ->
     yields Inv (Verify schema_ok u build_platform service request) (fun _ => True) answered).
Proof.
  intros He Hp. split; intros request Hr.
  - by apply sound_Inspect.
  - by apply sound_Verify.
Qed.
