(* ===== verification/Accepted.v ===== *)
(** * Expectations the schema accepts

    An expectation that was loaded, or given as a value, has passed the
    expectation schema; so the fields that end up in a proof are what the proof
    schema asks for ([resolved_fits]). *)

From S2P Require Import Prelude GoStrings GoPath GoRegexp Model GoJson Canonical Contract RoundTrip Wire Protected Expectation HostParse World HostDiscovery Privacy JsonSchema Embedded Schemas Conformance Issue Answers.

(** ** Reading a schema on a value that is not known *)

Lemma same_subject_refl resolve budget x : same_subject resolve budget x x.
Proof.
  repeat split.
  - induction (Members x); constructor; [done|assumption].
  - induction (Elements x); constructor; [done|assumption].
Qed.

Lemma embedded_shallow url s :
  resolve_in embedded_schemas url = Some s -> grounded (resolve_in embedded_schemas) 39 s = true.
Proof.
  assert (H : forallb (fun kv => grounded (resolve_in embedded_schemas) 39 (snd kv)) embedded_schemas = true)
    by (vm_compute; reflexivity).
  rewrite forallb_forall in H. unfold resolve_in at 1. destruct (find _ _) as [kv|] eqn:Hf; [|done].
  intros [= <-]. apply find_some in Hf as [Hin _]. exact (H kv Hin).
Qed.

Lemma ok_ref v url s : resolve_in embedded_schemas url = Some s -> ok v (Ref url) = ok v s.
Proof.
  intros Hr. pose proof (schemas_grounded_resolve _ _ _ embedded_schemas_grounded Hr) as [_ Hh].
  pose proof (embedded_shallow url s Hr) as Hg.
  assert (H : forall x, check (resolve_in embedded_schemas) standard_budget (Ref url) x
                        = check (resolve_in embedded_schemas) standard_budget s x).
  { intros x. change (check (resolve_in embedded_schemas) standard_budget (Ref url) x)
      with (match resolve_in embedded_schemas url with
            | Some s' => check (resolve_in embedded_schemas) 39 s' x | None => false end).
    rewrite Hr. apply (check_budget (resolve_in embedded_schemas) standard_budget) with (n := 39%nat);
      try assumption; [|unfold standard_budget; lia|unfold standard_budget; lia|apply same_subject_refl].
    intros url' s' Hr'. by apply (schemas_grounded_resolve _ _ _ embedded_schemas_grounded Hr'). }
  destruct v; apply H.
Qed.

(** The conjuncts of a schema. *)
Fixpoint parts (s : schema) : list schema :=
  match s with Both a b => parts a ++ parts b | _ => [s] end.

Lemma ok_parts v s : ok v s = forallb (ok v) (parts s).
Proof.
  induction s; cbn [parts forallb]; rewrite ?andb_true_r; try reflexivity.
  by rewrite ok_both, forallb_app, IHs1, IHs2.
Qed.

Definition is_object (s : schema) : bool :=
  existsb (fun p => match p with Type_ [TypeObject] => true | _ => false end) (parts s).
Definition demands (s : schema) (k : string) : bool :=
  existsb (fun p => match p with Required names => contains names k | _ => false end) (parts s).
Fixpoint first_property (k : string) (l : list schema) : option schema :=
  match l with
  | [] => None
  | Property name s :: r => if name =s k then Some s else first_property k r
  | _ :: r => first_property k r
  end.

Lemma part_ok v s p : ok v s = true -> In p (parts s) -> ok v p = true.
Proof. rewrite ok_parts, forallb_forall. auto. Qed.

Lemma object_accepted v s : ok v s = true -> is_object s = true -> exists m, v = JObject m.
Proof.
  unfold is_object. intros Hv (p & Hin & Hp)%existsb_exists. apply (part_ok v s p Hv) in Hin.
  destruct p as [| | | |[|[] []]| | | | | | | | | | | | | | | |]; try done. destruct v; try done. by eexists.
Qed.

Lemma first_property_in k l s : first_property k l = Some s -> In (Property k s) l.
Proof.
  induction l as [|p l IH]; [done|]. cbn [first_property]. intros H.
  destruct p; try (right; by apply IH).
  destruct (String.eqb_spec name k) as [->|]; [injection H as ->; by left|right; by apply IH].
Qed.

Lemma get_in_accepted m k s :
  forallb (fun kv => negb (fst kv =s k) || ok (snd kv) s) m = true ->
  existsb (fun kv => fst kv =s k) m = true -> ok (get m k) s = true.
Proof.
  unfold get. induction m as [|[k' v] m IH]; [done|]. cbn [forallb existsb get_in fst snd].
  destruct (k' =s k); cbn [negb orb]; [by intros [H _]%andb_true_iff|exact IH].
Qed.

(** A required member has the schema of its property. *)
Lemma member_accepted m s k s' :
  ok (JObject m) s = true -> demands s k = true -> first_property k (parts s) = Some s' ->
  ok (get m k) s' = true.
Proof.
  unfold demands. intros Hv (p & Hin & Hp)%existsb_exists Hf%first_property_in.
  apply (part_ok _ _ _ Hv) in Hin. apply (part_ok _ _ _ Hv) in Hf. apply get_in_accepted.
  - assert (E : ok (JObject m) (Property k s') = forallb (fun kv => negb (fst kv =s k) || ok (snd kv) s') m).
    { unfold ok. cbn [valid check standard_budget Members]. clear.
      induction m as [|kv m IH]; [done|]. cbn [map forallb fst snd]. by rewrite IH. }
    by rewrite <- E.
  - destruct p; try done. assert (H : forallb (fun k' => existsb (fun kv => fst kv =s k') m) names = true) by exact Hin.
    rewrite forallb_forall in H. apply H. unfold contains in Hp. apply existsb_exists in Hp as (x & Hx & ->%String.eqb_eq).
    exact Hx.
Qed.

(** ** The leaves *)

Lemma text_accepted v n :
  ok v (Both (Both (Type_ [TypeString]) (MinLength 1)) (MaxLength n)) = true ->
  exists s, v = JString s /\ nonempty s = true.
Proof.
  rewrite !ok_both. intros [[Ht Hl]%andb_true_iff _]%andb_true_iff. destruct v as [| | |s| |]; try done.
  exists s. split; [done|]. unfold nonempty. by destruct s.
Qed.

Lemma pattern_accepted v p :
  ok v (Both (Type_ [TypeString]) (Pattern p)) = true -> exists s, v = JString s /\ MatchString p s = true.
Proof.
  rewrite ok_both. intros [Ht Hp]%andb_true_iff. destruct v as [| | |s| |]; try done. exists s. by split.
Qed.

Lemma enumerated_accepted v values :
  ok v (Enum (map JString values)) = true -> exists s, v = JString s /\ one_of values s = true.
Proof.
  intros H. destruct v as [|truth|number|s|l|m].
  4: { rewrite ok_enum in H. by exists s. }
  all: exfalso; revert H; unfold ok; cbn [valid check standard_budget leaf Value]; rewrite existsb_map;
    induction values as [|x r IH]; [done|]; cbn [existsb same_value orb]; exact IH.
Qed.

Definition integer_schema (least most : Z) : schema :=
  Both (Both (Type_ [TypeInteger]) (Minimum least)) (Maximum most).

Lemma integer_accepted v least most :
  ok v (integer_schema least most) = true ->
  exists t, v = JNumber t /\ at_least (decimal_of t) least = true /\ at_most (decimal_of t) most = true.
Proof.
  unfold integer_schema. rewrite !ok_both. intros [[Ht Hl]%andb_true_iff Hm]%andb_true_iff. destruct v as [| |t| | |]; try done.
  by exists t.
Qed.

Lemma parse_digits_digits s acc v : parse_digits s acc = Some v -> sforall is_digit s = true.
Proof.
  revert acc. induction s as [|c s IH]; intros acc; [done|]. cbn [parse_digits]. rewrite sforall_cons.
  destruct (is_digit c); [apply IH|done].
Qed.

(** The bounds of the schema hold of the integer the decoder reads. *)
Lemma integer_read t n least most :
  ParseInt t = Some n -> 1 <= least -> at_least (decimal_of t) least = true -> at_most (decimal_of t) most = true ->
  between least most n = true.
Proof.
  unfold ParseInt. intros Hp Hl. set (in64 := fun v => if (int64_min <=? v) && (v <=? int64_max) then Some v else None) in Hp.
  assert (H64 : forall v, in64 v = Some n -> v = n).
  { unfold in64. intros v. destruct (_ && _); congruence. }
  assert (Hdec : forall d, d = Dec10 n 0 -> at_least d least = true -> at_most d most = true -> between least most n = true).
  { intros d ->. unfold at_least, at_most, between. cbn [Mantissa Exponent Z.leb Z.compare]. rewrite Z.mul_1_r.
    by intros -> ->. }
  destruct t as [|c t]; [done|].
  destruct (Ascii.eqb_spec c "-") as [->|Hm]; [|destruct (Ascii.eqb_spec c "+") as [->|Hplus]]; cbn [orb] in Hp.
  - destruct t as [|d t]; [done|]. destruct (parse_digits (String d t) 0) as [v|] eqn:E; [|done].
    apply H64 in Hp. apply Hdec. rewrite (proj2 (decimal_digits _ _ (parse_digits_digits _ _ _ E) E ltac:(done))).
    by f_equal.
  - intros Ha. exfalso. assert (Hd : decimal_of (String "+" t) = Dec10 0 0) by by destruct t. rewrite Hd in Ha.
    unfold at_least in Ha. cbn [Mantissa Exponent Z.leb Z.compare] in Ha. rewrite Z.mul_0_l in Ha. apply Z.leb_le in Ha. lia.
  - destruct (parse_digits (String c t) 0) as [v|] eqn:E; [|done].
    apply H64 in Hp. apply Hdec. rewrite (proj1 (decimal_digits _ _ (parse_digits_digits _ _ _ E) E ltac:(done))).
    by f_equal.
Qed.

(** ** What an accepted expectation says *)

Definition text_member (m : list (string * json)) (k : string) (P : string -> bool) : Prop :=
  exists s, get m k = JString s /\ P s = true.
Definition integer_member (m : list (string * json)) (k : string) (least most : Z) : Prop :=
  exists t, get m k = JNumber t /\ at_least (decimal_of t) least = true /\ at_most (decimal_of t) most = true.

Definition accepted_expectation (v : json) : Prop :=
  exists m subject artifact source,
    v = JObject m /\ get m "subject" = JObject subject /\ get m "artifact" = JObject artifact
    /\ get m "source" = JObject source
    /\ text_member subject "display_name" nonempty /\ text_member subject "version" nonempty
    /\ text_member artifact "sha256" sha256_text
    /\ integer_member artifact "max_files" 1 1000000 /\ integer_member artifact "max_bytes" 1 1099511627776
    /\ text_member source "kind" (one_of source_kinds) /\ text_member source "locator_hash" sha256_text
    /\ text_member source "trust" (one_of trusts).

Definition expectation_at (definition : string) : schema :=
  match resolve_in embedded_schemas (url expectation_schema definition) with Some s => s | None => Never end.

Lemma expectation_ref v definition :
  is_object (expectation_at definition) || (definition =s "sha256") = true ->
  ok v (Ref (url expectation_schema definition)) = ok v (expectation_at definition).
Proof.
  unfold expectation_at. destruct (resolve_in _ _) as [s|] eqn:E; intros H; [by apply ok_ref|].
  destruct (String.eqb_spec definition "sha256") as [->|]; [vm_compute in E; discriminate E|discriminate H].
Qed.

(** A member with a definition of its own that is an object. *)
Lemma object_member m s k :
  ok (JObject m) s = true -> demands s k = true ->
  first_property k (parts s) = Some (Ref (url expectation_schema k)) ->
  is_object (expectation_at k) = true ->
  exists m', get m k = JObject m' /\ ok (JObject m') (expectation_at k) = true.
Proof.
  intros Hm Hd Hf Ho. pose proof (member_accepted m s k _ Hm Hd Hf) as Hk.
  rewrite expectation_ref in Hk by by rewrite Ho. destruct (object_accepted _ _ Hk Ho) as [m' E].
  exists m'. split; [exact E|]. by rewrite E in Hk.
Qed.

Section Members.
Variable m : list (string * json).
Variable s : schema.
Hypothesis Hm : ok (JObject m) s = true.

Lemma text_of_member k n :
  demands s k = true ->
  first_property k (parts s) = Some (Both (Both (Type_ [TypeString]) (MinLength 1)) (MaxLength n)) ->
  text_member m k nonempty.
Proof. intros Hd Hf. by apply (text_accepted _ n), (member_accepted m s). Qed.

Lemma sha256_of_member k :
  demands s k = true -> first_property k (parts s) = Some (Ref (url expectation_schema "sha256")) ->
  text_member m k sha256_text.
Proof.
  intros Hd Hf. apply pattern_accepted. pose proof (member_accepted m s k _ Hm Hd Hf) as H.
  rewrite expectation_ref in H by by rewrite orb_true_r. exact H.
Qed.

Lemma choice_of_member k values :
  demands s k = true -> first_property k (parts s) = Some (Enum (map JString values)) ->
  text_member m k (one_of values).
Proof. intros Hd Hf. by apply enumerated_accepted, (member_accepted m s). Qed.

Lemma integer_of_member k least most :
  demands s k = true -> first_property k (parts s) = Some (integer_schema least most) ->
  integer_member m k least most.
Proof. intros Hd Hf. by apply integer_accepted, (member_accepted m s). Qed.
End Members.

(** What the expectation schema says of a document, as far as proofs quote it. *)
Lemma expectation_accepted v :
  standard_schema_ok expectation_schema v = true -> accepted_expectation v.
Proof.
  change (standard_schema_ok expectation_schema v) with (ok v (Ref (url expectation_schema EmptyString))).
  rewrite expectation_ref by (vm_compute; reflexivity). intros Hv.
  destruct (object_accepted _ _ Hv ltac:(vm_compute; reflexivity)) as [m ->].
  destruct (object_member m _ "subject" Hv) as (ms & Hs & Hsok); [vm_compute; reflexivity..|].
  destruct (object_member m _ "artifact" Hv) as (ma & Ha & Haok); [vm_compute; reflexivity..|].
  destruct (object_member m _ "source" Hv) as (mo & Ho & Hook); [vm_compute; reflexivity..|].
  exists m, ms, ma, mo. do 4 (split; [done|]).
  split; [eapply (text_of_member ms _ Hsok); vm_compute; reflexivity|].
  split; [eapply (text_of_member ms _ Hsok); vm_compute; reflexivity|].
  split; [eapply (sha256_of_member ma _ Haok); vm_compute; reflexivity|].
  split; [eapply (integer_of_member ma _ Haok); vm_compute; reflexivity|].
  split; [eapply (integer_of_member ma _ Haok); vm_compute; reflexivity|].
  split; [eapply (choice_of_member mo _ Hook); vm_compute; reflexivity|].
  split; [eapply (sha256_of_member mo _ Hook); vm_compute; reflexivity|].
  eapply (choice_of_member mo _ Hook); vm_compute; reflexivity.
Qed.

(** ** Loaded expectations *)

Lemma get_string_member m k P s : get_string m k = Ok s -> text_member m k P -> P s = true.
Proof. intros Hg (s' & E & HP). unfold get_string in Hg. rewrite E in Hg. by injection Hg as <-. Qed.

Lemma get_int_member m k least most n :
  get_int m k = Ok n -> 1 <= least -> integer_member m k least most -> between least most n = true.
Proof.
  intros Hg Hl (t & E & Ha & Hb). unfold get_int in Hg. rewrite E in Hg.
  destruct (ParseInt t) as [n'|] eqn:Hp; [|done]. injection Hg as <-. by eapply integer_read.
Qed.

Lemma struct_of_object {A} known (f : list (string * json) -> result wire_error A) m a :
  struct_of known f (JObject m) = Ok a -> f m = Ok a.
Proof. cbn [struct_of]. intros (x & _ & H)%rbind_ok. exact H. Qed.

Ltac read_fields H :=
  repeat (let x := fresh "x" in let E := fresh "E" in apply rbind_ok in H as (x & E & H)); injection H as <-.

Ltac split_fit :=
  repeat lazymatch goal with
         | |- between _ _ _ = true => fail
         | |- _ && _ = true => apply andb_true_iff; split
         end.

Lemma decoded_fits v e r :
  accepted_expectation v -> Expectation_of v = Ok e -> Res_Value r = e -> resolved_fits r = true.
Proof.
  intros (m & ms & ma & mo & -> & Hs & Ha & Ho & Hd & Hv & Hh & Hf & Hb & Hk & Hl & Ht) He Hr.
  apply struct_of_object in He. read_fields He. unfold resolved_fits. rewrite Hr.
  cbn [Exp_Subject Source Artifact].
  repeat match goal with
         | E : Subject_of _ = Ok _ |- _ => rewrite Hs in E; apply struct_of_object in E; read_fields E
         | E : ArtifactExpectation_of _ = Ok _ |- _ => rewrite Ha in E; apply struct_of_object in E; read_fields E
         | E : ExpectationSource_of _ = Ok _ |- _ => rewrite Ho in E; apply struct_of_object in E; read_fields E
         end.
  split_fit;
    cbn [DisplayName Subj_Version Source_Kind LocatorHash Trust Art_SHA256 MaxFiles MaxBytes];
    first [eapply get_string_member; eassumption | eapply get_int_member; [eassumption|lia|eassumption]].
Qed.

(** ** Expectations given as values *)

Definition utf8_members (e : Expectation) : list (string * json) :=
  [("root", JString (utf8 (Root (Artifact e)))); ("include", strs (map utf8 (Include (Artifact e))));
   ("exclude", strs (map utf8 (Exclude (Artifact e)))); ("sha256", JString (utf8 (Art_SHA256 (Artifact e))));
   ("max_files", ints (MaxFiles (Artifact e))); ("max_bytes", ints (MaxBytes (Artifact e)));
   ("max_duration_ms", ints (MaxDurationMS (Artifact e)))].

Lemma artifact_expectation_normal e :
  normalize (ArtifactExpectation_json (Artifact e)) = JObject (utf8_members e).
Proof. unfold ArtifactExpectation_json. struct_normal. reflexivity. Qed.

Definition utf8_source (s : ExpectationSource) : ExpectationSource :=
  {| Source_Kind := utf8 (Source_Kind s); LocatorHash := utf8 (LocatorHash s); Trust := utf8 (Trust s) |}.

Lemma source_normal s : normalize (ExpectationSource_json s) = ExpectationSource_json (utf8_source s).
Proof. unfold ExpectationSource_json. struct_normal. reflexivity. Qed.

(** The members of the encoded expectation that a proof quotes. *)
Lemma expectation_normal e :
  exists m, normalize (Expectation_json e) = JObject m
  /\ get m "subject" = Subject_json (utf8_subject (Exp_Subject e))
  /\ get m "artifact" = JObject (utf8_members e)
  /\ get m "source" = ExpectationSource_json (utf8_source (Source e)).
Proof.
  unfold Expectation_json, extensions_json.
  destruct (Exp_Extensions e) as [|x l]; cbn [app]; eexists; (split; [struct_normal; reflexivity|]);
    unfold get; cbn [get_in String.eqb]; rewrite subject_normal, artifact_expectation_normal, source_normal; by repeat split.
Qed.

(** A rune below 128 is read from that byte alone. *)
Lemma utf8_of_ascii s t : is_ascii t = true -> utf8 s = t -> s = t.
Proof.
  intros Ht Hu. assert (Hr : runes s = byte_runes t) by (rewrite <- runes_utf8, Hu; by apply runes_of_ascii).
  clear Hu. revert t Ht Hr. induction s as [|c s IH]; intros t Ht Hr.
  - destruct t; [done|]. discriminate Hr.
  - destruct (Z.ltb_spec (byte_val c) 128) as [Hc|Hc].
    + rewrite runes_low in Hr by done. destruct t as [|d t]; [discriminate Hr|].
      unfold is_ascii in Ht. rewrite sforall_cons in Ht. apply andb_true_iff in Ht as [Hd Ht].
      cbn [byte_runes] in Hr. injection Hr as Hcd Hr. f_equal; [by apply byte_val_inj|by apply IH].
    + exfalso. pose proof (DecodeRune_high c s Hc) as Hh. rewrite runes_cons in Hr by done.
      revert Hh Hr. generalize (fst (DecodeRune (String c s))). intros r Hh Hr.
      destruct t as [|d t]; [discriminate Hr|]. cbn [byte_runes] in Hr. injection Hr as Hcd _.
      unfold is_ascii in Ht. rewrite sforall_cons in Ht. apply andb_true_iff in Ht as [Hd _]. apply Z.ltb_lt in Hd. lia.
Qed.

Lemma one_of_of_utf8 l s : forallb is_ascii l = true -> one_of l (utf8 s) = true -> one_of l s = true.
Proof.
  unfold one_of, contains. rewrite forallb_forall. intros Hl (x & Hin & Hx%String.eqb_eq)%existsb_exists.
  apply existsb_exists. exists x. split; [done|].
  rewrite (utf8_of_ascii s x) by auto. apply String.eqb_refl.
Qed.

Lemma text_member_of m k P s : get m k = JString s -> text_member m k P -> P s = true.
Proof. intros E (s' & E' & HP). rewrite E in E'. by injection E' as <-. Qed.

Lemma integer_member_of m k least most n :
  get m k = ints n -> in_int64 n -> integer_member m k least most -> between least most n = true.
Proof.
  intros E Hn (t & E' & Ha & Hb). rewrite E in E'. injection E' as <-.
  rewrite int_at_least in Ha by done. rewrite int_at_most in Hb by done. unfold between. by rewrite Ha, Hb.
Qed.

Lemma nonempty_utf8 s : nonempty (utf8 s) = true -> nonempty s = true.
Proof. unfold nonempty. intros H. destruct s; [exact H|done]. Qed.

Lemma inline_fits e r :
  accepted_expectation (normalize (Expectation_json e)) -> expectation_ints e -> Res_Value r = e ->
  resolved_fits r = true.
Proof.
  intros (m & ms & ma & mo & Em & Hs & Ha & Ho & Hd & Hv & Hh & Hf & Hb & Hk & Hl & Ht) [Hif Hib] Hr.
  destruct (expectation_normal e) as (m' & Em' & Hs' & Ha' & Ho'). rewrite Em in Em'. injection Em' as <-.
  rewrite Hs in Hs'. rewrite Ha in Ha'. rewrite Ho in Ho'.
  injection Hs' as ->. injection Ha' as ->. injection Ho' as ->. unfold resolved_fits. rewrite Hr.
  split_fit.
  - apply nonempty_utf8. eapply text_member_of; [|exact Hd]. reflexivity.
  - apply nonempty_utf8. eapply text_member_of; [|exact Hv]. reflexivity.
  - apply one_of_of_utf8; [done|]. eapply text_member_of; [|exact Hk]. reflexivity.
  - unfold sha256_text. rewrite <- match_utf8. eapply (text_member_of _ _ sha256_text); [|exact Hl]. reflexivity.
  - apply one_of_of_utf8; [done|]. eapply text_member_of; [|exact Ht]. reflexivity.
  - unfold sha256_text. rewrite <- match_utf8. eapply (text_member_of _ _ sha256_text); [|exact Hh]. reflexivity.
  - eapply integer_member_of; [|exact Hif|exact Hf]. reflexivity.
  - eapply integer_member_of; [|exact Hib|exact Hb]. reflexivity.
Qed.

(** ** The loader *)

Section Loader.
Variable schema_ok : string -> json -> bool.
Hypothesis engine : engine_agrees schema_ok.
Variable os : PathOS.

Lemma engine_accepted v : schema_ok expectation_schema v = true -> accepted_expectation v.
Proof. rewrite engine by done. apply expectation_accepted. Qed.

Lemma Load_fits path r : Load schema_ok os path = Ok r -> resolved_fits r = true.
Proof.
  unfold Load. intros (manifest & _ & (document & _ & H)%rbind_ok)%rbind_ok.
  apply rbind_ok in H as (x & Hv%map_err_ok & H). apply rbind_ok in H as (tree & Hd%map_err_ok & H).
  apply rbind_ok in H as (value & He%map_err_ok & H). apply rbind_ok in H as (y & _ & H).
  apply resolve_value in H. eapply decoded_fits; [|exact He|exact H]. apply engine_accepted.
  unfold ValidateExpectation, validate, validateValue, validate_schema in Hv. rewrite Hd in Hv.
  cbn [map_err rbind] in Hv. by destruct (schema_ok expectation_schema tree).
Qed.

Lemma ResolveInline_fits value r :
  expectation_ints value -> ResolveInline schema_ok os value = Ok r -> resolved_fits r = true.
Proof.
  intros Hi. unfold ResolveInline. intros (x & Hv%map_err_ok & H)%rbind_ok.
  apply rbind_ok in H as (y & _ & H). apply rbind_ok in H as (? & _ & H). apply rbind_ok in H as (? & _ & H).
  apply resolve_value in H. eapply inline_fits; [|exact Hi|exact H]. apply engine_accepted.
  unfold ValidateExpectation_tree, validate_schema in Hv. by destruct (schema_ok expectation_schema _).
Qed.
End Loader.

(** ** The hosts of the catalogue *)

Definition host_text : string -> bool := MatchString "^[a-z0-9][a-z0-9-]{0,63}$".

Lemma profile_accepted v :
  standard_schema_ok host_profile_schema v = true -> exists m, v = JObject m /\ text_member m "host_id" host_text.
Proof.
  change (standard_schema_ok host_profile_schema v) with (ok v (Ref (url host_profile_schema EmptyString))).
  destruct (resolve_in embedded_schemas (url host_profile_schema EmptyString)) as [s|] eqn:E; [|vm_compute in E; discriminate E].
  rewrite (ok_ref _ _ s E). vm_compute in E. injection E as <-. intros Hv.
  destruct (object_accepted _ _ Hv ltac:(vm_compute; reflexivity)) as [m ->]. exists m. split; [done|].
  apply pattern_accepted. eapply (member_accepted m _ "host_id" _ Hv); vm_compute; reflexivity.
Qed.

(** A host identifier is one of the proof schema, and leaves room for more. *)
Lemma host_text_id s : host_text s = true -> sforall id_byte s = true /\ exists c t, s = String c t /\ alnum_byte c = true.
Proof.
  unfold host_text. erewrite (MatchString_label _ _ _ 63) by (vm_compute; reflexivity).
  destruct s as [|c t]; [done|]. intros [[Hc Ht]%andb_true_iff _]%andb_true_iff.
  assert (Ha : alnum_byte c = true) by (revert c Hc; byte_implies).
  split; [|by exists c, t]. rewrite sforall_cons. apply andb_true_iff. split.
  - unfold alnum_byte in Ha. unfold id_byte, id_char. by rewrite Ha.
  - revert Ht. apply sforall_impl. byte_implies.
Qed.

Section Catalog.
Variable schema_ok : string -> json -> bool.
Hypothesis engine : engine_agrees schema_ok.
Variable u : UnicodeTables.
Variable embedded : list string.
Variable goos : string.

Lemma decodeProfile_host document profile :
  decodeProfile schema_ok document = Ok profile -> host_text (Prof_HostID profile) = true.
Proof.
  unfold decodeProfile. intros H. apply rbind_ok in H as (x & Hv%map_err_ok & H).
  apply rbind_ok in H as (v & Hd%map_err_ok & H). apply rbind_ok in H as (p & Hp%map_err_ok & H).
  apply rbind_ok in H as (? & _ & H). injection H as ->.
  unfold ValidateHostProfile, validate, validateValue, validate_schema in Hv. rewrite Hd in Hv. cbn [map_err rbind] in Hv.
  assert (Hok : standard_schema_ok host_profile_schema v = true).
  { rewrite <- engine by done. by destruct (schema_ok host_profile_schema v). }
  apply profile_accepted in Hok as (m & -> & Hm). cbn [Profile_of loose_of] in Hp.
  read_fields Hp. cbn [Prof_HostID]. by eapply get_string_member.
Qed.

Lemma catalog_hosts catalog :
  LoadEmbeddedCatalog schema_ok embedded = Ok catalog -> Forall (fun kv => host_text (fst kv) = true) catalog.
Proof.
  unfold LoadEmbeddedCatalog. intros H. inv_ok. subst.
  eapply (foldM_inv (Forall (fun kv => host_text (fst kv) = true))); [constructor| |exact Hx].
  intros c document c' _ Hc Hadd. unfold add_profile in Hadd. inv_ok. subst c'.
  apply Forall_app. split; [done|]. constructor; [|done]. cbn [fst]. by eapply decodeProfile_host.
Qed.

Lemma plan_host request planned :
  plan u schema_ok embedded goos request = Ok planned -> host_text (Req_HostID request) = true.
Proof.
  unfold plan. intros H. apply rbind_ok in H as (catalog & Hc%map_err_ok%catalog_hosts & H).
  unfold Host in H. destruct (assoc catalog (Req_HostID request)) as [profile|] eqn:Hh; [|done].
  apply assoc_elem in Hh. rewrite Forall_forall in Hc. by apply Hc in Hh.
Qed.
End Catalog.
