(* ===== verification/Doctor.v ===== *)
(** * The self-check ([internal/app/doctor.go])

    [Doctor] reports what the installation can do: whether a host profile
    resolves, whether the embedded contracts accept a known good expectation,
    and whether the program can observe its own process. *)

From S2P Require Import Prelude GoStrings Model GoJson Contract Wire Process HostBinding World App.

Record DoctorCheck := { Check_Name : string; Check_Status : string; Detail : string }.

Record DoctorResult := {
  Doc_Status : string;
  Doc_Platform : Platform;
  Checks : list DoctorCheck;
  Capabilities : list string;
  Doc_Limitations : list string
}.

Definition DoctorCheck_json (c : DoctorCheck) : json :=
  JObject [("name", JString (Check_Name c)); ("status", JString (Check_Status c));
           ("detail", JString (Detail c))].

Definition DoctorResult_json (r : DoctorResult) : json :=
  JObject [("status", JString (Doc_Status r)); ("platform", Platform_json (Doc_Platform r));
           ("checks", JArray (map DoctorCheck_json (Checks r)));
           ("capabilities", JArray (map JString (Capabilities r)));
           ("limitations", JArray (map JString (Doc_Limitations r)))].

(** A line of JSON, written with single quotes. *)
Definition json_line (text : string) : string := ReplaceAll text "'" (byte_string 34) +:+ byte_string 10.

(** [strings.ReplaceAll(..., "DIGEST", strings.Repeat("0", 64))]. *)
Definition doctorExpectation : string :=
  ReplaceAll (TrimSuffix (concat_str (map json_line
    ["{";
     "  'schema_version':'agent-runtime-expectation/1.0',";
     "  'subject':{'id':'doctor','display_name':'Doctor','version':'1'},";
     "  'launch':{'kind':'native','entrypoint':'runtime','argument_fingerprints':[]},";
     "  'artifact':{'root':'runtime','include':['runtime'],'exclude':[],'sha256':'DIGEST','max_files':1,'max_bytes':1,'max_duration_ms':1},";
     "  'policy':{'allowed_roots':['runtime'],'allow_symlinks':false},";
     "  'source':{'kind':'user-file','locator_hash':'DIGEST','trust':'declared'}";
     "}"])) (byte_string 10))
    "DIGEST" "0000000000000000000000000000000000000000000000000000000000000000".

#[global] Opaque doctorExpectation.

(** A line of the report under construction. *)
Definition add_check (name status detail : string) (r : DoctorResult) : DoctorResult := {|
  Doc_Status := Doc_Status r; Doc_Platform := Doc_Platform r;
  Checks := Checks r ++ [{| Check_Name := name; Check_Status := status; Detail := detail |}];
  Capabilities := Capabilities r; Doc_Limitations := Doc_Limitations r |}.

Definition add_capability (name : string) (r : DoctorResult) : DoctorResult := {|
  Doc_Status := Doc_Status r; Doc_Platform := Doc_Platform r; Checks := Checks r;
  Capabilities := Capabilities r ++ [name]; Doc_Limitations := Doc_Limitations r |}.

Definition warn (r : DoctorResult) : DoctorResult := {|
  Doc_Status := "warning"; Doc_Platform := Doc_Platform r; Checks := Checks r;
  Capabilities := Capabilities r; Doc_Limitations := Doc_Limitations r |}.

Section Doctor.
Context {W : Type}.
Variable schema_ok : string -> json -> bool.
Variable build_platform : Platform.
Variable getpid : Z.
Variable service : Service W.

Definition first_report : DoctorResult := {|
  Doc_Status := "ok"; Doc_Platform := build_platform; Checks := [];
  Capabilities := ["host-profiles"; "mcp"; "witness"]; Doc_Limitations := [] |}.

Definition host_check (hostID : string) (r : DoctorResult) (w : W) : DoctorResult * W :=
  if hostID =s EmptyString then (r, w)
  else match Svc_HostProfiles service with
       | None => (add_check "host-profile" "warning" "host profile resolver is unavailable" (warn r), w)
       | Some profiles =>
           match R_Bindings profiles hostID w with
           | (Err _, w') =>
               (add_check "host-profile" "warning"
                  "host profile configuration could not be safely resolved" (warn r), w')
           | (Ok bindings, w') =>
               (add_check "host-profile" "ok"
                  ("host profile is available with " +:+ FormatInt (Z.of_nat (length bindings))
                   +:+ " safe binding(s)") r, w')
           end
       end.

(** [artifact.ReadingSupported] holds on this platform. *)
Definition artifact_check (r : DoctorResult) : DoctorResult :=
  add_capability "read-only-artifact-digest" r.

Definition contract_check (r : DoctorResult) : DoctorResult :=
  match ValidateExpectation schema_ok doctorExpectation with
  | Err _ => add_check "embedded-contracts" "error" "embedded contract validation failed" (warn r)
  | Ok _ => add_check "embedded-contracts" "ok" "embedded schemas are available"
              (add_capability "embedded-contracts" r)
  end.

Definition observation_check (r : DoctorResult) (w : W) : DoctorResult * W :=
  match Svc_Observer service with
  | None => (add_check "process-observation" "error" "process observer is unavailable" (warn r), w)
  | Some o =>
      match O_Snapshot o getpid w with
      | (Err _, w') =>
          (add_check "process-observation" "warning"
             "current process could not be observed without additional access" (warn r), w')
      | (Ok _, w') =>
          (add_check "process-observation" "ok" "current process is observable"
             (add_capability "process-observation" r), w')
      end
  end.

Definition Doctor (hostID : string) (w : W) : DoctorResult * W :=
  let '(r, w1) := host_check hostID first_report w in
  observation_check (contract_check (artifact_check r)) w1.

(** ** What a report says *)

(** The verdict of a report agrees with its checks. *)
Definition honest (r : DoctorResult) : Prop :=
  Doc_Status r = (if forallb (fun c => Check_Status c =s "ok") (Checks r) then "ok" else "warning").

Lemma honest_fails name status detail r :
  (status =s "ok") = false -> honest (add_check name status detail (warn r)).
Proof.
  intros Hs. unfold honest, add_check, warn. cbn [Doc_Status Checks].
  rewrite forallb_app. cbn [forallb Check_Status]. by rewrite Hs, andb_false_r.
Qed.

Lemma honest_passes name detail r : honest r -> honest (add_check name "ok" detail r).
Proof.
  unfold honest, add_check. cbn [Doc_Status Checks]. intros ->. rewrite forallb_app.
  cbn [forallb Check_Status]. by rewrite andb_true_r.
Qed.

Lemma host_check_honest hostID r w : honest r -> honest (fst (host_check hostID r w)).
Proof.
  intros Hr. unfold host_check. destruct (_ =s _); [done|].
  destruct (Svc_HostProfiles service); [|by apply honest_fails].
  destruct (R_Bindings _ _ _) as [[b|e] w']; cbn [fst]; [by apply honest_passes|by apply honest_fails].
Qed.

Lemma contract_check_honest r : honest r -> honest (contract_check r).
Proof.
  intros Hr. unfold contract_check. destruct (ValidateExpectation _ _);
    [by apply honest_passes|by apply honest_fails].
Qed.

Lemma observation_check_honest r w : honest r -> honest (fst (observation_check r w)).
Proof.
  intros Hr. unfold observation_check. destruct (Svc_Observer service); [|by apply honest_fails].
  destruct (O_Snapshot _ _ _) as [[c|e] w']; cbn [fst]; [by apply honest_passes|by apply honest_fails].
Qed.

(** Parsed, the sample expectation is the tree the schema is asked about. *)
Lemma doctorExpectation_decodes : is_ok (decodeOne doctorExpectation) = true.
Proof. by vm_compute. Qed.

(** The self-check tells the truth: its status is [ok] exactly when each
    check it lists passed, and a report with status [ok] implies that the
    program observed its own process, that the embedded contract accepted the
    sample expectation, and, if a host was named, that its profile resolved. *)
Theorem Doctor_honest hostID w :
  honest (fst (Doctor hostID w))
  /\ (Doc_Status (fst (Doctor hostID w)) = "ok" ->
      (exists o c w1 w2, Svc_Observer service = Some o /\ O_Snapshot o getpid w1 = (Ok c, w2))
      /\ is_ok (ValidateExpectation schema_ok doctorExpectation) = true
      /\ (hostID <> EmptyString ->
          exists profiles bindings w2, Svc_HostProfiles service = Some profiles
                                       /\ R_Bindings profiles hostID w = (Ok bindings, w2))).
Proof.
  unfold Doctor.
  pose proof (host_check_honest hostID first_report w eq_refl) as Hh.
  assert (Hhost : Doc_Status (fst (host_check hostID first_report w)) = "ok" ->
    hostID <> EmptyString ->
    exists profiles bindings w2, Svc_HostProfiles service = Some profiles
                                 /\ R_Bindings profiles hostID w = (Ok bindings, w2)).
  { unfold host_check. intros Hs Hne. rewrite (proj2 (String.eqb_neq _ _) Hne) in Hs.
    destruct (Svc_HostProfiles service) as [profiles|]; [|done].
    destruct (R_Bindings profiles hostID w) as [[b|e] w2] eqn:E; [|done]. by exists profiles, b, w2. }
  destruct (host_check hostID first_report w) as [r w1]. cbn [fst] in *.
  pose proof (contract_check_honest (artifact_check r) Hh) as Hc.
  split; [by apply observation_check_honest|]. intros Hs.
  unfold observation_check in Hs.
  destruct (Svc_Observer service) as [o|] eqn:Ho; [|done].
  destruct (O_Snapshot o getpid w1) as [[c|e] w2] eqn:E; [|done]. cbn [fst add_check Doc_Status add_capability] in Hs.
  unfold contract_check in Hs. destruct (ValidateExpectation _ _); [|done].
  split; [exists o, c, w1, w2; split; first [exact Ho|exact E|reflexivity]|].
  split; [reflexivity|]. exact (Hhost Hs).
Qed.
End Doctor.

Lemma Doctor_honest_witness :
  Doc_Status (fst (Doctor (fun _ _ => true) sample_platform 7 sample_service EmptyString 0%nat)) = "ok"
  /\ (exists o c w1 w2, Svc_Observer sample_service = Some o /\ O_Snapshot o 7 w1 = (Ok c, w2)).
Proof.
  assert (H : Doc_Status (fst (Doctor (fun _ _ => true) sample_platform 7 sample_service EmptyString 0%nat)) = "ok")
    by (vm_compute; reflexivity).
  split; [exact H|].
  exact (proj1 (proj2 (Doctor_honest (fun _ _ => true) sample_platform 7 sample_service EmptyString 0%nat) H)).
Defined.
