(* ===== verification/Store.v ===== *)
(** * The receipt store ([internal/store/receipt.go])

    [WriteReceipt] publishes a receipt under its content identity: the bytes
    go to a temporary file that is then hard-linked to its final name, which
    never replaces a file.  The operating system is the record [StoreOS]; the
    laws of files are the class [StoreLaws]. *)

From S2P Require Import Prelude GoStrings GoPath GoSha256 Model Canonical Contract Wire.
From S2P Require Import ProofId Receipt World.

Definition maxStoredReceiptBytes : Z := 1048576.

Inductive link_error := LinkExists | LinkFailed.

Record StoreOS (W : Type) := {
  Getwd : io W unit string;
  MkdirAll : string -> io W unit unit;
  ChmodDirectory : string -> io W unit unit;
  CreateTemp : string -> io W unit string;            (* in the directory; its path *)
  ChmodTemp : string -> io W unit unit;
  WriteTemp : string -> string -> io W unit unit;
  SyncTemp : string -> io W unit unit;
  CloseTemp : string -> W -> result unit unit * W;
  Link : string -> string -> io W link_error unit;
  ReadAtMost : string -> Z -> io W unit string;       (* open, read up to a limit, close *)
  SyncDirectory : string -> io W unit unit;
  RemoveFile : string -> io W unit unit
}.
Arguments Getwd {W}. Arguments MkdirAll {W}. Arguments ChmodDirectory {W}. Arguments CreateTemp {W}.
Arguments ChmodTemp {W}. Arguments WriteTemp {W}. Arguments SyncTemp {W}. Arguments CloseTemp {W}.
Arguments Link {W}. Arguments ReadAtMost {W}. Arguments SyncDirectory {W}. Arguments RemoveFile {W}.

Inductive store_error :=
| ReceiptTooLarge
| ReceiptInvalid (e : proof_error)
| ReceiptContentID
| StoreFailed (step : string)
| ExistingTooLarge
| ExistingConflicts.

Section Store.
Context {W : Type} (os : StoreOS W).
Variable schema_ok : string -> json -> bool.

Definition step {A} (name : string) (c : io W unit A) : io W store_error A :=
  wrap_error (fun _ => StoreFailed name) c.

(** [filepath.Abs], which may need the working directory. *)
Definition absolute (root : string) : io W store_error string :=
  if IsAbs root then ret (Clean root)
  else do! wd := step "resolve receipt root" (Getwd os) in ret (JoinPath [wd; root]).

(** Closing the temporary file before an error is returned. *)
Definition or_close {A} (temporary : string) (c : io W store_error A) : io W store_error A :=
  fun w => match c w with
           | (Err e, w') => (Err e, snd (CloseTemp os temporary w'))
           | r => r
           end.

Definition readBounded (path : string) : io W store_error string :=
  do! contents := step "read existing launch receipt" (ReadAtMost os path (maxStoredReceiptBytes + 1)) in
  require! negb (maxStoredReceiptBytes <? slen contents) else ExistingTooLarge in
  ret contents.

(** An existing file must already hold the same bytes. *)
Definition publish (directory temporary target encoded : string) : io W store_error unit :=
  do! linked := attempt (Link os temporary target) in
  match linked with
  | Ok _ => step "sync receipt directory" (SyncDirectory os directory)
  | Err LinkFailed => throw (StoreFailed "publish launch receipt")
  | Err LinkExists =>
      do! existing := readBounded target in
      require! existing =s encoded else ExistingConflicts in
      ret tt
  end.

(** From the temporary file on; its removal is the last step. *)
Definition fill_and_publish (directory temporary target encoded : string)
  : io W store_error string :=
  do! _ := or_close temporary (step "secure temporary receipt" (ChmodTemp os temporary)) in
  do! _ := or_close temporary (step "write temporary receipt" (WriteTemp os temporary encoded)) in
  do! _ := or_close temporary (step "sync temporary receipt" (SyncTemp os temporary)) in
  do! _ := step "close temporary receipt" (CloseTemp os temporary) in
  do! _ := publish directory temporary target encoded in
  do! _ := step "remove temporary receipt" (RemoveFile os temporary) in
  ret target.

(** The deferred removal, disarmed by success. *)
Definition remove_on_error {A} (temporary : string) (c : io W store_error A) : io W store_error A :=
  fun w => match c w with
           | (Err e, w') => (Err e, snd (RemoveFile os temporary w'))
           | r => r
           end.

Definition encode_receipt (value : LaunchReceipt) : string := json_text (LaunchReceipt_json value).

Definition receipt_digest (value : LaunchReceipt) : string :=
  TrimPrefix (ReceiptID value) "sha256:".

Definition receipt_directory (absRoot : string) : string := JoinPath [absRoot; "launch-receipts"].

Definition receipt_target (directory : string) (value : LaunchReceipt) : string :=
  JoinPath [directory; receipt_digest value +:+ ".json"].

Definition WriteReceipt (root : string) (value : LaunchReceipt) : io W store_error string :=
  let encoded := encode_receipt value in
  require! negb (maxStoredReceiptBytes <? slen encoded) else ReceiptTooLarge in
  do! _ := lift (map_err ReceiptInvalid (Receipt.Validate schema_ok encoded)) in
  let digest := receipt_digest value in
  require! (slen digest =? 64) && negb (digest =s ReceiptID value) else ReceiptContentID in
  do! absRoot := absolute root in
  let directory := receipt_directory absRoot in
  do! _ := step "create receipt directory" (MkdirAll os directory) in
  do! _ := step "secure receipt directory" (ChmodDirectory os directory) in
  let target := receipt_target directory value in
  do! temporary := step "create temporary receipt" (CreateTemp os directory) in
  remove_on_error temporary (fill_and_publish directory temporary target encoded).
End Store.

(** ** Files *)

(** The files of a world, as the operations change them; nobody else does. *)
Class StoreLaws {W} (os : StoreOS W) (files : W -> gmap string string) : Prop := {
  getwd_files : forall w, files (snd (Getwd os w)) = files w;
  getwd_abs : forall w wd, fst (Getwd os w) = Ok wd -> IsAbs wd = true;
  mkdir_files : forall p w, files (snd (MkdirAll os p w)) = files w;
  chmod_dir_files : forall p w, files (snd (ChmodDirectory os p w)) = files w;
  create_temp : forall d w p w', CreateTemp os d w = (Ok p, w') ->
    files w !! p = None /\ files w' = <[p := EmptyString]> (files w)
    /\ exists random, has_byte random slash = false
                      /\ p = d +:+ sep +:+ (".receipt-" +:+ random +:+ ".tmp");
  create_failed : forall d w w', CreateTemp os d w = (Err tt, w') -> files w' = files w;
  chmod_files : forall p w, files (snd (ChmodTemp os p w)) = files w;
  write_ok : forall p c w w', WriteTemp os p c w = (Ok tt, w') -> files w' = <[p := c]> (files w);
  write_failed : forall p c w w', WriteTemp os p c w = (Err tt, w') ->
    exists partial, files w' = <[p := partial]> (files w);
  sync_files : forall p w, files (snd (SyncTemp os p w)) = files w;
  close_files : forall p w, files (snd (CloseTemp os p w)) = files w;
  link_ok : forall p t w w', Link os p t w = (Ok tt, w') ->
    files w !! t = None /\ exists c, files w !! p = Some c /\ files w' = <[t := c]> (files w);
  link_err : forall p t w e w', Link os p t w = (Err e, w') -> files w' = files w;
  read_files : forall p n w, files (snd (ReadAtMost os p n w)) = files w;
  read_ok : forall p n w c, fst (ReadAtMost os p n w) = Ok c ->
    exists content, files w !! p = Some content /\ c = stake (Z.to_nat n) content;
  sync_dir_files : forall p w, files (snd (SyncDirectory os p w)) = files w;
  remove_ok : forall p w w', RemoveFile os p w = (Ok tt, w') -> files w' = delete p (files w);
  remove_failed : forall p w w', RemoveFile os p w = (Err tt, w') -> files w' = files w
}.

Section StoreFacts.
Context {W : Type} (os : StoreOS W) (files : W -> gmap string string) `{!StoreLaws os files}.
Variable schema_ok : string -> json -> bool.

Definition has_files (f : gmap string string) (w : W) : Prop := files w = f.

Definition keeps (before : gmap string string) (w : W) : Prop := before ⊆ files w.

(** An operation that touches no file. *)
Lemma triple_silent {E F A} (g : E -> F) (c : io W E A) f (R : F -> W -> Prop) :
  (forall w, files (snd (c w)) = files w) -> (forall e w, has_files f w -> R e w) ->
  triple (has_files f) (wrap_error g c) (fun _ => has_files f) R.
Proof.
  intros Hc HR w Hw. unfold wrap_error. specialize (Hc w).
  destruct (c w) as [[a|e] w']; cbn [map_err snd] in *; [|apply HR]; unfold has_files in *; congruence.
Qed.

Lemma triple_or_close {A} temporary (c : io W store_error A) P Q before :
  triple P c Q (fun _ => keeps before) -> triple P (or_close os temporary c) Q (fun _ => keeps before).
Proof.
  intros Hc w Hw. specialize (Hc w Hw). unfold or_close.
  destruct (c w) as [[a|e] w']; [exact Hc|]. unfold keeps in *. by rewrite close_files.
Qed.

(** One publication: [before] are the files when the temporary was created. *)
Section Publication.
Variables (before : gmap string string) (directory temporary target encoded : string).
Hypothesis fresh : before !! temporary = None.
Hypothesis apart : temporary <> target.

Lemma keeps_temporary c w : has_files (<[temporary := c]> before) w -> keeps before w.
Proof. intros Hw. unfold keeps, has_files in *. rewrite Hw. by apply insert_subseteq. Qed.

Lemma keeps_published w :
  has_files (<[target := encoded]> (<[temporary := encoded]> before)) w ->
  (<[temporary := encoded]> before) !! target = None \/ before !! target = Some encoded ->
  keeps before w.
Proof.
  intros Hw Ht. unfold keeps, has_files in *. rewrite Hw.
  transitivity (<[temporary := encoded]> before); [by apply insert_subseteq|].
  destruct Ht as [Ht|Ht]; [by apply insert_subseteq|].
  by rewrite (insert_id (<[temporary := encoded]> before)) by by rewrite lookup_insert_ne.
Qed.

Lemma stake_all n c : slen c < n -> forall s, c = stake (Z.to_nat n) s -> s = c.
Proof.
  intros Hn s Hs. subst c. unfold slen in Hn. rewrite stake_length in Hn.
  assert (String.length s <= Z.to_nat n)%nat by lia.
  rewrite <- (stake_sdrop (Z.to_nat n) s) at 1.
  destruct (sdrop (Z.to_nat n) s) as [|a t] eqn:E; [apply str_app_nil_r|].
  pose proof (sdrop_length (Z.to_nat n) s) as Hl. rewrite E in Hl. cbn in Hl. lia.
Qed.

(** Nothing else was at the target. *)
Definition unclobbered : Prop := before !! target = None \/ before !! target = Some encoded.

Lemma publish_triple :
  triple (has_files (<[temporary := encoded]> before)) (publish os directory temporary target encoded)
    (fun _ w => unclobbered
       /\ has_files (<[target := encoded]> (<[temporary := encoded]> before)) w /\ keeps before w)
    (fun _ => keeps before).
Proof.
  unfold publish. eapply (triple_bind _ _ _ (fun linked w =>
    match linked with
    | Ok _ => unclobbered
       /\ has_files (<[target := encoded]> (<[temporary := encoded]> before)) w /\ keeps before w
    | Err _ => has_files (<[temporary := encoded]> before) w
    end)).
  { apply triple_attempt. intros w Hw. destruct (Link os temporary target w) as [[[]|e] w'] eqn:E.
    - apply link_ok in E as (Hn & c & Hc & Hf). rewrite Hw in Hn, Hc, Hf.
      rewrite lookup_insert_eq in Hc. injection Hc as <-.
      split; [left; by rewrite lookup_insert_ne in Hn|]. split; [exact Hf|].
      apply keeps_published; [exact Hf|by left].
    - apply link_err in E. unfold has_files in *. congruence. }
  intros [[]|[|]].
  - apply triple_wrap. intros w (Hu & Hw & Hk). pose proof (sync_dir_files directory w) as Hs.
    destruct (SyncDirectory os directory w) as [[[]|[]] w']; cbn [snd] in Hs;
      unfold has_files, keeps in *; rewrite Hs; done.
  - unfold readBounded, step. intros w Hw.
    pose proof (read_files target (maxStoredReceiptBytes + 1) w) as Hf.
    pose proof (read_ok target (maxStoredReceiptBytes + 1) w) as Hr.
    unfold bind, wrap_error.
    destruct (ReadAtMost os target (maxStoredReceiptBytes + 1) w) as [[c|[]] w'];
      cbn [fst snd map_err] in *; [|unfold keeps; rewrite Hf; by eapply keeps_temporary].
    destruct (Hr c eq_refl) as (content & Hcontent & Hc). unfold require, lift.
    destruct (Z.ltb_spec maxStoredReceiptBytes (slen c)) as [Hl|Hl]; cbn [negb guard_ ret];
      [unfold keeps; rewrite Hf; by eapply keeps_temporary|].
    destruct (String.eqb_spec c encoded) as [->|]; cbn [guard_ ret];
      [|unfold keeps; rewrite Hf; by eapply keeps_temporary].
    apply stake_all in Hc as ->; [|lia].
    assert (Hfiles : has_files (<[target := encoded]> (<[temporary := encoded]> before)) w').
    { unfold has_files in *. rewrite Hf, Hw. symmetry. apply insert_id. by rewrite <- Hw. }
    rewrite Hw, lookup_insert_ne in Hcontent by done.
    split; [by right|]. split; [exact Hfiles|]. apply keeps_published; [exact Hfiles|by right].
  - apply triple_throw. intros w. apply keeps_temporary.
Qed.

Lemma fill_triple :
  triple (has_files (<[temporary := EmptyString]> before))
    (fill_and_publish os directory temporary target encoded)
    (fun path w => path = target /\ unclobbered /\ has_files (<[target := encoded]> before) w)
    (fun _ => keeps before).
Proof.
  unfold fill_and_publish, step.
  eapply triple_bind; [apply triple_or_close, triple_silent;
    [apply chmod_files|intros e w; apply keeps_temporary]|intros ?; cbn beta].
  eapply (triple_bind _ _ _ (fun _ => has_files (<[temporary := encoded]> before))).
  { apply triple_or_close, triple_wrap. intros w Hw.
    destruct (WriteTemp os temporary encoded w) as [[[]|[]] w'] eqn:E.
    - apply write_ok in E. unfold has_files in *. by rewrite E, Hw, insert_insert_eq.
    - apply write_failed in E as (partial & E). apply (keeps_temporary partial).
      unfold has_files in *. by rewrite E, Hw, insert_insert_eq. }
  intros ?. cbn beta. eapply triple_bind; [apply triple_or_close, triple_silent;
    [apply sync_files|intros e w; apply keeps_temporary]|intros ?; cbn beta].
  eapply triple_bind; [apply triple_silent; [apply close_files|intros e w; apply keeps_temporary]|].
  intros ?. cbn beta. eapply triple_bind; [apply publish_triple|intros ?; cbn beta].
  eapply (triple_bind _ _ _ (fun _ w => unclobbered /\ has_files (<[target := encoded]> before) w)).
  { apply triple_wrap. intros w (Hu & Hw & Hk).
    destruct (RemoveFile os temporary w) as [[[]|[]] w'] eqn:E.
    - apply remove_ok in E. split; [exact Hu|]. unfold has_files in *. rewrite E, Hw.
      rewrite delete_insert_ne by done. by rewrite delete_insert_eq, delete_id.
    - apply remove_failed in E. unfold keeps. by rewrite E. }
  intros ?. by apply triple_ret.
Qed.

Lemma keeps_removal w : keeps before w -> keeps before (snd (RemoveFile os temporary w)).
Proof.
  unfold keeps. intros Hk. destruct (RemoveFile os temporary w) as [[[]|[]] w'] eqn:E; cbn [snd].
  - apply remove_ok in E. rewrite E. rewrite <- (delete_id before temporary fresh).
    by apply delete_mono.
  - apply remove_failed in E. by rewrite E.
Qed.
End Publication.

Lemma absolute_triple root f :
  triple (has_files f) (absolute os root) (fun p w => has_files f w /\ IsAbs p = true)
    (fun _ => has_files f).
Proof.
  unfold absolute. destruct (IsAbs root) eqn:E.
  { apply triple_ret. intros w Hw. split; [done|by apply IsAbs_Clean]. }
  eapply (triple_bind _ _ _ (fun wd w => has_files f w /\ IsAbs wd = true)).
  - unfold step. apply triple_wrap. intros w Hw. pose proof (getwd_files w) as Hf.
    pose proof (getwd_abs w) as Ha. destruct (Getwd os w) as [[wd|[]] w']; cbn [fst snd] in *.
    + split; [unfold has_files in *; congruence|by apply Ha].
    + unfold has_files in *; congruence.
  - intros wd. apply triple_ret. intros w [Hw Ha]. split; [done|by apply IsAbs_JoinPath].
Qed.

Lemma no_slash_hex s : sforall is_lower_hex s = true -> sexists (Ascii.eqb slash) s = false.
Proof.
  induction s as [|c s IH]; [done|]. rewrite sforall_cons. intros [Hc Hs]%andb_true_iff.
  cbn [sexists]. rewrite IH by done. rewrite orb_false_r.
  destruct (Ascii.eqb_spec slash c) as [<-|]; [vm_compute in Hc; discriminate Hc|done].
Qed.

Lemma hex_name e : normal_comp (sha256_hex e +:+ ".json") /\ sha256_hex e <> EmptyString.
Proof.
  pose proof (sha256_hex_length e) as Hl. pose proof (sha256_hex_lower e) as Hx.
  destruct (sha256_hex e) as [|c s]; [done|]. rewrite sforall_cons in Hx.
  apply andb_true_iff in Hx as [Hc Hs]. split; [|done].
  assert (Hdot : c <> "."%char) by (intros ->; vm_compute in Hc; discriminate Hc).
  split; [done|]. split; [cbn [String.append]; congruence|].
  split; [cbn [String.append]; congruence|].
  unfold has_byte. rewrite sexists_app. change (String c s) with (String c EmptyString +:+ s).
  rewrite sexists_app. cbn [sexists]. rewrite orb_false_r.
  rewrite (no_slash_hex s) by done. rewrite orb_false_r, orb_false_iff. split; [|reflexivity].
  destruct (Ascii.eqb_spec slash c) as [<-|]; [vm_compute in Hc; discriminate Hc|done].
Qed.

Lemma last_snoc_eq {A} (l1 l2 : list A) x y : l1 ++ [x] = l2 ++ [y] -> x = y.
Proof. intros H. apply (f_equal last) in H. rewrite !last_snoc in H. congruence. Qed.

(** A temporary never has the name of a receipt. *)
Lemma temporary_apart directory value e random :
  IsAbs directory = true -> receipt_digest value = sha256_hex e -> has_byte random slash = false ->
  directory +:+ sep +:+ (".receipt-" +:+ random +:+ ".tmp") <> receipt_target directory value.
Proof.
  intros Ha Hd Hr H. destruct (hex_name e) as [Hn Hne].
  set (name := sha256_hex e +:+ ".json") in *.
  assert (Hname : Split name slash = [name]) by apply Split_single, Hn.
  assert (Htarget : receipt_target directory value = sep +:+ Join (abs_comps directory ++ [name]) sep).
  { unfold receipt_target. rewrite Hd. fold name. rewrite JoinPath_two by done.
    rewrite Clean_abs by by apply IsAbs_app. do 2 f_equal.
    rewrite <- abs_comps_Clean by by apply IsAbs_app.
    rewrite <- JoinPath_two, JoinPath_normal, Hname by (done || (rewrite Hname; by constructor)). done. }
  rewrite Htarget in H. apply (f_equal (fun s => Split s slash)) in H.
  rewrite Split_sep_cons in H. unfold sep in H. rewrite Split_Join in H.
  - cbn [String.append] in H. rewrite Split_app in H.
    rewrite (Split_single (String _ _)) in H
      by (unfold has_byte in *; cbn [sexists]; by rewrite sexists_app, Hr).
    rewrite (app_comm_cons _ [name]) in H. apply last_snoc_eq in H.
    subst name. destruct (sha256_hex e) as [|c s] eqn:E; [done|].
    cbn [String.append] in H. injection H as Hc _. pose proof (sha256_hex_lower e) as Hx.
    rewrite E, sforall_cons, <- Hc in Hx. discriminate Hx.
  - by destruct (abs_comps directory).
  - apply Forall_app. split; [apply normal_no_sep, abs_comps_normal|]. constructor; [apply Hn|constructor].
Qed.

Lemma receipt_digest_hex value : VerifyID value = Ok tt -> exists e, receipt_digest value = sha256_hex e.
Proof.
  intros (e & _ & He)%receipt_VerifyID_ok. exists e. unfold receipt_digest. rewrite He.
  unfold identity_hash. apply TrimPrefix_app.
Qed.

(** What a call leaves: every file there was, and on success the receipt. *)
Definition stored (value : LaunchReceipt) (f : gmap string string) (target : string) (w : W) : Prop :=
  has_files (<[target := encode_receipt value]> f) w
  /\ unclobbered f target (encode_receipt value)
  /\ exists absRoot, IsAbs absRoot = true
       /\ target = receipt_target (receipt_directory absRoot) value.

Lemma temporary_triple absRoot value f :
  VerifyID value = Ok tt -> IsAbs absRoot = true ->
  let directory := receipt_directory absRoot in
  let target := receipt_target directory value in
  triple (has_files f)
    (do! temporary := step "create temporary receipt" (CreateTemp os directory) in
     remove_on_error os temporary
       (fill_and_publish os directory temporary target (encode_receipt value)))
    (fun t w => stored value f t w) (fun _ => keeps f).
Proof.
  intros Hv Habs directory target w Hw. unfold bind, step, wrap_error.
  destruct (CreateTemp os directory w) as [[temporary|[]] w1] eqn:E; cbn [map_err].
  2: { apply create_failed in E. unfold keeps. by rewrite E, Hw. }
  apply create_temp in E as (Hfresh & Hf & random & Hr & Htemp). rewrite Hw in Hfresh, Hf.
  destruct (receipt_digest_hex value Hv) as [e He].
  assert (Hdir : IsAbs directory = true) by by apply IsAbs_JoinPath.
  assert (Hapart : temporary <> target) by (rewrite Htemp; by eapply temporary_apart).
  pose proof (fill_triple f directory temporary target (encode_receipt value) Hfresh Hapart w1 Hf) as Ht.
  unfold remove_on_error.
  destruct (fill_and_publish _ _ _ _ _ w1) as [[t|err] w2].
  - destruct Ht as (-> & Hu & Hfiles). split; [exact Hfiles|]. split; [exact Hu|]. by exists absRoot.
  - by apply keeps_removal.
Qed.

Lemma WriteReceipt_triple root value f :
  VerifyID value = Ok tt ->
  triple (has_files f) (WriteReceipt os schema_ok root value)
    (fun target w => stored value f target w) (fun _ => keeps f).
Proof.
  intros Hv. assert (Hkeep : forall w, has_files f w -> keeps f w) by (intros w <-; unfold keeps; reflexivity).
  unfold WriteReceipt. apply triple_require; [intros _|intros _; exact Hkeep].
  eapply (triple_bind _ _ _ (fun _ => has_files f));
    [by apply triple_lift; [|intros ? _; exact Hkeep]|intros ?].
  apply triple_require; [intros _|intros _; exact Hkeep].
  eapply triple_bind.
  { eapply triple_conseq; [apply absolute_triple|done|intros ? ? Hw; exact Hw|intros ? ?; apply Hkeep]. }
  intros absRoot. cbn beta. eapply (triple_conseq _ (fun w => IsAbs absRoot = true /\ has_files f w));
    [|by intros w []|intros ? ? Hw; exact Hw|intros ? ? Hw; exact Hw].
  apply triple_pure. intros Habs.
  eapply triple_bind; [apply triple_silent; [apply mkdir_files|intros ?; exact Hkeep]|intros ?; cbn beta].
  eapply triple_bind; [apply triple_silent; [apply chmod_dir_files|intros ?; exact Hkeep]|intros ?; cbn beta].
  by apply temporary_triple.
Qed.
End StoreFacts.


(** ** A disk *)

(** Every operation succeeds where it can; temporaries get the first name. *)
Definition disk : StoreOS (gmap string string) := {|
  Getwd w := (Ok "/work", w);
  MkdirAll _ w := (Ok tt, w);
  ChmodDirectory _ w := (Ok tt, w);
  CreateTemp d w :=
    let p := d +:+ sep +:+ (".receipt-" +:+ "0" +:+ ".tmp") in
    match w !! p with
    | None => (Ok p, <[p := EmptyString]> w)
    | Some _ => (Err tt, w)
    end;
  ChmodTemp _ w := (Ok tt, w);
  WriteTemp p c w := (Ok tt, <[p := c]> w);
  SyncTemp _ w := (Ok tt, w);
  CloseTemp _ w := (Ok tt, w);
  Link p t w :=
    match w !! t, w !! p with
    | None, Some c => (Ok tt, <[t := c]> w)
    | Some _, _ => (Err LinkExists, w)
    | None, None => (Err LinkFailed, w)
    end;
  ReadAtMost p n w :=
    match w !! p with Some c => (Ok (stake (Z.to_nat n) c), w) | None => (Err tt, w) end;
  SyncDirectory _ w := (Ok tt, w);
  RemoveFile p w := (Ok tt, delete p w)
|}.

#[export] Instance disk_laws : StoreLaws disk (fun w => w).
Proof.
  split; try done.
  - by intros w wd [= <-].
  - intros d w p w'. cbn [CreateTemp disk]. destruct (w !! _) eqn:E; [done|].
    intros [= <- <-]. split; [exact E|]. split; [done|]. by exists "0".
  - intros d w w'. cbn [CreateTemp disk]. destruct (w !! _); [|done]. by intros [= <-].
  - by intros p c w w' [= <-].
  - intros p t w w'. cbn [Link disk]. destruct (w !! t) eqn:E; [done|].
    destruct (w !! p) as [c|]; [|done]. intros [= <-]. eauto.
  - intros p t w e w'. cbn [Link disk]. destruct (w !! t); [by intros [= _ <-]|].
    destruct (w !! p); [done|by intros [= _ <-]].
  - intros p n w. cbn [ReadAtMost disk]. by destruct (w !! p).
  - intros p n w c. cbn [ReadAtMost disk]. destruct (w !! p) as [x|]; [|done]. intros [= <-]. eauto.
  - by intros p w w' [= <-].
Qed.

Definition stored_sample : result store_error string * gmap string string :=
  WriteReceipt disk (fun _ _ => true) "state" sample_receipt ∅.

