(* ===== verification/Witness.v ===== *)
(** * The witness: preparing and recording a launch ([internal/witness/prepare.go])

    [PrepareLaunch] resolves the command, binds it to the expectation and
    reads the artifact; [Spawned] observes the started process and stores the
    launch receipt.  The [Dependencies] of the controller are operations on a
    world. *)

From S2P Require Import Prelude GoStrings GoPath GoSha256 Model Canonical Contract Wire.
From S2P Require Import Expectation Process ProofId Receipt World App.

Definition maximumCommandArguments : Z := 256.

(** [Dependencies], with the environment of [resolveHome]. *)
Record Dependencies (W : Type) := {
  Dep_Tool : ToolInfo;
  Dep_Home : string;
  Dep_CtxErr : W -> bool * W;
  Dep_Observer : Observer W;
  Dep_Now : W -> string * W;                       (* in UTC, RFC 3339 *)
  Dep_LoadExpectation : string -> io W unit Resolved;
  Dep_DigestArtifact : Resolved -> io W go_error ArtifactObservation;
  Dep_LookPath : string -> io W unit string;
  Dep_Getwd : io W unit string;
  Dep_EvalSymlinks : string -> io W unit string;
  Dep_HomeVariable : string;                       (* AGENT_RUNTIME_PROOF_HOME *)
  Dep_UserHomeDir : io W unit string;
  Dep_WriteReceipt : string -> LaunchReceipt -> io W unit string
}.
Arguments Dep_Tool {W}. Arguments Dep_Home {W}. Arguments Dep_CtxErr {W}. Arguments Dep_Observer {W}.
Arguments Dep_Now {W}. Arguments Dep_LoadExpectation {W}. Arguments Dep_DigestArtifact {W}.
Arguments Dep_LookPath {W}. Arguments Dep_Getwd {W}. Arguments Dep_EvalSymlinks {W}.
Arguments Dep_HomeVariable {W}. Arguments Dep_UserHomeDir {W}. Arguments Dep_WriteReceipt {W}.

Inductive witness_error :=
| WitnessContext
| WitnessInvalidInput
| WitnessPanic                 (* an index out of range *)
| WitnessFailed (reason : string).

Record WitnessRequest := {
  WR_Command : list string;
  WR_ExpectationPath : string
}.

Record PreparedLaunch := {
  PL_command : string;
  PL_arguments : list string;
  PL_safeCommand : CommandObservation;
  PL_subject : option Subject;
  PL_expectation : option ExpectationProjection;
  PL_artifact : option ReceiptArtifact;
  PL_observationOnly : bool;
  PL_spawned : bool
}.

Definition mark_spawned (p : PreparedLaunch) : PreparedLaunch := {|
  PL_command := PL_command p; PL_arguments := PL_arguments p; PL_safeCommand := PL_safeCommand p;
  PL_subject := PL_subject p; PL_expectation := PL_expectation p; PL_artifact := PL_artifact p;
  PL_observationOnly := PL_observationOnly p; PL_spawned := true |}.

(** On Unix [normalizePath] is [filepath.Clean]. *)
Definition normalizePath (value : string) : string := Clean value.

Definition samePath (left right : string) : bool := normalizePath left =s normalizePath right.

Definition rawDigest (value : string) : string := sha256_hex value.

Fixpoint projected_arguments (index : Z) (arguments : list string) : list ArgumentFingerprint :=
  match arguments with
  | [] => []
  | a :: rest => {| Position := index; FP_SHA256 := "sha256:" +:+ rawDigest a |}
                 :: projected_arguments (index + 1) rest
  end.

Definition commandProjection (executable : string) (arguments : list string) : CommandObservation := {|
  ExecutableBasename := Base executable;
  ExecutablePathHash := hashIdentifier "arp:command-path:v1" (normalizePath executable);
  Cmd_ArgumentFingerprints := projected_arguments 1 arguments |}.

(** The command line as it may be recorded. *)
Definition command_valid (command : list string) : bool :=
  negb (length command =? 0)%nat && (Z.of_nat (length command) <=? maximumCommandArguments)
  && forallb (fun value => negb (value =s EmptyString) && negb (has_byte value (byte_of 0))) command.

Section Witness.
Context {W : Type} (dep : Dependencies W).
Variable schema_ok : string -> json -> bool.

Definition invalid {A} (c : io W unit A) : io W witness_error A :=
  wrap_error (fun _ => WitnessInvalidInput) c.

Definition failing {E A} (reason : string) (c : io W E A) : io W witness_error A :=
  wrap_error (fun _ => WitnessFailed reason) c.

(** [filepath.Abs]. *)
Definition absolute_path (path : string) : io W unit string :=
  if IsAbs path then ret (Clean path)
  else do! wd := Dep_Getwd dep in ret (JoinPath [wd; path]).

Definition check_fingerprint (fullCommand : list string) (fingerprint : ArgumentFingerprint)
  : result witness_error unit :=
  check! Position fingerprint <? Z.of_nat (length fullCommand) else WitnessInvalidInput in
  check! 0 <=? Position fingerprint else WitnessPanic in
  match nth_error fullCommand (Z.to_nat (Position fingerprint)) with
  | Some value => guard_ (rawDigest value =s FP_SHA256 fingerprint) WitnessInvalidInput
  | None => Err WitnessPanic
  end.

(** The path a launch of the declared kind must have: the executable, or the
    script given to the interpreter. *)
Definition bound_path (kind executable : string) (arguments : list string)
  : io W witness_error string :=
  if (kind =s "native") || (kind =s "declared-tree") then ret executable
  else if kind =s "interpreter-script" then
    match arguments with
    | [] => throw WitnessInvalidInput
    | script :: _ =>
        do! path := invalid (absolute_path script) in invalid (Dep_EvalSymlinks dep path)
    end
  else throw WitnessInvalidInput.

Definition bindCommand (resolved : Resolved) (executable : string) (arguments : list string)
  : io W witness_error unit :=
  let launch := Launch (Res_Value resolved) in
  do! entrypoint := invalid (Dep_EvalSymlinks dep
                      (JoinPath [ArtifactRoot resolved; FromSlash (Entrypoint launch)])) in
  do! path := bound_path (Kind launch) executable arguments in
  require! samePath entrypoint path else WitnessInvalidInput in
  lift (eachM (check_fingerprint (executable :: arguments)) (Launch_ArgumentFingerprints launch)).

Definition observation_of_launch (command : string) (arguments : list string) : PreparedLaunch := {|
  PL_command := command; PL_arguments := arguments;
  PL_safeCommand := commandProjection command arguments; PL_subject := None;
  PL_expectation := None; PL_artifact := None; PL_observationOnly := true; PL_spawned := false |}.

Definition bound_launch (command : string) (arguments : list string) (resolved : Resolved)
  (artifact : ArtifactObservation) : PreparedLaunch :=
  let value := Res_Value resolved in
  {| PL_command := command; PL_arguments := arguments;
     PL_safeCommand := commandProjection command arguments;
     PL_subject := Some (Exp_Subject value);
     PL_expectation := Some
       {| SourceKind := Source_Kind (Source value); SourceLocatorHash := LocatorHash (Source value);
          Proj_Trust := Trust (Source value); ExpectedVersion := Subj_Version (Exp_Subject value);
          ExpectedArtifactSHA256 := Art_SHA256 (Artifact value) |};
     PL_artifact := Some
       {| RA_SHA256 := Obs_SHA256 artifact; RA_FileCount := FileCount artifact;
          RA_ByteCount := ByteCount artifact; RA_DurationMS := DurationMS artifact |};
     PL_observationOnly := false; PL_spawned := false |}.

Definition witness_ctx : io W witness_error unit :=
  fun w => let '(cancelled, w') := Dep_CtxErr dep w in
           (if cancelled : bool then Err WitnessContext else Ok tt, w').

Definition resolve_executable (command : string) : io W witness_error string :=
  do! found := invalid (Dep_LookPath dep command) in
  do! path := invalid (absolute_path found) in
  invalid (Dep_EvalSymlinks dep path).

Definition PrepareLaunch (request : WitnessRequest) : io W witness_error PreparedLaunch :=
  do! _ := witness_ctx in
  require! command_valid (WR_Command request) else WitnessInvalidInput in
  match WR_Command request with
  | [] => throw WitnessInvalidInput
  | name :: arguments =>
      do! command := resolve_executable name in
      if WR_ExpectationPath request =s EmptyString then ret (observation_of_launch command arguments)
      else
        do! resolved := invalid (Dep_LoadExpectation dep (WR_ExpectationPath request)) in
        do! _ := bindCommand resolved command arguments in
        do! artifact := failing "witness artifact cannot be observed" (Dep_DigestArtifact dep resolved) in
        require! Obs_SHA256 artifact =s Art_SHA256 (Artifact (Res_Value resolved))
          else WitnessInvalidInput in
        ret (bound_launch command arguments resolved artifact)
  end.

(** ** After the start *)

Definition resolveHome : io W unit string :=
  let configured := if Dep_Home dep =s EmptyString then Dep_HomeVariable dep else Dep_Home dep in
  if configured =s EmptyString then
    do! home := Dep_UserHomeDir dep in
    absolute_path (JoinPath [home; ".across"; "data"; "agent-runtime-proof"])
  else absolute_path configured.

Definition receipt_input (prepared : PreparedLaunch) (candidate : Candidate) (createdAt : string)
  : ReceiptInput := {|
  RI_CreatedAt := createdAt; RI_Tool := Dep_Tool dep; RI_Platform := Cand_Platform candidate;
  RI_Subject := PL_subject prepared; RI_Process := Cand_Process candidate;
  RI_Command := PL_safeCommand prepared; RI_Expectation := PL_expectation prepared;
  RI_Artifact := PL_artifact prepared; RI_ObservationOnly := PL_observationOnly prepared |}.

(** The identity must be complete and of the process that was started. *)
Definition identity_complete (candidate : Candidate) (pid : Z) : bool :=
  (PID (Cand_Process candidate) =? pid)
  && negb (CreatedAtUnixNano (Cand_Process candidate) =s EmptyString)
  && negb (BootIDHash (Cand_Process candidate) =s EmptyString).

Definition dep_now : io W witness_error string :=
  fun w => let '(t, w') := Dep_Now dep w in (Ok t, w').

(** [Spawned] under its mutex: the receipt and the launch marked as recorded. *)
Definition Spawned (prepared : PreparedLaunch) (pid : Z)
  : io W witness_error (LaunchReceipt * PreparedLaunch) :=
  require! negb (PL_spawned prepared) else WitnessFailed "witness launch was already recorded" in
  require! 0 <? pid else WitnessFailed "witness process identity is invalid" in
  do! candidate := failing "witness process identity is unavailable"
                     (O_Snapshot (Dep_Observer dep) pid) in
  require! identity_complete candidate pid
    else WitnessFailed "witness process identity is incomplete" in
  do! _ := failing "witness process identity changed" (O_Revalidate (Dep_Observer dep) candidate) in
  do! declared := failing "witness process executable does not match launch"
                    (Dep_EvalSymlinks dep (DeclaredExecutablePath candidate)) in
  require! samePath declared (PL_command prepared)
    else WitnessFailed "witness process executable does not match launch" in
  do! createdAt := dep_now in
  do! value := lift (map_err (fun _ => WitnessFailed "witness launch receipt is invalid")
                 (Receipt.Build schema_ok (receipt_input prepared candidate createdAt))) in
  do! home := failing "witness state root is unavailable" resolveHome in
  do! _ := failing "witness launch receipt could not be stored" (Dep_WriteReceipt dep home value) in
  ret (value, mark_spawned prepared).
End Witness.

(** ** Properties *)

(** The command line an expectation describes. *)
Definition arguments_match (resolved : Resolved) (fullCommand : list string) : Prop :=
  Forall (fun f => exists value,
            0 <= Position f /\ nth_error fullCommand (Z.to_nat (Position f)) = Some value
            /\ FP_SHA256 f = sha256_hex value)
    (Launch_ArgumentFingerprints (Launch (Res_Value resolved))).

Lemma check_fingerprint_ok fullCommand f :
  check_fingerprint fullCommand f = Ok tt ->
  exists value, 0 <= Position f /\ nth_error fullCommand (Z.to_nat (Position f)) = Some value
                /\ FP_SHA256 f = sha256_hex value.
Proof.
  unfold check_fingerprint. intros H. inv_ok. destruct (nth_error _ _) as [value|]; [|done].
  apply guard_ok in H. to_prop. exists value. unfold rawDigest in H. by repeat split.
Qed.

Lemma PrepareLaunch_ok {W} (dep : Dependencies W) request w prepared w' :
  PrepareLaunch dep request w = (Ok prepared, w') -> WR_ExpectationPath request <> EmptyString ->
  exists resolved artifact entrypoint path w1 w2 w3 w4 w5 w6 w7,
    Dep_LoadExpectation dep (WR_ExpectationPath request) w1 = (Ok resolved, w2)
    /\ Dep_EvalSymlinks dep
         (JoinPath [ArtifactRoot resolved; FromSlash (Entrypoint (Launch (Res_Value resolved)))]) w3
       = (Ok entrypoint, w4)
    /\ bound_path dep (Kind (Launch (Res_Value resolved))) (PL_command prepared)
         (PL_arguments prepared) w5 = (Ok path, w6)
    /\ Clean entrypoint = Clean path
    /\ arguments_match resolved (PL_command prepared :: PL_arguments prepared)
    /\ Dep_DigestArtifact dep resolved w7 = (Ok artifact, w')
    /\ Obs_SHA256 artifact = Art_SHA256 (Artifact (Res_Value resolved))
    /\ prepared = bound_launch (PL_command prepared) (PL_arguments prepared) resolved artifact.
Proof.
  unfold PrepareLaunch. intros H Hp. apply bind_ok in H as (? & v0 & _ & H).
  apply bind_ok in H as (? & v1 & _ & H).
  destruct (WR_Command request) as [|name arguments]; [inv_io|].
  apply bind_ok in H as (command & v2 & _ & H).
  rewrite (proj2 (String.eqb_neq _ _) Hp) in H.
  apply bind_ok in H as (resolved & v3 & Hload & H).
  apply bind_ok in H as (? & v4 & Hbind & H).
  apply bind_ok in H as (artifact & v5 & Hdig & H).
  apply bind_ok in H as (? & v6 & Heq & H). apply require_ok in Heq as [Heq ->]. apply ret_ok in H as [-> ->].
  unfold bindCommand in Hbind.
  apply bind_ok in Hbind as (entrypoint & v7 & Hentry & Hbind).
  apply bind_ok in Hbind as (path & v8 & Hpath & Hbind).
  apply bind_ok in Hbind as (? & v9 & Hsame & Hbind). apply require_ok in Hsame as [Hsame ->].
  apply lift_ok in Hbind as [Hargs ->]. destruct x1. apply wrap_ok in Hload, Hentry, Hdig.
  to_prop. cbn [bound_launch PL_command PL_arguments].
  exists resolved, artifact, entrypoint, path. do 7 eexists.
  split; [exact Hload|]. split; [exact Hentry|]. split; [exact Hpath|].
  split; [by apply String.eqb_eq in Hsame|]. split; [|split; [exact Hdig|split; [exact Heq|done]]].
  unfold arguments_match. apply eachM_ok in Hargs. eapply Forall_impl; [exact Hargs|].
  intros f. apply check_fingerprint_ok.
Qed.

(** A launch is bound to an expectation only if everything agrees: the
    declared entrypoint, links resolved, is the very executable to be started
    (or, for an interpreter, its script), every declared argument fingerprint
    is that of the argument at its position, and the artifact just read has
    the expected digest, which the prepared receipt repeats. *)
Theorem PrepareLaunch_bound {W} (dep : Dependencies W) request w prepared w' :
  PrepareLaunch dep request w = (Ok prepared, w') -> WR_ExpectationPath request <> EmptyString ->
  exists resolved artifact entrypoint path w1 w2 w3 w4 w5 w6 w7,
    Dep_LoadExpectation dep (WR_ExpectationPath request) w1 = (Ok resolved, w2)
    /\ Dep_EvalSymlinks dep
         (JoinPath [ArtifactRoot resolved; FromSlash (Entrypoint (Launch (Res_Value resolved)))]) w3
       = (Ok entrypoint, w4)
    /\ bound_path dep (Kind (Launch (Res_Value resolved))) (PL_command prepared)
         (PL_arguments prepared) w5 = (Ok path, w6)
    /\ Clean entrypoint = Clean path
    /\ arguments_match resolved (PL_command prepared :: PL_arguments prepared)
    /\ Dep_DigestArtifact dep resolved w7 = (Ok artifact, w')
    /\ Obs_SHA256 artifact = Art_SHA256 (Artifact (Res_Value resolved))
    /\ prepared = bound_launch (PL_command prepared) (PL_arguments prepared) resolved artifact.
Proof. apply PrepareLaunch_ok. Qed.

(** A receipt that was built carries its own identity. *)
Lemma Build_ok schema_ok input value :
  Receipt.Build schema_ok input = Ok value ->
  VerifyID value = Ok tt /\ exists id, value = with_receipt_id (receipt_of input) id.
Proof.
  unfold Receipt.Build. intros H. inv_ok. subst x.
  apply receipt_AssignID_ok in Hx as (e & Hm & ->). split; [|by eexists].
  apply receipt_VerifyID_ok. exists e. by destruct (receipt_of _).
Qed.

Lemma Spawned_ok {W} (dep : Dependencies W) schema_ok prepared pid w value after w' :
  Spawned dep schema_ok prepared pid w = (Ok (value, after), w') ->
  PL_spawned prepared = false /\ after = mark_spawned prepared
  /\ exists candidate declared createdAt home path w1 w2 w3 w4 w5,
       O_Snapshot (Dep_Observer dep) pid w = (Ok candidate, w1)
       /\ O_Revalidate (Dep_Observer dep) candidate w1 = (Ok tt, w2)
       /\ Dep_EvalSymlinks dep (DeclaredExecutablePath candidate) w2 = (Ok declared, w3)
       /\ Clean declared = Clean (PL_command prepared)
       /\ PID (Cand_Process candidate) = pid
       /\ Receipt.Build schema_ok (receipt_input dep prepared candidate createdAt) = Ok value
       /\ resolveHome dep w4 = (Ok home, w5)
       /\ Dep_WriteReceipt dep home value w5 = (Ok path, w').
Proof.
  unfold Spawned. intros H.
  apply bind_ok in H as (? & v0 & H0 & H). apply require_ok in H0 as [H0 ->].
  apply bind_ok in H as (? & v1 & H1 & H). apply require_ok in H1 as [H1 ->].
  apply bind_ok in H as (candidate & v2 & Hsnap & H).
  apply bind_ok in H as (? & v3 & Hid & H). apply require_ok in Hid as [Hid ->].
  apply bind_ok in H as (u1 & v4 & Hrev & H).
  apply bind_ok in H as (declared & v5 & Hdecl & H).
  apply bind_ok in H as (? & v6 & Hsame & H). apply require_ok in Hsame as [Hsame ->].
  apply bind_ok in H as (createdAt & v7 & _ & H).
  apply bind_ok in H as (built & v8 & Hbuild & H). apply lift_ok in Hbuild as [Hbuild ->].
  apply bind_ok in H as (home & v9 & Hhome & H).
  apply bind_ok in H as (path & v10 & Hwrite & H). apply ret_ok in H as [Hr ->].
  injection Hr as -> ->. apply wrap_ok in Hsnap, Hrev, Hdecl, Hhome, Hwrite. destruct u1.
  apply map_err_ok in Hbuild. unfold identity_complete in Hid. destruct_hyps. to_prop.
  split; [done|]. split; [done|]. exists candidate, declared, createdAt, home, path. do 5 eexists.
  split; [exact Hsnap|]. split; [exact Hrev|]. split; [exact Hdecl|]. by apply String.eqb_eq in Hsame.
Qed.

(** A receipt is stored at most once per launch, and only for the process
    that was started: it names the PID asked for with its creation time and
    boot, the process was confirmed after it was observed and its image is
    the prepared command, the receipt carries its own identity, it is the
    receipt handed to the store, and any further call stores nothing. *)
Theorem Spawned_recorded {W} (dep : Dependencies W) schema_ok prepared pid w value after w' :
  Spawned dep schema_ok prepared pid w = (Ok (value, after), w') ->
  PL_spawned prepared = false
  /\ (exists candidate declared w1 w2 w3,
        O_Snapshot (Dep_Observer dep) pid w = (Ok candidate, w1)
        /\ O_Revalidate (Dep_Observer dep) candidate w1 = (Ok tt, w2)
        /\ Dep_EvalSymlinks dep (DeclaredExecutablePath candidate) w2 = (Ok declared, w3)
        /\ Clean declared = Clean (PL_command prepared)
        /\ PID (Cand_Process candidate) = pid /\ R_Process value = Cand_Process candidate)
  /\ R_Command value = PL_safeCommand prepared
  /\ R_ObservationOnly value = PL_observationOnly prepared
  /\ VerifyID value = Ok tt
  /\ (exists home path w5, Dep_WriteReceipt dep home value w5 = (Ok path, w'))
  /\ forall pid' w'', Spawned dep schema_ok after pid' w''
                      = (Err (WitnessFailed "witness launch was already recorded"), w'').
Proof.
  intros (H0 & -> & candidate & declared & createdAt & home & path & w1 & w2 & w3 & w4 & w5
    & Hsnap & Hrev & Hdecl & Hsame & Hpid & Hbuild & Hhome & Hwrite)%Spawned_ok.
  apply Build_ok in Hbuild as [Hv [id ->]]. split; [done|]. split.
  { exists candidate, declared, w1, w2, w3. do 4 (split; [assumption|]). by split. }
  do 2 (split; [done|]). split; [exact Hv|]. split; [by eauto|]. done.
Qed.

(** ** A controller in a quiet system *)

Definition quiet {A B} (a : A) : B -> io nat unit A := fun _ w => (Ok a, S w).

Definition sample_dependencies : Dependencies nat := {|
  Dep_Tool := Svc_Tool sample_service; Dep_Home := "/state"; Dep_CtxErr w := (false, w);
  Dep_Observer := {| O_Snapshot := steady sample_candidate; O_List := steady [sample_candidate];
                     O_Revalidate := steady tt |};
  Dep_Now w := ("2026-01-01T00:00:00Z", w);
  Dep_LoadExpectation := quiet sample_resolved;
  Dep_DigestArtifact := steady sample_artifact;
  Dep_LookPath := quiet "/opt/app/bin/runtime"; Dep_Getwd w := (Ok "/work", w);
  Dep_EvalSymlinks p w := (Ok p, S w); Dep_HomeVariable := EmptyString;
  Dep_UserHomeDir w := (Ok "/home/u", w);
  Dep_WriteReceipt _ _ w := (Ok "/state/r.json", S w) |}.

Definition sample_launch : WitnessRequest :=
  {| WR_Command := ["runtime"; "--serve"]; WR_ExpectationPath := "m.json" |}.

Definition sample_prepared : PreparedLaunch :=
  bound_launch "/opt/app/bin/runtime" ["--serve"] sample_resolved sample_artifact.

Lemma PrepareLaunch_bound_witness :
  exists resolved artifact entrypoint path w1 w2 w3 w4 w5 w6 w7,
    Dep_LoadExpectation sample_dependencies "m.json" w1 = (Ok resolved, w2)
    /\ Dep_EvalSymlinks sample_dependencies
         (JoinPath [ArtifactRoot resolved; FromSlash (Entrypoint (Launch (Res_Value resolved)))]) w3
       = (Ok entrypoint, w4)
    /\ bound_path sample_dependencies (Kind (Launch (Res_Value resolved))) (PL_command sample_prepared)
         (PL_arguments sample_prepared) w5 = (Ok path, w6)
    /\ Clean entrypoint = Clean path
    /\ arguments_match resolved (PL_command sample_prepared :: PL_arguments sample_prepared)
    /\ Dep_DigestArtifact sample_dependencies resolved w7 = (Ok artifact, 5%nat)
    /\ Obs_SHA256 artifact = Art_SHA256 (Artifact (Res_Value resolved))
    /\ sample_prepared = bound_launch (PL_command sample_prepared) (PL_arguments sample_prepared)
                           resolved artifact.
Proof.
  apply (PrepareLaunch_bound sample_dependencies sample_launch 0%nat sample_prepared 5%nat).
  - vm_compute. reflexivity.
  - discriminate.
Defined.

Definition sample_spawn : result witness_error (LaunchReceipt * PreparedLaunch) * nat :=
  Spawned sample_dependencies (fun _ _ => true) sample_prepared 7 0%nat.

Lemma spawn_ok (r : result witness_error (LaunchReceipt * PreparedLaunch) * nat) :
  is_ok (fst r) = true -> exists v a w, r = (Ok (v, a), w).
Proof. destruct r as [[[v a]|e] w]; [eauto|done]. Qed.

Lemma Spawned_recorded_witness :
  exists value after, VerifyID value = Ok tt
    /\ forall pid' w'', Spawned sample_dependencies (fun _ _ => true) after pid' w''
                        = (Err (WitnessFailed "witness launch was already recorded"), w'').
Proof.
  destruct (spawn_ok sample_spawn) as (value & after & w' & E); [vm_compute; reflexivity|].
  exists value, after.
  destruct (Spawned_recorded sample_dependencies (fun _ _ => true) sample_prepared 7 0%nat
              value after w' E) as (_ & _ & _ & _ & Hv & _ & Hn).
  split; [exact Hv|exact Hn].
Defined.
