(* ===== verification/WitnessRun.v ===== *)
(** * The witness: supervising a launch ([internal/witness/run.go], [supervisor.go])

    [Run] prepares the launch, starts the command under a supervisor, records
    it, and then serves one event at a time until the child has been waited
    for.  The event loop is a transition function; [runs] is the relation of
    its executions, whatever order the events come in. *)

From S2P Require Import Prelude GoStrings GoPath Model Expectation Process ProofId Receipt World App Witness.

(** ** The event loop *)

(** [managed.Wait()] as [processExitCode] reads it. *)
Inductive wait_result :=
| WaitOk
| WaitExit (code : Z)          (* [exec.ExitError] or another error with a code *)
| WaitOther.

Definition processExitCode (err : wait_result) : Z :=
  match err with WaitOk => 0 | WaitExit code => code | WaitOther => -1 end.

(** The cases of the [select]. *)
Inductive event :=
| WaitDone (waitErr : wait_result)
| StdinDone
| ContextDone
| SignalReceived (signal : Z)
| TimerFired.

(** What the loop does to the supervised process. *)
Inductive action :=
| GracefulStop
| ForwardSignal (signal : Z)
| ForceStop
| StartTimer.

(** A channel set to [nil] is never selected again. *)
Record loop_state := {
  stopping : bool;
  stdin_open : bool;
  context_open : bool;
  timer_set : bool            (* [timeout != nil] *)
}.

Definition initial_loop : loop_state :=
  {| stopping := false; stdin_open := true; context_open := true; timer_set := false |}.

Inductive outcome :=
| Continue (next : loop_state) (actions : list action)
| Return (exit : result unit Z)      (* the exit code, or "status is unavailable" *)
| Blocked.                           (* the case's channel is nil *)

Definition stop_with (actions : list action) (s : loop_state) : loop_state * list action :=
  if stopping s then (s, [])
  else ({| stopping := true; stdin_open := stdin_open s; context_open := context_open s;
           timer_set := true |}, actions ++ [StartTimer]).

Definition continue_with (p : loop_state * list action) : outcome := Continue (fst p) (snd p).

Definition close_stdin (s : loop_state) : loop_state :=
  {| stopping := stopping s; stdin_open := false; context_open := context_open s;
     timer_set := timer_set s |}.

Definition close_context (s : loop_state) : loop_state :=
  {| stopping := stopping s; stdin_open := stdin_open s; context_open := false;
     timer_set := timer_set s |}.

Definition clear_timer (s : loop_state) : loop_state :=
  {| stopping := stopping s; stdin_open := stdin_open s; context_open := context_open s;
     timer_set := false |}.

(** One iteration of the [for { select { ... } }]. *)
Definition serve (s : loop_state) (e : event) : outcome :=
  match e with
  | WaitDone waitErr =>
      let code := processExitCode waitErr in
      Return (if code <? 0 then Err tt else Ok code)
  | StdinDone =>
      if stdin_open s then continue_with (stop_with [] (close_stdin s)) else Blocked
  | ContextDone =>
      if context_open s then continue_with (stop_with [GracefulStop] (close_context s)) else Blocked
  | SignalReceived signal => continue_with (stop_with [ForwardSignal signal] s)
  | TimerFired => if timer_set s then Continue (clear_timer s) [ForceStop] else Blocked
  end.

(** Executions: the events served so far and the actions taken. *)
Inductive runs : loop_state -> list event -> list action -> Prop :=
| runs_start : runs initial_loop [] []
| runs_step s events actions e s' more :
    runs s events actions -> serve s e = Continue s' more ->
    runs s' (events ++ [e]) (actions ++ more).

(** ** [Run] *)

(** The supervisor, the pipe and the source of events. *)
Record Supervision (W : Type) := {
  S_Pipe : io W unit unit;
  S_NewSupervisor : string -> list string -> io W unit unit;
  S_Start : io W unit unit;
  S_PID : W -> Z;
  S_Act : action -> W -> W;
  S_Wait : W -> W;                   (* [managed.Wait()] outside the loop *)
  S_Select : loop_state -> W -> event * W;
  S_ClosePipe : W -> W
}.
Arguments S_Pipe {W}. Arguments S_NewSupervisor {W}. Arguments S_Start {W}. Arguments S_PID {W}.
Arguments S_Act {W}. Arguments S_Wait {W}. Arguments S_Select {W}. Arguments S_ClosePipe {W}.

Record RunResult := { ExitCode : Z; Run_ReceiptID : string; Run_PID : Z }.

(** Grace periods in nanoseconds. *)
Definition defaultGracePeriod : Z := 5000000000.
Definition maximumGracePeriod : Z := 60000000000.

Section Run.
Context {W : Type} (dep : Dependencies W) (sup : Supervision W).
Variable schema_ok : string -> json -> bool.

Definition perform (actions : list action) (w : W) : W :=
  fold_left (fun w a => S_Act sup a w) actions w.

(** The loop; [fuel] bounds the events served before the child exits. *)
Fixpoint event_loop (fuel : nat) (s : loop_state) (w : W) : option (result unit Z * W) :=
  match fuel with
  | O => None
  | S fuel' =>
      let '(e, w1) := S_Select sup s w in
      match serve s e with
      | Return exit => Some (exit, w1)
      | Continue s' actions => event_loop fuel' s' (perform actions w1)
      | Blocked => event_loop fuel' s w1
      end
  end.

Definition supervise {A} (reason : string) (c : io W unit A) : io W witness_error A :=
  wrap_error (fun _ => WitnessFailed reason) c.

Definition pid_now : io W witness_error Z := fun w => (Ok (S_PID sup w), w).

(** [prepared.Spawned], which on failure stops and reaps the child. *)
Definition record_or_stop (prepared : PreparedLaunch) (pid : Z)
  : io W witness_error (LaunchReceipt * PreparedLaunch) :=
  fun w => match Spawned dep schema_ok prepared pid w with
           | (Err e, w') => (Err e, S_Wait sup (S_Act sup ForceStop w'))
           | r => r
           end.

(** [None]: the loop used up its fuel. *)
Definition finish (fuel : nat) (receiptID : string) (pid : Z) (w : W)
  : option (result witness_error RunResult * W) :=
  match event_loop fuel initial_loop w with
  | None => None
  | Some (Err _, w') => Some (Err (WitnessFailed "witness child exit status is unavailable"), w')
  | Some (Ok code, w') =>
      Some (Ok {| ExitCode := code; Run_ReceiptID := receiptID; Run_PID := pid |}, w')
  end.

(** From the pipe to the recorded launch. *)
Definition launch (prepared : PreparedLaunch) : io W witness_error (string * Z) :=
  do! _ := supervise "witness process supervisor is unavailable"
             (S_NewSupervisor sup (PL_command prepared) (PL_arguments prepared)) in
  do! _ := supervise "witness process could not be started" (S_Start sup) in
  do! pid := pid_now in
  do! recorded := record_or_stop prepared pid in
  ret (ReceiptID (fst recorded), pid).

Definition grace_valid (requested : Z) : bool :=
  let gracePeriod := if requested =? 0 then defaultGracePeriod else requested in
  (0 <=? gracePeriod) && (gracePeriod <=? maximumGracePeriod).

Definition Run (fuel : nat) (request : WitnessRequest) (gracePeriod : Z) (w : W)
  : option (result witness_error RunResult * W) :=
  match (require! grace_valid gracePeriod else WitnessInvalidInput in
         do! prepared := PrepareLaunch dep request in
         do! _ := supervise "witness stdin pipe is unavailable" (S_Pipe sup) in
         ret prepared) w with
  | (Err e, w1) => Some (Err e, w1)
  | (Ok prepared, w1) =>
      let closed r := match r with
                      | Some (x, w') => Some (x, S_ClosePipe sup w')
                      | None => None
                      end in
      match launch prepared w1 with
      | (Err e, w2) => closed (Some (Err e, w2))
      | (Ok (receiptID, pid), w2) => closed (finish fuel receiptID pid w2)
      end
  end.
End Run.

(** ** What the loop does *)

Definition is_timer_event (e : event) : bool := match e with TimerFired => true | _ => false end.
Definition is_stdin_event (e : event) : bool := match e with StdinDone => true | _ => false end.
Definition is_context_event (e : event) : bool := match e with ContextDone => true | _ => false end.

(** The first event decides how the child is asked to stop. *)
Definition reaction (e : event) : list action :=
  match e with
  | ContextDone => [GracefulStop]
  | SignalReceived signal => [ForwardSignal signal]
  | _ => []
  end.

(** The actions of an execution, from its events alone. *)
Definition expected_actions (events : list event) : list action :=
  match events with
  | [] => []
  | first :: _ => reaction first ++ StartTimer
                  :: (if existsb is_timer_event events then [ForceStop] else [])
  end.

(** What a state remembers of the events. *)
Record remembers (s : loop_state) (events : list event) : Prop := {
  rem_stopping : stopping s = negb (length events =? 0)%nat;
  rem_stdin : stdin_open s = negb (existsb is_stdin_event events);
  rem_context : context_open s = negb (existsb is_context_event events);
  rem_timer : timer_set s = stopping s && negb (existsb is_timer_event events)
}.

Lemma stop_with_remembers actions s e events :
  stopping s = negb (length events =? 0)%nat ->
  timer_set s = stopping s && negb (existsb is_timer_event events) -> is_timer_event e = false ->
  stdin_open s = negb (existsb is_stdin_event (events ++ [e])) ->
  context_open s = negb (existsb is_context_event (events ++ [e])) ->
  remembers (fst (stop_with actions s)) (events ++ [e]).
Proof.
  intros Hs Ht He Hi Hc.
  assert (Hlen : (length (events ++ [e]) =? 0)%nat = false)
    by (rewrite length_app; cbn; apply Nat.eqb_neq; lia).
  unfold stop_with. destruct (stopping s) eqn:E; split; cbn [fst stopping stdin_open context_open timer_set];
    try (rewrite Hlen; done || exact E); try done.
  - rewrite Ht, E, existsb_app. cbn [existsb]. by rewrite He, !orb_false_r.
  - rewrite existsb_app. cbn [existsb andb]. rewrite He, !orb_false_r.
    destruct events; [done|]. cbn in Hs. discriminate Hs.
Qed.

Lemma runs_remembers s events actions : runs s events actions -> remembers s events.
Proof.
  induction 1 as [|s events actions e s' more _ [Hs Hi Hc Ht] Hserve]; [by split|].
  destruct e as [we| | |sig|]; cbn [serve] in Hserve; [done|..].
  - destruct (stdin_open s); [|done]. unfold continue_with in Hserve. injection Hserve as <- _.
    apply stop_with_remembers; try done; cbn [close_stdin stdin_open context_open];
      rewrite existsb_app; cbn [existsb is_stdin_event is_context_event];
      rewrite ?orb_true_r, ?orb_false_r; done.
  - destruct (context_open s); [|done]. unfold continue_with in Hserve. injection Hserve as <- _.
    apply stop_with_remembers; try done; cbn [close_context stdin_open context_open];
      rewrite existsb_app; cbn [existsb is_stdin_event is_context_event];
      rewrite ?orb_true_r, ?orb_false_r; done.
  - unfold continue_with in Hserve. injection Hserve as <- _.
    apply stop_with_remembers; try done;
      rewrite existsb_app; cbn [existsb is_stdin_event is_context_event]; by rewrite orb_false_r.
  - destruct (timer_set s); [|done]. injection Hserve as <- _.
    symmetry in Ht. apply andb_true_iff in Ht as [Hstop _].
    split; cbn [clear_timer stopping stdin_open context_open timer_set]; rewrite ?existsb_app; cbn [existsb];
      rewrite ?orb_false_r, ?orb_true_r, ?andb_false_r; try done.
    rewrite Hstop, length_app. cbn. symmetry. apply negb_true_iff, Nat.eqb_neq. lia.
Qed.

Lemma runs_actions s events actions :
  runs s events actions -> actions = expected_actions events.
Proof.
  induction 1 as [|s events actions e s' more Hruns IH Hserve]; [done|].
  pose proof (runs_remembers _ _ _ Hruns) as [Hs Hi Hc Ht]. subst actions.
  destruct events as [|first rest].
  - cbn in Hs, Ht. rewrite Hs in Ht. cbn in Ht.
    destruct e as [we| | |sig|]; cbn [serve] in Hserve; try done;
      unfold continue_with, stop_with in Hserve; cbn [stopping close_stdin close_context] in Hserve;
      try rewrite Hs in Hserve.
    + destruct (stdin_open s); [|done]. by injection Hserve as <- <-.
    + destruct (context_open s); [|done]. by injection Hserve as <- <-.
    + by injection Hserve as <- <-.
    + by rewrite Ht in Hserve.
  - cbn [length Nat.eqb negb] in Hs. cbn [app expected_actions].
    rewrite <- app_assoc. f_equal. cbn [app]. f_equal.
    rewrite (app_comm_cons rest [e] first), existsb_app. cbn [existsb].
    set (fired := is_timer_event first || existsb is_timer_event rest) in *.
    assert (Ht' : timer_set s = negb fired) by (rewrite Ht, Hs; done).
    destruct e as [we| | |sig|]; cbn [serve is_timer_event orb] in *; try done;
      unfold continue_with, stop_with in Hserve; cbn [stopping close_stdin close_context] in Hserve;
      try rewrite Hs in Hserve.
    + destruct (stdin_open s); [|done]. injection Hserve as _ <-. by rewrite app_nil_r, orb_false_r.
    + destruct (context_open s); [|done]. injection Hserve as _ <-. by rewrite app_nil_r, orb_false_r.
    + injection Hserve as _ <-. by rewrite app_nil_r, orb_false_r.
    + rewrite Ht' in Hserve. destruct fired; [done|]. by injection Hserve as _ <-.
Qed.

(** C17: in every execution of the supervision loop, in whatever order its
    events arrive, the actions are a function of the events: the first event
    alone decides how the child is asked to stop (nothing for the end of
    input, a termination request for a cancelled context, the signal itself
    for a signal), the grace timer is started exactly then and once, and the
    child is killed exactly when that timer fires, at most once and last. *)
Theorem loop_actions s events actions :
  runs s events actions -> actions = expected_actions events.
Proof. apply runs_actions. Qed.

(** Until the child exits the loop serves at most three events besides
    signals (end of input, cancellation, timer, each at most once), so it
    cannot spin; and it never blocks on a child that has exited. *)
Theorem loop_bounded s events actions :
  runs s events actions ->
  (length (List.filter is_stdin_event events) <= 1
   /\ length (List.filter is_context_event events) <= 1
   /\ length (List.filter is_timer_event events) <= 1)%nat
  /\ Forall (fun e => match e with WaitDone _ => False | _ => True end) events
  /\ forall we, exists exit, serve s (WaitDone we) = Return exit.
Proof.
  intros H. split; [|split; [|by eexists]].
  - induction H as [|s events actions e s' more Hruns IH Hserve]; [cbn; lia|].
    pose proof (runs_remembers _ _ _ Hruns) as [Hs Hi Hc Ht].
    assert (Hnone : forall f, existsb f events = false -> List.filter f events = []).
    { intros f Hf. induction events as [|x l IHl]; [done|]. cbn in Hf |- *.
      apply orb_false_iff in Hf as [-> Hf]. cbn. clear -Hf.
      induction l as [|y l IHl]; [done|]. cbn in *. apply orb_false_iff in Hf as [-> Hf]. auto. }
    rewrite !List.filter_app, !length_app.
    destruct e as [we| | |sig|]; cbn [serve List.filter is_stdin_event is_context_event is_timer_event length]
      in *; try done; try lia.
    + destruct (stdin_open s); [|done]. symmetry in Hi. apply negb_true_iff in Hi.
      rewrite (Hnone _ Hi). cbn. lia.
    + destruct (context_open s); [|done]. symmetry in Hc. apply negb_true_iff in Hc.
      rewrite (Hnone _ Hc). cbn. lia.
    + destruct (timer_set s); [|done]. symmetry in Ht. apply andb_true_iff in Ht as [_ Ht].
      apply negb_true_iff in Ht. rewrite (Hnone _ Ht). cbn. lia.
  - induction H as [|s events actions e s' more Hruns IH Hserve]; [constructor|].
    apply Forall_app. split; [done|]. constructor; [|constructor].
    destruct e; [by cbn in Hserve|done..].
Qed.

(** Once the end of input has started the shutdown, a signal or a
    cancelled context no longer reaches the child: nothing is sent to it
    before the grace period ends, and then only the kill. *)
Theorem stop_request_lost s rest actions :
  runs s (StdinDone :: rest) actions ->
  actions = [StartTimer] \/ actions = [StartTimer; ForceStop].
Proof.
  intros ->%runs_actions. cbn. destruct (existsb _ rest); [by right|by left].
Qed.

(** ** No child is left behind *)

(** The dependencies of a witness do not change a part of the world. *)
Class Blind {W T : Type} (dep : Dependencies W) (view : W -> T) : Prop := {
  ctx_view : forall w, view (snd (Dep_CtxErr dep w)) = view w;
  now_view : forall w, view (snd (Dep_Now dep w)) = view w;
  snapshot_view : forall pid w, view (snd (O_Snapshot (Dep_Observer dep) pid w)) = view w;
  revalidate_view : forall c w, view (snd (O_Revalidate (Dep_Observer dep) c w)) = view w;
  load_view : forall p w, view (snd (Dep_LoadExpectation dep p w)) = view w;
  digest_view : forall r w, view (snd (Dep_DigestArtifact dep r w)) = view w;
  lookpath_view : forall p w, view (snd (Dep_LookPath dep p w)) = view w;
  getwd_view : forall w, view (snd (Dep_Getwd dep w)) = view w;
  links_view : forall p w, view (snd (Dep_EvalSymlinks dep p w)) = view w;
  home_view : forall w, view (snd (Dep_UserHomeDir dep w)) = view w;
  receipt_view : forall h r w, view (snd (Dep_WriteReceipt dep h r w)) = view w
}.

(** [children] counts the processes started and not yet waited for; only the
    supervisor changes it, and an event that reports the child's exit has
    waited for it. *)
Class ChildLaws {W} (dep : Dependencies W) (sup : Supervision W) (children : W -> Z) : Prop := {
  child_blind :: Blind dep children;
  pipe_children : forall w, children (snd (S_Pipe sup w)) = children w;
  supervisor_children : forall c a w, children (snd (S_NewSupervisor sup c a w)) = children w;
  start_children : forall w,
    children (snd (S_Start sup w)) = children w + Z.b2z (is_ok (fst (S_Start sup w)));
  act_children : forall a w, children (S_Act sup a w) = children w;
  wait_children : forall w, 0 < children w -> children (S_Wait sup w) = children w - 1;
  select_children : forall s w, 0 < children w -> children (snd (S_Select sup s w))
    = children w - (match fst (S_Select sup s w) with WaitDone _ => 1 | _ => 0 end);
  children_nonneg : forall w, 0 <= children w;
  close_children : forall w, children (S_ClosePipe sup w) = children w
}.

(** What the [select] of the loop promises: it never picks a channel that is
    [nil], and at most [arrivals] signals come in; [signals] counts those
    still to come.  Every event, and so the end of the child, does arrive. *)
Class SelectLaws {W} (sup : Supervision W) (signals : W -> nat) (arrivals : nat) : Prop := {
  select_enabled : forall s w, serve s (fst (S_Select sup s w)) <> Blocked;
  select_signals : forall s w,
    ((match fst (S_Select sup s w) with SignalReceived _ => 1 | _ => 0 end)
     + signals (snd (S_Select sup s w)) <= signals w)%nat;
  act_signals : forall a w, (signals (S_Act sup a w) <= signals w)%nat;
  signals_bounded : forall w, (signals w <= arrivals)%nat
}.

Section Termination.
Context {W : Type} (sup : Supervision W) (signals : W -> nat) (arrivals : nat)
  `{!SelectLaws sup signals arrivals}.

(** How many events the loop can still serve before the child's exit. *)
Definition events_left (s : loop_state) (w : W) : nat :=
  signals w + (if stdin_open s then 1 else 0) + (if context_open s then 1 else 0)
  + (if timer_set s then 1 else 0) + (if stopping s then 0 else 1).

Lemma perform_signals actions w : (signals (perform sup actions w) <= signals w)%nat.
Proof.
  unfold perform. revert w. induction actions as [|a l IH]; intros w; [done|]. cbn [fold_left].
  pose proof (act_signals a w). specialize (IH (S_Act sup a w)). lia.
Qed.

Lemma serve_decreases s e s' actions w w1 :
  serve s e = Continue s' actions ->
  ((match e with SignalReceived _ => 1 | _ => 0 end) + signals w1 <= signals w)%nat ->
  (events_left s' (perform sup actions w1) < events_left s w)%nat.
Proof.
  intros Hs Hw. pose proof (perform_signals actions w1) as Hp. unfold events_left.
  destruct s as [st si co ti]. destruct e; cbn in Hs; try done.
  - destruct si; [|done]. injection Hs as <- <-. destruct st, ti, co; cbn in *; lia.
  - destruct co; [|done]. injection Hs as <- <-. destruct st, ti, si; cbn in *; lia.
  - injection Hs as <- <-. destruct st, ti, si, co; cbn in *; lia.
  - destruct ti; [|done]. injection Hs as <- <-. destruct st, si, co; cbn in *; lia.
Qed.

Lemma event_loop_returns fuel s w :
  (events_left s w < fuel)%nat ->
  exists r w', event_loop sup fuel s w = Some (r, w') /\ forall code, r = Ok code -> 0 <= code.
Proof.
  revert s w. induction fuel as [|fuel IH]; intros s w Hf; [lia|]. cbn [event_loop].
  pose proof (select_enabled s w) as He. pose proof (select_signals s w) as Hsig.
  destruct (S_Select sup s w) as [e w1]. cbn [fst snd] in *.
  destruct (serve s e) as [s' actions|exit|] eqn:E; [| |done].
  - apply IH. pose proof (serve_decreases s e s' actions w w1 E Hsig). lia.
  - exists exit, w1. split; [done|]. intros code ->. destruct e; cbn in E; try done.
    + destruct (Z.ltb_spec (processExitCode waitErr) 0); [done|]. by injection E as <-.
    + by destruct (stdin_open s).
    + by destruct (context_open s).
    + by destruct (timer_set s).
Qed.
End Termination.

Section Blind.
Context {W T : Type} (dep : Dependencies W) (view : W -> T) `{!Blind dep view}.
Variable schema_ok : string -> json -> bool.

(** An operation that leaves the view alone. *)
Definition idle {E A} (c : io W E A) : Prop := forall w, view (snd (c w)) = view w.

Lemma idle_ret {E A} (a : A) : idle (ret (E := E) a).
Proof. done. Qed.

Lemma idle_throw {E A} (e : E) : idle (throw (A := A) e).
Proof. done. Qed.

Lemma idle_lift {E A} (r : result E A) : idle (lift r).
Proof. done. Qed.

Lemma idle_bind {E A B} (c : io W E A) (k : A -> io W E B) :
  idle c -> (forall a, idle (k a)) -> idle (bind c k).
Proof.
  intros Hc Hk w. unfold bind. specialize (Hc w). destruct (c w) as [[a|e] w']; cbn [snd] in *; [|done].
  by rewrite Hk.
Qed.

Lemma idle_wrap {E F A} (f : E -> F) (c : io W E A) : idle c -> idle (wrap_error f c).
Proof. intros Hc w. unfold wrap_error. specialize (Hc w). by destruct (c w). Qed.

Lemma idle_absolute path : idle (absolute_path dep path).
Proof.
  unfold absolute_path. destruct (IsAbs path); [apply idle_ret|].
  apply idle_bind; [intros w; apply getwd_view|intros; apply idle_ret].
Qed.

Ltac idle_step :=
  first [ apply idle_ret | apply idle_throw | apply idle_lift | apply idle_absolute
        | apply idle_wrap
        | intros ?w; first [ apply lookpath_view | apply getwd_view | apply links_view
                           | apply load_view | apply digest_view | apply snapshot_view
                           | apply revalidate_view | apply home_view | apply receipt_view ]
        | apply idle_bind; [|intros ?] ].

Lemma idle_bindCommand resolved executable arguments :
  idle (bindCommand dep resolved executable arguments).
Proof.
  unfold bindCommand, bound_path, invalid, require.
  repeat idle_step. destruct (_ || _); [repeat idle_step|]. destruct (_ =s _); [|repeat idle_step].
  destruct arguments; repeat idle_step.
Qed.

Lemma idle_PrepareLaunch request : idle (PrepareLaunch dep request).
Proof.
  unfold PrepareLaunch, resolve_executable, invalid, failing, require. apply idle_bind; [|intros _].
  { intros w. unfold witness_ctx. pose proof (ctx_view w) as H. by destruct (Dep_CtxErr dep w). }
  idle_step; [repeat idle_step|]. destruct (WR_Command request) as [|name arguments]; [repeat idle_step|].
  idle_step; [repeat idle_step|]. destruct (_ =s _); [repeat idle_step|].
  idle_step; [repeat idle_step|]. idle_step; [apply idle_bindCommand|]. repeat idle_step.
Qed.

Lemma idle_Spawned prepared pid : idle (Spawned dep schema_ok prepared pid).
Proof.
  unfold Spawned, failing, require. do 7 (idle_step; [repeat idle_step|]).
  idle_step. { intros w. unfold dep_now. pose proof (now_view w) as H. by destruct (Dep_Now dep w). }
  idle_step; [repeat idle_step|]. idle_step; [|repeat idle_step].
  apply idle_wrap. unfold resolveHome. destruct (_ =s _); [|apply idle_absolute]. repeat idle_step.
Qed.

Lemma idle_prefix (sup : Supervision W) gracePeriod request :
  (forall w, view (snd (S_Pipe sup w)) = view w) ->
  idle (require! grace_valid gracePeriod else WitnessInvalidInput in
        do! prepared := PrepareLaunch dep request in
        do! _ := supervise "witness stdin pipe is unavailable" (S_Pipe sup) in
        ret prepared).
Proof.
  intros Hpipe. unfold require, supervise. idle_step; [repeat idle_step|]. idle_step; [apply idle_PrepareLaunch|].
  idle_step; [apply idle_wrap; exact Hpipe|]. repeat idle_step.
Qed.
End Blind.

Section Children.
Context {W : Type} (dep : Dependencies W) (sup : Supervision W) (children : W -> Z)
  `{!ChildLaws dep sup children}.
Variable schema_ok : string -> json -> bool.

Lemma perform_children actions w : children (perform sup actions w) = children w.
Proof.
  unfold perform. revert w. induction actions as [|a l IH]; intros w; [done|].
  cbn [fold_left]. by rewrite IH, act_children.
Qed.

Lemma event_loop_children fuel s w r w' :
  0 < children w -> event_loop sup fuel s w = Some (r, w') -> children w' = children w - 1.
Proof.
  revert s w. induction fuel as [|fuel IH]; intros s w Hpos; [done|]. cbn [event_loop].
  pose proof (select_children s w Hpos) as Hs. destruct (S_Select sup s w) as [e w1]. cbn [fst snd] in Hs.
  destruct (serve s e) as [s' actions|exit|] eqn:E.
  - assert (He : (match e with WaitDone _ => 1 | _ => 0 end) = 0) by (by destruct e).
    rewrite He in Hs. intros H%IH; [|rewrite perform_children; lia]. rewrite H, perform_children. lia.
  - intros [= _ <-]. rewrite Hs. destruct e; cbn [serve] in E; try lia.
    + destruct (stdin_open s); discriminate E.
    + destruct (context_open s); discriminate E.
    + discriminate E.
    + destruct (timer_set s); discriminate E.
  - assert (He : (match e with WaitDone _ => 1 | _ => 0 end) = 0) by (by destruct e).
    rewrite He in Hs. intros H%IH; lia.
Qed.

Lemma launch_children prepared w :
  children (snd (launch dep sup schema_ok prepared w))
  = children w + Z.b2z (is_ok (fst (launch dep sup schema_ok prepared w))).
Proof.
  unfold launch, supervise, bind, wrap_error, pid_now, record_or_stop, ret.
  pose proof (supervisor_children (PL_command prepared) (PL_arguments prepared) w) as H1.
  destruct (S_NewSupervisor sup _ _ w) as [[[]|[]] w1]; cbn [map_err fst snd is_ok Z.b2z] in *; [|lia].
  pose proof (start_children w1) as H2.
  destruct (S_Start sup w1) as [[[]|[]] w2]; cbn [map_err fst snd is_ok Z.b2z] in *; [|lia].
  pose proof (idle_Spawned dep children schema_ok prepared (S_PID sup w2) w2) as H3.
  destruct (Spawned dep schema_ok prepared (S_PID sup w2) w2) as [[v|e] w3]; cbn [fst snd is_ok Z.b2z] in *.
  - lia.
  - pose proof (children_nonneg w). rewrite wait_children; rewrite act_children; lia.
Qed.

End Children.

Lemma Run_exists {W} (dep : Dependencies W) sup children signals arrivals
  `{!ChildLaws dep sup children} `{!SelectLaws sup signals arrivals} schema_ok fuel request gracePeriod w :
  (arrivals + 4 <= fuel)%nat ->
  exists r w', Run dep sup schema_ok fuel request gracePeriod w = Some (r, w')
    /\ children w' = children w /\ forall result, r = Ok result -> 0 <= ExitCode result.
Proof.
  intros Hf. unfold Run. pose proof (idle_prefix dep children sup gracePeriod request pipe_children w) as H1.
  destruct (bind _ _ w) as [[prepared|e] w1]; cbn [snd] in H1; [|by eexists _, _].
  pose proof (launch_children dep sup children schema_ok prepared w1) as H2.
  destruct (launch dep sup schema_ok prepared w1) as [[[receiptID pid]|e] w2]; cbn [fst snd is_ok Z.b2z] in H2.
  - destruct (event_loop_returns sup signals arrivals fuel initial_loop w2) as (exit & w3 & E & Hexit).
    { unfold events_left. cbn. pose proof (signals_bounded w2). lia. }
    unfold finish. rewrite E. pose proof (children_nonneg w) as Hn.
    apply (event_loop_children dep sup children) in E; [|lia].
    destruct exit as [code|[]]; (eexists _, _; split; [reflexivity|]); rewrite close_children;
      (split; [lia|]); [|done]. intros result [= <-]. by apply Hexit.
  - eexists _, _. split; [reflexivity|]. rewrite close_children. split; [lia|done].
Qed.

(** C16: a witness always returns, and leaves no child behind: once the child
    has exited, however many of the at most [arrivals] signals and other
    events come before, [Run] returns with no more iterations of its loop than
    [arrivals + 4]; on every path (the preparation fails, the child cannot be
    started, its receipt cannot be recorded, it exits by itself or is stopped)
    the processes [Run] has started have been waited for when it returns, and
    an exit code it reports is not negative. *)
Theorem Run_reaps {W} (dep : Dependencies W) sup children signals arrivals
  `{!ChildLaws dep sup children} `{!SelectLaws sup signals arrivals} schema_ok fuel request gracePeriod w :
  (arrivals + 4 <= fuel)%nat ->
  exists r w', Run dep sup schema_ok fuel request gracePeriod w = Some (r, w')
    /\ children w' = children w /\ forall result, r = Ok result -> 0 <= ExitCode result.
Proof. by apply (Run_exists dep sup children signals arrivals). Qed.

(** ** A launch whose child needs to be killed

    The world counts the children; the child ignores the end of its input and
    a signal and exits when killed. *)

Definition unchanged {E A B} (a : A) : B -> io nat E A := fun _ w => (Ok a, w).

Definition calm_dependencies : Dependencies nat := {|
  Dep_Tool := Svc_Tool sample_service; Dep_Home := "/state"; Dep_CtxErr w := (false, w);
  Dep_Observer := {| O_Snapshot := unchanged sample_candidate; O_List := unchanged [sample_candidate];
                     O_Revalidate := unchanged tt |};
  Dep_Now w := ("2026-01-01T00:00:00Z", w);
  Dep_LoadExpectation := unchanged sample_resolved;
  Dep_DigestArtifact := unchanged sample_artifact;
  Dep_LookPath := unchanged "/opt/app/bin/runtime"; Dep_Getwd w := (Ok "/work", w);
  Dep_EvalSymlinks p w := (Ok p, w); Dep_HomeVariable := EmptyString;
  Dep_UserHomeDir w := (Ok "/home/u", w);
  Dep_WriteReceipt _ _ w := (Ok "/state/r.json", w) |}.

Definition stubborn_child : Supervision nat := {|
  S_Pipe w := (Ok tt, w); S_NewSupervisor _ _ w := (Ok tt, w); S_Start w := (Ok tt, S w);
  S_PID _ := 7; S_Act _ w := w; S_Wait w := Nat.pred w;
  S_Select s w :=
    if stdin_open s then (StdinDone, w)
    else if timer_set s then (TimerFired, w)
    else (WaitDone (WaitExit 137), Nat.pred w);
  S_ClosePipe w := w |}.

#[export] Instance stubborn_laws : ChildLaws calm_dependencies stubborn_child Z.of_nat.
Proof.
  split; try done; intros; cbn; try lia.
  destruct (stdin_open s); [cbn; lia|]. destruct (timer_set s); cbn; lia.
Qed.

Definition exit_code (r : option (result witness_error RunResult * nat)) : option Z :=
  match r with Some (Ok res, _) => Some (ExitCode res) | _ => None end.

#[export] Instance stubborn_select : SelectLaws stubborn_child (fun _ => 0%nat) 0.
Proof.
  split; [intros s w|intros s w|done|done]; cbn.
  - destruct (stdin_open s) eqn:Hs; cbn; [by rewrite Hs|].
    destruct (timer_set s) eqn:Ht; cbn; [by rewrite Ht|done].
  - destruct (stdin_open s); [done|]. by destruct (timer_set s).
Qed.

Lemma Run_reaps_witness :
  let run := Run calm_dependencies stubborn_child (fun _ _ => true) 5 sample_launch 0 0%nat in
  exit_code run = Some 137 /\ exists r w', run = Some (r, w') /\ w' = 0%nat.
Proof.
  cbv zeta. split; [vm_compute; reflexivity|].
  destruct (Run_reaps calm_dependencies stubborn_child Z.of_nat (fun _ => 0%nat) 0 (fun _ _ => true) 5
              sample_launch 0 0%nat) as (r & w' & E & Hc & _); [lia|].
  exists r, w'. split; [exact E|]. lia.
Defined.

(** An execution with every kind of event before the exit. *)
Definition busy_events : list event := [SignalReceived 15; ContextDone; StdinDone; TimerFired; SignalReceived 2].

Definition stopped (stdin context timer : bool) : loop_state :=
  {| stopping := true; stdin_open := stdin; context_open := context; timer_set := timer |}.

Lemma busy_run : runs (stopped false false false) busy_events [ForwardSignal 15; StartTimer; ForceStop].
Proof.
  apply (runs_step (stopped false false false) [SignalReceived 15; ContextDone; StdinDone; TimerFired]
           [ForwardSignal 15; StartTimer; ForceStop] (SignalReceived 2) _ []); [|done].
  apply (runs_step (stopped false false true) [SignalReceived 15; ContextDone; StdinDone]
           [ForwardSignal 15; StartTimer] TimerFired _ [ForceStop]); [|done].
  apply (runs_step (stopped true false true) [SignalReceived 15; ContextDone]
           [ForwardSignal 15; StartTimer] StdinDone _ []); [|done].
  apply (runs_step (stopped true true true) [SignalReceived 15]
           [ForwardSignal 15; StartTimer] ContextDone _ []); [|done].
  by apply (runs_step initial_loop [] [] (SignalReceived 15) _ [ForwardSignal 15; StartTimer]);
    [constructor|].
Qed.

Lemma loop_actions_witness :
  runs (stopped false false false) busy_events [ForwardSignal 15; StartTimer; ForceStop]
  /\ [ForwardSignal 15; StartTimer; ForceStop] = expected_actions busy_events.
Proof.
  split; [exact busy_run|].
  apply (loop_actions (stopped false false false) busy_events). exact busy_run.
Defined.

Lemma loop_bounded_witness :
  (length (List.filter is_stdin_event busy_events) <= 1
   /\ length (List.filter is_context_event busy_events) <= 1
   /\ length (List.filter is_timer_event busy_events) <= 1)%nat
  /\ Forall (fun e => match e with WaitDone _ => False | _ => True end) busy_events
  /\ forall we, exists exit, serve (stopped false false false) (WaitDone we) = Return exit.
Proof. apply (loop_bounded _ _ _ busy_run). Defined.

Lemma eof_run : runs (stopped false true true) [StdinDone; SignalReceived 15] [StartTimer].
Proof.
  apply (runs_step (stopped false true true) [StdinDone] [StartTimer] (SignalReceived 15) _ []); [|done].
  by apply (runs_step initial_loop [] [] StdinDone _ [StartTimer]); [constructor|].
Qed.

Lemma stop_request_lost_witness :
  [StartTimer] = [StartTimer] \/ [StartTimer] = [StartTimer; ForceStop].
Proof. apply (stop_request_lost _ [SignalReceived 15] _ eof_run). Defined.
