(* ===== verification/Cli.v ===== *)
(** * The command line ([internal/cli/run.go])

    [Run] reads the arguments of a command, hands one request to the runtime
    and turns the outcome into output, a diagnostic and an exit code.  The
    runtime is an interface ([Runtime]); its contract towards the commands is
    a type class that the application service discharges. *)

From S2P Require Import Prelude GoStrings GoSha256 Model Wire Expectation Process Evaluator.
From S2P Require Import HostParse Privacy ProofId World App Doctor Flags Witness WitnessRun.

(** ** The runtime *)

(** [Runtime], and [WitnessRuntime] where the runtime implements it; a
    witness that never ends has no result. *)
Record Runtime (W : Type) := {
  RT_Inspect : InspectRequest -> io W app_error (list Proof);
  RT_Verify : VerifyRequest -> io W app_error Proof;
  RT_Doctor : string -> W -> DoctorResult * W;
  RT_Witness : option (WitnessRequest -> Z -> W -> option (result witness_error RunResult * W))
}.
Arguments RT_Inspect {W}. Arguments RT_Verify {W}. Arguments RT_Doctor {W}. Arguments RT_Witness {W}.

(** What the commands rely on: an inspection that passes the request check is
    not refused as invalid input, and a conclusive proof has its evidence. *)
Class RuntimeContract {W} (rt : Runtime W) (evidence : VerifyRequest -> Proof -> Prop) := {
  inspect_accepts : forall request w,
    inspect_valid request = true -> fst (RT_Inspect rt request w) <> Err ErrInvalidInput;
  verify_evidence : forall request w p w',
    RT_Verify rt request w = (Ok p, w') -> conclusive (Verdict p) -> evidence request p
}.

(** The runtime of [main]: the application service and the witness. *)
Definition localRuntime {W} (schema_ok : string -> json -> bool) (u : UnicodeTables)
  (build_platform : Platform) (getpid : Z) (service : Service W)
  (witness : option (WitnessRequest -> Z -> W -> option (result witness_error RunResult * W)))
  : Runtime W := {|
  RT_Inspect := Inspect schema_ok u build_platform service;
  RT_Verify := Verify schema_ok u build_platform service;
  RT_Doctor := Doctor schema_ok build_platform getpid service;
  RT_Witness := witness |}.

#[export] Instance localRuntime_contract {W} schema_ok u platform getpid (service : Service W) witness :
  RuntimeContract (localRuntime schema_ok u platform getpid service witness) (evidence_of service).
Proof.
  split.
  - intros request w Hv H.
    assert (Hsafe : safe (fun e => e <> ErrInvalidInput)
      (Inspect schema_ok u platform service request) (Forall inspection_proof))
      by (apply safe_Inspect; try done; congruence).
    specialize (Hsafe w I). cbn [localRuntime RT_Inspect] in H.
    destruct (Inspect _ _ _ _ _ w) as [[a|e] w']; cbn [fst] in *; congruence.
  - intros request w p w'. apply Verify_evidence.
Qed.

(** ** Output *)

(** What is written to the standard output. *)
Inductive output :=
| UsageText (text : string)
| JsonDocument (value : json)
| TableLines (lines : list string).        (* what the [tabwriter] is given *)

Record reply := {
  Exit : Z;
  Stdout : list output;
  Stderr : list string
}.

Definition ExitOK : Z := 0.
Definition ExitNegative : Z := 2.
Definition ExitUnknown : Z := 3.
Definition ExitInvalidInput : Z := 64.
Definition ExitInternal : Z := 70.

(** [writeDiagnostic]. *)
Definition diagnostic (message : string) : string := "agent-runtime-proof: " +:+ message.

Definition fail_with (code : Z) (message : string) : reply :=
  {| Exit := code; Stdout := []; Stderr := [diagnostic message] |}.

Definition usage (text : string) : reply := {| Exit := ExitOK; Stdout := [UsageText text]; Stderr := [] |}.

Definition handleError (err : app_error) : reply :=
  match err with
  | ErrInvalidInput => fail_with ExitInvalidInput "invalid command input"
  | _ => fail_with ExitInternal "operation failed"
  end.

Definition verdictExit (verdict : string) : Z :=
  if verdict =s "MATCHED" then ExitOK else if verdict =s "UNKNOWN" then ExitUnknown else ExitNegative.

Definition validFormat (value : string) : bool := (value =s "table") || (value =s "json").

Definition helpRequested (args : list string) : bool :=
  match args with [a] => (a =s "--help") || (a =s "-h") | _ => false end.

(** Ends in an ellipsis (U+2026) when it was cut. *)
Definition shortID (value : string) : string :=
  if slen value <=? 19 then value else stake 19 value +:+ EncodeRune 8230.

(** ** Digests given on the command line *)

Definition hex_value (c : ascii) : option Z :=
  let b := byte_val c in
  if in_range 48 57 b then Some (b - 48)
  else if in_range 97 102 b then Some (b - 97 + 10)
  else if in_range 65 70 b then Some (b - 65 + 10)
  else None.

(** [hex.DecodeString]. *)
Fixpoint DecodeString (s : string) : option (list Z) :=
  match s with
  | EmptyString => Some []
  | String a (String b t) =>
      match hex_value a, hex_value b, DecodeString t with
      | Some x, Some y, Some rest => Some (x * 16 + y :: rest)
      | _, _, _ => None
      end
  | String _ EmptyString => None
  end.

Definition digest_valid (u : UnicodeTables) (value : string) : bool :=
  match DecodeString value with
  | Some decoded => (length decoded =? 32)%nat && (value =s ToLower u value)
  | None => false
  end.

(** [digestList.valid]. *)
Definition digests_valid (u : UnicodeTables) (values : list string) : bool :=
  forallb (digest_valid u) values.

(** ** The commands *)

Definition flag_spec (spec : list (string * flag_kind)) (name : string) : option flag_kind :=
  match List.find (fun p => fst p =s name) spec with Some (_, kind) => Some kind | None => None end.

Definition inspect_flags : list (string * flag_kind) :=
  [("pid", IntFlag); ("binding", StringFlag); ("all", BoolFlag); ("limit", IntFlag); ("format", StringFlag)].

Definition verify_flags : list (string * flag_kind) :=
  [("pid", IntFlag); ("binding", StringFlag); ("expectation", StringFlag); ("format", StringFlag);
   ("known-prior-digest", ListFlag)].

Definition doctor_flags : list (string * flag_kind) := [("format", StringFlag); ("host", StringFlag)].

Definition witness_flags : list (string * flag_kind) :=
  [("expectation", StringFlag); ("grace-period", DurationFlag)].

Section Cli.
Context {W : Type}.
Variable u : UnicodeTables.
Variable fraction_nanoseconds : Z -> Z -> Z -> Z.
(** Whether the standard output takes what is written to it. *)
Variable stdout_ok : output -> bool.
Variable rt : Runtime W.

(** [flags.Parse(args)] with no argument left over. *)
Definition parse_all (spec : list (string * flag_kind)) (args : list string) : option assignments :=
  match Parse fraction_nanoseconds (flag_spec spec) args [] with
  | Some (set, []) => Some set
  | _ => None
  end.

(** [writeJSON]. *)
Definition writeJSON (value : json) : reply :=
  if stdout_ok (JsonDocument value) then {| Exit := ExitOK; Stdout := [JsonDocument value]; Stderr := [] |}
  else fail_with ExitInternal "could not write JSON output".

Definition writeTable (lines : list string) : reply :=
  if stdout_ok (TableLines lines) then {| Exit := ExitOK; Stdout := [TableLines lines]; Stderr := [] |}
  else fail_with ExitInternal "could not write output".

Definition tab : string := byte_string 9.

Definition proof_header : string := Join ["SUBJECT"; "VERDICT"; "PROOF LEVEL"; "PROOF ID"] tab.

Definition proof_line (p : Proof) : string :=
  Join [DisplayName (Proof_Subject p); Verdict p; ProofLevel p; shortID (ProofID p)] tab.

(** The request of [inspect], if its arguments are valid, and the format. *)
Definition inspect_arguments (args : list string) : option (InspectRequest * string) :=
  match parse_all inspect_flags args with
  | None => None
  | Some set =>
      let pid := last_value int_value set "pid" 0 in
      let bindingID := last_value string_value set "binding" EmptyString in
      let all := last_value bool_value set "all" false in
      let limit := last_value int_value set "limit" 0 in
      let format := last_value string_value set "format" "table" in
      if negb (validFormat format)
         || negb (Z.b2z (0 <? pid) + Z.b2z (negb (bindingID =s EmptyString)) + Z.b2z all =? 1)
         || (pid <? 0) || (limit <? 0) || (4096 <? limit) || (negb all && negb (limit =? 0))
      then None
      else Some ({| IR_PID := pid; IR_HostID := EmptyString; IR_BindingID := bindingID; IR_All := all;
                    IR_Limit := limit |}, format)
  end.

Definition runInspect (args : list string) (w : W) : reply * W :=
  if helpRequested args
  then (usage "Usage: agent-runtime-proof inspect (--pid PID | --binding ID | --all) [--limit N] [--format table|json]", w)
  else match inspect_arguments args with
       | None => (fail_with ExitInvalidInput "invalid inspect arguments", w)
       | Some (request, format) =>
           match RT_Inspect rt request w with
           | (Err err, w') => (handleError err, w')
           | (Ok proofs, w') =>
               (if format =s "json" then writeJSON (JObject [("proofs", JArray (map Proof_json proofs))])
                else writeTable (proof_header :: map proof_line proofs), w')
           end
       end.

Definition verify_arguments (args : list string) : option (VerifyRequest * string) :=
  match parse_all verify_flags args with
  | None => None
  | Some set =>
      let pid := last_value int_value set "pid" 0 in
      let bindingID := last_value string_value set "binding" EmptyString in
      let expectationPath := last_value string_value set "expectation" EmptyString in
      let format := last_value string_value set "format" "table" in
      let knownPriorDigests := list_values set "known-prior-digest" in
      if negb (validFormat format)
         || negb (Z.b2z (0 <? pid) + Z.b2z (negb (bindingID =s EmptyString)) =? 1)
         || (pid <? 0) || (expectationPath =s EmptyString) || negb (digests_valid u knownPriorDigests)
      then None
      else Some ({| VR_PID := pid; VR_BindingID := bindingID; VR_ExpectationPath := expectationPath;
                    VR_Expectation := None; VR_KnownPriorDigests := knownPriorDigests |}, format)
  end.

(** The exit code of a verdict, once the proof has been written. *)
Definition with_verdict (verdict : string) (r : reply) : reply :=
  if Exit r =? ExitOK then {| Exit := verdictExit verdict; Stdout := Stdout r; Stderr := Stderr r |} else r.

Definition runVerify (args : list string) (w : W) : reply * W :=
  if helpRequested args
  then (usage "Usage: agent-runtime-proof verify --expectation FILE (--pid PID | --binding ID) [--known-prior-digest SHA256] [--format table|json]", w)
  else match verify_arguments args with
       | None => (fail_with ExitInvalidInput "invalid verify arguments", w)
       | Some (request, format) =>
           match RT_Verify rt request w with
           | (Err err, w') => (handleError err, w')
           | (Ok p, w') =>
               (with_verdict (Verdict p)
                  (if format =s "json" then writeJSON (Proof_json p)
                   else writeTable [proof_header; proof_line p]), w')
           end
       end.

Definition doctor_lines (r : DoctorResult) : list string :=
  [Join ["STATUS"; "PLATFORM"; "CAPABILITIES"] tab;
   Join [Doc_Status r; OS (Doc_Platform r) +:+ "/" +:+ Arch (Doc_Platform r); Join (Capabilities r) ", "] tab]
  ++ (if (0 <? length (Doc_Limitations r))%nat
      then (byte_string 10 +:+ "Limitations:") :: map (fun l => "- " +:+ l) (Doc_Limitations r)
      else []).

Definition runDoctor (args : list string) (w : W) : reply * W :=
  if helpRequested args
  then (usage "Usage: agent-runtime-proof doctor [--host HOST_ID] [--format table|json]", w)
  else
    let invalid := (fail_with ExitInvalidInput "invalid doctor arguments", w) in
    match parse_all doctor_flags args with
    | None => invalid
    | Some set =>
        let format := last_value string_value set "format" "table" in
        if negb (validFormat format) then invalid
        else
          let '(result, w') := RT_Doctor rt (last_value string_value set "host" EmptyString) w in
          (if format =s "json" then writeJSON (DoctorResult_json result)
           else writeTable (doctor_lines result), w')
    end.

(** The arguments before the first [--], and the command after it. *)
Fixpoint split_command (args : list string) : option (list string * list string) :=
  match args with
  | [] => None
  | a :: rest =>
      if a =s "--" then Some ([], rest)
      else match split_command rest with
           | Some (before, after) => Some (a :: before, after)
           | None => None
           end
  end.

Definition witness_arguments (args : list string) : option (WitnessRequest * Z) :=
  match split_command args with
  | None | Some (_, []) => None
  | Some (before, command) =>
      match parse_all witness_flags before with
      | None => None
      | Some set =>
          let gracePeriod := last_value duration_value set "grace-period" 5000000000 in
          if (gracePeriod <=? 0) || (60000000000 <? gracePeriod) then None
          else Some ({| WR_Command := command;
                        WR_ExpectationPath := last_value string_value set "expectation" EmptyString |},
                     gracePeriod)
      end
  end.

(** [None]: the witnessed program is still running. *)
Definition runWitness (args : list string) (w : W) : option (reply * W) :=
  if helpRequested args
  then Some (usage "Usage: agent-runtime-proof witness [--expectation FILE] [--grace-period DURATION] -- COMMAND [ARG...]", w)
  else match witness_arguments args with
       | None => Some (fail_with ExitInvalidInput "invalid witness arguments", w)
       | Some (request, gracePeriod) =>
           match RT_Witness rt with
           | None => Some (fail_with ExitInternal "witness runtime is unavailable", w)
           | Some run =>
               match run request gracePeriod w with
               | None => None
               | Some (Err WitnessInvalidInput, w') =>
                   Some (fail_with ExitInvalidInput "invalid witness input", w')
               | Some (Err _, w') => Some (fail_with ExitInternal "witness operation failed", w')
               | Some (Ok result, w') =>
                   let receipt :=
                     if Run_ReceiptID result =s EmptyString then []
                     else [byte_string 10 +:+ "agent-runtime-proof: launch receipt " +:+ Run_ReceiptID result] in
                   Some (if ExitCode result <? 0
                         then {| Exit := ExitInternal; Stdout := [];
                                 Stderr := receipt ++ [diagnostic "witness child exit status is invalid"] |}
                         else {| Exit := ExitCode result; Stdout := []; Stderr := receipt |}, w')
               end
           end
       end.

Definition Run (args : list string) (w : W) : option (reply * W) :=
  if helpRequested args
  then Some (usage "Usage: agent-runtime-proof <inspect|verify|witness|doctor|mcp> [options]", w)
  else match args with
       | [] => Some (fail_with ExitInvalidInput "a command is required", w)
       | command :: rest =>
           if command =s "inspect" then Some (runInspect rest w)
           else if command =s "verify" then Some (runVerify rest w)
           else if command =s "doctor" then Some (runDoctor rest w)
           else if command =s "witness" then runWitness rest w
           else Some (fail_with ExitInvalidInput "unknown command", w)
       end.

(** ** Exit codes *)

Definition plain_codes : list Z := [ExitOK; ExitNegative; ExitUnknown; ExitInvalidInput; ExitInternal].

(** A reply of a command other than [witness]: one of the documented codes,
    and either a failure with a single diagnostic and no output, or an output
    and no diagnostic. *)
Definition plain_reply (r : reply) : Prop :=
  In (Exit r) plain_codes
  /\ ((Exit r = ExitInvalidInput \/ Exit r = ExitInternal)
       /\ Stdout r = [] /\ (exists message, Stderr r = [diagnostic message])
      \/ (exists o, Stdout r = [o]) /\ Stderr r = []
         /\ Exit r <> ExitInvalidInput /\ Exit r <> ExitInternal).

Lemma fail_plain code message :
  code = ExitInvalidInput \/ code = ExitInternal -> plain_reply (fail_with code message).
Proof.
  intros Hc. split; [destruct Hc as [-> | ->]; cbn; tauto|]. left. split; [done|]. split; [done|].
  by exists message.
Qed.

Lemma usage_plain text : plain_reply (usage text).
Proof. split; [by left|]. right. split; [by eexists|done]. Qed.

Lemma handleError_plain err : plain_reply (handleError err).
Proof. destruct err; apply fail_plain; tauto. Qed.

Lemma writeJSON_plain value : plain_reply (writeJSON value).
Proof.
  unfold writeJSON. destruct (stdout_ok _); [|apply fail_plain; tauto].
  split; [by left|]. right. split; [by eexists|done].
Qed.

Lemma writeTable_plain lines : plain_reply (writeTable lines).
Proof.
  unfold writeTable. destruct (stdout_ok _); [|apply fail_plain; tauto].
  split; [by left|]. right. split; [by eexists|done].
Qed.

Lemma verdictExit_code verdict :
  verdictExit verdict = ExitOK /\ verdict = "MATCHED"
  \/ verdictExit verdict = ExitUnknown /\ verdict = "UNKNOWN"
  \/ verdictExit verdict = ExitNegative /\ verdict <> "MATCHED" /\ verdict <> "UNKNOWN".
Proof.
  unfold verdictExit. destruct (String.eqb_spec verdict "MATCHED"); [by left|].
  destruct (String.eqb_spec verdict "UNKNOWN"); [by right; left|]. by right; right.
Qed.

Lemma with_verdict_plain verdict r : plain_reply r -> plain_reply (with_verdict verdict r).
Proof.
  intros [Hc Hr]. unfold with_verdict. destruct (Z.eqb_spec (Exit r) ExitOK) as [E|]; [|by split].
  destruct Hr as [([H|H] & _)|(Ho & He & _)]; [by rewrite E in H..|].
  destruct (verdictExit_code verdict) as [[-> _]|[[-> _]|[-> _]]];
    (split; [cbn; tauto|]; right; split; [done|]; split; [done|]; done).
Qed.

Lemma runInspect_plain args w : plain_reply (fst (runInspect args w)).
Proof.
  unfold runInspect. destruct (helpRequested args); [apply usage_plain|].
  destruct (inspect_arguments args) as [[request format]|]; [|apply fail_plain; tauto].
  destruct (RT_Inspect _ _ _) as [[proofs|err] w']; cbn [fst]; [|apply handleError_plain].
  destruct (format =s "json"); [apply writeJSON_plain|apply writeTable_plain].
Qed.

Lemma runVerify_plain args w : plain_reply (fst (runVerify args w)).
Proof.
  unfold runVerify. destruct (helpRequested args); [apply usage_plain|].
  destruct (verify_arguments args) as [[request format]|]; [|apply fail_plain; tauto].
  destruct (RT_Verify _ _ _) as [[p|err] w']; cbn [fst]; [|apply handleError_plain].
  apply with_verdict_plain. destruct (format =s "json"); [apply writeJSON_plain|apply writeTable_plain].
Qed.

Lemma runDoctor_plain args w : plain_reply (fst (runDoctor args w)).
Proof.
  unfold runDoctor. destruct (helpRequested args); [apply usage_plain|].
  destruct (parse_all _ _) as [set|]; [|apply fail_plain; tauto].
  destruct (negb _); [apply fail_plain; tauto|]. destruct (RT_Doctor _ _ _) as [result w']. cbn [fst].
  destruct (_ =s "json"); [apply writeJSON_plain|apply writeTable_plain].
Qed.

(** C33: the exit codes are the documented ones: for every command line but a
    [witness], the exit code is 0, 2, 3, 64 or 70, and the reply is either a
    failure (64 or 70) with one diagnostic and nothing on the standard output,
    or one document on the standard output and no diagnostic; no argument list
    makes [Run] do anything else. *)
Theorem Run_replies args w :
  head args <> Some "witness" -> exists r w', Run args w = Some (r, w') /\ plain_reply r.
Proof.
  intros Hc. unfold Run. destruct (helpRequested args); [do 2 eexists; split; [done|apply usage_plain]|].
  assert (Hd : forall p : reply * W, plain_reply (fst p) -> exists r w', Some p = Some (r, w') /\ plain_reply r)
    by (intros [r w'] H; by exists r, w').
  destruct args as [|command rest]; [apply (Hd (_, _)), fail_plain; tauto|].
  assert (Hw : (command =s "witness") = false) by (apply String.eqb_neq; cbn in Hc; congruence).
  rewrite Hw. repeat case_match; apply Hd;
    first [apply runInspect_plain|apply runVerify_plain|apply runDoctor_plain|apply fail_plain; tauto].
Qed.

(** ** What a command line asks for *)

Section Requests.
Context (evidence : VerifyRequest -> Proof -> Prop) `{Hcontract : !RuntimeContract rt evidence}.

Lemma inspect_arguments_valid args request format :
  inspect_arguments args = Some (request, format) -> inspect_valid request = true.
Proof.
  unfold inspect_arguments. destruct (parse_all _ _) as [set|]; [|done]. cbv zeta.
  match goal with |- context [if ?b then _ else _] => destruct b eqn:E end; [done|].
  intros [= <- _]. repeat (apply orb_false_iff in E as [E ?]). unfold inspect_valid, selectors.
  cbn [IR_PID IR_HostID IR_BindingID IR_All IR_Limit]. change maximumInventoryLimit with 4096.
  repeat match goal with H : _ = false |- _ => rewrite H end. reflexivity.
Qed.

Lemma verify_arguments_valid args request format :
  verify_arguments args = Some (request, format) ->
  verify_valid request = true /\ digests_valid u (VR_KnownPriorDigests request) = true.
Proof.
  unfold verify_arguments. destruct (parse_all _ _) as [set|]; [|done]. cbv zeta.
  match goal with |- context [if ?b then _ else _] => destruct b eqn:E end; [done|].
  intros [= <- _]. repeat (apply orb_false_iff in E as [E ?]). unfold verify_valid.
  cbn [VR_PID VR_BindingID VR_ExpectationPath VR_Expectation VR_KnownPriorDigests].
  repeat match goal with H : negb _ = false |- _ => apply negb_false_iff in H end.
  repeat match goal with H : _ = false |- _ => rewrite H end. split; [|done].
  by destruct (0 <? _), (_ =s _).
Qed.

Lemma verify_arguments_inline args request format :
  verify_arguments args = Some (request, format) -> VR_Expectation request = None.
Proof.
  unfold verify_arguments. destruct (parse_all _ _) as [set|]; [|done]. cbv zeta.
  match goal with |- context [if ?b then _ else _] => destruct b end; [done|]. by intros [= <- _].
Qed.

Lemma handleError_code err : Exit (handleError err) = ExitInvalidInput -> err = ErrInvalidInput.
Proof. by destruct err. Qed.

(** [inspect] exits with 64 exactly when its own arguments are invalid:
    the request it hands on always passes the service's request check, so a
    valid command line is never reported as invalid input later. *)
Theorem runInspect_invalid args w :
  Exit (fst (runInspect args w)) = ExitInvalidInput
  <-> helpRequested args = false /\ inspect_arguments args = None.
Proof using Hcontract.
  unfold runInspect. destruct (helpRequested args); [split; [done|by intros []]|].
  destruct (inspect_arguments args) as [[request format]|] eqn:E; [|done].
  split; [|by intros []]. apply inspect_arguments_valid in E.
  pose proof (inspect_accepts request w E) as Ha.
  destruct (RT_Inspect rt request w) as [[proofs|err] w']; cbn [fst] in *.
  - unfold writeJSON, writeTable. repeat case_match; done.
  - intros ->%handleError_code. done.
Qed.

Lemma with_verdict_zero verdict r :
  Exit (with_verdict verdict r) = ExitOK -> Exit r = ExitOK /\ verdict = "MATCHED".
Proof.
  unfold with_verdict. destruct (Z.eqb_spec (Exit r) ExitOK) as [E|]; [|done]. cbn [Exit].
  destruct (verdictExit_code verdict) as [[-> ->]|[[-> _]|[-> _]]]; done.
Qed.

Lemma verify_exit_zero args w r w' :
  helpRequested args = false -> runVerify args w = (r, w') -> Exit r = ExitOK ->
  exists request format p,
    verify_arguments args = Some (request, format)
    /\ verify_valid request = true
    /\ RT_Verify rt request w = (Ok p, w')
    /\ Verdict p = "MATCHED"
    /\ evidence request p
    /\ Stdout r = [if format =s "json" then JsonDocument (Proof_json p)
                   else TableLines [proof_header; proof_line p]].
Proof using Hcontract.
  intros Hh. unfold runVerify. rewrite Hh.
  destruct (verify_arguments args) as [[request format]|] eqn:E; [|by intros [= <- _]].
  destruct (RT_Verify rt request w) as [[p|err] w2] eqn:Ev; [|intros [= <- _]; by destruct err].
  intros [= <- <-] Hz. destruct (with_verdict_zero _ _ Hz) as [Hw Hm].
  exists request, format, p. split; [done|].
  split; [by apply (verify_arguments_valid args _ format)|]. split; [done|]. split; [done|].
  split; [apply (verify_evidence request w p w2 Ev); by left|].
  unfold with_verdict. rewrite Hw. cbn [Stdout Z.eqb].
  revert Hw. unfold writeJSON, writeTable. by repeat case_match.
Qed.

(** The exit code of [verify] can be trusted: it is 0 only when a proof
    with verdict [MATCHED] was built for the very request on the command line
    and was written out, and that proof has its evidence: the file the
    process was running had the demanded digest, between two looks at the same
    process. *)
Theorem runVerify_zero args w r w' :
  helpRequested args = false -> runVerify args w = (r, w') -> Exit r = ExitOK ->
  exists request format p,
    verify_arguments args = Some (request, format)
    /\ verify_valid request = true
    /\ RT_Verify rt request w = (Ok p, w')
    /\ Verdict p = "MATCHED"
    /\ evidence request p
    /\ Stdout r = [if format =s "json" then JsonDocument (Proof_json p)
                   else TableLines [proof_header; proof_line p]].
Proof using Hcontract. apply verify_exit_zero. Qed.
End Requests.
End Cli.

(** ** Digests *)

Lemma ToLower_cons u c s :
  byte_val c < 128 -> ToLower u (String c s) = String (byte_of (ascii_lower (byte_val c))) (ToLower u s).
Proof.
  intros Hc. unfold ToLower, of_runes. rewrite runes_ascii by done. cbn [map concat_str].
  unfold rune_lower. rewrite (proj2 (Z.ltb_lt _ _) Hc).
  pose proof (byte_val_range c) as Hr.
  assert (Hl : 0 <= ascii_lower (byte_val c) < 128).
  { unfold ascii_lower. destruct (in_range 65 90 _) eqn:E; [rewrite in_range_iff in E|]; lia. }
  rewrite <- (byte_val_of (ascii_lower (byte_val c))) at 1 by lia.
  by rewrite EncodeRune_byte by (rewrite byte_val_of by lia; lia).
Qed.

(** The hexadecimal digits that lower case does not change. *)
Lemma hex_value_lower c :
  match hex_value c with Some _ => true | None => false end
  && Ascii.eqb (byte_of (ascii_lower (byte_val c))) c = is_lower_hex c.
Proof. destruct c as [[] [] [] [] [] [] [] []]; reflexivity. Qed.

Lemma hex_value_ascii c x : hex_value c = Some x -> byte_val c < 128.
Proof.
  unfold hex_value. cbv zeta. destruct (in_range 48 57 _) eqn:E1; [apply in_range_iff in E1; lia|].
  destruct (in_range 97 102 _) eqn:E2; [apply in_range_iff in E2; lia|].
  destruct (in_range 65 70 _) eqn:E3; [apply in_range_iff in E3; lia|done].
Qed.

Lemma lower_hex_value c :
  is_lower_hex c = true -> (exists x, hex_value c = Some x) /\ byte_of (ascii_lower (byte_val c)) = c.
Proof.
  rewrite <- hex_value_lower. intros [Hx Hl]%andb_true_iff. apply ascii_eqb_true in Hl.
  destruct (hex_value c); [eauto|done].
Qed.

Lemma string_pair_ind (P : string -> Prop) :
  P EmptyString -> (forall a, P (String a EmptyString)) ->
  (forall a b s, P s -> P (String a (String b s))) -> forall s, P s.
Proof.
  intros H0 H1 H2. enough (H : forall s, P s /\ forall a, P (String a s)) by (intros s; apply H).
  induction s as [|b s [IH IHa]]; split; auto.
Qed.

Lemma DecodeString_lower u s :
  (exists d, DecodeString s = Some d /\ String.length s = (2 * length d)%nat) /\ s = ToLower u s
  <-> Nat.Even (String.length s) /\ sforall is_lower_hex s = true.
Proof.
  induction s as [|a|a b s IH] using string_pair_ind.
  - split; [intros _; split; [by exists 0%nat|done]|]. intros _. split; [by exists []|done].
  - split; [by intros [(d & H & _) _]|]. intros [[n Hn] _]. cbn in Hn. lia.
  - rewrite !sforall_cons, !andb_true_iff. cbn [DecodeString String.length]. split.
    + intros [(d & Hd & Hlen) Hl].
      destruct (hex_value a) as [x|] eqn:Ea; [|done]. destruct (hex_value b) as [y|] eqn:Eb; [|done].
      destruct (DecodeString s) as [rest|]; [|done]. injection Hd as <-. cbn [length] in Hlen.
      rewrite !ToLower_cons in Hl by eauto using hex_value_ascii. injection Hl as Ha Hb Hs.
      destruct (proj1 IH) as [Hev Hall]; [split; [exists rest; split; [done|lia]|done]|].
      rewrite <- (hex_value_lower a), <- (hex_value_lower b), Ea, Eb, <- Ha, <- Hb, !Ascii.eqb_refl.
      destruct Hev as [n Hn]. split; [exists (S n); lia|done].
    + intros [[n Hn] (Ha & Hb & Hs)]. destruct n as [|n]; [lia|].
      destruct (proj2 IH) as [(d & Hd & Hlen) Hl]; [split; [exists n; lia|done]|].
      apply lower_hex_value in Ha as [[x Hx] Ha]. apply lower_hex_value in Hb as [[y Hy] Hb].
      rewrite Hx, Hy, Hd. split; [eexists; split; [done|cbn [length]; lia]|].
      rewrite !ToLower_cons by eauto using hex_value_ascii. by rewrite Ha, Hb, <- Hl.
Qed.

Lemma DecodeString_length s d : DecodeString s = Some d -> String.length s = (2 * length d)%nat.
Proof.
  revert d. induction s as [|a|a b s IH] using string_pair_ind; intros d H; [by injection H as <-|done|].
  cbn [DecodeString] in H. destruct (hex_value a), (hex_value b); try done.
  destruct (DecodeString s) as [rest|]; [|done]. injection H as <-. cbn. rewrite (IH rest); [lia|done].
Qed.

(** What a digest of the artifact looks like. *)
Definition canonical_digest (value : string) : Prop :=
  String.length value = 64%nat /\ sforall is_lower_hex value = true.

Lemma digest_valid_iff u value : digest_valid u value = true <-> canonical_digest value.
Proof.
  unfold digest_valid, canonical_digest. split.
  - destruct (DecodeString value) as [d|] eqn:E; [|done].
    rewrite andb_true_iff, Nat.eqb_eq, String.eqb_eq. intros [Hd Hl].
    pose proof (DecodeString_length _ _ E) as Hlen. split; [lia|].
    apply (proj1 (DecodeString_lower u value)). split; [by exists d|done].
  - intros [Hlen Hall].
    destruct (proj2 (DecodeString_lower u value)) as [(d & -> & Hd) Hl]; [split; [|done]; exists 32%nat; lia|].
    rewrite andb_true_iff, Nat.eqb_eq, String.eqb_eq. split; [lia|done].
Qed.

(** The known prior digests of a request are exactly the strings an
    artifact digest can be: the check accepts a list if and only if every
    element is 64 lower-case hexadecimal digits, whatever the Unicode case
    tables, so an element never fails to match a digest because of its form. *)
Theorem digests_valid_spec u values :
  digests_valid u values = true <-> Forall canonical_digest values.
Proof.
  unfold digests_valid. rewrite forallb_forall, List.Forall_forall.
  split; intros H v Hv; specialize (H v Hv); by apply (digest_valid_iff u).
Qed.

(** ** Command lines that stand for requests *)

Section Lines.
Variable u : UnicodeTables.
Variable fraction_nanoseconds : Z -> Z -> Z -> Z.

(** One flag and its value. *)
Lemma Parse_value spec option name kind value v rest set :
  classify option = FlagNamed name -> split_flag name = (name, None) ->
  flag_spec spec name = Some kind -> is_bool_flag kind = false ->
  set_flag fraction_nanoseconds kind value = Some v ->
  Parse fraction_nanoseconds (flag_spec spec) (option :: value :: rest) set
  = Parse fraction_nanoseconds (flag_spec spec) rest (set ++ [(name, v)]).
Proof.
  intros Hc Hs Hf Hb Hv. cbn [Parse]. rewrite Hc, Hs, Hf. destruct kind; try done; by rewrite Hv.
Qed.

(** A command line that asks for the verification of a process. *)
Definition verify_line (pid : Z) (path format : string) (digests : list string) : list string :=
  ["--pid"; FormatInt pid; "--expectation"; path; "--format"; format]
  ++ concat (map (fun d => ["--known-prior-digest"; d]) digests).

Definition digest_items (digests : list string) : assignments :=
  map (fun d => ("known-prior-digest", ListItem d)) digests.

Lemma Parse_digests digests set :
  Parse fraction_nanoseconds (flag_spec verify_flags)
    (concat (map (fun d => ["--known-prior-digest"; d]) digests)) set
  = Some (set ++ digest_items digests, []).
Proof.
  revert set. induction digests as [|d digests IH]; intros set; [by rewrite app_nil_r|].
  cbn [map concat app]. rewrite (Parse_value _ _ "known-prior-digest" ListFlag d (ListItem d)) by done.
  rewrite IH. by rewrite <- app_assoc.
Qed.

Lemma last_value_app {A} (pick : flag_value -> option A) set set' name default :
  last_value pick (set ++ set') name default = last_value pick set' name (last_value pick set name default).
Proof. apply fold_left_app. Qed.

Lemma last_value_items {A} (pick : flag_value -> option A) digests name default :
  (forall d, pick (ListItem d) = None) -> last_value pick (digest_items digests) name default = default.
Proof.
  intros Hp. unfold last_value, digest_items. induction digests as [|d digests IH]; [done|].
  cbn [map fold_left fst snd]. rewrite Hp. by destruct (_ =s _).
Qed.

Lemma list_values_items digests : list_values (digest_items digests) "known-prior-digest" = digests.
Proof.
  unfold list_values, digest_items. induction digests as [|d digests IH]; [done|].
  cbn [map concat fst snd]. rewrite String.eqb_refl. cbn [app]. by rewrite IH.
Qed.

Lemma parse_verify_line pid path format digests :
  0 < pid <= int64_max ->
  parse_all fraction_nanoseconds verify_flags (verify_line pid path format digests)
  = Some ([("pid", IntValue pid); ("expectation", StringValue path); ("format", StringValue format)]
          ++ digest_items digests).
Proof.
  intros Hp. unfold parse_all, verify_line. cbn [app].
  rewrite (Parse_value _ _ "pid" IntFlag _ (IntValue pid)) by (try done; cbn; by rewrite ParseInt0_FormatInt).
  rewrite (Parse_value _ _ "expectation" StringFlag _ (StringValue path)) by done.
  rewrite (Parse_value _ _ "format" StringFlag _ (StringValue format)) by done.
  by rewrite Parse_digests.
Qed.

(** A request survives the trip through the command line: writing its
    process identifier in decimal, its expectation path and its digests as
    flags and parsing them gives the request back, for every process
    identifier up to the largest machine integer and for any path, even one
    that looks like a flag. *)
Theorem verify_line_roundtrip pid path format digests :
  0 < pid <= int64_max -> path <> EmptyString -> validFormat format = true ->
  Forall canonical_digest digests ->
  verify_arguments u fraction_nanoseconds (verify_line pid path format digests)
  = Some ({| VR_PID := pid; VR_BindingID := EmptyString; VR_ExpectationPath := path;
             VR_Expectation := None; VR_KnownPriorDigests := digests |}, format).
Proof.
  intros Hp Hne Hf Hd. unfold verify_arguments. rewrite parse_verify_line by done.
  rewrite !last_value_app, !last_value_items by done. cbn [last_value fold_left].
  unfold list_values. rewrite map_app, concat_app. fold (list_values (digest_items digests) "known-prior-digest").
  rewrite list_values_items. cbn -[Z.ltb validFormat digests_valid].
  assert (Hv : digests_valid u digests = true).
  { unfold digests_valid. apply forallb_forall. intros d Hin. apply digest_valid_iff.
    by apply (proj1 (List.Forall_forall _ _) Hd). }
  rewrite Hf, Hv, (proj2 (String.eqb_neq path EmptyString) Hne).
  rewrite (proj2 (Z.ltb_lt 0 pid)), (proj2 (Z.ltb_ge pid 0)) by lia. reflexivity.
Qed.

Lemma split_command_spec args before after :
  split_command args = Some (before, after) <-> args = before ++ "--" :: after /\ ~ In "--" before.
Proof.
  revert before. induction args as [|a args IH]; intros before; cbn [split_command].
  - split; [done|]. intros [H _]. by destruct before.
  - destruct (String.eqb_spec a "--") as [->|Hne].
    + split; [intros [= <- <-]; by split; [|intros []]|].
      intros [H Hin]. destruct before as [|b before]; [by injection H as ->|].
      injection H as <- _. exfalso. apply Hin. by left.
    + destruct (split_command args) as [[b c]|] eqn:E; split.
      * intros [= <- <-]. destruct (proj1 (IH b) eq_refl) as [-> Hin]. split; [done|]. by intros [].
      * intros [H Hin]. destruct before as [|x before]; [by injection H as ->|]. injection H as <- H.
        assert (Hs : Some (b, c) = Some (before, after)) by (apply IH; split; [done|]; intros ?; apply Hin; by right).
        by injection Hs as -> ->.
      * done.
      * intros [H Hin]. destruct before as [|x before]; [by injection H as ->|]. injection H as <- H.
        by assert (None = Some (before, after)) by (apply IH; split; [done|]; intros ?; apply Hin; by right).
Qed.

(** A witnessed command is passed on word for word: if the arguments of
    [witness] are accepted then the command is everything after the first
    [--], it is not empty, the flags are read from what stands before, and
    the grace period is one the supervisor accepts. *)
Theorem witness_arguments_verbatim args request gracePeriod :
  witness_arguments fraction_nanoseconds args = Some (request, gracePeriod) ->
  WR_Command request <> []
  /\ grace_valid gracePeriod = true /\ 0 < gracePeriod
  /\ exists before set,
       args = before ++ "--" :: WR_Command request /\ ~ In "--" before
       /\ parse_all fraction_nanoseconds witness_flags before = Some set
       /\ WR_ExpectationPath request = last_value string_value set "expectation" EmptyString.
Proof.
  unfold witness_arguments. destruct (split_command args) as [[before command]|] eqn:E; [|done].
  apply split_command_spec in E as [-> Hin]. destruct command as [|c command]; [done|].
  destruct (parse_all _ _ _) as [set|] eqn:Ep; [|done]. cbv zeta.
  destruct (_ || _) eqn:Eg; [done|]. intros [= <- <-]. apply orb_false_iff in Eg as [H1 H2].
  rewrite Z.leb_gt in H1. rewrite Z.ltb_ge in H2. split; [done|]. split; [|split; [done|]].
  - unfold grace_valid, maximumGracePeriod. cbv zeta. rewrite (proj2 (Z.eqb_neq _ _)) by lia.
    apply andb_true_iff. rewrite !Z.leb_le. lia.
  - exists before, set. by split.
Qed.

End Lines.

(** ** Runs on a service that sees one process *)

Definition no_fractions (f unit digits : Z) : Z := 0.

Lemma verify_line_roundtrip_witness :
  verify_arguments ascii_tables no_fractions (verify_line 7 "--x" "json" [])
  = Some ({| VR_PID := 7; VR_BindingID := EmptyString; VR_ExpectationPath := "--x";
             VR_Expectation := None; VR_KnownPriorDigests := [] |}, "json").
Proof.
  apply (verify_line_roundtrip ascii_tables no_fractions 7 "--x" "json" []);
    [unfold int64_max; lia|discriminate|reflexivity|constructor].
Defined.

Lemma witness_arguments_verbatim_witness :
  witness_arguments no_fractions ["--grace-period=2s"; "--"; "run"; "--"; "-x"]
  = Some ({| WR_Command := ["run"; "--"; "-x"]; WR_ExpectationPath := EmptyString |}, 2000000000)
  /\ grace_valid 2000000000 = true.
Proof.
  assert (H : witness_arguments no_fractions ["--grace-period=2s"; "--"; "run"; "--"; "-x"]
    = Some ({| WR_Command := ["run"; "--"; "-x"]; WR_ExpectationPath := EmptyString |}, 2000000000))
    by (vm_compute; reflexivity).
  split; [exact H|]. apply (witness_arguments_verbatim _ _ _ _ H).
Defined.

Definition sample_runtime : Runtime nat :=
  localRuntime (fun _ _ => true) ascii_tables sample_platform 7 sample_service None.

Definition any_output (o : output) : bool := true.

Definition sample_args : list string := ["-pid"; "7"; "-expectation=m.json"].

Lemma Run_replies_witness :
  exists r w', Run ascii_tables no_fractions any_output sample_runtime ("verify" :: sample_args) 0%nat = Some (r, w')
               /\ plain_reply r.
Proof.
  apply (Run_replies ascii_tables no_fractions any_output sample_runtime ("verify" :: sample_args) 0%nat).
  cbn. discriminate.
Defined.

Lemma runInspect_invalid_witness :
  Exit (fst (runInspect no_fractions any_output sample_runtime ["-pid"; "0"] 0%nat)) = ExitInvalidInput.
Proof.
  apply (runInspect_invalid no_fractions any_output sample_runtime (evidence_of sample_service)).
  split; vm_compute; reflexivity.
Defined.

Lemma runVerify_zero_witness :
  exists request format p,
    verify_arguments ascii_tables no_fractions sample_args = Some (request, format)
    /\ Verdict p = "MATCHED" /\ evidence_of sample_service request p.
Proof.
  pose (run := runVerify ascii_tables no_fractions any_output sample_runtime sample_args 0%nat).
  destruct (runVerify_zero ascii_tables no_fractions any_output sample_runtime (evidence_of sample_service)
              sample_args 0%nat (fst run) (snd run)) as (request & format & p & H & _ & _ & Hm & He & _).
  - reflexivity.
  - unfold run. by destruct (runVerify _ _ _ _ _ _).
  - vm_compute. reflexivity.
  - by exists request, format, p.
Defined.
