(* ===== verification/Mcp.v ===== *)
(** * The MCP server ([internal/mcpserver/server.go])

    The three tools of [New]: each checks its input, hands one request to the
    runtime and returns proofs or summaries; an error is reduced to one of two
    that say nothing about the machine.  Also [versioninfo.Format], which
    prints what the server and the command line say they are. *)

From S2P Require Import Prelude GoStrings GoRegexp GoSha256 Model Expectation Evaluator HostParse ProofId World App Doctor Flags Cli.

(** [errInvalidInput] and [errOperation]. *)
Inductive tool_error := ToolInvalidInput | ToolOperation.

(** [safeError]. *)
Definition safeError (err : app_error) : tool_error :=
  match err with ErrInvalidInput => ToolInvalidInput | _ => ToolOperation end.

Record ListCandidatesInput := { LC_HostID : string; LC_BindingID : string; LC_Limit : Z }.

Record CandidateSummary := {
  CS_HostID : string;
  CS_BindingID : string;
  CS_Platform : Platform;
  CS_Process : option ProcessIdentity;
  CS_Executable : option ExecutableObservation;
  CS_InaccessibleFields : list string
}.

Record InspectRuntimesInput := { IT_PID : Z; IT_BindingID : string; IT_All : bool; IT_Limit : Z }.

Record VerifyRuntimeInput := {
  VT_PID : Z;
  VT_BindingID : string;
  VT_ExpectationPath : string;
  VT_Expectation : option Expectation;
  VT_KnownPriorDigests : list string
}.

Definition maximumInventoryLimit : Z := 4096.

Definition candidate_summary (value : Proof) : CandidateSummary := {|
  CS_HostID := match Proof_HostAttribution value with Some h => Attr_HostID h | None => EmptyString end;
  CS_BindingID := match Proof_HostAttribution value with Some h => Attr_BindingID h | None => EmptyString end;
  CS_Platform := Proof_Platform value;
  CS_Process := Obs_Process (Proof_Observation value);
  CS_Executable := Obs_Executable (Proof_Observation value);
  CS_InaccessibleFields := InaccessibleFields (Proof_Observation value) |}.

(** The checks of the three tools. *)
Definition list_accepted (input : ListCandidatesInput) : bool :=
  negb ((negb (LC_HostID input =s EmptyString) && negb (LC_BindingID input =s EmptyString))
        || (LC_Limit input <? 0) || (maximumInventoryLimit <? LC_Limit input)
        || (negb (LC_BindingID input =s EmptyString) && negb (LC_Limit input =? 0))).

Definition inspect_accepted (input : InspectRuntimesInput) : bool :=
  negb (negb (Z.b2z (0 <? IT_PID input) + Z.b2z (negb (IT_BindingID input =s EmptyString))
              + Z.b2z (IT_All input) =? 1)
        || (IT_PID input <? 0) || (IT_Limit input <? 0) || (maximumInventoryLimit <? IT_Limit input)
        || (negb (IT_All input) && negb (IT_Limit input =? 0))).

Definition verify_accepted (u : UnicodeTables) (input : VerifyRuntimeInput) : bool :=
  negb (negb (Z.b2z (0 <? VT_PID input) + Z.b2z (negb (VT_BindingID input =s EmptyString)) =? 1)
        || (VT_PID input <? 0)
        || Bool.eqb (VT_ExpectationPath input =s EmptyString)
                    (match VT_Expectation input with None => true | Some _ => false end)
        || negb (digests_valid u (VT_KnownPriorDigests input))).

Definition list_request (input : ListCandidatesInput) : InspectRequest :=
  if negb (LC_BindingID input =s EmptyString)
  then {| IR_PID := 0; IR_HostID := EmptyString; IR_BindingID := LC_BindingID input; IR_All := false;
          IR_Limit := 0 |}
  else {| IR_PID := 0; IR_HostID := LC_HostID input; IR_BindingID := EmptyString; IR_All := true;
          IR_Limit := LC_Limit input |}.

Definition inspect_request (input : InspectRuntimesInput) : InspectRequest :=
  {| IR_PID := IT_PID input; IR_HostID := EmptyString; IR_BindingID := IT_BindingID input;
     IR_All := IT_All input; IR_Limit := IT_Limit input |}.

Definition verify_tool_request (input : VerifyRuntimeInput) : VerifyRequest :=
  {| VR_PID := VT_PID input; VR_BindingID := VT_BindingID input;
     VR_ExpectationPath := VT_ExpectationPath input; VR_Expectation := VT_Expectation input;
     VR_KnownPriorDigests := VT_KnownPriorDigests input |}.

Section Tools.
Context {W : Type}.
Variable u : UnicodeTables.
Variable rt : Runtime W.

(** [list_local_runtime_candidates]. *)
Definition list_local_runtime_candidates (input : ListCandidatesInput)
  : io W tool_error (list CandidateSummary) :=
  require! list_accepted input else ToolInvalidInput in
  do! proofs := wrap_error safeError (RT_Inspect rt (list_request input)) in
  ret (map candidate_summary proofs).

(** [inspect_local_runtimes]. *)
Definition inspect_local_runtimes (input : InspectRuntimesInput) : io W tool_error (list Proof) :=
  require! inspect_accepted input else ToolInvalidInput in
  wrap_error safeError (RT_Inspect rt (inspect_request input)).

(** [verify_local_runtime]. *)
Definition verify_local_runtime (input : VerifyRuntimeInput) : io W tool_error Proof :=
  require! verify_accepted u input else ToolInvalidInput in
  wrap_error safeError (RT_Verify rt (verify_tool_request input)).

(** ** Accepted inputs are valid requests *)

Lemma inspect_accepted_valid input :
  inspect_accepted input = true -> inspect_valid (inspect_request input) = true.
Proof.
  unfold inspect_accepted, inspect_valid, inspect_request, selectors.
  cbn [IR_PID IR_HostID IR_BindingID IR_All IR_Limit].
  change App.maximumInventoryLimit with maximumInventoryLimit. rewrite !negb_true_iff.
  intros ->. reflexivity.
Qed.

Lemma list_accepted_valid input :
  list_accepted input = true -> inspect_valid (list_request input) = true.
Proof.
  unfold list_accepted, inspect_valid, list_request, selectors.
  destruct (LC_BindingID input =s EmptyString) eqn:E; cbn [negb];
    cbn [IR_PID IR_HostID IR_BindingID IR_All IR_Limit];
    change App.maximumInventoryLimit with maximumInventoryLimit.
  - rewrite andb_false_r, andb_false_l, !negb_true_iff. cbn [orb].
    intros H. apply orb_false_iff in H as [H _]. apply orb_false_iff in H as [-> ->].
    cbn. by rewrite andb_false_r.
  - intros _. by rewrite E.
Qed.

Lemma verify_accepted_valid input :
  verify_accepted u input = true ->
  verify_valid (verify_tool_request input) = true
  /\ digests_valid u (VR_KnownPriorDigests (verify_tool_request input)) = true.
Proof.
  unfold verify_accepted, verify_valid, verify_tool_request.
  cbn [VR_PID VR_BindingID VR_ExpectationPath VR_Expectation VR_KnownPriorDigests].
  rewrite !negb_true_iff, !orb_false_iff, !negb_false_iff. intros [[[Hs ->] ->] Hd].
  split; [|exact Hd]. by destruct (0 <? _), (_ =s _).
Qed.

Context (evidence : VerifyRequest -> Proof -> Prop) `{Hcontract : !RuntimeContract rt evidence}.

Lemma inspect_error request w :
  inspect_valid request = true ->
  fst (wrap_error safeError (RT_Inspect rt request) w) <> Err ToolInvalidInput.
Proof using Hcontract.
  intros Hv H. pose proof (inspect_accepts request w Hv) as Ha. unfold wrap_error in H.
  destruct (RT_Inspect rt request w) as [[proofs|err] w']; cbn in *; [done|]. by destruct err.
Qed.

(** The tools that inspect answer "invalid tool input" exactly for the
    inputs they reject themselves, without touching the machine; every input
    they accept is a request the service accepts, so any later failure is
    reported as "operation failed" and nothing else. *)
Theorem inspection_tools_invalid w :
  (forall input, fst (inspect_local_runtimes input w) = Err ToolInvalidInput
                 <-> inspect_accepted input = false)
  /\ (forall input, fst (list_local_runtime_candidates input w) = Err ToolInvalidInput
                    <-> list_accepted input = false)
  /\ (forall input, inspect_accepted input = false -> snd (inspect_local_runtimes input w) = w)
  /\ (forall input, list_accepted input = false -> snd (list_local_runtime_candidates input w) = w).
Proof using Hcontract.
  unfold inspect_local_runtimes, list_local_runtime_candidates, bind, require, lift, guard_.
  split; [|split; [|split]]; intros input.
  - destruct (inspect_accepted input) eqn:E; [|done]. split; [|done].
    intros H. by apply inspect_accepted_valid, (inspect_error _ w) in E.
  - destruct (list_accepted input) eqn:E; [|done]. split; [|done]. intros H.
    apply list_accepted_valid, (inspect_error _ w) in E.
    destruct (wrap_error _ _ w) as [[proofs|err] w']; cbn in *; congruence.
  - by intros ->.
  - by intros ->.
Qed.

(** A conclusive proof that the verification tool returns has its
    evidence, for the process and the expectation of the tool's input; the
    input named exactly one process and exactly one expectation, and its known
    digests had the form of digests. *)
Theorem verify_tool_evidence input w p w' :
  verify_local_runtime input w = (Ok p, w') -> conclusive (Verdict p) ->
  evidence (verify_tool_request input) p
  /\ verify_valid (verify_tool_request input) = true
  /\ Forall canonical_digest (VT_KnownPriorDigests input).
Proof using Hcontract.
  unfold verify_local_runtime. intros H Hc. apply bind_ok in H as ([] & w1 & H1 & H).
  apply require_ok in H1 as [Ha ->]. apply wrap_ok in H. split; [by apply (verify_evidence _ w p w')|].
  destruct (verify_accepted_valid input Ha) as [Hv Hd]. split; [done|].
  apply List.Forall_forall. intros v Hin. apply (digest_valid_iff u).
  by apply (proj1 (forallb_forall _ _) Hd).
Qed.
End Tools.

(** ** Inspection does not read artifacts *)

(** The same service with another artifact reader. *)
Definition with_reader {W} (service : Service W) (reader : Resolved -> io W Process.go_error ArtifactObservation)
  : Service W := {|
  Svc_Observer := Svc_Observer service; Svc_Now := Svc_Now service; Svc_CtxErr := Svc_CtxErr service;
  Svc_Tool := Svc_Tool service; Svc_LoadExpectation := Svc_LoadExpectation service;
  Svc_ResolveInline := Svc_ResolveInline service; Svc_DigestArtifact := reader;
  Svc_HostProfiles := Svc_HostProfiles service |}.

(** Listing candidates and inspecting never hash an artifact, as the tool
    descriptions promise: their results and their effect on the world do not
    depend on the artifact reader at all. *)
Theorem inspection_ignores_artifacts {W} schema_ok u platform getpid (service : Service W) witness reader :
  let rt := localRuntime schema_ok u platform getpid service witness in
  let rt' := localRuntime schema_ok u platform getpid (with_reader service reader) witness in
  (forall input w, list_local_runtime_candidates rt' input w = list_local_runtime_candidates rt input w)
  /\ (forall input w, inspect_local_runtimes rt' input w = inspect_local_runtimes rt input w).
Proof. split; reflexivity. Qed.

(** ** [versioninfo.Format] *)

Definition lower_or_digit (c : ascii) : bool :=
  in_range 97 122 (byte_val c) || is_digit c.

Definition letter_or_digit (c : ascii) : bool :=
  lower_or_digit c || in_range 65 90 (byte_val c).

(** The patterns, as they are written. *)
Definition namePattern : string -> bool := MatchString "^[a-z0-9][a-z0-9-]{0,63}$".
Definition versionPattern : string -> bool := MatchString "^[0-9A-Za-z][0-9A-Za-z.+-]{0,63}$".
Definition commitPattern : string -> bool := MatchString "^[0-9a-f]{7,64}$".

Definition Format (name version commit : string) : string :=
  if negb (namePattern name) || negb (versionPattern version) || negb (commitPattern commit)
  then "agent-runtime-proof unknown (unknown)"
  else name +:+ " " +:+ version +:+ " (" +:+ commit +:+ ")".

(** What they accept: a first byte and at most 63 more, each of its class, and
    7 to 64 lower-case hexadecimal digits. *)
Definition matches_label (first more : ascii -> bool) (s : string) : bool :=
  match s with
  | EmptyString => false
  | String c t => first c && sforall more t && (slen t <=? 63)
  end.

Lemma label_pattern pattern rs1 rs2 (first more : ascii -> bool) s :
  Compile pattern
  = Some {| BeginText := true; EndText := true;
            Body := Concat (Class false rs1) (Repeat (Class false rs2) 0 (Some 63%nat)) |} ->
  ranges_ascii rs1 = true -> ranges_ascii rs2 = true ->
  (forall c, in_class false rs1 (byte_val c) = first c) ->
  (forall c, in_class false rs2 (byte_val c) = more c) ->
  MatchString pattern s = matches_label first more s.
Proof.
  intros Hp H1 H2 Hf Hm. rewrite (MatchString_label pattern rs1 rs2 63) by done. destruct s as [|c t]; [done|].
  cbn [matches_label]. rewrite Hf, (sforall_ext _ more) by done. f_equal. apply len_leb.
Qed.

Lemma namePattern_accepts s :
  namePattern s = matches_label lower_or_digit (fun c => lower_or_digit c || Ascii.eqb c "-") s.
Proof. eapply label_pattern; [vm_compute; reflexivity|done|done|byte_cases|byte_cases]. Qed.

Lemma versionPattern_accepts s :
  versionPattern s = matches_label letter_or_digit (fun c => letter_or_digit c || has_byte ".+-" c) s.
Proof. eapply label_pattern; [vm_compute; reflexivity|done|done|byte_cases|byte_cases]. Qed.

Lemma commitPattern_accepts s :
  commitPattern s = sforall is_lower_hex s && (7 <=? slen s) && (slen s <=? 64).
Proof. eapply (range_pattern _ _ 7 57); [vm_compute; reflexivity|done|byte_cases]. Qed.

Lemma label_bytes (P first more : ascii -> bool) s :
  (forall c, first c = true -> P c = true) -> (forall c, more c = true -> P c = true) ->
  matches_label first more s = true -> sforall P s = true /\ slen s <= 64.
Proof.
  intros Hf Hm. destruct s as [|c t]; [done|]. cbn [matches_label]. rewrite !andb_true_iff, Z.leb_le.
  intros [[Hc Ht] Hl]. split; [|unfold slen in *; cbn [String.length]; lia].
  rewrite sforall_cons. apply andb_true_iff. split; [by apply Hf|]. by apply (sforall_impl more).
Qed.

(** Printable ASCII without the space. *)
Definition graphic (c : ascii) : bool := in_range 33 126 (byte_val c).

Lemma graphic_classes c :
  (lower_or_digit c || letter_or_digit c || Ascii.eqb c "-" || has_byte ".+-" c || is_lower_hex c)
  && negb (graphic c) = false.
Proof. destruct c as [[] [] [] [] [] [] [] []]; reflexivity. Qed.

Lemma graphic_if c b :
  b = true -> implb b (lower_or_digit c || letter_or_digit c || Ascii.eqb c "-" || has_byte ".+-" c
                       || is_lower_hex c) = true -> graphic c = true.
Proof.
  intros ->. cbn [implb]. intros H. pose proof (graphic_classes c) as Hg. rewrite H in Hg.
  by apply negb_false_iff in Hg.
Qed.

Lemma namePattern_graphic s : namePattern s = true -> sforall graphic s = true /\ slen s <= 64.
Proof.
  rewrite namePattern_accepts. apply label_bytes; intros c Hc; apply (graphic_if c _ Hc);
    by destruct (lower_or_digit c), (letter_or_digit c), (Ascii.eqb c "-").
Qed.

Lemma versionPattern_graphic s : versionPattern s = true -> sforall graphic s = true /\ slen s <= 64.
Proof.
  rewrite versionPattern_accepts. apply label_bytes; intros c Hc; apply (graphic_if c _ Hc);
    by destruct (lower_or_digit c), (letter_or_digit c), (Ascii.eqb c "-"), (has_byte ".+-" c).
Qed.

Lemma commitPattern_graphic s : commitPattern s = true -> sforall graphic s = true /\ slen s <= 64.
Proof.
  rewrite commitPattern_accepts, !andb_true_iff, !Z.leb_le. intros [[H _] Hl]. split; [|done].
  eapply sforall_impl; [|exact H]. intros c Hc. apply (graphic_if c _ Hc).
  destruct (is_lower_hex c); [|done]. by rewrite orb_true_r.
Qed.

(** The three words of a banner. *)
Lemma Format_words name version commit :
  exists a b c, Format name version commit = a +:+ " " +:+ b +:+ " (" +:+ c +:+ ")"
                /\ (sforall graphic a = true /\ slen a <= 64)
                /\ (sforall graphic b = true /\ slen b <= 64)
                /\ (sforall graphic c = true /\ slen c <= 64).
Proof.
  pose proof (namePattern_graphic name) as Hn. pose proof (versionPattern_graphic version) as Hv.
  pose proof (commitPattern_graphic commit) as Hc. revert Hn Hv Hc. unfold Format.
  destruct (namePattern name), (versionPattern version), (commitPattern commit); intros Hn Hv Hc; cbn [negb orb];
    try (exists "agent-runtime-proof", "unknown", "unknown"; done).
  exists name, version, commit. auto.
Qed.

(** A version banner is one short line of printable text, whatever was
    linked into the program: [Format] writes three words of printable ASCII
    without spaces, each of at most 64 bytes. *)
Theorem Format_printable name version commit :
  sforall (fun c => graphic c || Ascii.eqb c " ") (Format name version commit) = true
  /\ slen (Format name version commit) <= 196
  /\ exists a b c, Format name version commit = a +:+ " " +:+ b +:+ " (" +:+ c +:+ ")"
                   /\ sforall graphic (a +:+ b +:+ c) = true.
Proof.
  destruct (Format_words name version commit) as (a & b & c & E & [Ha La] & [Hb Lb] & [Hc Lc]).
  assert (Hp : forall s, sforall graphic s = true -> sforall (fun c => graphic c || Ascii.eqb c " ") s = true)
    by (intros s; apply sforall_impl; intros x Hx; by rewrite Hx).
  rewrite E. split; [by rewrite !sforall_app, (Hp a Ha), (Hp b Hb), (Hp c Hc)|]. split.
  - unfold slen in *. rewrite !str_app_length. cbn [String.length]. lia.
  - exists a, b, c. split; [done|]. by rewrite !sforall_app, Ha, Hb, Hc.
Qed.

(** ** Runs on a service that sees one process *)

Definition sample_list : ListCandidatesInput :=
  {| LC_HostID := "h"; LC_BindingID := "b"; LC_Limit := 0 |}.

Lemma inspection_tools_invalid_witness :
  fst (list_local_runtime_candidates sample_runtime sample_list 0%nat) = Err ToolInvalidInput.
Proof.
  apply (inspection_tools_invalid sample_runtime (evidence_of sample_service)). reflexivity.
Defined.

Definition sample_tool_input : VerifyRuntimeInput :=
  {| VT_PID := 7; VT_BindingID := EmptyString; VT_ExpectationPath := "m.json"; VT_Expectation := None;
     VT_KnownPriorDigests := [] |}.

Lemma verify_tool_evidence_witness :
  exists p w, verify_local_runtime ascii_tables sample_runtime sample_tool_input 0%nat = (Ok p, w)
              /\ evidence_of sample_service (verify_tool_request sample_tool_input) p.
Proof.
  assert (H : match verify_local_runtime ascii_tables sample_runtime sample_tool_input 0%nat with
              | (Ok p, _) => Verdict p | (Err _, _) => EmptyString end = "MATCHED")
    by (vm_compute; reflexivity).
  destruct (verify_local_runtime ascii_tables sample_runtime sample_tool_input 0%nat)
    as [[p|e] w] eqn:E; [|discriminate].
  exists p, w. split; [reflexivity|].
  apply (verify_tool_evidence ascii_tables sample_runtime (evidence_of sample_service)
           sample_tool_input 0%nat p w E). left. exact H.
Defined.
