(* ===== verification/McpServer.v ===== *)
(** * The MCP server as a whole ([New] of [internal/mcpserver/server.go])

    [New] registers the three tools of [Mcp] with their names, descriptions
    and annotations.  The SDK decodes the arguments of a call into the input
    of the tool it names and encodes what the handler returns; a call is
    therefore a name and an input here, and a reply the encoded output.  The
    server and the command line are two ways to the same service, and
    [server_agrees_with_cli] says that they give the same answers. *)

From S2P Require Import Prelude GoStrings Model Wire Evaluator World App Doctor Flags Cli Mcp.

(** The inputs of the tools. *)
Inductive tool_input :=
| ListInput (input : ListCandidatesInput)
| InspectInput (input : InspectRuntimesInput)
| VerifyInput (input : VerifyRuntimeInput).

(** [ListCandidatesOutput], [InspectRuntimesOutput] and [VerifyRuntimeOutput]. *)
Inductive tool_output :=
| Candidates (candidates : list CandidateSummary)
| Proofs (proofs : list Proof)
| OneProof (proof : Proof).

Definition CandidateSummary_json (c : CandidateSummary) : json :=
  JObject (omitempty "host_id" (CS_HostID c) ++ omitempty "binding_id" (CS_BindingID c)
           ++ [("platform", Platform_json (CS_Platform c));
               ("process", nullable ProcessIdentity_json (CS_Process c));
               ("executable", nullable ExecutableObservation_json (CS_Executable c));
               ("inaccessible_fields", strs (CS_InaccessibleFields c))]).

Definition ListCandidatesOutput_json (candidates : list CandidateSummary) : json :=
  JObject [("candidates", JArray (map CandidateSummary_json candidates))].

Definition InspectRuntimesOutput_json (proofs : list Proof) : json :=
  JObject [("proofs", JArray (map Proof_json proofs))].

Definition VerifyRuntimeOutput_json (proof : Proof) : json := JObject [("proof", Proof_json proof)].

Definition tool_output_json (output : tool_output) : json :=
  match output with
  | Candidates candidates => ListCandidatesOutput_json candidates
  | Proofs proofs => InspectRuntimesOutput_json proofs
  | OneProof proof => VerifyRuntimeOutput_json proof
  end.

(** [mcp.ToolAnnotations]; a hint that is a pointer may be absent. *)
Record ToolAnnotations := {
  ReadOnlyHint : bool;
  DestructiveHint : option bool;
  OpenWorldHint : option bool
}.

Definition safeAnnotations : ToolAnnotations :=
  {| ReadOnlyHint := true; DestructiveHint := Some false; OpenWorldHint := Some false |}.

(** A registered tool; the handler gives nothing for the input of another. *)
Record McpTool (W : Type) := {
  McpTool_Name : string;
  Description : string;
  Annotations : ToolAnnotations;
  Handler : tool_input -> option (io W tool_error tool_output)
}.
Arguments McpTool_Name {W}. Arguments Description {W}. Arguments Annotations {W}. Arguments Handler {W}.

Record Server (W : Type) := {
  Server_Name : string;
  Server_Version : string;
  Tools : list (McpTool W)
}.
Arguments Server_Name {W}. Arguments Server_Version {W}. Arguments Tools {W}.

Definition map_output {W A} (f : A -> tool_output) (c : io W tool_error A) : io W tool_error tool_output :=
  do! a := c in ret (f a).

Section Server.
Context {W : Type}.
Variable u : UnicodeTables.
Variable rt : Runtime W.

Definition list_tool : McpTool W := {|
  McpTool_Name := "list_local_runtime_candidates";
  Description := "Use this when the local PID or host binding is unknown and you need bounded, safe candidate summaries without artifact hashing. Do not use it to claim that a runtime matches an approved artifact or to request an exhaustive system inventory.";
  Annotations := safeAnnotations;
  Handler input := match input with
                   | ListInput i => Some (map_output Candidates (list_local_runtime_candidates rt i))
                   | _ => None
                   end |}.

Definition inspect_tool : McpTool W := {|
  McpTool_Name := "inspect_local_runtimes";
  Description := "Use this when you have an explicit local PID, host binding, or bounded current-user inventory and need observation Proofs. Do not use it to claim an approved artifact match; use verify_local_runtime with an expectation for that decision.";
  Annotations := safeAnnotations;
  Handler input := match input with
                   | InspectInput i => Some (map_output Proofs (inspect_local_runtimes rt i))
                   | _ => None
                   end |}.

Definition verify_tool : McpTool W := {|
  McpTool_Name := "verify_local_runtime";
  Description := "Use this when you need to verify an explicit local PID or host binding against one declared local artifact expectation. Do not use it without an expectation, for remote processes, or to modify, stop, repair, or upgrade a runtime.";
  Annotations := safeAnnotations;
  Handler input := match input with
                   | VerifyInput i => Some (map_output OneProof (verify_local_runtime u rt i))
                   | _ => None
                   end |}.

Definition New (version : string) : Server W :=
  {| Server_Name := "agent-runtime-proof"; Server_Version := version;
     Tools := [list_tool; inspect_tool; verify_tool] |}.

(** A call of the tool of that name. *)
Definition call (server : Server W) (name : string) (input : tool_input)
  : option (io W tool_error tool_output) :=
  match find (fun tool => McpTool_Name tool =s name) (Tools server) with
  | Some tool => Handler tool input
  | None => None
  end.

(** The name of the tool an input is for. *)
Definition tool_of (input : tool_input) : string :=
  match input with
  | ListInput _ => "list_local_runtime_candidates"
  | InspectInput _ => "inspect_local_runtimes"
  | VerifyInput _ => "verify_local_runtime"
  end.

(** What the tool of an input does. *)
Definition answer (input : tool_input) : io W tool_error tool_output :=
  match input with
  | ListInput i => map_output Candidates (list_local_runtime_candidates rt i)
  | InspectInput i => map_output Proofs (inspect_local_runtimes rt i)
  | VerifyInput i => map_output OneProof (verify_local_runtime u rt i)
  end.

(** The server answers to three names, each with its own tool; every tool is
    announced as read-only, not destructive and closed to the outside. *)
Theorem New_tools version name input :
  call (New version) name input = (if name =s tool_of input then Some (answer input) else None)
  /\ NoDup (map McpTool_Name (Tools (New version)))
  /\ Forall (fun tool => Annotations tool = safeAnnotations) (Tools (New version)).
Proof.
  split; [|split; [by apply (bool_decide_unpack _); vm_compute|by repeat constructor]].
  unfold call, New. cbn [Tools find McpTool_Name list_tool inspect_tool verify_tool].
  assert (Hn : forall a, (a =s name) = (name =s a)) by (intros a; apply String.eqb_sym).
  rewrite !Hn. destruct input; cbn [tool_of];
    destruct (String.eqb_spec name "list_local_runtime_candidates") as [->|]; try done;
    destruct (String.eqb_spec name "inspect_local_runtimes") as [->|]; try done;
    destruct (String.eqb_spec name "verify_local_runtime") as [->|]; done.
Qed.

(** ** The same answers as the command line *)

Variable fraction_nanoseconds : Z -> Z -> Z -> Z.

(** The call a command line stands for. *)
Definition inspect_call (request : InspectRequest) : tool_input :=
  InspectInput {| IT_PID := IR_PID request; IT_BindingID := IR_BindingID request; IT_All := IR_All request;
                  IT_Limit := IR_Limit request |}.

Definition verify_call (request : VerifyRequest) : tool_input :=
  VerifyInput {| VT_PID := VR_PID request; VT_BindingID := VR_BindingID request;
                 VT_ExpectationPath := VR_ExpectationPath request; VT_Expectation := VR_Expectation request;
                 VT_KnownPriorDigests := VR_KnownPriorDigests request |}.

Lemma inspect_call_request args request format :
  inspect_arguments fraction_nanoseconds args = Some (request, format) ->
  answer (inspect_call request) = map_output Proofs (wrap_error safeError (RT_Inspect rt request)).
Proof.
  intros H. pose proof (inspect_arguments_valid _ _ _ _ H) as Hv.
  assert (Hh : IR_HostID request = EmptyString).
  { unfold inspect_arguments in H. destruct (parse_all _ _ _); [|done]. cbv zeta in H.
    by destruct (negb _ || _ || _ || _ || _ || _) in H; [|injection H as <- _]. }
  unfold answer, inspect_call, inspect_local_runtimes.
  assert (Ha : inspect_accepted {| IT_PID := IR_PID request; IT_BindingID := IR_BindingID request;
                                   IT_All := IR_All request; IT_Limit := IR_Limit request |} = true).
  { unfold inspect_valid, selectors in Hv. unfold inspect_accepted. cbn [IT_PID IT_BindingID IT_All IT_Limit].
    rewrite Hh in Hv. change App.maximumInventoryLimit with maximumInventoryLimit in Hv.
    cbn [String.eqb negb andb] in Hv. by rewrite orb_false_r in Hv. }
  rewrite Ha. unfold inspect_request. cbn [IT_PID IT_BindingID IT_All IT_Limit].
  replace {| IR_PID := _ |} with request; [done|]. destruct request. cbn in *. by subst.
Qed.

Lemma verify_call_request args request format :
  verify_arguments u fraction_nanoseconds args = Some (request, format) ->
  answer (verify_call request) = map_output OneProof (wrap_error safeError (RT_Verify rt request)).
Proof.
  intros H. unfold verify_arguments in H. destruct (parse_all _ _ _) as [set|]; [|done]. cbv zeta in H.
  match type of H with (if ?b then _ else _) = _ => destruct b eqn:E end; [done|].
  repeat (apply orb_false_iff in E as [E ?]). injection H as <- _.
  unfold answer, verify_call, verify_local_runtime.
  cbn [VR_PID VR_BindingID VR_ExpectationPath VR_Expectation VR_KnownPriorDigests].
  match goal with |- map_output _ (bind (require ?b _) _) = _ => assert (Ha : b = true) end.
  { unfold verify_accepted. cbn [VT_PID VT_BindingID VT_ExpectationPath VT_Expectation VT_KnownPriorDigests].
    repeat match goal with H : _ = false |- _ => rewrite H end. reflexivity. }
  by rewrite Ha.
Qed.

(** The exit code of an error of a tool. *)
Definition tool_exit (e : tool_error) : Z :=
  match e with ToolInvalidInput => ExitInvalidInput | ToolOperation => ExitInternal end.

Lemma handleError_exit err : Exit (handleError err) = tool_exit (safeError err) /\ Stdout (handleError err) = [].
Proof. by destruct err. Qed.

(** How a reply of the command line with [--format json] reads an answer of
    the server. *)
Definition same_inspection (out : result tool_error tool_output) (r : reply) : Prop :=
  match out with
  | Ok output => Exit r = ExitOK /\ Stdout r = [JsonDocument (tool_output_json output)]
  | Err e => Exit r = tool_exit e /\ Stdout r = []
  end.

Definition same_verification (out : result tool_error tool_output) (r : reply) : Prop :=
  match out with
  | Ok (OneProof p) => Exit r = verdictExit (Verdict p) /\ Stdout r = [JsonDocument (Proof_json p)]
  | Ok _ => False
  | Err e => Exit r = tool_exit e /\ Stdout r = []
  end.
End Server.

Section Agreement.
Context {W : Type} (u : UnicodeTables) (rt : Runtime W) (fraction_nanoseconds : Z -> Z -> Z -> Z).

Lemma inspect_agrees args request w :
  helpRequested args = false -> inspect_arguments fraction_nanoseconds args = Some (request, "json") ->
  let '(r, w1) := runInspect fraction_nanoseconds any_output rt args w in
  let '(out, w2) := answer u rt (inspect_call request) w in
  w1 = w2 /\ same_inspection out r.
Proof.
  intros Hh Ha. rewrite (inspect_call_request u rt _ _ _ _ Ha). unfold runInspect. rewrite Hh, Ha.
  unfold map_output, bind, wrap_error.
  destruct (RT_Inspect rt request w) as [[proofs|err] w']; cbn [map_err ret]; split; try done.
  apply handleError_exit.
Qed.

Lemma verify_agrees args request w :
  helpRequested args = false -> verify_arguments u fraction_nanoseconds args = Some (request, "json") ->
  let '(r, w1) := runVerify u fraction_nanoseconds any_output rt args w in
  let '(out, w2) := answer u rt (verify_call request) w in
  w1 = w2 /\ same_verification out r.
Proof.
  intros Hh Ha. rewrite (verify_call_request u rt _ _ _ _ Ha). unfold runVerify. rewrite Hh, Ha.
  unfold map_output, bind, wrap_error.
  destruct (RT_Verify rt request w) as [[p|err] w']; cbn [map_err ret]; split; try done.
  apply handleError_exit.
Qed.
End Agreement.

(** C34: an agent that calls the server and a user at the command line get the
    same answers: for every valid command line of [inspect] or [verify] with
    [--format json] there is a call of the server that has the same effect on
    the world, returns the very document the command prints, and fails exactly
    when the command fails, with the error its exit code stands for; only the
    verdict is in the exit code for one and in the document for the other. *)
Theorem server_agrees_with_cli {W} u (rt : Runtime W) fraction version args w :
  helpRequested args = false ->
  (forall request, inspect_arguments fraction args = Some (request, "json") ->
     exists tool, call (New u rt version) "inspect_local_runtimes" (inspect_call request) = Some tool
       /\ snd (tool w) = snd (runInspect fraction any_output rt args w)
       /\ same_inspection (fst (tool w)) (fst (runInspect fraction any_output rt args w)))
  /\ (forall request, verify_arguments u fraction args = Some (request, "json") ->
     exists tool, call (New u rt version) "verify_local_runtime" (verify_call request) = Some tool
       /\ snd (tool w) = snd (runVerify u fraction any_output rt args w)
       /\ same_verification (fst (tool w)) (fst (runVerify u fraction any_output rt args w))).
Proof.
  intros Hh. split; intros request Ha.
  - exists (answer u rt (inspect_call request)). split; [apply (New_tools u rt version)|].
    pose proof (inspect_agrees u rt fraction args request w Hh Ha) as H.
    destruct (runInspect _ _ _ _ _), (answer _ _ _ w). destruct H as [-> H]. by split.
  - exists (answer u rt (verify_call request)). split; [apply (New_tools u rt version)|].
    pose proof (verify_agrees u rt fraction args request w Hh Ha) as H.
    destruct (runVerify _ _ _ _ _ _), (answer _ _ _ w). destruct H as [-> H]. by split.
Qed.

Definition json_args : list string := sample_args ++ ["--format"; "json"].

Lemma server_agrees_with_cli_witness :
  match verify_arguments ascii_tables no_fractions json_args with
  | Some (request, format) => format = "json" /\ VR_PID request = 7
  | None => False
  end
  /\ exists request tool,
       call (New ascii_tables sample_runtime "1") "verify_local_runtime" (verify_call request) = Some tool
       /\ same_verification (fst (tool 0%nat)) (fst (runVerify ascii_tables no_fractions any_output sample_runtime json_args 0%nat)).
Proof.
  assert (H : match verify_arguments ascii_tables no_fractions json_args with
              | Some (request, format) => format = "json" /\ VR_PID request = 7
              | None => False end) by (vm_compute; done).
  split; [exact H|].
  destruct (verify_arguments ascii_tables no_fractions json_args) as [[request format]|] eqn:E; [|done].
  destruct H as [-> _].
  destruct (server_agrees_with_cli ascii_tables sample_runtime no_fractions "1" json_args 0%nat eq_refl) as [_ Hv].
  destruct (Hv request E) as (tool & Hc & _ & Hs). by exists request, tool.
Defined.
