(* ===== verification/Supervisor.v ===== *)
(** * The supervisor and its guardian ([internal/witness/supervisor_unix.go], [guardian_unix.go])

    The witness does not start the command itself: it starts a copy of the
    program, the guardian, which starts the command in a process group of its
    own, reports its process identifier and outlives neither the command nor
    the witness.  Each side is modelled as the sequence of system calls it
    makes, given what the system answers; the two are composed through the
    configuration and the status pipe, and their interleaving is a step
    relation. *)

From S2P Require Import Prelude GoStrings Model Canonical Wire Process World Flags Witness WitnessRun.

(** ** The configuration pipe *)

(** [guardianConfig], as [json.Marshal] writes it. *)
Definition config_document (command : list string) : json :=
  JObject [("command", JArray (map JString command))].

(** [json.Decoder.Decode] with [DisallowUnknownFields] into [guardianConfig]:
    a member is matched up to case, the last one counts, [null] leaves the
    zero value. *)
Fixpoint decode_strings (items : list json) : option (list string) :=
  match items with
  | [] => Some []
  | JString s :: rest => option_map (cons s) (decode_strings rest)
  | JNull :: rest => option_map (cons EmptyString) (decode_strings rest)
  | _ :: _ => None
  end.

Fixpoint decode_config (members : list (string * json)) (command : list string) : option (list string) :=
  match members with
  | [] => Some command
  | (key, value) :: rest =>
      if ToLower ascii_tables key =s "command"
      then match value with
           | JNull => decode_config rest []
           | JArray items =>
               match decode_strings items with
               | Some l => decode_config rest l
               | None => None
               end
           | _ => None
           end
      else None
  end.

Definition guardianConfig_of (value : json) : option (list string) :=
  match value with
  | JNull => Some []
  | JObject members => decode_config members []
  | _ => None
  end.

(** A document on the pipe: its size and the value it decodes to, if any. *)
Record document := { Doc_Size : Z; Doc_Value : option json }.

Definition sent_document (command : list string) : document :=
  {| Doc_Size := slen (json_text (config_document command));
     Doc_Value := Some (normalize (config_document command)) |}.

(** ** The status pipe *)

Definition newline : ascii := byte_of 10.

(** What the guardian writes, and what the supervisor makes of it:
    [ReadString('\n')] of at most 64 bytes, then [Atoi]. *)
Definition status_line (pid : Z) : string := FormatInt pid +:+ byte_string 10.

Definition read_line (status : string) : option string :=
  match IndexByte (stake 64 status) newline with
  | Some i => Some (stake (S i) status)
  | None => None
  end.

Definition read_pid (status : string) : option Z :=
  match read_line status with
  | Some line =>
      match ParseInt (TrimSpace line) with
      | Some pid => if 0 <? pid then Some pid else None
      | None => None
      end
  | None => None
  end.

(** ** Starting: [unixSupervisor.Start] *)

Inductive fd := OwnerReader | OwnerWriter | ConfigReader | ConfigWriter | StatusReader | StatusWriter.

Inductive sup_action :=
| OpenPipe (reader writer : fd)
| CloseFile (file : fd)
| StartGuardian                       (* with the three inherited ends *)
| WriteConfig (config : document)
| KillGuardian
| WaitGuardian.

(** What the system answers: whether each call succeeds, and what the
    guardian wrote before it closed its end. *)
Record start_answers := {
  Ans_OwnerPipe : bool;
  Ans_ConfigPipe : bool;
  Ans_StatusPipe : bool;
  Ans_Executable : bool;
  Ans_Guardian : bool;
  Ans_WriteConfig : bool;
  Ans_CloseConfig : bool;
  Ans_Status : string
}.

Definition closeFiles {E} (files : list fd) : trace sup_action E unit := emit_all (map CloseFile files).

Definition kill_guardian (files : list fd) : trace sup_action unit unit :=
  do! _ := emit KillGuardian in
  do! _ := emit WaitGuardian in
  closeFiles files.

Definition Start (ans : start_answers) (command : list string) : trace sup_action unit Z :=
  if negb (Ans_OwnerPipe ans) then throw tt else
  do! _ := emit (OpenPipe OwnerReader OwnerWriter) in
  if negb (Ans_ConfigPipe ans) then fail_after (closeFiles [OwnerReader; OwnerWriter]) else
  do! _ := emit (OpenPipe ConfigReader ConfigWriter) in
  if negb (Ans_StatusPipe ans)
  then fail_after (closeFiles [OwnerReader; OwnerWriter; ConfigReader; ConfigWriter]) else
  do! _ := emit (OpenPipe StatusReader StatusWriter) in
  let all := [OwnerReader; OwnerWriter; ConfigReader; ConfigWriter; StatusReader; StatusWriter] in
  if negb (Ans_Executable ans) then fail_after (closeFiles all) else
  if negb (Ans_Guardian ans) then fail_after (closeFiles all) else
  do! _ := emit StartGuardian in
  do! _ := closeFiles [OwnerReader; ConfigReader; StatusWriter] in
  do! _ := emit (WriteConfig (sent_document command)) in
  do! _ := closeFiles [ConfigWriter] in
  if negb (Ans_WriteConfig ans && Ans_CloseConfig ans)
  then fail_after (kill_guardian [OwnerWriter; StatusReader]) else
  do! _ := closeFiles [StatusReader] in
  match read_pid (Ans_Status ans) with
  | Some pid => ret pid
  | None => fail_after (kill_guardian [OwnerWriter])
  end.

(** ** Supervising: the methods of [unixSupervisor] *)

(** Its mutable fields; [guardian] is set together with [pid]. *)
Record supervisor := {
  U_pid : option Z;
  U_owner : bool;             (* the owner pipe is still held open *)
  U_waited : bool;
  U_complete : bool
}.

Definition new_supervisor : supervisor :=
  {| U_pid := None; U_owner := false; U_waited := false; U_complete := false |}.

(** What a method does to the system. *)
Inductive effect :=
| Launch (pid : Z)
| SignalGroup (pid : Z) (signal : Z)
| ReapGuardian
| CloseOwner.

(** [value.guardian = guardian] and the two fields next to it. *)
Definition started (pid : Z) (s : supervisor) : supervisor :=
  {| U_pid := Some pid; U_owner := true; U_waited := U_waited s; U_complete := U_complete s |}.

(** [Wait] up to the first unlock, and from the second lock on. *)
Definition wait_begin (s : supervisor) : option supervisor :=
  match U_pid s with
  | None => None
  | Some _ =>
      if U_waited s then None
      else Some {| U_pid := U_pid s; U_owner := U_owner s; U_waited := true; U_complete := U_complete s |}
  end.

Definition wait_end (s : supervisor) : supervisor :=
  {| U_pid := U_pid s; U_owner := false; U_waited := U_waited s; U_complete := true |}.

(** [signalGroup]: what is sent, if anything; [None] is the error that the
    process was not started. *)
Definition signalGroup (signal : Z) (s : supervisor) : option (list effect) :=
  if U_complete s then Some []
  else match U_pid s with
       | None => None
       | Some pid => Some [SignalGroup pid signal]
       end.

Definition SIGTERM : Z := 15.
Definition SIGKILL : Z := 9.
Definition GracefulStop (s : supervisor) : option (list effect) := signalGroup SIGTERM s.
Definition ForceStop (s : supervisor) : option (list effect) := signalGroup SIGKILL s.
Definition ForwardSignal (signal : Z) (s : supervisor) : option (list effect) := signalGroup signal s.

(** The methods interleave at their locks.  [Wait] is under way while
    [waited] is set and [complete] is not; [signalGroup] decides under the
    lock and calls [kill] after it, so a decided signal may be sent later. *)
Record configuration := { C_sup : supervisor; C_pending : list effect }.

Inductive sup_step : configuration -> list effect -> configuration -> Prop :=
| step_start s pending pid :
    U_pid s = None -> 0 < pid ->
    sup_step {| C_sup := s; C_pending := pending |} [Launch pid]
             {| C_sup := started pid s; C_pending := pending |}
| step_signal s pending signal decided :
    signalGroup signal s = Some decided ->
    sup_step {| C_sup := s; C_pending := pending |} [] {| C_sup := s; C_pending := pending ++ decided |}
| step_send s before sent after :
    sup_step {| C_sup := s; C_pending := before ++ sent :: after |} [sent]
             {| C_sup := s; C_pending := before ++ after |}
| step_wait_begin s pending s' :
    wait_begin s = Some s' ->
    sup_step {| C_sup := s; C_pending := pending |} [] {| C_sup := s'; C_pending := pending |}
| step_wait_end s pending :
    U_waited s = true -> U_complete s = false ->
    sup_step {| C_sup := s; C_pending := pending |} [ReapGuardian; CloseOwner]
             {| C_sup := wait_end s; C_pending := pending |}.

Inductive sup_runs : configuration -> list effect -> Prop :=
| sup_runs_start : sup_runs {| C_sup := new_supervisor; C_pending := [] |} []
| sup_runs_step c effects c' more :
    sup_runs c effects -> sup_step c more c' -> sup_runs c' (effects ++ more).

(** ** The guardian: [runGuardian] *)

Inductive wait_status := Exited (code : Z) | Signaled (signal : Z) | Unavailable.

(** [guardianExitCode]: [command.Wait] succeeds on status 0 only. *)
Definition guardianExitCode (status : wait_status) : Z :=
  match status with
  | Exited code => if (code <? 0) || (255 <? code) then 70 else code
  | Signaled signal => 128 + signal
  | Unavailable => 70
  end.

Inductive guardian_action :=
| StartTarget (command environment : list string)
| Report (text : string)
| CloseStatus
| KillTarget                           (* SIGKILL to the target's group *)
| WaitTarget
| ReapChildren.

Definition guardianEnvironment : string := "AGENT_RUNTIME_PROOF_INTERNAL_GUARD=1".

Definition withoutGuardianEnvironment (values : list string) : list string :=
  List.filter (fun value => negb (HasPrefix value "AGENT_RUNTIME_PROOF_INTERNAL_GUARD=")) values.

(** The command a configuration holds, if it is one the guardian accepts. *)
Definition read_configuration (config : document) : option (list string) :=
  if 2 ^ 20 <? Doc_Size config then None
  else match Doc_Value config with
       | None => None
       | Some value =>
           match guardianConfig_of value with
           | None => None
           | Some command => if command_valid command then Some command else None
           end
       end.

(** Which of the two goroutines is first: the one that waits for the target,
    or the one that waits for the owner pipe to close. *)
Inductive first_event := TargetDone (status : wait_status) | OwnerDone.

Record guardian_answers := {
  Gd_Reaping : bool;                   (* [configureGuardianReaping] *)
  Gd_Files : bool;                     (* descriptors 3, 4 and 5 *)
  Gd_Config : option document;         (* [None]: it could not be read *)
  Gd_Environ : list string;
  Gd_Start : option Z;
  Gd_Report : bool;
  Gd_First : first_event
}.

Definition guardian_failure : Z := 70.

(** After the target has been reported. *)
Definition guard (first : first_event) : trace guardian_action unit Z :=
  match first with
  | TargetDone status =>
      do! _ := emit WaitTarget in
      do! _ := emit KillTarget in
      do! _ := emit ReapChildren in
      ret (guardianExitCode status)
  | OwnerDone =>
      do! _ := emit KillTarget in
      do! _ := emit WaitTarget in
      do! _ := emit ReapChildren in
      ret guardian_failure
  end.

Definition start_target (ans : guardian_answers) (command : list string) : trace guardian_action unit Z :=
  match Gd_Start ans with
  | None => ret guardian_failure
  | Some pid =>
      do! _ := emit (StartTarget command (withoutGuardianEnvironment (Gd_Environ ans))) in
      if negb (Gd_Report ans)
      then do! _ := emit KillTarget in
           do! _ := emit WaitTarget in
           ret guardian_failure
      else
        do! _ := emit (Report (status_line pid)) in
        do! _ := emit CloseStatus in
        guard (Gd_First ans)
  end.

Definition runGuardian (ans : guardian_answers) : trace guardian_action unit Z :=
  if negb (Gd_Reaping ans) then ret guardian_failure
  else if negb (Gd_Files ans) then ret guardian_failure
  else match Gd_Config ans with
       | None => ret guardian_failure
       | Some config =>
           match read_configuration config with
           | None => ret guardian_failure
           | Some command => start_target ans command
           end
       end.

(** [RunGuardianIfRequested]: only in a process the witness has created. *)
Definition RunGuardianIfRequested (variable : string) (ans : guardian_answers)
  : option (result unit Z * list guardian_action) :=
  if variable =s "1" then Some (runGuardian ans []) else None.

(** [Wait4(-1)], until there is no child left. *)
Inductive wait4_answer := Reaped | Interrupted | NoChild | WaitFailed.

(** The answers used; [None]: still waiting after all of them. *)
Fixpoint reapGuardianChildren (answers : list wait4_answer) : option nat :=
  match answers with
  | [] => None
  | NoChild :: _ | WaitFailed :: _ => Some 1%nat
  | (Reaped | Interrupted) :: rest => option_map S (reapGuardianChildren rest)
  end.

(** ** Starting leaves nothing behind *)

#[global] Instance fd_eq_dec : EqDecision fd.
Proof. solve_decision. Defined.

(** The descriptors open after some actions. *)
Fixpoint open_after (actions : list sup_action) (open : list fd) : list fd :=
  match actions with
  | [] => open
  | OpenPipe r w :: rest => open_after rest (r :: w :: open)
  | CloseFile f :: rest => open_after rest (List.filter (fun g => negb (bool_decide (g = f))) open)
  | _ :: rest => open_after rest open
  end.

Definition is_start_guardian (a : sup_action) : bool := match a with StartGuardian => true | _ => false end.
Definition is_reap (a : sup_action) : bool := match a with WaitGuardian => true | _ => false end.

Definition reaped (actions : list sup_action) : bool :=
  Bool.eqb (existsb is_start_guardian actions) (existsb is_reap actions).

Lemma Start_outcome ans command :
  match Start ans command [] with
  | (Err _, actions) => open_after actions [] = [] /\ reaped actions = true
  | (Ok pid, actions) =>
      open_after actions [] = [OwnerWriter]
      /\ existsb is_start_guardian actions = true /\ existsb is_reap actions = false
      /\ In (WriteConfig (sent_document command)) actions
      /\ 0 < pid /\ read_pid (Ans_Status ans) = Some pid
  end.
Proof.
  destruct ans as [o c s x g wc cc status].
  unfold Start, fail_after, kill_guardian, closeFiles, emit_all, emit, bind, throw, ret. cbn [Ans_OwnerPipe Ans_ConfigPipe
    Ans_StatusPipe Ans_Executable Ans_Guardian Ans_WriteConfig Ans_CloseConfig Ans_Status].
  destruct o; [|by split]. destruct c; [|by split]. destruct s; [|by split].
  destruct x; [|by split]. destruct g; [|by split].
  destruct wc, cc; cbn [negb andb]; try by split.
  destruct (read_pid status) as [pid|] eqn:E; [|by split].
  repeat split; try done; [cbn; tauto|]. unfold read_pid in E.
  repeat (case_match; try done). simplify_eq. by apply Z.ltb_lt.
Qed.

Lemma Start_pid ans command pid actions :
  Start ans command [] = (Ok pid, actions) -> read_pid (Ans_Status ans) = Some pid.
Proof. intros H. pose proof (Start_outcome ans command) as Ho. rewrite H in Ho. apply Ho. Qed.

(** Starting a command is all or nothing: if [Start] fails, whichever call
    fails, then every pipe end it had opened is closed again and a guardian it
    had started has been killed and waited for; if it succeeds, exactly the
    owner end that the guardian watches stays open, the guardian runs, it was
    sent the command, and the process identifier is the positive number the
    guardian reported. *)
Theorem Start_all_or_nothing ans command :
  match Start ans command [] with
  | (Err _, actions) => open_after actions [] = [] /\ reaped actions = true
  | (Ok pid, actions) =>
      open_after actions [] = [OwnerWriter]
      /\ existsb is_start_guardian actions = true /\ existsb is_reap actions = false
      /\ In (WriteConfig (sent_document command)) actions
      /\ 0 < pid /\ read_pid (Ans_Status ans) = Some pid
  end.
Proof. apply Start_outcome. Qed.

(** ** The life of a supervisor *)

Definition is_reap_effect (e : effect) : bool := match e with ReapGuardian => true | _ => false end.
Definition is_launch (e : effect) : bool := match e with Launch _ => true | _ => false end.

(** A signal goes to the launched group only. *)
Definition addressed (s : supervisor) (e : effect) : Prop :=
  match e with
  | Launch pid | SignalGroup pid _ => U_pid s = Some pid
  | _ => True
  end.

Record supervised (c : configuration) (effects : list effect) : Prop := {
  sv_complete : U_complete (C_sup c) = true -> U_waited (C_sup c) = true;
  sv_waited : U_waited (C_sup c) = true -> U_pid (C_sup c) <> None;
  sv_owner : U_owner (C_sup c) = bool_decide (U_pid (C_sup c) <> None) && negb (U_complete (C_sup c));
  sv_pid : forall pid, U_pid (C_sup c) = Some pid -> 0 < pid;
  sv_sent : Forall (addressed (C_sup c)) effects;
  sv_pending : Forall (addressed (C_sup c)) (C_pending c);
  sv_pending_signals : Forall (fun e => exists pid signal, e = SignalGroup pid signal) (C_pending c);
  sv_launches : length (List.filter is_launch effects) = (if U_pid (C_sup c) then 1%nat else 0%nat);
  sv_reaps : length (List.filter is_reap_effect effects) = (if U_complete (C_sup c) then 1%nat else 0%nat)
}.

Lemma addressed_same s s' e : U_pid s' = U_pid s -> addressed s e -> addressed s' e.
Proof. intros Hp. destruct e; cbn; by rewrite ?Hp. Qed.

Lemma unaddressed_none s l : U_pid s = None -> Forall (addressed s) l -> forall s', Forall (addressed s') l.
Proof.
  intros Hp Hl s'. eapply Forall_impl; [exact Hl|]. intros [pid|pid signal| |] H; cbn in *; congruence.
Qed.

Lemma sup_step_supervised c effects c' more :
  supervised c effects -> sup_step c more c' -> supervised c' (effects ++ more).
Proof.
  intros [Hc Hw Ho Hp Hs Hd Hg Hl Hr] Hstep.
  inversion Hstep as [s pend pid Hnone Hpos|s pend signal dec Hsig|s bef sent aft|s pend s' Hb|s pend Hwt Hct];
    subst; clear Hstep; cbn [C_sup C_pending] in *.
  - (* Start *)
    assert (Hnc : U_complete s = false).
    { destruct (U_complete s); [|done]. by destruct (Hw (Hc eq_refl)). }
    split; cbn [started C_sup C_pending U_pid U_owner U_waited U_complete]; try done.
    + by rewrite Hnc.
    + intros ? [= <-]. done.
    + apply Forall_app. split; [by apply (unaddressed_none s)|]. by constructor.
    + by apply (unaddressed_none s).
    + rewrite List.filter_app, length_app, Hl, Hnone. reflexivity.
    + rewrite List.filter_app, length_app, Hr, Hnc. reflexivity.
  - (* signalGroup *)
    rewrite app_nil_r. split; cbn [C_sup C_pending]; try done; apply Forall_app; (split; [done|]);
      unfold signalGroup in Hsig; destruct (U_complete s); try (injection Hsig as <-; by constructor);
      destruct (U_pid s) eqn:E; try done; injection Hsig as <-; constructor; try constructor.
    + exact E.
    + by do 2 eexists.
  - (* kill *)
    apply Forall_app in Hd as [Hd1 Hd2]. apply Forall_cons in Hd2 as [Hsent Hd2].
    apply Forall_app in Hg as [Hg1 Hg2]. apply Forall_cons in Hg2 as [(pid & signal & ->) Hg2].
    split; cbn [C_sup C_pending]; try done.
    + apply Forall_app. split; [done|]. by constructor.
    + by apply Forall_app.
    + by apply Forall_app.
    + by rewrite List.filter_app, app_nil_r.
    + by rewrite List.filter_app, app_nil_r.
  - (* Wait begins *)
    rewrite app_nil_r. unfold wait_begin in Hb.
    destruct (U_pid s) as [pid|] eqn:E; [|done]. destruct (U_waited s); [done|]. injection Hb as <-.
    split; cbn [C_sup C_pending U_pid U_owner U_waited U_complete]; try done;
      (eapply Forall_impl; [eassumption|]); intros e He; by apply (addressed_same s).
  - (* Wait ends *)
    split; cbn [wait_end C_sup C_pending U_pid U_owner U_waited U_complete]; try done.
    + by rewrite andb_false_r.
    + apply Forall_app. split; [|by repeat constructor].
      eapply Forall_impl; [eassumption|]. intros e He. by apply (addressed_same s).
    + rewrite List.filter_app, length_app, Hl. cbn. lia.
    + rewrite List.filter_app, length_app, Hr, Hct. reflexivity.
Qed.

Lemma sup_runs_supervised c effects : sup_runs c effects -> supervised c effects.
Proof.
  induction 1 as [|c effects c' more _ IH Hstep]; [|by eapply sup_step_supervised].
  split; cbn; try done; by constructor.
Qed.

(** C35: however the methods of the supervisor interleave, at most one process
    is launched, the guardian is waited for at most once, the owner pipe is
    held open exactly while a process has been started and not yet been waited
    for (so the guardian never mistakes a living witness for a dead one), and
    every signal is addressed to the group of the launched process. *)
Theorem supervisor_safe c effects :
  sup_runs c effects ->
  (length (List.filter is_launch effects) <= 1)%nat
  /\ (length (List.filter is_reap_effect effects) <= 1)%nat
  /\ U_owner (C_sup c) = bool_decide (U_pid (C_sup c) <> None) && negb (U_complete (C_sup c))
  /\ forall pid signal, In (SignalGroup pid signal) effects -> U_pid (C_sup c) = Some pid /\ 0 < pid.
Proof.
  intros [Hc Hw Ho Hp Hs _ _ Hl Hr]%sup_runs_supervised. rewrite Hl, Hr.
  split; [destruct (U_pid _); lia|]. split; [destruct (U_complete _); lia|]. split; [done|].
  intros pid signal Hin. rewrite List.Forall_forall in Hs. apply Hs in Hin. cbn in Hin. auto.
Qed.

(** Once the process has been waited for, no further signal is decided:
    [signalGroup] is then silent, so what may still be sent was decided
    before, and nothing new accumulates. *)
Theorem complete_is_silent c effects c' more :
  sup_runs c effects -> U_complete (C_sup c) = true -> sup_step c more c' ->
  U_complete (C_sup c') = true
  /\ ((exists sent, more = [sent] /\ Permutation (C_pending c) (sent :: C_pending c'))
      \/ more = [] /\ C_pending c' = C_pending c).
Proof.
  intros Hruns Hc Hstep. apply sup_runs_supervised in Hruns as [Hcw Hw _ _ _ _ _ _ _].
  inversion Hstep as [s pend pid Hnone Hpos|s pend signal dec Hsig|s bef sent aft|s pend s' Hb|s pend Hwt Hct];
    subst; cbn [C_sup C_pending started U_complete] in *.
  - by destruct (Hw (Hcw Hc)).
  - unfold signalGroup in Hsig. rewrite Hc in Hsig. injection Hsig as <-. split; [done|].
    right. by rewrite app_nil_r.
  - split; [done|]. left. exists sent. split; [done|]. apply Permutation_sym, Permutation_middle.
  - unfold wait_begin in Hb. rewrite (Hcw Hc) in Hb. by destruct (U_pid s).
  - congruence.
Qed.

(** ** The reported process identifier *)

Definition blanks : string := of_runes [9; 10; 11; 12; 13; 32].

Lemma digit_not_blank c : is_digit c && has_byte blanks c = false.
Proof. destruct c as [[] [] [] [] [] [] [] []]; reflexivity. Qed.

Lemma digit_visible c : is_digit c = true -> has_byte blanks c = false.
Proof. intros H. pose proof (digit_not_blank c) as Hb. by rewrite H in Hb. Qed.

Lemma trim_right_line ds :
  sforall is_digit ds = true -> trim_right blanks (ds +:+ byte_string 10) = ds.
Proof.
  induction ds as [|c t IH]; [reflexivity|]. rewrite sforall_cons. intros [Hc Ht]%andb_true_iff.
  cbn [String.append trim_right]. rewrite IH, (digit_visible c Hc) by done. by destruct t.
Qed.

Lemma TrimSpace_line c t :
  sforall is_digit (String c t) = true -> TrimSpace (String c t +:+ byte_string 10) = String c t.
Proof.
  intros H. unfold TrimSpace, Trim. fold blanks. pose proof H as Hc. rewrite sforall_cons in Hc.
  apply andb_true_iff in Hc as [Hc _]. cbn [String.append trim_left]. rewrite (digit_visible c Hc).
  exact (trim_right_line (String c t) H).
Qed.

Lemma IndexByte_line ds :
  sforall is_digit ds = true -> IndexByte (ds +:+ byte_string 10) newline = Some (String.length ds).
Proof.
  induction ds as [|c t IH]; [reflexivity|]. rewrite sforall_cons. intros [Hc Ht]%andb_true_iff.
  cbn [String.append IndexByte String.length]. rewrite IH by done.
  destruct (Ascii.eqb c newline) eqn:E; [|done]. by apply ascii_eqb_true in E as ->.
Qed.

(** The supervisor reads the identifier the guardian has written. *)
Lemma read_pid_status_line pid : 0 < pid <= int64_max -> read_pid (status_line pid) = Some pid.
Proof.
  unfold int64_max. intros Hp. unfold read_pid, read_line, status_line.
  assert (Hf : FormatInt pid = digits_of 20 pid).
  { unfold FormatInt. rewrite (proj2 (Z.ltb_ge pid 0)) by lia. by rewrite digits_fuel_of, str_app_nil_r. }
  pose proof (digits_of_digits 20 pid ltac:(lia)) as Hd. pose proof (digits_of_length 20 pid) as Hl.
  pose proof (digits_of_nonempty 20 pid ltac:(lia)) as Hne. rewrite <- Hf in *.
  assert (Hlen : String.length (FormatInt pid +:+ byte_string 10) = S (String.length (FormatInt pid)))
    by (rewrite str_app_length; cbn; lia).
  rewrite (stake_short 64) by lia. rewrite IndexByte_line, (stake_short (S _)) by (done || lia).
  destruct (FormatInt pid) as [|c t] eqn:E; [done|]. rewrite TrimSpace_line, <- E by done.
  rewrite ParseInt_FormatInt by (unfold int64_min, int64_max; lia).
  by rewrite (proj2 (Z.ltb_lt 0 pid)) by lia.
Qed.

(** ** The guardian *)

(** The rules for one run of the guardian that starts a target. *)
Definition guarded (actions : list guardian_action) : Prop :=
  exists command environment rest,
    actions = StartTarget command environment :: rest
    /\ command_valid command = true
    /\ Forall (fun value => HasPrefix value "AGENT_RUNTIME_PROOF_INTERNAL_GUARD=" = false) environment
    /\ In KillTarget rest /\ In WaitTarget rest
    /\ (forall text, In (Report text) rest -> last rest = Some ReapChildren).

Lemma read_configuration_valid config command :
  read_configuration config = Some command -> command_valid command = true.
Proof. unfold read_configuration. intros H. by repeat (case_match; simplify_eq; try done). Qed.

Lemma without_guard values :
  Forall (fun value => HasPrefix value "AGENT_RUNTIME_PROOF_INTERNAL_GUARD=" = false)
    (withoutGuardianEnvironment values).
Proof.
  apply List.Forall_forall. intros v [_ H]%filter_In. by apply negb_true_iff.
Qed.

(** The guardian never leaves a target behind: whatever the system
    answers, it either starts nothing and exits with 70, or it starts exactly
    one valid command, without the variable that marks a guardian, and before
    it exits it has killed the process group of the command and waited for it;
    once the command has been reported it ends by reaping all its children. *)
Theorem guardian_cleans_up ans :
  exists code actions,
    runGuardian ans [] = (Ok code, actions)
    /\ (actions = [] /\ code = guardian_failure \/ guarded actions).
Proof.
  unfold runGuardian. destruct (Gd_Reaping ans); [|by do 2 eexists; split; [|left]].
  destruct (Gd_Files ans); [|by do 2 eexists; split; [|left]].
  destruct (Gd_Config ans) as [config|]; [|by do 2 eexists; split; [|left]].
  destruct (read_configuration config) as [command|] eqn:E; [|by do 2 eexists; split; [|left]].
  apply read_configuration_valid in E. unfold start_target.
  destruct (Gd_Start ans) as [pid|]; [|by do 2 eexists; split; [|left]]. cbn [negb].
  pose proof (without_guard (Gd_Environ ans)) as He.
  destruct (Gd_Report ans); cbn [negb]; [destruct (Gd_First ans)|];
    (do 2 eexists; split; [reflexivity|]; right; do 3 eexists; split; [reflexivity|]);
    (split; [exact E|]; split; [exact He|]); cbn [In]; (split; [tauto|]; split; [tauto|]);
    intros text; cbn [last In]; try done.
  intros [|[|[]]]; discriminate.
Qed.

(** ** From the witness to the target *)

Definition reported (actions : list guardian_action) : string :=
  concat_str (map (fun a => match a with Report text => text | _ => EmptyString end) actions).

Lemma decode_strings_all l : decode_strings (map JString l) = Some l.
Proof. induction l as [|s l IH]; [done|]. cbn. by rewrite IH. Qed.

Lemma sent_value command :
  guardianConfig_of (normalize (config_document command)) = Some (map ToValidUTF8 command).
Proof.
  assert (Hn : normalize (config_document command)
               = JObject [("command", JArray (map JString (map ToValidUTF8 command)))]).
  { unfold config_document. cbn [normalize map fst snd]. rewrite !map_map. reflexivity. }
  rewrite Hn. cbn [guardianConfig_of decode_config].
  change (ToLower ascii_tables "command" =s "command") with true. cbv iota. by rewrite decode_strings_all.
Qed.

Definition transmissible (command : list string) : Prop :=
  Forall (fun value => ValidString value = true) command
  /\ slen (json_text (config_document command)) <= 2 ^ 20.

Lemma transmitted command :
  command_valid command = true -> transmissible command ->
  read_configuration (sent_document command) = Some command.
Proof.
  intros Hv [Hu Hs]. unfold read_configuration, sent_document. cbn [Doc_Size Doc_Value].
  rewrite (proj2 (Z.ltb_ge _ _)) by done. rewrite sent_value.
  assert (Hm : map ToValidUTF8 command = command).
  { rewrite <- (map_id command) at 2. apply map_ext_in. intros v Hin. apply ToValidUTF8_id.
    by apply (proj1 (List.Forall_forall _ _) Hu). }
  by rewrite Hm, Hv.
Qed.

(** C13: the two ends agree: if the supervisor has started a valid command of
    UTF-8 strings that fits the configuration pipe, through a guardian that
    received what was sent and whose report is what the supervisor read, then
    the process the supervisor will signal and wait for is the one running
    that very command, and the command does not see the variable that marks a
    guardian. *)
Theorem supervised_command ans command pid actions gans code gactions :
  command_valid command = true -> transmissible command ->
  Start ans command [] = (Ok pid, actions) ->
  Gd_Config gans = Some (sent_document command) ->
  (forall target, Gd_Start gans = Some target -> 0 < target <= int64_max) ->
  runGuardian gans [] = (Ok code, gactions) -> Ans_Status ans = reported gactions ->
  Gd_Start gans = Some pid
  /\ head gactions = Some (StartTarget command (withoutGuardianEnvironment (Gd_Environ gans))).
Proof.
  intros Hv Ht Hstart Hconf Hpid Hrun Hstatus.
  pose proof (Start_pid ans command pid actions Hstart) as Hread. rewrite Hstatus in Hread.
  unfold runGuardian in Hrun. rewrite Hconf, (transmitted command Hv Ht) in Hrun.
  destruct (Gd_Reaping gans); [|injection Hrun as _ <-; done].
  destruct (Gd_Files gans); [|injection Hrun as _ <-; done]. unfold start_target in Hrun.
  destruct (Gd_Start gans) as [target|]; [|injection Hrun as _ <-; done].
  destruct (Gd_Report gans); [|injection Hrun as _ <-; done].
  cbn [negb] in Hrun.
  assert (Hrep : reported gactions = status_line target /\
    head gactions = Some (StartTarget command (withoutGuardianEnvironment (Gd_Environ gans)))).
  { destruct (Gd_First gans); injection Hrun as _ <-;
      (split; [|reflexivity]); unfold reported; cbn [app map concat_str]; by rewrite str_app_nil_r. }
  destruct Hrep as [Hr Hh]. rewrite Hr, read_pid_status_line in Hread by auto. by injection Hread as ->.
Qed.

(** A command argument that is not valid UTF-8 does not reach the target:
    a command the witness accepts, and whose argument fingerprints it records
    over the original bytes, is started with other arguments, because the
    configuration pipe carries JSON text. *)
Theorem guardian_rewrites_arguments :
  exists command, command_valid command = true
    /\ (exists started, read_configuration (sent_document command) = Some started
        /\ started <> command
        /\ Cmd_ArgumentFingerprints (commandProjection "/bin/tool" started)
           <> Cmd_ArgumentFingerprints (commandProjection "/bin/tool" command)).
Proof.
  exists ["/bin/tool"; byte_string 255]. split; [reflexivity|].
  exists ["/bin/tool"; of_runes [65533]]. split; [vm_compute; reflexivity|]. split; [discriminate|].
  intros H. vm_compute in H. discriminate H.
Qed.

(** ** Exit codes *)

(** [guardian.Wait()] for a guardian that exited with that code. *)
Definition waited (code : Z) : wait_result := if code =? 0 then WaitOk else WaitExit code.

(** What [wait(2)] can report. *)
Definition possible_status (status : wait_status) : Prop :=
  match status with
  | Exited code => 0 <= code <= 255
  | Signaled signal => 1 <= signal <= 64
  | Unavailable => True
  end.

Definition shell_code (status : wait_status) : Z :=
  match status with Exited code => code | Signaled signal => 128 + signal | Unavailable => 70 end.

(** The witness exits the way the command did, as a shell reports it: an
    exit code is passed through unchanged, death by signal [n] becomes
    [128 + n], and the code is always one the loop accepts, so a command that
    ended is never reported as "exit status unavailable". *)
Theorem exit_status_passes s status :
  possible_status status ->
  match guard (TargetDone status) [] with
  | (Ok code, _) =>
      serve s (WaitDone (waited code)) = Return (Ok (shell_code status)) /\ 0 <= shell_code status <= 255
  | (Err _, _) => False
  end.
Proof.
  intros Hp. unfold guard, bind, emit, ret.
  assert (Hcode : guardianExitCode status = shell_code status).
  { destruct status; cbn in *; [|done..]. by rewrite !(proj2 (Z.ltb_ge _ _)) by lia. }
  rewrite Hcode.
  assert (Hr : 0 <= shell_code status <= 255) by (destruct status; cbn in *; lia).
  split; [|done]. unfold serve. cbv zeta.
  assert (Hx : processExitCode (waited (shell_code status)) = shell_code status).
  { unfold waited. destruct (Z.eqb_spec (shell_code status) 0) as [E|E]; [by rewrite E|done]. }
  rewrite Hx. by rewrite (proj2 (Z.ltb_ge _ _)) by lia.
Qed.

(** ** The three processes *)

(** After the target has been reported: the witness may die at any time, even
    by [SIGKILL]; the system then closes its end of the owner pipe. *)
Inductive guardian_phase := Watching | Finished (code : Z).

Record processes := {
  P_owner_open : bool;
  P_target : option wait_status;       (* [None]: running *)
  P_group_alive : bool;                (* some process of the target's group runs *)
  P_guardian : guardian_phase
}.

(** What the guardian's actions do to the target's group. *)
Definition apply_actions (actions : list guardian_action) (alive : bool) : bool :=
  fold_left (fun a x => match x with KillTarget => false | _ => a end) actions alive.

Definition finish_with (first : first_event) (s : processes) (status : wait_status) : processes :=
  match guard first [] with
  | (Ok code, actions) =>
      {| P_owner_open := P_owner_open s; P_target := Some status;
         P_group_alive := apply_actions actions (P_group_alive s); P_guardian := Finished code |}
  | (Err _, _) => s
  end.

Inductive proc_step : processes -> processes -> Prop :=
| witness_dies s :
    proc_step s {| P_owner_open := false; P_target := P_target s; P_group_alive := P_group_alive s;
                   P_guardian := P_guardian s |}
| target_exits s status :
    P_target s = None -> possible_status status ->
    proc_step s {| P_owner_open := P_owner_open s; P_target := Some status;
                   P_group_alive := P_group_alive s; P_guardian := P_guardian s |}
| guardian_sees_target s status :
    P_guardian s = Watching -> P_target s = Some status ->
    proc_step s (finish_with (TargetDone status) s status)
| guardian_sees_owner s status :
    P_guardian s = Watching -> P_owner_open s = false ->
    (forall st, P_target s = Some st -> status = st) ->
    (P_target s = None -> status = Signaled SIGKILL) ->
    proc_step s (finish_with OwnerDone s status).

Definition launched : processes :=
  {| P_owner_open := true; P_target := None; P_group_alive := true; P_guardian := Watching |}.

Inductive proc_runs : processes -> Prop :=
| proc_start : proc_runs launched
| proc_next s s' : proc_runs s -> proc_step s s' -> proc_runs s'.

Definition contained (s : processes) : Prop :=
  match P_guardian s with
  | Watching => True
  | Finished code =>
      P_group_alive s = false
      /\ exists status, P_target s = Some status
           /\ (code = guardianExitCode status \/ P_owner_open s = false /\ code = guardian_failure)
  end.

Lemma proc_step_contained s s' : contained s -> proc_step s s' -> contained s'.
Proof.
  intros Hs Hstep. destruct Hstep as [s|s status Ht Hp|s status Hg Ht|s status Hg Ho _ _].
  - revert Hs. unfold contained. cbn. destruct (P_guardian s); [done|].
    intros (Ha & st & Hst & Hc). split; [done|]. exists st. split; [done|]. tauto.
  - revert Hs. unfold contained. cbn. destruct (P_guardian s); [done|].
    intros (_ & st & Hst & _). congruence.
  - cbn. split; [done|]. exists status. by split; [|left].
  - cbn. split; [done|]. exists status. split; [done|]. by right.
Qed.

Lemma proc_runs_contained s : proc_runs s -> contained s.
Proof. induction 1 as [|s s' _ IH Hstep]; [done|by eapply proc_step_contained]. Qed.


(** ** Runs *)

Definition willing (status : string) : start_answers := {|
  Ans_OwnerPipe := true; Ans_ConfigPipe := true; Ans_StatusPipe := true; Ans_Executable := true;
  Ans_Guardian := true; Ans_WriteConfig := true; Ans_CloseConfig := true; Ans_Status := status |}.

Definition sample_command : list string := ["/bin/tool"; "--flag"].

Definition willing_guardian : guardian_answers := {|
  Gd_Reaping := true; Gd_Files := true; Gd_Config := Some (sent_document sample_command);
  Gd_Environ := ["PATH=/bin"; guardianEnvironment]; Gd_Start := Some 42; Gd_Report := true;
  Gd_First := TargetDone (Exited 3) |}.

Lemma supervised_command_witness :
  head (snd (runGuardian willing_guardian [])) = Some (StartTarget sample_command ["PATH=/bin"]).
Proof.
  apply (supervised_command (willing (status_line 42)) sample_command 42
           (snd (Start (willing (status_line 42)) sample_command [])) willing_guardian 3
           (snd (runGuardian willing_guardian []))).
  - reflexivity.
  - split; [repeat constructor|]. vm_compute. discriminate.
  - vm_compute. reflexivity.
  - reflexivity.
  - intros target [= <-]. unfold int64_max. lia.
  - vm_compute. reflexivity.
  - vm_compute. reflexivity.
Defined.

Definition sample_supervisor : configuration :=
  {| C_sup := wait_end {| U_pid := Some 42; U_owner := true; U_waited := true; U_complete := false |};
     C_pending := [SignalGroup 42 SIGTERM] |}.

(** Started, asked to stop, waited for. *)
Lemma sample_supervisor_runs : sup_runs sample_supervisor [Launch 42; ReapGuardian; CloseOwner].
Proof.
  change [Launch 42; ReapGuardian; CloseOwner]
    with (((([] ++ [Launch 42]) ++ []) ++ []) ++ [ReapGuardian; CloseOwner]).
  eapply sup_runs_step; [eapply sup_runs_step; [eapply sup_runs_step;
    [eapply sup_runs_step; [exact sup_runs_start|by apply (step_start new_supervisor [] 42)]|]|]|].
  - by apply (step_signal _ [] SIGTERM [SignalGroup 42 SIGTERM]).
  - by apply step_wait_begin.
  - by apply step_wait_end.
Qed.

Lemma supervisor_safe_witness :
  U_owner (C_sup sample_supervisor) = false.
Proof.
  destruct (supervisor_safe sample_supervisor _ sample_supervisor_runs) as (_ & _ & H & _). exact H.
Defined.

Lemma complete_is_silent_witness :
  U_complete (C_sup sample_supervisor) = true
  /\ sup_step sample_supervisor [SignalGroup 42 SIGTERM]
       {| C_sup := C_sup sample_supervisor; C_pending := [] |}.
Proof.
  assert (H : sup_step sample_supervisor [SignalGroup 42 SIGTERM]
                {| C_sup := C_sup sample_supervisor; C_pending := [] |})
    by apply (step_send _ [] (SignalGroup 42 SIGTERM) []).
  split; [|exact H].
  exact (proj1 (complete_is_silent _ _ _ _ sample_supervisor_runs eq_refl H)).
Defined.

Lemma exit_status_passes_witness :
  possible_status (Signaled 9) /\ serve initial_loop (WaitDone (waited 137)) = Return (Ok 137).
Proof.
  assert (H : possible_status (Signaled 9)) by (cbn; lia). split; [exact H|].
  exact (proj1 (exit_status_passes initial_loop (Signaled 9) H)).
Defined.

