(* ===== verification/SupervisorWindows.v ===== *)
(** * The supervisor of the Windows build ([internal/witness/supervisor_windows.go])

    On Windows there is no guardian: the command is created inside a job
    object that kills its processes when its last handle is closed, and the
    supervisor holds that handle.  [Start] is the sequence of its calls, given
    what the system answers; the methods are steps of a supervisor whose
    closings happen after the lock that decided them. *)

From S2P Require Import Prelude GoStrings World WitnessRun.

(** ** Starting: [windowsSupervisor.Start] *)

Inductive resource :=
| Job
| StdinReader | StdinWriter
| StdoutReader | StdoutWriter
| StderrReader | StderrWriter
| Attributes                            (* the attribute list *)
| ProcessHandle
| ThreadHandle.

#[global] Instance resource_eq_dec : EqDecision resource.
Proof. solve_decision. Defined.

Inductive call :=
| Acquire (r : resource)
| Close (r : resource)
| KillOnClose                           (* SetInformationJobObject *)
| Inherit (r : resource)                (* SetHandleInformation *)
| HandleList (handles : list resource)  (* the only handles to inherit *)
| JobList (handles : list resource)
| CreateProcess (application commandLine : string) (stdin stdout stderr : resource).

(** What the system answers. *)
Record win_answers := {
  Ans_Job : bool;
  Ans_Limits : bool;
  Ans_Stdin : bool;
  Ans_Stdout : bool;
  Ans_Stderr : bool;
  Ans_Inherit : resource -> bool;
  Ans_AttributeList : bool;
  Ans_HandleList : bool;
  Ans_JobList : bool;
  Ans_UTF16 : string -> bool;           (* [UTF16PtrFromString] *)
  Ans_Create : option Z
}.

Definition pipes : list resource :=
  [StdinReader; StdinWriter; StdoutReader; StdoutWriter; StderrReader; StderrWriter].

Definition childHandles : list resource := [StdinReader; StdoutWriter; StderrWriter].

Definition closeFiles (files : list resource) : trace call unit unit := emit_all (map Close files).

Section Start.
Variable ans : win_answers.
(** [windows.ComposeCommandLine]. *)
Variable ComposeCommandLine : list string -> string.

Definition cleanupAll : trace call unit unit :=
  do! _ := closeFiles pipes in emit (Close Job).

(** The deferred [attributes.Delete] runs after the clean-up. *)
Definition cleanup_attributes : trace call unit unit :=
  do! _ := cleanupAll in emit (Close Attributes).

(** Each child handle becomes inheritable, or everything is released. *)
Fixpoint inherit_all (handles : list resource) : trace call unit unit :=
  match handles with
  | [] => ret tt
  | handle :: rest =>
      if negb (Ans_Inherit ans handle) then fail_after cleanupAll
      else do! _ := emit (Inherit handle) in inherit_all rest
  end.

(** [open_pipe ok reader writer cleanup]: [os.Pipe], or the clean-up. *)
Definition open_pipe (ok : bool) (reader writer : resource) (cleanup : trace call unit unit)
  : trace call unit unit :=
  if negb ok then fail_after cleanup else emit_all [Acquire reader; Acquire writer].

Definition create_process (command : string) (args : list string) (has_stdin : bool)
  : trace call unit Z :=
  if negb (Ans_UTF16 ans command) then fail_after cleanup_attributes else
  let commandLine := ComposeCommandLine (command :: args) in
  if negb (Ans_UTF16 ans commandLine) then fail_after cleanup_attributes else
  match Ans_Create ans with
  | None => fail_after cleanup_attributes
  | Some pid =>
      do! _ := emit_all [CreateProcess command commandLine StdinReader StdoutWriter StderrWriter;
                         Acquire ProcessHandle; Acquire ThreadHandle; Close ThreadHandle] in
      do! _ := closeFiles [StdinReader; StdoutWriter; StderrWriter] in
      do! _ := (if has_stdin then ret tt else closeFiles [StdinWriter]) in
      do! _ := emit (Close Attributes) in
      ret pid
  end.

(** [Start] of a supervisor that has not been started. *)
Definition Start (command : string) (args : list string) (has_stdin : bool) : trace call unit Z :=
  if negb (Ans_Job ans) then throw tt else
  do! _ := emit (Acquire Job) in
  if negb (Ans_Limits ans) then fail_after (emit (Close Job)) else
  do! _ := emit KillOnClose in
  do! _ := open_pipe (Ans_Stdin ans) StdinReader StdinWriter (emit (Close Job)) in
  do! _ := open_pipe (Ans_Stdout ans) StdoutReader StdoutWriter
             (do! _ := closeFiles [StdinReader; StdinWriter] in emit (Close Job)) in
  do! _ := open_pipe (Ans_Stderr ans) StderrReader StderrWriter
             (do! _ := closeFiles [StdinReader; StdinWriter; StdoutReader; StdoutWriter] in
              emit (Close Job)) in
  do! _ := inherit_all childHandles in
  if negb (Ans_AttributeList ans) then fail_after cleanupAll else
  do! _ := emit (Acquire Attributes) in
  if negb (Ans_HandleList ans) then fail_after cleanup_attributes else
  do! _ := emit (HandleList childHandles) in
  if negb (Ans_JobList ans) then fail_after cleanup_attributes else
  do! _ := emit (JobList [Job]) in
  create_process command args has_stdin.
End Start.

(** ** The methods *)

(** The fields [started], [waited], [pid], [process], [job] and [stdin]. *)
Record win_supervisor := {
  V_started : bool;
  V_waited : bool;
  V_pid : Z;
  V_process : bool;
  V_job : bool;
  V_stdin : bool
}.

Definition newSupervisor (command : string) : option win_supervisor :=
  if command =s EmptyString then None
  else Some {| V_started := false; V_waited := false; V_pid := 0; V_process := false; V_job := false;
               V_stdin := false |}.

Definition started (pid : Z) (has_stdin : bool) (v : win_supervisor) : win_supervisor :=
  {| V_started := true; V_waited := V_waited v; V_pid := pid; V_process := true; V_job := true;
     V_stdin := has_stdin |}.

(** What happens outside the lock. *)
Inductive effect := CloseStdin | CloseJob | CloseProcess | TerminateJob.

(** [Wait] up to the first unlock; [None]: not started, or already waited. *)
Definition wait_begin (v : win_supervisor) : option win_supervisor :=
  if negb (V_started v) || negb (V_process v) then None
  else if V_waited v then None
  else Some {| V_started := V_started v; V_waited := true; V_pid := V_pid v; V_process := V_process v;
               V_job := V_job v; V_stdin := V_stdin v |}.

(** Its second critical section, and the closings that follow it. *)
Definition wait_end (v : win_supervisor) : win_supervisor * list effect :=
  ({| V_started := V_started v; V_waited := V_waited v; V_pid := V_pid v; V_process := false;
      V_job := false; V_stdin := false |},
   (if V_stdin v then [CloseStdin] else []) ++ (if V_job v then [CloseJob] else []) ++ [CloseProcess]).

(** [GracefulStop]; [None] is the error that nothing was started. *)
Definition GracefulStop (v : win_supervisor) : win_supervisor * option (list effect) :=
  ({| V_started := V_started v; V_waited := V_waited v; V_pid := V_pid v; V_process := V_process v;
      V_job := V_job v; V_stdin := false |},
   if negb (V_started v) then None else Some (if V_stdin v then [CloseStdin] else [])).

(** [ForceStop]: under the lock. *)
Definition ForceStop (v : win_supervisor) : list effect :=
  if negb (V_started v) || negb (V_job v) then [] else [TerminateJob].

Definition ForwardSignal (signal : Z) (v : win_supervisor) : win_supervisor * option (list effect) :=
  GracefulStop v.

(** What [Wait] returns: [exitCode] is the 32-bit exit code of the process,
    or [None] if waiting or reading it failed. *)
Definition win_waited (exitCode : option Z) : wait_result :=
  match exitCode with
  | None => WaitOther
  | Some code => if negb (code =? 0) then WaitExit code else WaitOk
  end.

(** ** The command, its job and the supervisor *)

Record system := {
  Y_sup : win_supervisor;
  Y_pending : list effect;     (* decided under the lock, still to be done *)
  Y_witness : bool;            (* the process of the witness runs *)
  Y_job_open : bool;           (* it holds the handle of the job *)
  Y_target : option Z;         (* the exit code of the command, once it ended *)
  Y_alive : bool               (* some process of the job runs *)
}.

Definition with_sup (y : system) (v : win_supervisor) (pending : list effect) : system :=
  {| Y_sup := v; Y_pending := pending; Y_witness := Y_witness y; Y_job_open := Y_job_open y;
     Y_target := Y_target y; Y_alive := Y_alive y |}.

(** Every process of the job ends; [handle]: the witness keeps the handle. *)
Definition killed (y : system) (pending : list effect) (handle witness : bool) (code : Z) : system :=
  {| Y_sup := Y_sup y; Y_pending := pending; Y_witness := witness; Y_job_open := handle;
     Y_target := Some (default code (Y_target y)); Y_alive := false |}.

(** One closing. The job kills its processes when its only handle closes. *)
Definition perform_effect (e : effect) (y : system) (pending : list effect) : system :=
  match e with
  | CloseJob => killed y pending false (Y_witness y) 0
  | TerminateJob => killed y pending (Y_job_open y) (Y_witness y) 1
  | CloseStdin | CloseProcess => with_sup y (Y_sup y) pending
  end.

(** The methods interleave at their locks, with the closings they decided,
    with the end of the command, and with the sudden end of the witness. *)
Inductive win_step : system -> list effect -> system -> Prop :=
| win_start y pid has_stdin :
    Y_witness y = true -> V_started (Y_sup y) = false ->
    win_step y [] {| Y_sup := started pid has_stdin (Y_sup y); Y_pending := Y_pending y; Y_witness := true;
                     Y_job_open := true; Y_target := None; Y_alive := true |}
| win_exits y code alive :
    Y_alive y = true -> Y_target y = None ->
    win_step y [] {| Y_sup := Y_sup y; Y_pending := Y_pending y; Y_witness := Y_witness y;
                     Y_job_open := Y_job_open y; Y_target := Some code; Y_alive := alive |}
| win_wait_begin y v :
    Y_witness y = true -> wait_begin (Y_sup y) = Some v -> win_step y [] (with_sup y v (Y_pending y))
| win_wait_end y v decided :
    Y_witness y = true -> V_waited (Y_sup y) = true -> V_process (Y_sup y) = true ->
    wait_end (Y_sup y) = (v, decided) -> win_step y [] (with_sup y v (Y_pending y ++ decided))
| win_graceful y v decided :
    Y_witness y = true -> GracefulStop (Y_sup y) = (v, Some decided) ->
    win_step y [] (with_sup y v (Y_pending y ++ decided))
| win_force y :
    Y_witness y = true -> ForceStop (Y_sup y) = [TerminateJob] ->
    win_step y [TerminateJob] (perform_effect TerminateJob y (Y_pending y))
| win_effect y before e after :
    Y_witness y = true -> Y_pending y = before ++ e :: after ->
    win_step y [e] (perform_effect e y (before ++ after))
| win_witness_dies y :
    win_step y [] (killed y (Y_pending y) false false 0).

Definition idle (v : win_supervisor) : system :=
  {| Y_sup := v; Y_pending := []; Y_witness := true; Y_job_open := false; Y_target := None;
     Y_alive := false |}.

Inductive win_runs : system -> list effect -> Prop :=
| win_runs_start command v : newSupervisor command = Some v -> win_runs (idle v) []
| win_runs_step y effects y' more :
    win_runs y effects -> win_step y more y' -> win_runs y' (effects ++ more).

(** ** Starting is all or nothing *)

(** The resources held after some calls. *)
Fixpoint held (calls : list call) (acc : list resource) : list resource :=
  match calls with
  | [] => acc
  | Acquire r :: rest => held rest (r :: acc)
  | Close r :: rest => held rest (List.filter (fun x => negb (bool_decide (x = r))) acc)
  | _ :: rest => held rest acc
  end.

Definition creates (c : call) : bool := match c with CreateProcess _ _ _ _ _ => true | _ => false end.

Definition kill_on_close_set (calls : list call) : bool :=
  existsb (fun c => match c with KillOnClose => true | _ => false end) calls.

(** The calls before the process is created: the job kills on close, the
    process joins it and inherits its three standard handles and no other. *)
Definition created_in_job (calls : list call) (command : string) : Prop :=
  exists before commandLine after,
    calls = before ++ CreateProcess command commandLine StdinReader StdoutWriter StderrWriter :: after
    /\ kill_on_close_set before = true
    /\ In (JobList [Job]) before /\ In (HandleList childHandles) before
    /\ existsb creates before = false /\ existsb creates after = false.

(** Everything before the process is created, when nothing fails. *)
Definition preparations : list call :=
  [Acquire Job; KillOnClose; Acquire StdinReader; Acquire StdinWriter; Acquire StdoutReader;
   Acquire StdoutWriter; Acquire StderrReader; Acquire StderrWriter; Inherit StdinReader;
   Inherit StdoutWriter; Inherit StderrWriter; Acquire Attributes; HandleList childHandles; JobList [Job]].

Lemma win_Start_outcome ans compose command args has_stdin :
  match Start ans compose command args has_stdin [] with
  | (Err _, calls) => held calls [] = [] /\ existsb creates calls = false
  | (Ok pid, calls) =>
      held calls [] = [ProcessHandle; StderrReader; StdoutReader]
                      ++ (if has_stdin then [StdinWriter] else []) ++ [Job]
      /\ created_in_job calls command
      /\ Ans_Create ans = Some pid
  end.
Proof.
  unfold Start, create_process, inherit_all, open_pipe, childHandles, cleanup_attributes, cleanupAll,
    closeFiles, fail_after, emit_all, emit, bind, throw, ret.
  destruct (Ans_Job ans); [|by split]. destruct (Ans_Limits ans); [|by split].
  destruct (Ans_Stdin ans); [|by split]. destruct (Ans_Stdout ans); [|by split].
  destruct (Ans_Stderr ans); [|by split]. cbn [negb].
  destruct (Ans_Inherit ans StdinReader); [|by split]. cbn [negb].
  destruct (Ans_Inherit ans StdoutWriter); [|by split]. cbn [negb].
  destruct (Ans_Inherit ans StderrWriter); [|by split]. cbn [negb].
  destruct (Ans_AttributeList ans); [|by split]. destruct (Ans_HandleList ans); [|by split].
  destruct (Ans_JobList ans); [|by split]. destruct (Ans_UTF16 ans command); [|by split].
  destruct (Ans_UTF16 ans (compose (command :: args))); [|by split].
  destruct (Ans_Create ans) as [pid|]; [|by split].
  unfold created_in_job.
  destruct has_stdin; (split; [reflexivity|]); (split; [|done]); exists preparations, (compose (command :: args)); eexists;
    (split; [reflexivity|]); repeat split; cbn; tauto.
Qed.

(** Starting a command on Windows is all or nothing: whichever call fails,
    no process has been created and every handle, pipe and attribute list has
    been released, each on every path; on success exactly the job, the process
    and the witness's ends of the pipes stay open, and the process was created
    inside the job, after the job had been set to kill its processes when its
    handle closes, and inherited its three standard handles and nothing else. *)
Theorem win_Start_all_or_nothing ans compose command args has_stdin :
  match Start ans compose command args has_stdin [] with
  | (Err _, calls) => held calls [] = [] /\ existsb creates calls = false
  | (Ok pid, calls) =>
      held calls [] = [ProcessHandle; StderrReader; StdoutReader]
                      ++ (if has_stdin then [StdinWriter] else []) ++ [Job]
      /\ created_in_job calls command
      /\ Ans_Create ans = Some pid
  end.
Proof. apply win_Start_outcome. Qed.

(** ** The job contains the command *)

Definition b2n (b : bool) : nat := if b then 1 else 0.

Definition same_effect (a b : effect) : bool :=
  match a, b with
  | CloseStdin, CloseStdin | CloseJob, CloseJob | CloseProcess, CloseProcess
  | TerminateJob, TerminateJob => true
  | _, _ => false
  end.

Definition count (e : effect) (l : list effect) : nat := length (List.filter (same_effect e) l).

Lemma count_app e l1 l2 : count e (l1 ++ l2) = (count e l1 + count e l2)%nat.
Proof. unfold count. by rewrite List.filter_app, length_app. Qed.

Lemma count_cons e x l : count e (x :: l) = (b2n (same_effect e x) + count e l)%nat.
Proof. unfold count. cbn. by destruct (same_effect e x). Qed.

Lemma count_nil e : count e [] = 0%nat.
Proof. done. Qed.

#[local] Arguments count : simpl never.

(** How often each handle has been closed, and will be. *)
Record job_state (y : system) (effects : list effect) : Prop := {
  js_alive : Y_alive y = true -> Y_witness y = true /\ Y_job_open y = true;
  js_job : Y_witness y = true ->
           b2n (Y_job_open y) = (b2n (V_job (Y_sup y)) + count CloseJob (Y_pending y))%nat;
  js_started : V_started (Y_sup y) = false ->
               Y_job_open y = false /\ Y_pending y = [] /\ effects = []
               /\ V_waited (Y_sup y) = false /\ V_process (Y_sup y) = false /\ V_job (Y_sup y) = false
               /\ V_stdin (Y_sup y) = false;
  js_jobs : V_started (Y_sup y) = true ->
            (count CloseJob effects + count CloseJob (Y_pending y) + b2n (V_job (Y_sup y)) = 1)%nat;
  js_processes : V_started (Y_sup y) = true ->
            (count CloseProcess effects + count CloseProcess (Y_pending y) + b2n (V_process (Y_sup y)) = 1)%nat;
  js_stdin : V_started (Y_sup y) = true ->
            (count CloseStdin effects + count CloseStdin (Y_pending y) + b2n (V_stdin (Y_sup y)) <= 1)%nat;
  js_terminated : count TerminateJob (Y_pending y) = 0%nat;
  js_process : V_job (Y_sup y) = V_process (Y_sup y)
}.

Lemma idle_job_state command v : newSupervisor command = Some v -> job_state (idle v) [].
Proof.
  unfold newSupervisor. destruct (command =s EmptyString); [done|]. intros [= <-].
  split; cbn; try done.
Qed.

Ltac counting :=
  intros; cbn [app] in *; rewrite ?count_app, ?count_cons, ?count_nil in *; cbn [b2n same_effect] in *;
  try lia.

Lemma win_step_job_state y effects y' more :
  job_state y effects -> win_step y more y' -> job_state y' (effects ++ more).
Proof.
  intros [Ha Hj Hn Hjs Hps Hst Ht Hp] Hstep. destruct y as [[st wt pid pr jb sd] pend wit jo tg al].
  cbn [Y_sup Y_pending Y_witness Y_job_open Y_target Y_alive V_started V_waited V_pid V_process V_job V_stdin] in *.
  inversion Hstep as [y pid' hs Hw Hns|y code alive' Hal Htg|y v Hw Hb|y v decided Hw Hwt Hpr He
    |y v decided Hw Hg|y Hw Hf|y before e after Hw Hpe|y]; subst; clear Hstep;
    cbn [Y_sup Y_pending Y_witness Y_job_open Y_target Y_alive V_started V_waited V_pid V_process V_job
            V_stdin with_sup started killed perform_effect] in *; subst.
  - destruct (Hn eq_refl) as (? & ? & ? & ? & ? & ? & ?). simplify_eq.
    split; cbn; try done. destruct hs; counting.
  - rewrite app_nil_r. split; cbn; try done. intros _. by apply Ha.
  - unfold wait_begin in Hb. cbn in Hb. rewrite app_nil_r.
    destruct st; [|done]. destruct pr; [|done]. destruct wt; [done|]. injection Hb as <-. by split.
  - injection He as <- <-. rewrite app_nil_r. destruct st; [|by destruct (Hn eq_refl) as (_ & _ & _ & _ & ? & _)].
    specialize (Hj eq_refl). specialize (Hjs eq_refl). specialize (Hps eq_refl). specialize (Hst eq_refl).
    split; cbn; try done; destruct sd; counting; try done.
  - unfold GracefulStop in Hg. cbn in Hg. rewrite app_nil_r. destruct st; [|done]. injection Hg as <- <-.
    specialize (Hj eq_refl). specialize (Hjs eq_refl). specialize (Hps eq_refl). specialize (Hst eq_refl).
    split; cbn; try done; destruct sd; counting; try done.
  - unfold ForceStop in Hf. cbn in Hf. destruct st; [|done]. destruct pr; [|done].
    specialize (Hj eq_refl). specialize (Hjs eq_refl). specialize (Hps eq_refl). specialize (Hst eq_refl).
    split; cbn; try done; counting; try done.
  - destruct st; [|by destruct (Hn eq_refl) as (_ & ? & _); destruct before].
    specialize (Hj eq_refl). specialize (Hjs eq_refl). specialize (Hps eq_refl). specialize (Hst eq_refl).
    destruct e; split; cbn; try done; counting; try done.
  - rewrite app_nil_r. split; cbn; try done. intros Hs. by destruct (Hn Hs) as (? & ?).
Qed.

Lemma win_runs_job_state y effects : win_runs y effects -> job_state y effects.
Proof.
  induction 1 as [command v Hv|y effects y' more _ IH Hstep]; [by eapply idle_job_state|].
  by eapply win_step_job_state.
Qed.

(** The command has been waited for: [Wait] has done all its closings. *)
Definition wait_returned (y : system) : Prop :=
  V_waited (Y_sup y) = true /\ V_process (Y_sup y) = false /\ Y_pending y = [].

(** C37: on Windows nothing of the command outlives its supervisor, however the
    methods of the supervisor, their late closings, the end of the command and
    the sudden end of the witness interleave: as long as a process of the
    command runs, the witness runs and holds the handle of the job; so once
    [Wait] has returned, or the witness has died, no process of the command is
    left.  Each handle is closed at most once, the job is only terminated while
    its handle is open, and while [Wait] is still under way [ForceStop] ends
    every process of the command at once. *)
Theorem job_contains_command y effects :
  win_runs y effects ->
  (Y_alive y = true -> Y_witness y = true /\ Y_job_open y = true)
  /\ (wait_returned y -> Y_alive y = false)
  /\ (count CloseJob effects <= 1)%nat /\ (count CloseProcess effects <= 1)%nat
  /\ (count CloseStdin effects <= 1)%nat
  /\ (Y_witness y = true -> ForceStop (Y_sup y) = [TerminateJob] -> Y_job_open y = true)
  /\ (Y_witness y = true -> V_started (Y_sup y) = true -> V_process (Y_sup y) = true ->
      exists y', win_step y [TerminateJob] y' /\ Y_alive y' = false /\ Y_target y' <> None).
Proof.
  intros [Ha Hj Hn Hjs Hps Hst Ht Hp]%win_runs_job_state.
  assert (Hc : (count CloseJob effects <= 1)%nat /\ (count CloseProcess effects <= 1)%nat
               /\ (count CloseStdin effects <= 1)%nat).
  { destruct (V_started (Y_sup y)); [specialize (Hjs eq_refl); specialize (Hps eq_refl);
      specialize (Hst eq_refl); lia|]. destruct (Hn eq_refl) as (_ & _ & -> & _). counting. }
  split; [exact Ha|]. split.
  { intros (_ & Hpr & Hpend). destruct (Y_alive y); [|done]. destruct (Ha eq_refl) as [Hw Ho].
    specialize (Hj Hw). rewrite Hpend, Hp, Hpr, Ho in Hj. by cbn in Hj. }
  destruct Hc as (? & ? & ?). do 3 (split; [assumption|]). split.
  - intros Hw Hf. specialize (Hj Hw). unfold ForceStop in Hf.
    destruct (V_started (Y_sup y)), (V_job (Y_sup y)); try done. by destruct (Y_job_open y).
  - intros Hw Hs Hpr. eexists. split; [apply win_force; [done|]|done].
    unfold ForceStop. by rewrite Hs, Hp, Hpr.
Qed.

(** A sample run: start, exit of the command with a child left behind, and
    [Wait] with its closings. *)
Definition sample_supervisor : win_supervisor :=
  {| V_started := false; V_waited := false; V_pid := 0; V_process := false; V_job := false; V_stdin := false |}.

Definition after_wait : system :=
  {| Y_sup := {| V_started := true; V_waited := true; V_pid := 7; V_process := false; V_job := false;
                 V_stdin := false |};
     Y_pending := []; Y_witness := true; Y_job_open := false; Y_target := Some 3; Y_alive := false |}.

Lemma sample_win_run : win_runs after_wait [CloseJob; CloseProcess].
Proof.
  assert (H0 : win_runs (idle sample_supervisor) []) by by apply (win_runs_start "tool.exe").
  eapply win_runs_step in H0; [|by apply (win_start _ 7 false)].
  eapply win_runs_step in H0; [|by apply (win_exits _ 3 true)].
  eapply win_runs_step in H0; [|by apply win_wait_begin].
  eapply win_runs_step in H0; [|by apply win_wait_end].
  eapply win_runs_step in H0; [|by apply (win_effect _ [] CloseJob [CloseProcess])].
  eapply win_runs_step in H0; [|by apply (win_effect _ [] CloseProcess [])].
  exact H0.
Qed.

Lemma job_contains_command_witness :
  win_runs after_wait [CloseJob; CloseProcess] /\ Y_alive after_wait = false.
Proof.
  split; [exact sample_win_run|].
  destruct (job_contains_command _ _ sample_win_run) as (_ & H & _). apply H. by split.
Defined.

(** The exit code of the command, any 32-bit number, passes through the
    supervision loop unchanged. *)
Theorem win_exit_code_passes s exitCode :
  0 <= exitCode < 2 ^ 32 -> serve s (WaitDone (win_waited (Some exitCode))) = Return (Ok exitCode).
Proof.
  intros Hc. unfold win_waited. destruct (Z.eqb_spec exitCode 0) as [->|Hn]; [reflexivity|].
  cbn [negb serve processExitCode]. by rewrite (proj2 (Z.ltb_ge _ _)) by lia.
Qed.
