(* ===== verification/Supervised.v ===== *)
(** * The witness over the Unix supervisor

    [WitnessRun] is written against the interface [Supervision]; here the
    supervisor of [Supervisor] implements it.  The world is that of the
    dependencies paired with a session: the supervisor's fields, what has been
    done to the system, and how much of a script of events has happened.  The
    script says in which order signals, the end of the input, the
    cancellation and the timer come, when the child exits, and when the loop
    is told so (the goroutine that waits for the child and the loop run
    concurrently, so the loop may serve other events in between); it is
    arbitrary, and after its end the child exits and the loop is told. *)

From S2P Require Import Prelude GoStrings GoPath Model Expectation Process Evaluator ProofId Receipt World App Witness.
From S2P Require Import WitnessRun Supervisor.

(** Where the one launch of a session stands: not started, started, waited for
    by the goroutine, and received from [waitDone]. *)
Inductive phase := Fresh | Live (pid : Z) | Reaped (pid : Z) | Gone (pid : Z).

Inductive occurrence := Happens (e : event) | ChildExits.

(** The fields of the supervisor then. *)
Definition supervisor_of (p : phase) : supervisor :=
  match p with
  | Fresh => new_supervisor
  | Live pid => started pid new_supervisor
  | Reaped pid | Gone pid => wait_end {| U_pid := Some pid; U_owner := true; U_waited := true; U_complete := false |}
  end.

Record session := {
  Z_command : list string;
  Z_phase : phase;
  Z_effects : list effect;
  Z_position : nat
}.

Definition Z_sup (z : session) : supervisor := supervisor_of (Z_phase z).

Definition new_session : session :=
  {| Z_command := []; Z_phase := Fresh; Z_effects := []; Z_position := 0 |}.

Definition enter (z : session) (p : phase) (effects : list effect) : session :=
  {| Z_command := Z_command z; Z_phase := p; Z_effects := Z_effects z ++ effects;
     Z_position := Z_position z |}.

(** The dependencies know nothing of the supervisor. *)
Definition beside {X} (S : Type) (dep : Dependencies X) : Dependencies (X * S) := {|
  Dep_Tool := Dep_Tool dep; Dep_Home := Dep_Home dep; Dep_CtxErr := on_first (Dep_CtxErr dep);
  Dep_Observer := {| O_Snapshot pid := on_first (O_Snapshot (Dep_Observer dep) pid);
                     O_List limit := on_first (O_List (Dep_Observer dep) limit);
                     O_Revalidate c := on_first (O_Revalidate (Dep_Observer dep) c) |};
  Dep_Now := on_first (Dep_Now dep);
  Dep_LoadExpectation p := on_first (Dep_LoadExpectation dep p);
  Dep_DigestArtifact r := on_first (Dep_DigestArtifact dep r);
  Dep_LookPath p := on_first (Dep_LookPath dep p);
  Dep_Getwd := on_first (Dep_Getwd dep);
  Dep_EvalSymlinks p := on_first (Dep_EvalSymlinks dep p);
  Dep_HomeVariable := Dep_HomeVariable dep;
  Dep_UserHomeDir := on_first (Dep_UserHomeDir dep);
  Dep_WriteReceipt h r := on_first (Dep_WriteReceipt dep h r) |}.

(** ** The implementation *)

Section Supervised.
Context {X : Type}.
Variable answers : start_answers.
Variable pipe : bool.                  (* [os.Pipe] for the input of the child *)
Variable script : list occurrence.

Definition session_new (command : string) (arguments : list string) (z : session)
  : result unit unit * session :=
  if command =s EmptyString then (Err tt, z)
  else (Ok tt, {| Z_command := command :: arguments; Z_phase := Z_phase z; Z_effects := Z_effects z;
                  Z_position := Z_position z |}).

Definition session_start (z : session) : result unit unit * session :=
  match U_pid (Z_sup z) with
  | Some _ => (Err tt, z)
  | None =>
      match Start answers (Z_command z) [] with
      | (Ok pid, _) => (Ok tt, enter z (Live pid) [Launch pid])
      | (Err _, _) => (Err tt, z)
      end
  end.

(** The error of a stop is ignored by [Run]. *)
Definition session_act (a : action) (z : session) : session :=
  let sent := match a with
              | WitnessRun.GracefulStop => GracefulStop (Z_sup z)
              | WitnessRun.ForwardSignal signal => ForwardSignal signal (Z_sup z)
              | WitnessRun.ForceStop => ForceStop (Z_sup z)
              | StartTimer => None
              end in
  enter z (Z_phase z) (default [] sent).

(** [managed.Wait()] once the child has exited. *)
Definition session_exit (z : session) : session :=
  match Z_phase z, wait_begin (Z_sup z) with
  | Live pid, Some _ => enter z (Reaped pid) [ReapGuardian; CloseOwner]
  | _, _ => z
  end.

Definition session_wait (z : session) : session :=
  let z' := session_exit z in
  match Z_phase z' with
  | Reaped pid => enter z' (Gone pid) []
  | _ => z'
  end.

(** A channel that is [nil] is never selected. *)
Definition selectable (s : loop_state) (e : event) : bool :=
  match e with
  | StdinDone => stdin_open s
  | ContextDone => context_open s
  | TimerFired => timer_set s
  | WaitDone _ | SignalReceived _ => true
  end.

Record choice := {
  Ch_event : event;
  Ch_used : nat;                (* how much of the script is used up *)
  Ch_exited : bool              (* whether the child exited before the event *)
}.

(** The next selectable event. *)
Fixpoint next_event (s : loop_state) (occurrences : list occurrence) : choice :=
  match occurrences with
  | [] => {| Ch_event := WaitDone WaitOk; Ch_used := O; Ch_exited := false |}
  | Happens e :: rest =>
      if selectable s e then {| Ch_event := e; Ch_used := 1; Ch_exited := false |}
      else let c := next_event s rest in
           {| Ch_event := Ch_event c; Ch_used := S (Ch_used c); Ch_exited := Ch_exited c |}
  | ChildExits :: rest =>
      let c := next_event s rest in
      {| Ch_event := Ch_event c; Ch_used := S (Ch_used c); Ch_exited := true |}
  end.

Definition next_choice (s : loop_state) (z : session) : choice := next_event s (drop (Z_position z) script).

Definition advance (c : choice) (z : session) : session :=
  let moved := {| Z_command := Z_command z; Z_phase := Z_phase z; Z_effects := Z_effects z;
                  Z_position := Z_position z + Ch_used c |} in
  if Ch_exited c then session_exit moved else moved.

Definition session_select (s : loop_state) (z : session) : event * session :=
  let c := next_choice s z in
  (Ch_event c, match Ch_event c with WaitDone _ => session_wait (advance c z) | _ => advance c z end).

Definition unix_supervision : Supervision (X * session) := {|
  S_Pipe w := ((if pipe then Ok tt else Err tt), w);
  S_NewSupervisor command arguments := on_second (session_new command arguments);
  S_Start := on_second session_start;
  S_PID w := default 0 (U_pid (Z_sup (snd w)));
  S_Act a w := (fst w, session_act a (snd w));
  S_Wait w := (fst w, session_wait (snd w));
  S_Select s := on_second (session_select s);
  S_ClosePipe w := w |}.

(** ** It keeps the laws of the interface *)

(** The fields follow the methods of the supervisor. *)
Lemma start_fields pid : started pid (supervisor_of Fresh) = supervisor_of (Live pid).
Proof. done. Qed.

Lemma wait_fields pid s :
  wait_begin (supervisor_of (Live pid)) = Some s -> wait_end s = supervisor_of (Gone pid).
Proof. by intros [= <-]. Qed.

(** The child has been launched, and the loop not been told that it is gone. *)
Definition running (w : X * session) : Z :=
  match Z_phase (snd w) with Live _ | Reaped _ => 1 | _ => 0 end.

Definition is_signal (o : occurrence) : bool :=
  match o with Happens (SignalReceived _) => true | _ => false end.

Definition arrivals : nat := length (List.filter is_signal script).

Definition signals_left (w : X * session) : nat :=
  length (List.filter is_signal (drop (Z_position (snd w)) script)).

Lemma next_event_selectable s l : serve s (Ch_event (next_event s l)) <> Blocked.
Proof.
  induction l as [|[e|] rest IH]; cbn [next_event]; [done| |done].
  destruct (selectable s e) eqn:He; [|done]. destruct e; cbn in *; rewrite ?He; done.
Qed.

Lemma next_event_signals s l :
  ((if is_signal (Happens (Ch_event (next_event s l))) then 1 else 0)
   + length (List.filter is_signal (drop (Ch_used (next_event s l)) l))
   <= length (List.filter is_signal l))%nat.
Proof.
  induction l as [|[e|] rest IH]; cbn [next_event]; [done| |exact IH].
  destruct (selectable s e) eqn:He.
  - cbn [Ch_event Ch_used drop List.filter]. rewrite drop_0. by destruct (is_signal (Happens e)).
  - cbn [Ch_event Ch_used drop List.filter] in *. destruct (is_signal (Happens e)); cbn [length]; lia.
Qed.

Lemma session_exit_position z : Z_position (session_exit z) = Z_position z.
Proof. unfold session_exit. destruct (Z_phase z); try done. by destruct (wait_begin _). Qed.

Lemma session_wait_position z : Z_position (session_wait z) = Z_position z.
Proof.
  unfold session_wait. rewrite <- (session_exit_position z). by destruct (Z_phase (session_exit z)).
Qed.

Lemma advance_position c z : Z_position (advance c z) = (Z_position z + Ch_used c)%nat.
Proof. unfold advance. destruct (Ch_exited c); [by rewrite session_exit_position|done]. Qed.

Lemma session_select_position s z :
  Z_position (snd (session_select s z)) = (Z_position z + Ch_used (next_choice s z))%nat.
Proof.
  unfold session_select. cbn [snd]. destruct (Ch_event _); rewrite ?session_wait_position; apply advance_position.
Qed.

#[export] Instance unix_select : SelectLaws unix_supervision signals_left arrivals.
Proof.
  split.
  - intros s [x z]. apply next_event_selectable.
  - intros s [x z]. pose proof (next_event_signals s (drop (Z_position z) script)) as H.
    pose proof (session_select_position s z) as Hp. cbn [S_Select unix_supervision].
    unfold on_second, signals_left. cbn [snd fst] in *.
    rewrite (surjective_pairing (session_select s z)). cbn [fst snd]. rewrite Hp.
    rewrite drop_drop in H. revert H. unfold next_choice. cbn [fst session_select]. unfold next_choice.
    by destruct (Ch_event (next_event s (drop (Z_position z) script))).
  - intros a [x z]. done.
  - intros [x z]. unfold signals_left, arrivals. cbn [snd].
    rewrite <- (take_drop (Z_position z) script) at 2. rewrite List.filter_app, length_app. lia.
Qed.

Lemma session_exit_phase z :
  Z_phase (session_exit z) = match Z_phase z with Live pid => Reaped pid | p => p end.
Proof. unfold session_exit, Z_sup. by destruct (Z_phase z) eqn:Hp; cbn; rewrite ?Hp. Qed.

Lemma session_wait_phase z :
  Z_phase (session_wait z) = match Z_phase z with Live pid | Reaped pid => Gone pid | p => p end.
Proof.
  unfold session_wait. pose proof (session_exit_phase z) as H.
  destruct (Z_phase z); rewrite H; cbn; try rewrite H; done.
Qed.

Lemma advance_phase c z :
  Z_phase (advance c z)
  = match Z_phase z with Live pid => if Ch_exited c then Reaped pid else Live pid | p => p end.
Proof. unfold advance. destruct (Ch_exited c); rewrite ?session_exit_phase; cbn; by destruct (Z_phase z). Qed.

#[export] Instance beside_blind {T} (dep : Dependencies X) (f : session -> T) :
  Blind (beside session dep) (fun w => f (snd w)).
Proof.
  split; intros; cbn; unfold on_first;
    match goal with |- context [let '(_, _) := ?c in _] => destruct c end; done.
Qed.

#[export] Instance unix_children (dep : Dependencies X) :
  ChildLaws (beside session dep) unix_supervision running.
Proof.
  split; try (intros; by repeat match goal with w : X * session |- _ => destruct w end).
  - exact (beside_blind dep (fun z => match Z_phase z with Live _ | Reaped _ => 1 | _ => 0 end)).
  - intros command arguments [x z]. cbn. unfold on_second, session_new, running. cbn [snd fst].
    by destruct (command =s EmptyString).
  - intros [x z]. cbn [S_Start unix_supervision]. unfold on_second, session_start, running, Z_sup. cbn [snd fst].
    destruct (Z_phase z) as [|pid|pid|pid] eqn:Hp; cbn [supervisor_of started wait_end new_supervisor U_pid];
      [|cbn; rewrite ?Hp; done..].
    destruct (Start answers (Z_command z) []) as [[pid|e] actions]; cbn; rewrite ?Hp; done.
  - intros [x z]. cbn [S_Wait unix_supervision]. unfold running. cbn [snd]. rewrite session_wait_phase.
    destruct (Z_phase z); lia.
  - intros s [x z]. cbn [S_Select unix_supervision]. unfold on_second, session_select, running. cbn [snd fst].
    pose proof (advance_phase (next_choice s z) z) as Ha.
    destruct (Ch_event (next_choice s z)); rewrite ?session_wait_phase;
      destruct (Z_phase z), (Ch_exited (next_choice s z)); rewrite ?Ha; lia.
  - intros [x z]. unfold running. destruct (Z_phase _); lia.
Qed.

(** ** What the system sees of one run *)

(** The signals of the actions of the loop, for a process that runs. *)
Definition sent (a : action) : list Z :=
  match a with
  | WitnessRun.GracefulStop => [SIGTERM]
  | WitnessRun.ForwardSignal signal => [signal]
  | WitnessRun.ForceStop => [SIGKILL]
  | StartTimer => []
  end.

Lemma session_act_live a z pid :
  Z_phase z = Live pid -> session_act a z = enter z (Live pid) (map (fun n => SignalGroup pid n) (sent a)).
Proof.
  intros Hp. unfold session_act, GracefulStop, ForwardSignal, ForceStop, signalGroup, Z_sup. rewrite Hp.
  by destruct a.
Qed.

Lemma enter_twice z p p' e e' : enter (enter z p e) p' e' = enter z p' (e ++ e').
Proof. unfold enter. cbn. by rewrite app_assoc. Qed.

Lemma enter_same z p : Z_phase z = p -> enter z p [] = z.
Proof. destruct z. cbn. intros ->. unfold enter. cbn. by rewrite app_nil_r. Qed.

(** A process that has been waited for is not signalled any more. *)
Lemma perform_reaped actions x z pid :
  Z_phase z = Reaped pid -> perform unix_supervision actions (x, z) = (x, z).
Proof.
  intros Hp. unfold perform. induction actions as [|a l IH]; cbn [fold_left]; [done|].
  cbn [S_Act unix_supervision fst snd].
  assert (E : session_act a z = z); [|by rewrite E].
  unfold session_act, GracefulStop, ForwardSignal, ForceStop, signalGroup, Z_sup. rewrite Hp.
  destruct a; cbn; by apply enter_same.
Qed.

Lemma perform_live actions x z pid :
  Z_phase z = Live pid ->
  perform unix_supervision actions (x, z)
  = (x, enter z (Live pid) (map (fun n => SignalGroup pid n) (concat (map sent actions)))).
Proof.
  unfold perform. revert z. induction actions as [|a l IH]; intros z Hp; cbn [fold_left map concat].
  - by rewrite enter_same.
  - cbn [S_Act unix_supervision fst snd]. rewrite (session_act_live a z pid Hp), IH by done.
    by rewrite enter_twice, map_app.
Qed.

(** The signals still to be sent from a state of the loop: at most one that
    asks the process to stop, and at most one that kills it, at the end. *)
Definition allowed (s : loop_state) (signals : list Z) : Prop :=
  if stopping s then signals = [] \/ timer_set s = true /\ signals = [SIGKILL]
  else exists request kill, signals = request ++ kill /\ (length request <= 1)%nat
       /\ (kill = [] \/ kill = [SIGKILL]).

(** One iteration sends some of what is allowed, and leaves the rest. *)
Lemma serve_allowed s e s' actions rest :
  (timer_set s = true -> stopping s = true) -> serve s e = Continue s' actions -> allowed s' rest ->
  (timer_set s' = true -> stopping s' = true) /\ allowed s (concat (map sent actions) ++ rest).
Proof.
  destruct s as [st si co ti]. intros Ht Hs Hr. unfold allowed in *. cbn [stopping timer_set] in *.
  destruct e; cbn in Hs; try discriminate Hs.
  - destruct si; [|done]. injection Hs as <- <-. destruct st; cbn in *; [done|]. split; [done|].
    exists [], rest. split; [done|]. split; [cbn; lia|]. destruct Hr as [->|[_ ->]]; [by left|by right].
  - destruct co; [|done]. injection Hs as <- <-. destruct st; cbn in *; [done|]. split; [done|].
    exists [SIGTERM], rest. split; [done|]. split; [cbn; lia|]. destruct Hr as [->|[_ ->]]; [by left|by right].
  - injection Hs as <- <-. destruct st; cbn in *; [done|]. split; [done|].
    exists [signal], rest. split; [done|]. split; [cbn; lia|]. destruct Hr as [->|[_ ->]]; [by left|by right].
  - destruct ti; [|done]. injection Hs as <- <-. rewrite (Ht eq_refl) in *. cbn in *. split; [done|].
    destruct Hr as [->|[? _]]; [|done]. right. by split.
Qed.

Definition closing (pid : Z) (signals : list Z) : list effect :=
  map (fun n => SignalGroup pid n) signals ++ [ReapGuardian; CloseOwner].

Lemma allowed_nil s : allowed s [].
Proof.
  unfold allowed. destruct (stopping s); [by left|]. exists [], []. by repeat split; [cbn; lia|left].
Qed.

Lemma serve_return s e exit : serve s e = Return exit -> exists r, e = WaitDone r.
Proof. destruct e; cbn; intros H; try (by repeat case_match); eauto. Qed.

Lemma session_exit_effects z :
  Z_effects (session_exit z)
  = Z_effects z ++ match Z_phase z with Live _ => [ReapGuardian; CloseOwner] | _ => [] end.
Proof.
  unfold session_exit, Z_sup. destruct (Z_phase z) eqn:Hp; cbn; by rewrite ?app_nil_r.
Qed.

Lemma session_wait_effects z : Z_effects (session_wait z) = Z_effects (session_exit z).
Proof. unfold session_wait. destruct (Z_phase (session_exit z)); cbn; by rewrite ?app_nil_r. Qed.

Lemma advance_effects c z :
  Z_effects (advance c z)
  = Z_effects z ++ match Z_phase z with Live _ => if Ch_exited c then [ReapGuardian; CloseOwner] else [] | _ => [] end.
Proof.
  unfold advance. destruct (Ch_exited c); rewrite ?session_exit_effects; cbn; [done|].
  by destruct (Z_phase z); rewrite app_nil_r.
Qed.

(** One turn of the loop. *)
Lemma event_loop_turn fuel s x z r w' :
  event_loop unix_supervision (S fuel) s (x, z) = Some (r, w') ->
  let c := next_choice s z in
  (exists s' actions, serve s (Ch_event c) = Continue s' actions
     /\ event_loop unix_supervision fuel s' (perform unix_supervision actions (x, advance c z)) = Some (r, w'))
  \/ w' = (x, session_wait (advance c z)).
Proof.
  cbv zeta. cbn [event_loop S_Select unix_supervision]. unfold on_second, session_select. cbn [snd fst].
  pose proof (next_event_selectable s (drop (Z_position z) script)) as Hb. fold (next_choice s z) in Hb.
  destruct (serve s (Ch_event (next_choice s z))) as [s' actions|exit|] eqn:E; [| |done].
  - intros H. left. exists s', actions. split; [done|].
    by destruct (Ch_event (next_choice s z)); [discriminate E|..].
  - intros [= _ <-]. right. destruct (serve_return _ _ _ E) as [we ->]. done.
Qed.

Lemma event_loop_reaped fuel s x z pid r w' :
  Z_phase z = Reaped pid -> event_loop unix_supervision fuel s (x, z) = Some (r, w') ->
  Z_phase (snd w') = Gone pid /\ Z_effects (snd w') = Z_effects z.
Proof.
  revert s z. induction fuel as [|fuel IH]; intros s z Hp; [done|].
  intros H%event_loop_turn.
  pose proof (advance_phase (next_choice s z) z) as Ha. pose proof (advance_effects (next_choice s z) z) as He.
  rewrite Hp in Ha, He. rewrite app_nil_r in He.
  destruct H as [(s' & actions & _ & H)| ->].
  - rewrite (perform_reaped _ _ _ pid Ha) in H. apply IH in H; [|exact Ha]. by rewrite He in H.
  - cbn [snd]. rewrite session_wait_phase, session_wait_effects, session_exit_effects, Ha, He.
    by rewrite app_nil_r.
Qed.

Lemma event_loop_effects fuel s x z pid r w' :
  Z_phase z = Live pid -> (timer_set s = true -> stopping s = true) ->
  event_loop unix_supervision fuel s (x, z) = Some (r, w') ->
  Z_phase (snd w') = Gone pid
  /\ exists signals, allowed s signals /\ Z_effects (snd w') = Z_effects z ++ closing pid signals.
Proof.
  revert s z. induction fuel as [|fuel IH]; intros s z Hp Ht; [done|].
  intros H%event_loop_turn.
  pose proof (advance_phase (next_choice s z) z) as Ha. pose proof (advance_effects (next_choice s z) z) as He.
  rewrite Hp in Ha, He. destruct H as [(s' & actions & E & H)| ->].
  - destruct (Ch_exited (next_choice s z)).
    + rewrite (perform_reaped _ _ _ pid Ha) in H. apply (event_loop_reaped _ _ _ _ pid) in H as [Hg Hf]; [|exact Ha].
      split; [exact Hg|]. exists []. split; [apply allowed_nil|]. by rewrite Hf, He.
    + rewrite (perform_live _ _ _ pid Ha) in H.
      destruct (serve_allowed s _ s' actions [] Ht E (allowed_nil s')) as [Ht' _].
      apply IH in H as (Hg & signals & Hs & Hf); [|done|exact Ht']. split; [exact Hg|].
      exists (concat (map sent actions) ++ signals). split; [by eapply serve_allowed|].
      rewrite Hf. unfold closing, enter. cbn [Z_effects]. by rewrite He, map_app, app_nil_r, <- !app_assoc.
  - cbn [snd]. rewrite session_wait_phase, session_wait_effects, session_exit_effects, Ha, He.
    split; [by destruct (Ch_exited _)|]. exists []. split; [apply allowed_nil|].
    by destruct (Ch_exited _); rewrite ?app_nil_r.
Qed.

(** The identifier the guardian has reported. *)
Definition reported_pid (pid : Z) : Prop := 0 < pid /\ read_pid (Ans_Status answers) = Some pid.

Lemma session_start_fresh z :
  Z_phase z = Fresh ->
  match session_start z with
  | (Ok _, z') => exists pid, z' = enter z (Live pid) [Launch pid] /\ reported_pid pid
  | (Err _, z') => z' = z
  end.
Proof.
  intros Hp. unfold session_start, Z_sup. rewrite Hp. cbn [supervisor_of new_supervisor U_pid].
  pose proof (Start_outcome answers (Z_command z)) as Ho.
  destruct (Start answers (Z_command z) []) as [[pid|e] actions]; [|done].
  exists pid. split; [done|]. split; apply Ho.
Qed.

Context (dep : Dependencies X).
Variable schema_ok : string -> json -> bool.

Lemma launch_session prepared x z :
  Z_phase z = Fresh ->
  match launch (beside session dep) unix_supervision schema_ok prepared (x, z) with
  | (Ok (_, pid), w') =>
      Z_phase (snd w') = Live pid /\ Z_effects (snd w') = Z_effects z ++ [Launch pid] /\ reported_pid pid
  | (Err _, w') =>
      Z_effects (snd w') = Z_effects z
      \/ exists pid, Z_effects (snd w') = Z_effects z ++ Launch pid :: closing pid [SIGKILL] /\ reported_pid pid
  end.
Proof.
  intros Hp. unfold launch, supervise, bind, wrap_error. cbn [S_NewSupervisor unix_supervision].
  unfold on_second at 1, session_new. cbn [snd fst].
  destruct (PL_command prepared =s EmptyString); [by left|].
  set (z1 := {| Z_command := PL_command prepared :: PL_arguments prepared; Z_phase := Z_phase z;
                Z_effects := Z_effects z; Z_position := Z_position z |}).
  cbn [map_err S_Start unix_supervision]. unfold on_second at 1. cbn [snd fst].
  pose proof (session_start_fresh z1 Hp) as Hs.
  destruct (session_start z1) as [[[]|[]] z2]; cbn [map_err]; [|left; by subst z2].
  destruct Hs as (pid & -> & Hr). unfold pid_now, record_or_stop, ret. cbn [S_PID unix_supervision snd].
  change (default 0 (U_pid (Z_sup (enter z1 (Live pid) [Launch pid])))) with pid.
  pose proof (idle_Spawned (beside session dep) (fun w => snd w) (Blind0 := beside_blind dep (fun z => z)) schema_ok prepared pid (x, enter z1 (Live pid) [Launch pid])) as Hi.
  destruct (Spawned (beside session dep) schema_ok prepared pid _) as [[v|e] [x' z']]; cbn [snd] in Hi; subst z'.
  - split; [done|]. split; [done|exact Hr].
  - right. exists pid. split; [|exact Hr]. cbn [S_Act S_Wait unix_supervision fst snd].
    rewrite (session_act_live _ _ pid) by done. rewrite session_wait_effects, session_exit_effects. cbn.
    by rewrite <- !app_assoc.
Qed.

Definition run_outcome (r : result witness_error RunResult) (z : session) : Prop :=
  match r with
  | Ok result => exists signals, Z_effects z = Launch (Run_PID result) :: closing (Run_PID result) signals
                 /\ allowed initial_loop signals /\ reported_pid (Run_PID result)
  | Err _ => Z_effects z = []
             \/ exists pid signals, Z_effects z = Launch pid :: closing pid signals
                  /\ allowed initial_loop signals /\ reported_pid pid
  end.

Lemma Run_effects fuel request gracePeriod x r w' :
  Run (beside session dep) unix_supervision schema_ok fuel request gracePeriod (x, new_session) = Some (r, w') ->
  run_outcome r (snd w').
Proof.
  unfold Run.
  pose proof (idle_prefix (beside session dep) (fun w => snd w) (Blind0 := beside_blind dep (fun z => z)) unix_supervision gracePeriod request (fun w => eq_refl)
                (x, new_session)) as Hi.
  destruct (bind _ _ (x, new_session)) as [[prepared|e] [x1 z1]]; cbn [snd] in Hi; subst z1;
    [|intros [= <- <-]; by left].
  pose proof (launch_session prepared x1 new_session eq_refl) as Hl.
  destruct (launch _ _ _ prepared _) as [[[receiptID pid]|e] [x2 z2]]; cbn [snd] in Hl.
  - destruct Hl as (Hp & He & Hr). unfold finish.
    destruct (event_loop _ fuel initial_loop (x2, z2)) as [[exit w3]|] eqn:E; [|done].
    apply (event_loop_effects fuel initial_loop x2 z2 pid) in E as (_ & signals & Ha & Hz); [|done|done].
    rewrite He in Hz.
    destruct exit as [code|[]]; intros [= <- <-]; cbn; [by exists signals|right; by exists pid, signals].
  - intros [= <- <-]. cbn [run_outcome S_ClosePipe unix_supervision snd].
    destruct Hl as [Hl|(pid & Hl & Hr)]; [by left|]. right. exists pid, [SIGKILL].
    split; [exact Hl|]. split; [|exact Hr]. exists [], [SIGKILL]. by repeat split; [cbn; lia|right].
Qed.
End Supervised.


(** ** A stop request that is ignored *)

Definition willing_system : start_answers := {|
  Ans_OwnerPipe := true; Ans_ConfigPipe := true; Ans_StatusPipe := true; Ans_Executable := true;
  Ans_Guardian := true; Ans_WriteConfig := true; Ans_CloseConfig := true; Ans_Status := status_line 7 |}.

(** Termination, the end of the input, the end of the grace period; the child
    dies, and an interrupt comes before the loop knows. *)
Definition stubborn_script : list occurrence :=
  [Happens (SignalReceived 15); Happens StdinDone; Happens TimerFired; ChildExits;
   Happens (SignalReceived 2); Happens (WaitDone (WaitExit 137))].

Definition stubborn_run : option (result witness_error RunResult * (nat * session)) :=
  Run (beside session calm_dependencies) (unix_supervision willing_system true stubborn_script)
    (fun _ _ => true) 6 sample_launch 0 (0%nat, new_session).

