(* ===== verification/SupervisedWindows.v ===== *)
(** * The witness over the Windows supervisor

    As [Supervised], with the supervisor of [SupervisorWindows]: a session is
    its fields and what has been done to the system, and an arbitrary script
    says in which order the events come and when the command ends.  [Wait] of
    the goroutine takes effect when the command ends.  The controller that
    prepares and records the launch is arbitrary; its path functions, where it
    has them, are those of Unix, and nothing here depends on what they say. *)

From S2P Require Import Prelude GoStrings Model Expectation Process Evaluator ProofId Receipt World App Witness.
From S2P Require Import WitnessRun Supervised SupervisorWindows.

Inductive seen := Created (pid : Z) | Did (e : effect).

Record win_session := {
  K_command : list string;
  K_sup : win_supervisor;
  K_told : bool;                (* the loop has received the end of the command *)
  K_seen : list seen;
  K_position : nat
}.

Definition unstarted : win_supervisor :=
  {| V_started := false; V_waited := false; V_pid := 0; V_process := false; V_job := false; V_stdin := false |}.

Lemma newSupervisor_unstarted command v : newSupervisor command = Some v -> v = unstarted.
Proof. unfold newSupervisor. destruct (command =s EmptyString); [done|]. by intros [= <-]. Qed.

Definition new_win_session : win_session :=
  {| K_command := []; K_sup := unstarted; K_told := false; K_seen := []; K_position := 0 |}.

Definition after_method (z : win_session) (v : win_supervisor) (done_ : list seen) : win_session :=
  {| K_command := K_command z; K_sup := v; K_told := K_told z; K_seen := K_seen z ++ done_;
     K_position := K_position z |}.

Section SupervisedWindows.
Context {X : Type}.
Variable ans : win_answers.
Variable ComposeCommandLine : list string -> string.
Variable pipe : bool.                  (* [os.Pipe] for the input of the child *)
Variable script : list occurrence.

(** A session begins with the fields of a new supervisor. *)
Definition win_new (command : string) (arguments : list string) (z : win_session)
  : result unit unit * win_session :=
  match newSupervisor command with
  | None => (Err tt, z)
  | Some _ => (Ok tt, {| K_command := command :: arguments; K_sup := K_sup z; K_told := K_told z;
                         K_seen := K_seen z; K_position := K_position z |})
  end.

(** The streams of [Run] always have an input; the channel of the end of the
    command is new with every start. *)
Definition win_start (z : win_session) : result unit unit * win_session :=
  if V_started (K_sup z) then (Err tt, z)
  else match K_command z with
       | [] => (Err tt, z)
       | command :: arguments =>
           match Start ans ComposeCommandLine command arguments true [] with
           | (Ok pid, _) => (Ok tt, {| K_command := K_command z; K_sup := started pid true (K_sup z); K_told := false;
                                       K_seen := K_seen z ++ [Created pid]; K_position := K_position z |})
           | (Err _, _) => (Err tt, z)
           end
       end.

(** The error of a stop is ignored by [Run]. *)
Definition win_act (a : action) (z : win_session) : win_session :=
  match a with
  | WitnessRun.GracefulStop =>
      let '(v, decided) := GracefulStop (K_sup z) in after_method z v (map Did (default [] decided))
  | WitnessRun.ForwardSignal signal =>
      let '(v, decided) := ForwardSignal signal (K_sup z) in after_method z v (map Did (default [] decided))
  | WitnessRun.ForceStop => after_method z (K_sup z) (map Did (ForceStop (K_sup z)))
  | StartTimer => z
  end.

(** [managed.Wait()] once the command has ended. *)
Definition win_exit (z : win_session) : win_session :=
  match wait_begin (K_sup z) with
  | None => z
  | Some v => let '(v', decided) := wait_end v in after_method z v' (map Did decided)
  end.

Definition told (z : win_session) : win_session :=
  {| K_command := K_command z; K_sup := K_sup z; K_told := true; K_seen := K_seen z;
     K_position := K_position z |}.

Definition win_wait (z : win_session) : win_session := told (win_exit z).

Definition win_choice (s : loop_state) (z : win_session) : choice :=
  next_event s (drop (K_position z) script).

Definition win_advance (c : choice) (z : win_session) : win_session :=
  let moved := {| K_command := K_command z; K_sup := K_sup z; K_told := K_told z; K_seen := K_seen z;
                  K_position := K_position z + Ch_used c |} in
  if Ch_exited c then win_exit moved else moved.

Definition win_select (s : loop_state) (z : win_session) : event * win_session :=
  let c := win_choice s z in
  (Ch_event c, match Ch_event c with WaitDone _ => win_wait (win_advance c z) | _ => win_advance c z end).

Definition win_supervision : Supervision (X * win_session) := {|
  S_Pipe w := ((if pipe then Ok tt else Err tt), w);
  S_NewSupervisor command arguments := on_second (win_new command arguments);
  S_Start := on_second win_start;
  S_PID w := V_pid (K_sup (snd w));
  S_Act a w := (fst w, win_act a (snd w));
  S_Wait w := (fst w, win_wait (snd w));
  S_Select s := on_second (win_select s);
  S_ClosePipe w := w |}.

(** ** It keeps the laws of the interface *)

Definition win_running (w : X * win_session) : Z :=
  if V_started (K_sup (snd w)) && negb (K_told (snd w)) then 1 else 0.

Definition win_signals_left (w : X * win_session) : nat :=
  length (List.filter is_signal (drop (K_position (snd w)) script)).

(** The methods move neither through the script nor between the phases. *)
Lemma win_exit_frame z :
  K_position (win_exit z) = K_position z /\ K_told (win_exit z) = K_told z
  /\ V_started (K_sup (win_exit z)) = V_started (K_sup z) /\ V_pid (K_sup (win_exit z)) = V_pid (K_sup z).
Proof.
  unfold win_exit, wait_begin. destruct z as [c [st wt pid pr jb sd] t e p]. cbn.
  destruct st, pr, wt; by cbn.
Qed.

Lemma win_act_frame a z :
  K_position (win_act a z) = K_position z /\ K_told (win_act a z) = K_told z
  /\ V_started (K_sup (win_act a z)) = V_started (K_sup z).
Proof. by destruct a. Qed.

Lemma win_advance_frame c z :
  K_position (win_advance c z) = (K_position z + Ch_used c)%nat /\ K_told (win_advance c z) = K_told z
  /\ V_started (K_sup (win_advance c z)) = V_started (K_sup z).
Proof.
  unfold win_advance. destruct (Ch_exited c); [|done].
  match goal with |- context [win_exit ?m] => destruct (win_exit_frame m) as (-> & -> & -> & _) end. done.
Qed.

Lemma win_select_frame s z :
  let z' := snd (win_select s z) in
  K_position z' = (K_position z + Ch_used (win_choice s z))%nat
  /\ V_started (K_sup z') = V_started (K_sup z)
  /\ K_told z' = match fst (win_select s z) with WaitDone _ => true | _ => K_told z end.
Proof.
  cbv zeta. unfold win_select. cbn [fst snd].
  destruct (win_advance_frame (win_choice s z) z) as (Hp & Ht & Hs).
  destruct (Ch_event _); [|by repeat split..]. unfold win_wait. cbn [told K_position K_sup K_told].
  destruct (win_exit_frame (win_advance (win_choice s z) z)) as (-> & _ & -> & _). by repeat split.
Qed.

#[export] Instance windows_select : SelectLaws win_supervision win_signals_left (arrivals script).
Proof.
  split.
  - intros s [x z]. apply next_event_selectable.
  - intros s [x z]. pose proof (next_event_signals s (drop (K_position z) script)) as H.
    destruct (win_select_frame s z) as (Hp & _). cbn [S_Select win_supervision].
    unfold on_second, win_signals_left. cbn [snd fst] in *.
    rewrite (surjective_pairing (win_select s z)). cbn [fst snd]. rewrite Hp.
    rewrite drop_drop in H. revert H. unfold win_choice. cbn [fst win_select]. unfold win_choice.
    by destruct (Ch_event (next_event s (drop (K_position z) script))).
  - intros a [x z]. cbn. unfold win_signals_left. cbn [snd]. by destruct (win_act_frame a z) as (-> & _).
  - intros [x z]. unfold win_signals_left, arrivals. cbn [snd].
    rewrite <- (take_drop (K_position z) script) at 2. rewrite List.filter_app, length_app. lia.
Qed.

#[export] Instance win_blind {T} (dep : Dependencies X) (f : win_session -> T) :
  Blind (beside win_session dep) (fun w => f (snd w)).
Proof.
  split; intros; cbn; unfold on_first;
    match goal with |- context [let '(_, _) := ?c in _] => destruct c end; done.
Qed.

#[export] Instance windows_children (dep : Dependencies X) :
  ChildLaws (beside win_session dep) win_supervision win_running.
Proof.
  split; try (intros; by repeat match goal with w : X * win_session |- _ => destruct w end).
  - exact (win_blind dep (fun z => if V_started (K_sup z) && negb (K_told z) then 1 else 0)).
  - intros command arguments [x z]. cbn. unfold on_second, win_new, win_running. cbn [snd fst].
    by destruct (newSupervisor command).
  - intros [x z]. cbn [S_Start win_supervision]. unfold on_second, win_start, win_running. cbn [snd fst].
    destruct (V_started (K_sup z)) eqn:Hs; [cbn; rewrite Hs; by destruct (K_told z)|].
    destruct (K_command z) as [|command arguments]; [cbn; by rewrite Hs|].
    destruct (Start _ _ _ _ _ _) as [[pid|e] calls]; cbn; by rewrite ?Hs.
  - intros a [x z]. cbn. unfold win_running. cbn [snd]. by destruct (win_act_frame a z) as (_ & -> & ->).
  - intros [x z]. cbn [S_Wait win_supervision]. unfold win_running, win_wait. cbn [snd told K_told K_sup].
    destruct (win_exit_frame z) as (_ & _ & -> & _). by destruct (V_started _), (K_told z).
  - intros s [x z]. cbn [S_Select win_supervision]. unfold on_second, win_running. cbn [snd fst].
    destruct (win_select_frame s z) as (_ & Hs & Ht). rewrite (surjective_pairing (win_select s z)). cbn [fst snd].
    rewrite Hs, Ht. intros Hr. destruct (V_started (K_sup z)), (K_told z), (fst (win_select s z)); cbn in *; lia.
  - intros [x z]. unfold win_running. destruct (_ && _); lia.
Qed.

(** ** What the system sees of one run *)

Definition live_sup (pid : Z) (stdin : bool) : win_supervisor :=
  {| V_started := true; V_waited := false; V_pid := pid; V_process := true; V_job := true; V_stdin := stdin |}.

Definition done_sup (pid : Z) : win_supervisor :=
  {| V_started := true; V_waited := true; V_pid := pid; V_process := false; V_job := false; V_stdin := false |}.

(** The closings of [Wait]. *)
Definition closings (stdin : bool) : list effect :=
  (if stdin then [CloseStdin] else []) ++ [CloseJob; CloseProcess].

Lemma win_exit_live z pid stdin :
  K_sup z = live_sup pid stdin -> win_exit z = after_method z (done_sup pid) (map Did (closings stdin)).
Proof. unfold win_exit. intros ->. by destruct stdin. Qed.

Lemma win_exit_done z pid : K_sup z = done_sup pid -> win_exit z = z.
Proof. unfold win_exit. by intros ->. Qed.

(** What follows the start, with the input of the command still open or not:
    at most one request to stop, which closes it, at most one kill, and then
    the closings, each once. *)
Definition win_allowed (s : loop_state) (stdin : bool) (rest : list effect) : Prop :=
  exists (asked killed : bool),
    rest = (if asked then [CloseStdin] else []) ++ (if killed then [TerminateJob] else [])
           ++ closings (stdin && negb asked)
    /\ (asked = true -> stopping s = false /\ stdin = true)
    /\ (killed = true -> stopping s = true -> timer_set s = true).

Lemma win_allowed_closings s stdin : win_allowed s stdin (closings stdin).
Proof. exists false, false. rewrite andb_true_r. by repeat split. Qed.

(** What an action does to a command that runs. *)
Definition win_sent (a : action) (stdin : bool) : bool * list effect :=
  match a with
  | WitnessRun.GracefulStop | WitnessRun.ForwardSignal _ => (false, if stdin then [CloseStdin] else [])
  | WitnessRun.ForceStop => (stdin, [TerminateJob])
  | StartTimer => (stdin, [])
  end.

Lemma win_act_live a z pid stdin :
  K_sup z = live_sup pid stdin ->
  K_sup (win_act a z) = live_sup pid (fst (win_sent a stdin))
  /\ K_seen (win_act a z) = K_seen z ++ map Did (snd (win_sent a stdin)).
Proof. unfold win_act, ForwardSignal, GracefulStop, ForceStop. intros E. rewrite E. destruct a, stdin; cbn; by rewrite ?app_nil_r, ?E. Qed.

Lemma win_act_done a z pid :
  K_sup z = done_sup pid -> K_sup (win_act a z) = done_sup pid /\ K_seen (win_act a z) = K_seen z.
Proof. unfold win_act, ForwardSignal, GracefulStop, ForceStop. intros E. rewrite E. destruct a; cbn; by rewrite ?app_nil_r, ?E. Qed.

Fixpoint all_sent (actions : list action) (stdin : bool) : bool * list effect :=
  match actions with
  | [] => (stdin, [])
  | a :: rest => let '(open, first) := win_sent a stdin in
                 let '(remains, later) := all_sent rest open in (remains, first ++ later)
  end.

Lemma win_perform_live actions x z pid stdin :
  K_sup z = live_sup pid stdin ->
  let '(remains, sent) := all_sent actions stdin in
  exists z', perform win_supervision actions (x, z) = (x, z')
    /\ K_sup z' = live_sup pid remains /\ K_seen z' = K_seen z ++ map Did sent.
Proof.
  unfold perform. revert z stdin. induction actions as [|a l IH]; intros z stdin Hz; cbn [all_sent fold_left].
  - exists z. by rewrite app_nil_r.
  - destruct (win_act_live a z pid stdin Hz) as [Hs He]. specialize (IH _ _ Hs). cbn [S_Act win_supervision fst snd] in *.
    destruct (win_sent a stdin) as [open first]. cbn [fst snd] in *. destruct (all_sent l open) as [remains later].
    destruct IH as (z' & -> & Hz' & Hse). exists z'. split; [done|]. split; [done|].
    by rewrite Hse, He, map_app, app_assoc.
Qed.

Lemma win_perform_done actions x z pid :
  K_sup z = done_sup pid ->
  exists z', perform win_supervision actions (x, z) = (x, z') /\ K_sup z' = done_sup pid /\ K_seen z' = K_seen z.
Proof.
  unfold perform. revert z. induction actions as [|a l IH]; intros z Hz; cbn [fold_left]; [by exists z|].
  destruct (win_act_done a z pid Hz) as [Hs He]. specialize (IH _ Hs).
  cbn [S_Act win_supervision fst snd] in *. destruct IH as (z' & -> & ? & Hse). exists z'. by rewrite Hse.
Qed.

(** One iteration does some of what is allowed, and leaves the rest. *)
Lemma serve_win_allowed s e s' actions stdin rest :
  (timer_set s = true -> stopping s = true) -> (stopping s = false -> stdin = true) ->
  serve s e = Continue s' actions ->
  let '(remains, sent) := all_sent actions stdin in
  win_allowed s' remains rest ->
  (timer_set s' = true -> stopping s' = true) /\ (stopping s' = false -> remains = true)
  /\ win_allowed s stdin (sent ++ rest).
Proof.
  destruct s as [st si co ti]. cbn [stopping timer_set]. intros Ht Hst Hs.
  destruct e; cbn in Hs; try discriminate Hs.
  - destruct si; [|done]. injection Hs as <- <-.
    destruct st; cbn; (intros (asked & killed & -> & Ha & Hk)); (split; [done|]); (split; [done|]); exists asked, killed;
      repeat split; cbn in *; intuition congruence.
  - destruct co; [|done]. injection Hs as <- <-. destruct st; cbn.
    + intros (asked & killed & -> & Ha & Hk). split; [done|]. split; [done|]. by exists asked, killed.
    + rewrite (Hst eq_refl). intros ([] & killed & -> & Ha & Hk); [by destruct (Ha eq_refl)|].
      split; [done|]. split; [done|]. exists true, killed. by repeat split.
  - injection Hs as <- <-. destruct st; cbn.
    + intros (asked & killed & -> & Ha & Hk). split; [done|]. split; [done|]. by exists asked, killed.
    + rewrite (Hst eq_refl). intros ([] & killed & -> & Ha & Hk); [by destruct (Ha eq_refl)|].
      split; [done|]. split; [done|]. exists true, killed. by repeat split.
  - destruct ti; [|done]. injection Hs as <- <-. rewrite (Ht eq_refl) in *. cbn.
    intros (asked & killed & -> & Ha & Hk). cbn in *.
    destruct asked; [by destruct (Ha eq_refl)|]. destruct killed; [by specialize (Hk eq_refl eq_refl)|].
    split; [done|]. split; [done|]. exists false, true. by repeat split.
Qed.

(** One turn of the loop. *)
Lemma win_turn rounds s x z r w' :
  event_loop win_supervision (S rounds) s (x, z) = Some (r, w') ->
  let c := win_choice s z in
  (exists s' actions, serve s (Ch_event c) = Continue s' actions
     /\ event_loop win_supervision rounds s' (perform win_supervision actions (x, win_advance c z)) = Some (r, w'))
  \/ w' = (x, win_wait (win_advance c z)).
Proof.
  cbv zeta. cbn [event_loop S_Select win_supervision]. unfold on_second, win_select. cbn [snd fst].
  pose proof (next_event_selectable s (drop (K_position z) script)) as Hb. fold (win_choice s z) in Hb.
  destruct (serve s (Ch_event (win_choice s z))) as [s' actions|exit|] eqn:E; [| |done].
  - intros H. left. exists s', actions. split; [done|].
    by destruct (Ch_event (win_choice s z)); [discriminate E|..].
  - intros [= _ <-]. right. destruct (serve_return _ _ _ E) as [we ->]. done.
Qed.

Lemma win_advance_done c z pid :
  K_sup z = done_sup pid -> K_sup (win_advance c z) = done_sup pid /\ K_seen (win_advance c z) = K_seen z.
Proof. unfold win_advance. intros Hz. destruct (Ch_exited c); [|done]. by erewrite win_exit_done. Qed.

Lemma win_advance_live c z pid stdin :
  K_sup z = live_sup pid stdin ->
  if Ch_exited c
  then K_sup (win_advance c z) = done_sup pid
       /\ K_seen (win_advance c z) = K_seen z ++ map Did (closings stdin)
  else K_sup (win_advance c z) = live_sup pid stdin /\ K_seen (win_advance c z) = K_seen z.
Proof. unfold win_advance. intros Hz. destruct (Ch_exited c); [|done]. by erewrite win_exit_live. Qed.

Lemma win_wait_live z pid stdin :
  K_sup z = live_sup pid stdin -> K_seen (win_wait z) = K_seen z ++ map Did (closings stdin).
Proof. unfold win_wait. intros Hz. by erewrite win_exit_live. Qed.

Lemma win_wait_done z pid : K_sup z = done_sup pid -> K_seen (win_wait z) = K_seen z.
Proof. unfold win_wait. intros Hz. by erewrite win_exit_done. Qed.

(** After the command has ended nothing more is done to the system. *)
Lemma win_loop_done rounds s x z pid r w' :
  K_sup z = done_sup pid -> event_loop win_supervision rounds s (x, z) = Some (r, w') -> K_seen (snd w') = K_seen z.
Proof.
  revert s z. induction rounds as [|n IH]; intros s z Hz; [done|].
  destruct (win_advance_done (win_choice s z) z pid Hz) as [Ha He].
  intros [(s' & actions & _ & H)| ->]%win_turn.
  - destruct (win_perform_done actions x _ pid Ha) as (z' & E & Hz' & He'). rewrite E in H.
    apply IH in H; [|exact Hz']. by rewrite H, He', He.
  - cbn [snd]. by rewrite (win_wait_done _ pid Ha).
Qed.

Lemma win_loop_live rounds s x z pid stdin r w' :
  K_sup z = live_sup pid stdin -> (timer_set s = true -> stopping s = true) -> (stopping s = false -> stdin = true) ->
  event_loop win_supervision rounds s (x, z) = Some (r, w') ->
  exists rest, win_allowed s stdin rest /\ K_seen (snd w') = K_seen z ++ map Did rest.
Proof.
  revert s z stdin. induction rounds as [|n IH]; intros s z stdin Hz Ht Hst; [done|].
  pose proof (win_advance_live (win_choice s z) z pid stdin Hz) as Ha.
  intros [(s' & actions & E & H)| ->]%win_turn; destruct (Ch_exited (win_choice s z)); destruct Ha as [Ha He].
  - destruct (win_perform_done actions x _ pid Ha) as (z' & Ep & Hz' & He'). rewrite Ep in H.
    apply (win_loop_done _ _ _ _ pid) in H; [|exact Hz']. exists (closings stdin).
    split; [apply win_allowed_closings|]. by rewrite H, He', He.
  - pose proof (win_perform_live actions x _ pid stdin Ha) as Hp.
    pose proof (fun rest => serve_win_allowed s _ s' actions stdin rest Ht Hst E) as Hs.
    destruct (all_sent actions stdin) as [remains sent]. destruct Hp as (z' & Ep & Hz' & He'). rewrite Ep in H.
    destruct (Hs _ (win_allowed_closings s' remains)) as (Ht' & Hst' & _).
    pose proof (IH s' z' remains Hz' Ht' Hst' H) as (rest & Hr & Hk).
    exists (sent ++ rest). split; [by apply Hs|]. by rewrite Hk, He', He, map_app, app_assoc.
  - exists (closings stdin). split; [apply win_allowed_closings|]. cbn [snd]. by rewrite (win_wait_done _ pid Ha).
  - exists (closings stdin). split; [apply win_allowed_closings|]. cbn [snd].
    by rewrite (win_wait_live _ pid stdin Ha), He.
Qed.

Context (dep : Dependencies X).
Variable schema_ok : string -> json -> bool.

(** The whole of what is seen of one launched command. *)
Definition one_command (pid : Z) (l : list seen) : Prop :=
  exists rest, l = Created pid :: map Did rest /\ win_allowed initial_loop true rest /\ Ans_Create ans = Some pid.

Definition win_outcome (r : result witness_error RunResult) (z : win_session) : Prop :=
  match r with
  | Ok result => one_command (Run_PID result) (K_seen z)
  | Err _ => K_seen z = [] \/ exists pid, one_command pid (K_seen z)
  end.

Lemma win_start_fresh z :
  K_sup z = unstarted ->
  match win_start z with
  | (Ok _, z') => exists pid, K_sup z' = live_sup pid true /\ K_seen z' = K_seen z ++ [Created pid]
                              /\ Ans_Create ans = Some pid
  | (Err _, z') => K_seen z' = K_seen z
  end.
Proof.
  unfold win_start. intros Hz. rewrite Hz. cbn [V_started unstarted].
  destruct (K_command z) as [|command arguments]; [done|].
  pose proof (win_Start_outcome ans ComposeCommandLine command arguments true) as Ho.
  destruct (Start ans _ _ _ _ _) as [[pid|e] calls]; [|done]. exists pid. split; [done|]. split; [done|]. apply Ho.
Qed.

Lemma win_launch prepared x :
  match launch (beside win_session dep) win_supervision schema_ok prepared (x, new_win_session) with
  | (Ok (_, pid), (_, z)) => K_sup z = live_sup pid true /\ K_seen z = [Created pid] /\ Ans_Create ans = Some pid
  | (Err _, (_, z)) => K_seen z = [] \/ exists pid, one_command pid (K_seen z)
  end.
Proof.
  unfold launch, supervise, bind, wrap_error. cbn [S_NewSupervisor win_supervision].
  unfold on_second at 1, win_new. cbn [snd fst].
  destruct (newSupervisor (PL_command prepared)); cbn [map_err]; [|by left].
  set (z1 := {| K_command := _ |}). cbn [S_Start win_supervision]. unfold on_second at 1. cbn [snd fst].
  pose proof (win_start_fresh z1 eq_refl) as Hs.
  destruct (win_start z1) as [[[]|[]] z2]; cbn [map_err]; [|by left].
  destruct Hs as (pid & Hz & He & Hr). unfold pid_now, record_or_stop, ret. cbn [S_PID win_supervision snd].
  rewrite Hz. cbn [V_pid live_sup].
  pose proof (idle_Spawned (beside win_session dep) (fun w => snd w) (Blind0 := win_blind dep (fun z => z))
                schema_ok prepared pid (x, z2)) as Hi.
  destruct (Spawned (beside win_session dep) schema_ok prepared pid _) as [[v|e] [x' z']]; cbn [snd] in Hi; subst z'.
  - by rewrite He.
  - right. exists pid, (TerminateJob :: closings true). cbn [S_Act S_Wait win_supervision fst snd].
    destruct (win_act_live WitnessRun.ForceStop z2 pid true Hz) as [Hs' He'].
    rewrite (win_wait_live _ pid true Hs'), He', He. split; [done|]. split; [|exact Hr].
    exists false, true. by repeat split.
Qed.

Lemma win_Run_seen rounds request gracePeriod x r w' :
  Run (beside win_session dep) win_supervision schema_ok rounds request gracePeriod (x, new_win_session) = Some (r, w') ->
  win_outcome r (snd w').
Proof.
  unfold Run.
  pose proof (idle_prefix (beside win_session dep) (fun w => snd w) (Blind0 := win_blind dep (fun z => z))
                win_supervision gracePeriod request (fun w => eq_refl) (x, new_win_session)) as Hi.
  destruct (bind _ _ (x, new_win_session)) as [[prepared|e] [x1 z1]]; cbn [snd] in Hi; subst z1;
    [|intros [= <- <-]; by left].
  pose proof (win_launch prepared x1) as Hl.
  destruct (launch _ _ _ prepared _) as [[[receiptID pid]|e] [x2 z2]].
  - destruct Hl as (Hz & He & Hr). unfold finish.
    destruct (event_loop _ rounds initial_loop (x2, z2)) as [[exit w3]|] eqn:E; [|done].
    apply (win_loop_live rounds initial_loop x2 z2 pid true) in E as (rest & Ha & Hs); [|done..].
    rewrite He in Hs. assert (Ho : one_command pid (K_seen (snd w3))) by by exists rest.
    destruct exit as [code|[]]; intros [= <- <-]; cbn; [exact Ho|by right; exists pid].
  - intros [= <- <-]. exact Hl.
Qed.
End SupervisedWindows.


(** ** A stop request that is ignored *)

Definition willing_windows : win_answers := {|
  Ans_Job := true; Ans_Limits := true; Ans_Stdin := true; Ans_Stdout := true; Ans_Stderr := true;
  Ans_Inherit _ := true; Ans_AttributeList := true; Ans_HandleList := true; Ans_JobList := true;
  Ans_UTF16 _ := true; Ans_Create := Some 7 |}.

Definition stubborn_command : option (result witness_error RunResult * (nat * win_session)) :=
  Run (beside win_session calm_dependencies)
    (win_supervision willing_windows (fun words => String.concat " " words) true stubborn_script)
    (fun _ _ => true) 6 sample_launch 0 (0%nat, new_win_session).

