(* ===== verification/Local.v ===== *)
(** * The program as it is assembled ([app.NewService], [cmd/agent-runtime-proof/main.go])

    [NewService] fills the interfaces of the application service with the
    components of this repository: the process observer of the build (any that
    keeps the observers' contract), the expectation loader,
    the artifact reader and the local host resolver.  All of them act on one
    machine, whose state may change between any two operations. *)

From S2P Require Import Prelude GoStrings GoPath Model Wire Contract Expectation Process Evaluator.
From S2P Require Import HostBinding HostParse ProofId HostDiscovery World Artifact ArtifactTree ConfigFile HostFiles App Flags Cli Mcp Observers.

(** A machine: what each component sees of its state [W]. *)
Record Machine (W H : Type) := {
  M_fs : FS W H;                                  (* files, clock and context *)
  M_observer : W -> platform;                     (* the build's observer *)
  M_paths : W -> PathOS;
  M_time : W -> string;                           (* RFC 3339, in UTC *)
  M_seek : H -> W -> result errno unit * W;       (* for the files of hosts *)
  M_room : nat -> nat;
  M_resolver : Resolver;
  M_goos : string;
  M_embedded : list string
}.
Arguments M_fs {W H}. Arguments M_observer {W H}. Arguments M_paths {W H}. Arguments M_time {W H}.
Arguments M_seek {W H}. Arguments M_room {W H}.
Arguments M_resolver {W H}. Arguments M_goos {W H}. Arguments M_embedded {W H}.

Section Local.
Context {W H : Type} (m : Machine W H).
Variable schema_ok : string -> json -> bool.
Variable u : UnicodeTables.
Variable NFC : string -> string.
(** Third-party readers of configuration files. *)
Variable hujson_Standardize : string -> option string.
Variable toml_Unmarshal : string -> option (list (string * json)).
Variable yaml_documents : string -> option (list yaml_node).
(** The descriptor limit of the process. *)
Variable fuel : nat.
Variable tool : ToolInfo.
Variable build_platform : Platform.

(** An operation of a component that reads the context once and the machine
    as it is then. *)
Definition observing {A} (f : bool -> W -> result go_error A) : io W go_error A :=
  fun w => let '(cancelled, w') := CtxErr (M_fs m) w in (f cancelled w', w').

Definition complete (r : Candidate * option go_error) : result go_error Candidate :=
  match r with (candidate, None) => Ok candidate | (_, Some e) => Err e end.

Definition local_observer : Observer W := {|
  O_Snapshot pid := observing (fun c w => complete (P_Snapshot (M_observer m w) c pid));
  O_List limit := observing (fun c w => P_List (M_observer m w) (fun _ => c) limit);
  O_Revalidate expected := observing (fun c w => P_Revalidate (M_observer m w) c expected) |}.

Definition config_reader : string -> Z -> io W sys_error string :=
  readConfigFile (M_fs m) (M_seek m) (M_room m) (M_goos m).

(** [hostprofile.NewLocalResolver]. *)
Definition local_resolver : HostProfileResolver W := {|
  R_Binding := ResolveBinding u hujson_Standardize toml_Unmarshal yaml_documents schema_ok (M_embedded m)
                 (M_goos m) config_reader (CtxErr (M_fs m)) (M_resolver m);
  R_Bindings := Bindings u hujson_Standardize toml_Unmarshal yaml_documents schema_ok (M_embedded m)
                 (M_goos m) config_reader (CtxErr (M_fs m)) (M_resolver m) |}.

Definition loading (f : PathOS -> result load_error Resolved) : io W unit Resolved :=
  fun w => (map_err (fun _ => tt) (f (M_paths m w)), w).

Definition NewService : Service W := {|
  Svc_Observer := Some local_observer;
  Svc_Now w := (M_time m w, w);
  Svc_CtxErr := CtxErr (M_fs m);
  Svc_Tool := tool;
  Svc_LoadExpectation path := loading (fun os => Load schema_ok os path);
  Svc_ResolveInline value := loading (fun os => ResolveInline schema_ok os value);
  Svc_DigestArtifact := Digest (M_fs m) NFC fuel;
  Svc_HostProfiles := Some local_resolver |}.

(** ** [main] *)

Inductive program :=
| GuardianExits (code : Z)
| Banner (text : string)
| ServesMcp
| Replies (r : option (reply * W)).

(** [main]: [guarded] is what [RunGuardianIfRequested] returned. *)
Definition main (guarded : option Z) (version commit : string)
  (cli : list string -> W -> option (reply * W)) (arguments : list string) (w : W) : program :=
  match guarded with
  | Some code => GuardianExits code
  | None =>
      match arguments with
      | ["--version"] => Banner (Format "agent-runtime-proof" version commit)
      | ["mcp"] => ServesMcp
      | _ => Replies (cli arguments w)
      end
  end.

(** ** What a match on this machine means *)

Context (live : W -> Z) (limit : Z) `{!DescriptorLaws (M_fs m) live limit}.
Context (observers : forall w, ObserverContract (M_observer m w)).
Hypothesis fuel_enough : limit <= Z.of_nat fuel.

(** The binding of an identifier: a declaration found by its host in the files
    of the machine, the only one among the inventory that it describes. *)
Definition bound_process (bindingID : string) (candidate : Candidate) : Prop :=
  exists profile separator binding candidates l1 l2 cancelled w,
    IndexByte bindingID "." = Some separator
    /\ Prof_HostID profile = stake separator bindingID
    /\ declared u hujson_Standardize toml_Unmarshal yaml_documents config_reader profile
         (resolver_request (M_resolver m) (stake separator bindingID)) binding
    /\ B_ID binding = bindingID
    /\ P_List (M_observer m w) cancelled maximumInventoryLimit = Ok candidates
    /\ candidates = l1 ++ candidate :: l2
    /\ HostBinding.describes binding candidate /\ Forall (fun x => ~ HostBinding.describes binding x) (l1 ++ l2).

(** The process a request asks for. *)
Definition requested_process (request : VerifyRequest) (candidate : Candidate) : Prop :=
  if VR_BindingID request =s EmptyString then PID (Cand_Process candidate) = VR_PID request
  else bound_process (VR_BindingID request) candidate.

(** In this order, with [live] the number of open descriptors: the expectation
    was loaded, the process was seen, the
    artifact was read, and the process was seen again, unchanged. *)
Definition machine_evidence (request : VerifyRequest) (p : Proof) : Prop :=
  exists resolved candidate artifact actual w1 w2 w3 w4 w5,
    Load schema_ok (M_paths m w1) (VR_ExpectationPath request) = Ok resolved
    /\ requested_process request candidate
    /\ P_Snapshot (M_observer m w2) false (PID (Cand_Process candidate)) = (candidate, None)
    /\ Digest (M_fs m) NFC fuel resolved w3 = (Ok artifact, w4)
    /\ P_Snapshot (M_observer m w5) false (PID (Cand_Process candidate)) = (actual, None)
    /\ identity_of candidate = identity_of actual
    /\ (0 <= live w3 -> live w4 = live w3 /\ sound_observation resolved artifact)
    /\ Obs_SHA256 artifact = Art_SHA256 (Artifact (Res_Value resolved))
    /\ same_image resolved candidate artifact
    /\ Obs_Process (Proof_Observation p) = Some (Cand_Process candidate).

Lemma observing_ok {A} (f : bool -> W -> result go_error A) w a w' :
  observing f w = (Ok a, w') -> exists c, f c w' = Ok a.
Proof. unfold observing. destruct (CtxErr _ w) as [c w1]. intros [= Hf <-]. eauto. Qed.

Lemma snapshot_seen pid w c w' :
  O_Snapshot local_observer pid w = (Ok c, w') -> P_Snapshot (M_observer m w') false pid = (c, None).
Proof.
  cbn [O_Snapshot local_observer]. intros [b Hs]%observing_ok. unfold complete in Hs.
  destruct (P_Snapshot (M_observer m w') b pid) as [c' [e|]] eqn:E; [done|]. injection Hs as ->.
  pose proof (snapshot_contract _ _ _ E) as [-> _]. exact E.
Qed.

Lemma revalidation_seen c w w' :
  O_Revalidate local_observer c w = (Ok tt, w') ->
  exists actual, P_Snapshot (M_observer m w') false (PID (Cand_Process c)) = (actual, None)
                 /\ identity_of c = identity_of actual.
Proof.
  cbn [O_Revalidate local_observer]. intros [b Hr]%observing_ok.
  apply revalidate_contract in Hr as (-> & actual & Hs & Hi). by exists actual.
Qed.

(** A candidate of the inventory is a snapshot. *)
Lemma listed_snapshot w cancelled limit0 cs c :
  P_List (M_observer m w) cancelled limit0 = Ok cs -> c ∈ cs ->
  P_Snapshot (M_observer m w) false (PID (Cand_Process c)) = (c, None).
Proof using observers.
  intros (_ & _ & pids & _ & Hs)%list_contract Hin.
  apply list_elem_of_lookup in Hin as [i Hi]. apply (Forall2_lookup_r _ _ _ _ _ Hs) in Hi as (pid & _ & Hp & _).
  pose proof (snapshot_contract _ _ _ Hp) as (_ & _ & -> & _). exact Hp.
Qed.

Lemma selected_process request binding candidate w w' :
  select_process NewService request w = (Ok (binding, Ok candidate), w') ->
  requested_process request candidate
  /\ exists w2, P_Snapshot (M_observer m w2) false (PID (Cand_Process candidate)) = (candidate, None).
Proof using observers.
  unfold select_process, requested_process. destruct (String.eqb_spec (VR_BindingID request) EmptyString) as [Hb|Hb]; cbn [negb].
  - intros Hsel. apply bind_ok in Hsel as (o & w1 & Ho & Hsel). injection Ho as <- <-.
    apply bind_ok in Hsel as (snapshot & w2 & Hs & Hsel). injection Hsel as <- -> <-.
    apply attempt_ok in Hs. apply snapshot_seen in Hs.
    pose proof (snapshot_contract _ _ _ Hs) as (_ & _ & Hpid & _). split; [exact Hpid|]. exists w2. by rewrite Hpid.
  - unfold bindingCandidate. cbn [Svc_HostProfiles NewService]. intros Hsel.
    apply bind_ok in Hsel as (found & w1 & Hf & Hsel). destruct found as [b|e]; [|by injection Hsel].
    apply attempt_ok in Hf. apply bind_ok in Hsel as (o & w2 & Ho & Hsel). injection Ho as <- <-.
    apply bind_ok in Hsel as (listed & w3 & Hl & Hsel). apply attempt_ok in Hl.
    destruct listed as [cs|e]; [|by injection Hsel]. injection Hsel as <- Hmatch <-.
    cbn [O_List local_observer] in Hl. apply observing_ok in Hl as [c Hl].
    cbn [R_Binding local_resolver] in Hf.
    apply ResolveBinding_declared in Hf as (Hid & profile & separator & Hsep & Hp & Hd).
    pose proof Hd as (_ & _ & document & _ & raw & _ & _ & _ & _ & _ & _ & _ & _ & Hnew). rewrite Hnew in Hmatch.
    apply Match_ok in Hmatch as (_ & Hdesc & l1 & l2 & -> & Hothers). rewrite <- Hnew in Hdesc, Hothers.
    split; [|exists w3; eapply listed_snapshot; [exact Hl|by apply elem_of_app; right; left]].
    exists profile, separator, b, (l1 ++ candidate :: l2), l1, l2, (fun _ => c), w3. by repeat (split; [assumption|]).
Qed.

Lemma evidence_on_machine request p :
  VR_Expectation request = None -> Verdict p = "MATCHED" ->
  evidence_of NewService request p -> machine_evidence request p.
Proof using fuel_enough DescriptorLaws0 observers.
  intros Hx Hm (resolved & binding & candidate & o & digested & v & v0 & v1 & v2 & v3 & v4
    & Hres & Hsel & Ho & Hdig & Hrev & Hproc & Hmatch).
  destruct (Hmatch Hm) as (_ & artifact & -> & Himage & Hsha). injection Ho as <-.
  unfold resolve_expectation in Hres. rewrite Hx in Hres. apply wrap_ok in Hres.
  cbn [Svc_LoadExpectation NewService] in Hres. unfold loading in Hres. injection Hres as Hload <-.
  apply map_err_ok in Hload. apply selected_process in Hsel as (Hreq & w2 & Hs).
  apply revalidation_seen in Hrev as (actual & Hrev & Hsame).
  cbn [Svc_DigestArtifact NewService] in Hdig.
  assert (Hd : 0 <= live v2 -> live v3 = live v2 /\ sound_observation resolved artifact).
  { intros Hn. pose proof (Digest_uses (M_fs m) live limit NFC resolved (live v2) fuel ltac:(lia) v2 eq_refl) as Hd.
    by rewrite Hdig in Hd. }
  exists resolved, candidate, artifact, actual, v, w2, v2, v3, v4.
  do 9 (split; [assumption|]). assumption.
Qed.

End Local.

(** ** A machine on which a match happens *)

Definition identity_map (s : string) : string := s.

(** What [Digest] finds for the sample tree. *)
Definition installed_digest : string :=
  match digest_of identity_map sample_tree with Ok obs => Obs_SHA256 obs | Err _ => EmptyString end.

Definition installed_expectation : Expectation := {|
  Exp_SchemaVersion := Exp_SchemaVersion sample_expectation; Exp_Subject := Exp_Subject sample_expectation;
  Launch := Launch sample_expectation;
  Artifact := {| Root := "/opt/app"; Include := ["**"]; Exclude := ["tmp/*"];
                 Art_SHA256 := installed_digest; MaxFiles := 10; MaxBytes := 1000; MaxDurationMS := 1000 |};
  Policy := Policy sample_expectation; Source := Source sample_expectation; Exp_Extensions := [] |}.

Definition installed_paths : PathOS := {|
  EvalSymlinks := EvalSymlinks plain_os; UserHomeDir := UserHomeDir plain_os;
  WorkingDir := WorkingDir plain_os;
  ReadFile _ := match Canonical.Marshal (Expectation_json installed_expectation) with
                | Ok document => Some document | Err _ => None end |}.

Definition installed_process : ProcOS := {|
  BootID := Some "boot"; GOOS := "linux"; GOARCH := "amd64"; NewProcess _ := None;
  CreateTime _ := Ok 5; Ppid _ := 1; CmdlineSlice _ := Some ["/opt/app/bin/runtime"];
  Uids _ := Some [1000]; Pids := Ok [7]; Geteuid := 1000;
  Readlink _ := Ok "/opt/app/bin/runtime"; StatIdentity _ := Ok (Some (1, 14)) |}.

Definition sample_machine : Machine tree_world descriptor := {|
  M_fs := tree_fs (installed sample_tree) 100; M_observer _ := linux installed_process;
  M_paths _ := installed_paths; M_time _ := "2026-01-01T00:00:00Z";
  M_seek := tree_seek; M_room _ := 512%nat;
  M_resolver := {| Rsv_Platform := "linux"; Rsv_Home := "/home/u"; Rsv_Workspace := EmptyString;
                   Rsv_ProfileName := EmptyString |};
  M_goos := "linux"; M_embedded := [] |}.

Definition machine_service : Service tree_world :=
  NewService sample_machine (fun _ _ => true) ascii_tables identity_map (fun _ => None) (fun _ => None)
    (fun _ => None) 100 (Svc_Tool sample_service).

Definition machine_runtime : Runtime tree_world :=
  localRuntime (fun _ _ => true) ascii_tables sample_platform 7 machine_service None.

Definition machine_verify : reply * tree_world :=
  runVerify ascii_tables no_fractions any_output machine_runtime sample_args empty_world.

