(* ===== verification/LocalAnswers.v ===== *)
(** * The program always has an answer

    The interfaces that [NewService] assembles on one machine keep the promise
    of [FittingInterfaces]: what the observer, the expectation loader, the
    artifact reader and the host resolver return can be put into a proof.  So
    no request to the assembled program ends because the proof it has made is
    refused by its own schema. *)

From S2P Require Import Prelude GoStrings GoPath GoRegexp Model GoJson Canonical Contract RoundTrip Wire Protected Expectation Process Observers Evaluator HostBinding HostParse Privacy ProofId World HostDiscovery Embedded JsonSchema Schemas Conformance Issue Artifact ArtifactTree ConfigFile HostFiles App Answers Accepted Cli Local.

(** ** Base names *)

Lemma last_comp_trimmed s :
  last_comp (Split (trim_right sep s) slash) EmptyString = EmptyString -> trim_right sep s = EmptyString.
Proof.
  induction s as [|c t IH]; [done|]. cbn [trim_right].
  destruct (trim_right sep t) as [|d t'] eqn:E.
  - change (has_byte sep c) with (Ascii.eqb c slash || false). rewrite orb_false_r. cbn [Split].
    destruct (Ascii.eqb c slash) eqn:Hc; [done|]. cbn [Split]. by rewrite Hc.
  - intros H. exfalso. revert H. cbn [Split].
    change (if Ascii.eqb d slash then EmptyString :: Split t' slash
            else match Split t' slash with w :: ws => String d w :: ws | [] => [String d EmptyString] end)
      with (Split (String d t') slash).
    pose proof (Split_nonempty (String d t') slash) as Hn.
    destruct (Split (String d t') slash) as [|w ws] eqn:Es; [done|].
    destruct (Ascii.eqb c slash).
    + intros H. by apply IH in H.
    + destruct ws as [|w' ws]; [done|]. intros H. by apply IH in H.
Qed.

Lemma Base_nonempty p : nonempty (Base p) = true.
Proof.
  unfold Base, nonempty. destruct (String.eqb_spec p EmptyString) as [|Hp]; [done|].
  destruct (String.eqb_spec (trim_right sep p) EmptyString) as [|Hq]; [done|].
  destruct (String.eqb_spec (last_comp (Split (trim_right sep p) slash) EmptyString) EmptyString) as [H|]; [|done].
  by apply last_comp_trimmed in H.
Qed.

(** ** Observers *)

(** An observer whose snapshots and inventories can be put into a proof. *)
Class FittingObserver (p : platform) : Prop := {
  fitting_snapshot pid c :
    pid <= maxSafeInteger -> P_Snapshot p false pid = (c, None) -> candidate_fits c = true;
  fitting_listed : Forall (fun pid => pid <= maxSafeInteger) (P_Listed p)
}.

Lemma fitting_list p `{!ObserverContract p} `{!FittingObserver p} cancelled limit cs :
  P_List p cancelled limit = Ok cs -> Forall (true_of candidate_fits) cs.
Proof.
  intros (_ & _ & pids & Hsub & Hs)%list_contract. pose proof fitting_listed as Hl.
  assert (Hp : Forall (fun pid => pid <= maxSafeInteger) pids).
  { rewrite Forall_forall in *. intros pid Hin. apply Hl. by eapply elem_of_submseteq. }
  clear Hsub Hl. induction Hs as [|pid c pids cs [Hc _] _ IH]; [constructor|].
  apply Forall_cons in Hp as [Hpid Hp]. constructor; [by eapply fitting_snapshot|by apply IH].
Qed.

(** What the fields of a snapshot need, on any build. *)
Lemma image_fits os pid c ns :
  platform_fits (Cand_Platform c) = true -> 1 <= PID (Cand_Process c) <= maxSafeInteger -> 0 <= ns <= int64_max ->
  CreatedAtUnixNano (Cand_Process c) = FormatInt ns -> prefixed_text (BootIDHash (Cand_Process c)) = true ->
  nonempty (Basename (Cand_Executable c)) = true -> prefixed_text (PathHash (Cand_Executable c)) = true ->
  prefixed_text (FileIDHash (Cand_Executable c)) = true -> Inaccessible c = [] ->
  candidate_fits (observeArguments os pid c) = true.
Proof.
  intros Hp Hpid Hns Ht Hb Hbase Hpath Hid Hi.
  destruct (observeArguments_identity os pid c) as [Ep Ee]. unfold candidate_fits, process_fits, or_empty.
  assert (El : Cand_Platform (observeArguments os pid c) = Cand_Platform c)
    by (unfold observeArguments; by repeat case_match).
  assert (Ei : Inaccessible (observeArguments os pid c) = []
               \/ Inaccessible (observeArguments os pid c) = ["process.arguments"]).
  { unfold observeArguments. repeat case_match; cbn [Inaccessible set_inaccessible set_arguments]; rewrite ?Hi; auto. }
  rewrite El, Ep, Ee, Hp, Hb, Hbase, Hpath, Hid, Ht, (time_text ns), orb_true_r by done.
  rewrite (proj2 (Z.leb_le 1 (PID (Cand_Process c)))) by lia.
  assert (Hs : safe_int (PID (Cand_Process c)) = true).
  { unfold safe_int. revert Hpid. unfold maxSafeInteger. intros Hpid. apply andb_true_iff. rewrite !Z.leb_le. lia. }
  rewrite Hs. cbn [andb]. destruct Ei as [-> | ->]; vm_compute; reflexivity.
Qed.

(** The platform of a build. *)
Definition plausible_build (os : ProcOS) : Prop := platform_fits {| OS := GOOS os; Arch := GOARCH os |} = true.

(** A Linux whose answers are plausible: processes start between 1970 and 2262. *)
Record plausible_linux (os : ProcOS) : Prop := {
  linux_build : plausible_build os;
  linux_time pid ms : CreateTime os pid = Ok ms -> 0 <= ms * 1000000 <= int64_max;
  linux_pids pids : Pids os = Ok pids -> Forall (fun pid => pid <= maxSafeInteger) pids
}.

Lemma linux_fitting os : plausible_linux os -> FittingObserver (linux os).
Proof.
  intros [Hb Ht Hp]. split.
  - intros pid c Hpid Hs. cbn beta iota delta [P_Snapshot linux macos windows] in Hs.
    apply Snapshot_ok_inv in Hs as (_ & Hpos & ms & linked & id & _ & Hms & _ & _ & ->).
    apply Ht in Hms. apply (image_fits os pid _ (ms * 1000000)); try done; try apply hashIdentifier_fits.
    + cbn. lia.
    + cbn [with_image observed_process Cand_Process CreatedAtUnixNano]. rewrite wrap64_id; [done|]. unfold int64_min. lia.
    + cbn [with_image observed_process Cand_Process BootIDHash]. unfold bootHash.
      destruct (BootID os); apply hashIdentifier_fits.
    + apply Base_nonempty.
  - cbn [linux P_Listed]. destruct (Pids os) as [pids|] eqn:E; [|constructor]. by apply Hp.
Qed.

(** macOS lists C integers; it counts in microseconds since 1970. *)
Record plausible_macos (os : ProcOS) (lib : Darwin.LibProc) : Prop := {
  macos_build : plausible_build os;
  macos_time pid info : Darwin.darwinBSDInfo lib pid = Ok info -> Darwin.created_nanoseconds info <= int64_max
}.

Lemma macos_fitting os lib : plausible_macos os lib -> FittingObserver (macos os lib).
Proof.
  intros [Hb Ht]. split.
  - intros pid c Hpid Hs. cbn beta iota delta [P_Snapshot linux macos windows] in Hs.
    apply Darwin_Snapshot_ok in Hs as (_ & Hpos & info & path & identity & Hi & _ & _ & ->).
    apply Ht in Hi. apply (image_fits os pid _ (Darwin.created_nanoseconds info)); try done; try apply hashIdentifier_fits.
    + cbn. lia.
    + split; [|done]. unfold Darwin.created_nanoseconds, wrap_u64. apply Z.mod_pos_bound. lia.
    + cbn [with_loaded_image Darwin.observed_process Cand_Process BootIDHash]. unfold Darwin.darwinBootHash.
      destruct (Darwin.kern_boottime lib) as [[sec usec]|]; apply hashIdentifier_fits.
    + apply Base_nonempty.
  - cbn [macos P_Listed]. unfold Darwin.listed. apply Forall_take, Forall_fmap, Forall_forall. intros pid _.
    pose proof (wrap32_range pid). unfold maxSafeInteger. cbn. lia.
Qed.

(** Windows: identifiers are unsigned 32-bit integers, and a path has a base. *)
Record plausible_windows (os : ProcOS) (win : Windows.Win) : Prop := {
  windows_build : plausible_build os;
  windows_time handle creation : Windows.GetProcessTimes win handle = Ok creation ->
    0 <= Windows.Nanoseconds win creation <= int64_max;
  windows_base path : Windows.win_Base win path <> EmptyString;
  windows_pids pids returned : Windows.EnumProcesses win = Ok (pids, returned) ->
    Forall (fun pid => pid <= maxSafeInteger) pids
}.

Lemma windows_fitting os u win : plausible_windows os win -> FittingObserver (windows os u win).
Proof.
  intros [Hb Ht Hbase Hp]. split.
  - intros pid c Hpid Hs. cbn beta iota delta [P_Snapshot linux macos windows] in Hs.
    apply Windows_Snapshot_ok in Hs as (_ & Hpos & creation & path & identity & Hi & _ & _ & ->).
    apply Ht in Hi. apply (image_fits os pid _ (Windows.Nanoseconds win creation)); try done; try apply hashIdentifier_fits.
    + cbn. lia.
    + cbn [with_loaded_image Cand_Executable Basename]. unfold nonempty.
      by rewrite (proj2 (String.eqb_neq _ _) (Hbase path)).
  - cbn [windows P_Listed]. destruct (Windows.EnumProcesses win) as [[pids returned]|] eqn:E; [|constructor].
    unfold Windows.listed. apply Forall_take. by eapply Hp.
Qed.

Lemma unsupported_fitting : FittingObserver unsupportedObserver.
Proof. by split. Qed.

(** ** Bindings *)

Lemma safe_identifier_bytes s : validateSafeIdentifier s = true -> sforall id_byte s = true.
Proof.
  unfold validateSafeIdentifier. destruct (_ || _); [done|].
  assert (Hr : forall r, safe_char r = true -> 0 <= r < 128).
  { unfold safe_char, safe_first. intros r. rewrite ?orb_true_iff, ?andb_true_iff, ?in_range_iff, ?Z.eqb_eq, ?Z.leb_le. lia. }
  intros H. assert (Hf : forallb safe_char (runes s) = true).
  { destruct (runes s) as [|first rest]; [done|]. cbn [forallb].
    apply andb_true_iff in H as [[-> _]%andb_true_iff H]. exact H. }
  rewrite forallb_runes in Hf by exact Hr. revert Hf. apply sforall_impl. byte_implies.
Qed.

Lemma binding_id_fits host server :
  host_text host = true -> validateSafeIdentifier server = true -> slen (host +:+ "." +:+ server) <= 128 ->
  id_text host = true /\ id_text (host +:+ "." +:+ server) = true.
Proof.
  intros [Hall (c & t & -> & Hc)]%host_text_id Hs%safe_identifier_bytes Hlen. rewrite !id_text_spec.
  rewrite sforall_cons in Hall. apply andb_true_iff in Hall as [_ Ht].
  assert (Hl : slen (String c t) <= 128).
  { revert Hlen. unfold slen. rewrite str_app_length. lia. }
  cbn [String.append schema_id] in *. rewrite Hc, Ht, sforall_app, Ht, sforall_cons, Hs. cbn [andb]. split; by apply Z.leb_le.
Qed.

Lemma declared_fits {W} u hujson toml yaml (reader : string -> Z -> io W sys_error string) profile request b :
  declared u hujson toml yaml reader profile request b -> host_text (Prof_HostID profile) = true ->
  slen (B_ID b) <= 128 -> binding_fits b = true.
Proof.
  intros (source & path & document & raws & raw & w & w' & _ & _ & _ & _ & _ & (Hh & Hs & _) & ->) Ht.
  cbn [newBinding B_ID]. rewrite Hh. intros Hlen. destruct (binding_id_fits _ _ Ht Hs Hlen) as [H1 H2].
  unfold binding_fits, attribution_fits, or_empty. cbn [attribution newBinding B_ID B_HostID ConfigSourceHash Confidence
    Attr_HostID Attr_BindingID Attr_ConfigSourceHash Attr_Confidence].
  rewrite Hh, H1, H2, orb_true_r. unfold hashBytes. rewrite hashIdentifier_fits. by destruct (IsAbs _).
Qed.

(** ** Artifacts *)

Lemma sound_issuable resolved obs :
  resolved_fits resolved = true -> sound_observation resolved obs -> observation_issuable obs = true.
Proof.
  intros Hr ((Hf & Hb & Hd) & Hsum). unfold resolved_fits in Hr.
  apply andb_true_iff in Hr as [[_ [_ H1%Z.leb_le]%andb_true_iff]%andb_true_iff [_ H2%Z.leb_le]%andb_true_iff].
  unfold artifact_limits, longest_ms in *.
  assert (Hh : sha256_text (Obs_SHA256 obs) = true).
  { destruct Hsum as [[[content ->] _]|(listing & _ & _ & (encoded & _ & ->) & _)]; apply sha256_text_hex. }
  unfold observation_issuable, artifact_fits, safe_int, between. rewrite Hh. unfold maxSafeInteger.
  rewrite !andb_true_iff, !Z.leb_le. repeat split; reflexivity || lia.
Qed.

(** ** The assembled service *)

Section Machine.
Context {W H : Type} (m : Machine W H).
Variable schema_ok : string -> json -> bool.
Variable u : UnicodeTables.
Variable NFC : string -> string.
Variable hujson : string -> option string.
Variable toml : string -> option (list (string * json)).
Variable yaml : string -> option (list yaml_node).
Variable fuel : nat.
Variable tool : ToolInfo.
Context (live : W -> Z) (limit : Z) `{!DescriptorLaws (M_fs m) live limit} `{!SeekLaws (M_fs m) (M_seek m) live}.
Context (observers : forall w, ObserverContract (M_observer m w)).
Hypothesis fitting : forall w, FittingObserver (M_observer m w).
Hypothesis engine : engine_agrees schema_ok.
Hypothesis fuel_enough : limit <= Z.of_nat fuel.
Hypothesis tool_fit : tool_fits tool = true.

Notation service := (NewService m schema_ok u NFC hujson toml yaml fuel tool).

(** No descriptor is closed that was not opened: the worlds of a run. *)
Definition balanced (w : W) : Prop := 0 <= live w.

Lemma observing_returns {A} (f : bool -> W -> result go_error A) (Q : A -> Prop) :
  (forall cancelled w a, f cancelled w = Ok a -> Q a) -> returns balanced (observing m f) Q.
Proof.
  intros Hf w Hw. unfold observing. pose proof (ctx_live w) as Hl. destruct (CtxErr (M_fs m) w) as [c w'].
  cbn [snd] in Hl. assert (Hw' : balanced w') by (unfold balanced in *; lia).
  destruct (f c w') as [a|e] eqn:E; [|done]. split; [by eapply Hf|done].
Qed.

Lemma loading_returns (f : PathOS -> result load_error Resolved) (Q : Resolved -> Prop) :
  (forall os a, f os = Ok a -> Q a) -> returns balanced (loading m f) Q.
Proof.
  intros Hf w Hw. unfold loading. destruct (f (M_paths m w)) as [a|e] eqn:E; [|done]. split; [by eapply Hf|done].
Qed.

Lemma uses_yields {E A} (c : io W E A) (Q : A -> Prop) (R : E -> Prop) :
  (forall n, 0 <= n -> uses live n n c Q R) -> yields balanced c Q R.
Proof.
  intros Hc w Hw. specialize (Hc (live w) Hw w eq_refl). unfold balanced in *.
  destruct (c w) as [[a|e] w']; destruct Hc as [-> Hq]; by split.
Qed.

Lemma snapshot_returns pid :
  pid <= maxSafeInteger -> returns balanced (O_Snapshot (local_observer m) pid) (true_of candidate_fits).
Proof.
  intros Hpid. apply observing_returns. intros cancelled w c Hc. unfold complete in Hc.
  destruct (P_Snapshot _ cancelled pid) as [c' [e|]] eqn:E; [done|]. injection Hc as ->.
  pose proof (snapshot_contract _ _ _ E) as [-> _]. by eapply fitting_snapshot.
Qed.

Lemma digest_yields resolved :
  resolved_fits resolved = true ->
  yields balanced (Digest (M_fs m) NFC fuel resolved) (true_of observation_issuable)
    (fun e => registered_error (Some e)).
Proof.
  intros Hr. apply uses_yields. intros n Hn.
  eapply uses_impl; [apply (Digest_uses (M_fs m) live limit NFC resolved n fuel ltac:(lia))| |].
  - intros obs Hs. by eapply sound_issuable.
  - by intros e (code & -> & Hin).
Qed.

(** Discovery closes what it opens, and so does the resolver. *)
Notation discover := (Discover u hujson toml yaml schema_ok (M_embedded m) (M_goos m) (config_reader m) (CtxErr (M_fs m))).

Lemma Bindings_uses n resolver hostID :
  uses live n n (Bindings u hujson toml yaml schema_ok (M_embedded m) (M_goos m) (config_reader m) (CtxErr (M_fs m))
                   resolver hostID) (fun _ => True) (fun _ => True).
Proof.
  unfold Bindings. eapply (uses_bind live _ _ _ _ (fun _ => True)); [by apply (uses_lift live)|intros ids _].
  apply (uses_fold live); [done|]. intros current found _ _.
  eapply (uses_bind live _ _ _ _ (fun _ => True)); [|intros bs _; by apply (uses_ret live)].
  eapply (uses_impl live); [apply (Discover_uses u hujson toml yaml schema_ok (M_embedded m) (M_goos m)
    (config_reader m) (CtxErr (M_fs m)) live)|done|done].
Qed.

Lemma resolved_host resolver hostID found w w' :
  Bindings u hujson toml yaml schema_ok (M_embedded m) (M_goos m) (config_reader m) (CtxErr (M_fs m))
    resolver hostID w = (Ok found, w') -> hostID <> EmptyString -> host_text hostID = true.
Proof.
  unfold Bindings. intros Hb Hne. rewrite (proj2 (String.eqb_neq _ _) Hne) in Hb.
  apply bind_ok in Hb as (ids & w1 & [[= <-] ->]%lift_ok & Hb). cbn [foldIO] in Hb.
  apply bind_ok in Hb as (f & w2 & Hd & _). apply bind_ok in Hd as (discovered & w3 & Hd & _).
  unfold Discover in Hd. apply bind_ok in Hd as (planned & w4 & [Hp _]%lift_ok & _).
  exact (plan_host schema_ok engine u (M_embedded m) (M_goos m) _ _ Hp).
Qed.

Lemma binding_returns id :
  slen id <= 128 -> returns balanced (R_Binding (local_resolver m schema_ok u hujson toml yaml) id) (true_of binding_fits).
Proof.
  intros Hlen w Hw. cbn [R_Binding local_resolver].
  assert (Hu : uses live (live w) (live w) (ResolveBinding u hujson toml yaml schema_ok (M_embedded m) (M_goos m)
                 (config_reader m) (CtxErr (M_fs m)) (M_resolver m) id) (fun _ => True) (fun _ => True)).
  { unfold ResolveBinding. destruct (IndexByte id ".") as [[|k]|]; try by apply (uses_throw live).
    destruct (_ =? _)%nat; [by apply (uses_throw live)|].
    eapply (uses_bind live _ _ _ _ (fun _ => True)); [apply Bindings_uses|intros bs _].
    destruct (find _ bs); [by apply (uses_ret live)|by apply (uses_throw live)]. }
  specialize (Hu w eq_refl). unfold balanced in *.
  destruct (ResolveBinding _ _ _ _ _ _ _ _ _ _ id w) as [[b|e] w'] eqn:E; destruct Hu as [-> _]; split; try done.
  pose proof E as E'. apply ResolveBinding_declared in E as (Hid & profile & k & Hk & Hp & Hd).
  eapply declared_fits; [exact Hd| |by rewrite Hid]. rewrite Hp.
  unfold ResolveBinding in E'. rewrite Hk in E'. destruct k as [|k]; [done|].
  destruct (_ =? _)%nat; [done|]. apply bind_ok in E' as (found & w1 & Hb & _).
  apply (resolved_host _ _ _ _ _ Hb). destruct id; [discriminate Hk|done].
Qed.

#[local] Instance local_fitting : FittingInterfaces balanced service.
Proof.
  split.
  - exact tool_fit.
  - done.
  - intros w Hw. cbn [Svc_CtxErr NewService]. unfold balanced in *. by rewrite ctx_live.
  - intros o pid [= <-]. apply snapshot_returns.
  - intros o l [= <-]. apply observing_returns. intros cancelled w cs. apply fitting_list; auto.
  - intros o candidate [= <-]. by apply observing_returns.
  - intros path. apply loading_returns. intros os r. by apply Load_fits.
  - intros value Hv. apply loading_returns. intros os r. by apply ResolveInline_fits.
  - apply digest_yields.
  - intros profiles id [= <-]. apply binding_returns.
Qed.

(** The bindings of every host have identifiers the schema has room for. *)
Definition short_bindings : Prop :=
  forall hostID w found w',
    R_Bindings (local_resolver m schema_ok u hujson toml yaml) hostID w = (Ok found, w') ->
    Forall (fun b => slen (B_ID b) <= 128) found.

Lemma short_hosts : short_bindings -> hosts_fit balanced service.
Proof.
  intros Hshort profiles id [= <-] Hne w Hw. cbn [R_Bindings local_resolver].
  pose proof (Bindings_uses (live w) (M_resolver m) id w eq_refl) as Hu. specialize (Hshort id w).
  cbn [R_Bindings local_resolver] in Hshort. unfold balanced in *.
  destruct (Bindings _ _ _ _ _ _ _ _ _ _ id w) as [[found|e] w'] eqn:E; destruct Hu as [-> _]; split; try done.
  specialize (Hshort found w' eq_refl). pose proof (resolved_host _ _ _ _ _ E Hne) as Hhost.
  apply Bindings_declared in E as (profile & Hp & Hd); [|done].
  rewrite Forall_forall in *. intros b Hb. eapply declared_fits; [by apply Hd|by rewrite Hp|by apply Hshort].
Qed.

(** A request the assembled program is sure to answer. *)
Definition plain_inspection (request : InspectRequest) : Prop :=
  IR_PID request <= maxSafeInteger /\ slen (IR_BindingID request) <= 128
  /\ (IR_HostID request = EmptyString \/ short_bindings).

End Machine.

(** ** A machine that answers *)

Definition released_tool : ToolInfo :=
  {| Tool_Name := "agent-runtime-proof"; Tool_Version := "1.0.0"; Tool_Commit := "0123abc"; Toolchain := "go1.26.0" |}.

Definition answering_service : Service tree_world :=
  NewService sample_machine standard_schema_ok ascii_tables identity_map (fun _ => None) (fun _ => None)
    (fun _ => None) 100 released_tool.

Definition inspect_seven : InspectRequest :=
  {| IR_PID := 7; IR_BindingID := EmptyString; IR_HostID := EmptyString; IR_All := false; IR_Limit := 0 |}.

(** The proof of process 7 passes the schema that is built in. *)
Example inspect_seven_answered :
  match fst (Inspect standard_schema_ok ascii_tables sample_platform answering_service inspect_seven empty_world) with
  | Ok [p] => Verdict p = "UNKNOWN"
  | _ => False
  end.
Proof. vm_compute. reflexivity. Qed.

Lemma installed_plausible : plausible_linux installed_process.
Proof.
  split; [vm_compute; reflexivity|intros pid ms [= <-]; vm_compute; split; discriminate|].
  intros pids [= <-]. repeat constructor. vm_compute. discriminate.
Qed.

