(* ===== verification/Sdk.v ===== *)
(** * Launches witnessed on this machine ([sdk/witness/witness.go], [NewController])

    [NewController] fills the dependencies that were not given with the
    components of this repository, as [NewService] does for the application;
    the SDK wraps the controller for programs that start the process
    themselves.  [witnessed_launch] follows a launch from the expectation on
    disk to the receipt in the store. *)

From S2P Require Import Prelude GoStrings GoRegexp GoPath Model Contract Expectation Process Observers ProofId Receipt.
From S2P Require Import World Artifact ArtifactTree App Store Witness WitnessRun Local.

(** ** The controller ([internal/witness/prepare.go]) *)

(** [Dependencies] as a caller fills them: nil where nothing is given. *)
Record GivenDependencies (W : Type) := {
  G_Tool : ToolInfo;
  G_Home : string;
  G_Observer : option (Observer W);
  G_Clock : option (W -> string * W);
  G_LoadExpectation : option (string -> io W unit Resolved);
  G_DigestArtifact : option (Resolved -> io W go_error ArtifactObservation);
  G_LookPath : option (string -> io W unit string);
  G_EvalSymlinks : option (string -> io W unit string);
  G_WriteReceipt : option (string -> LaunchReceipt -> io W unit string)
}.
Arguments G_Tool {W}. Arguments G_Home {W}. Arguments G_Observer {W}. Arguments G_Clock {W}.
Arguments G_LoadExpectation {W}. Arguments G_DigestArtifact {W}. Arguments G_LookPath {W}.
Arguments G_EvalSymlinks {W}. Arguments G_WriteReceipt {W}.

(** [NewController]; what is not a field there comes from the process. *)
Definition NewController {W} (standard : Dependencies W) (given : GivenDependencies W) : Dependencies W := {|
  Dep_Tool := G_Tool given; Dep_Home := G_Home given; Dep_CtxErr := Dep_CtxErr standard;
  Dep_Observer := default (Dep_Observer standard) (G_Observer given);
  Dep_Now := default (Dep_Now standard) (G_Clock given);
  Dep_LoadExpectation := default (Dep_LoadExpectation standard) (G_LoadExpectation given);
  Dep_DigestArtifact := default (Dep_DigestArtifact standard) (G_DigestArtifact given);
  Dep_LookPath := default (Dep_LookPath standard) (G_LookPath given);
  Dep_Getwd := Dep_Getwd standard;
  Dep_EvalSymlinks := default (Dep_EvalSymlinks standard) (G_EvalSymlinks given);
  Dep_HomeVariable := Dep_HomeVariable standard;
  Dep_UserHomeDir := Dep_UserHomeDir standard;
  Dep_WriteReceipt := default (Dep_WriteReceipt standard) (G_WriteReceipt given) |}.

Definition nothing_given {W} (tool : ToolInfo) (home : string) : GivenDependencies W := {|
  G_Tool := tool; G_Home := home; G_Observer := None; G_Clock := None; G_LoadExpectation := None;
  G_DigestArtifact := None; G_LookPath := None; G_EvalSymlinks := None; G_WriteReceipt := None |}.

(** What a launch needs of a machine besides what [Machine] has. *)
Record LaunchHost (W : Type) := {
  H_LookPath : W -> string -> option string;       (* [exec.LookPath] *)
  H_HomeVariable : string;                         (* AGENT_RUNTIME_PROOF_HOME *)
  H_Store : StoreOS W
}.
Arguments H_LookPath {W}. Arguments H_HomeVariable {W}. Arguments H_Store {W}.

(** ** The SDK *)

Record Config := { Cfg_Home : string; Cfg_Tool : ToolInfo }.

Definition safeBuildValue : string -> bool := MatchString "^[A-Za-z0-9._-]{1,128}$".

Definition tool_valid (tool : ToolInfo) : bool :=
  (Tool_Name tool =s "agent-runtime-proof") && negb (Tool_Version tool =s EmptyString)
  && safeBuildValue (Tool_Commit tool) && negb (Toolchain tool =s EmptyString).

Section Sdk.
Context {W : Type} (standard : Dependencies W).
Variable schema_ok : string -> json -> bool.

Definition New (config : Config) : result unit (Dependencies W) :=
  check! tool_valid (Cfg_Tool config) else tt in
  Ok (NewController standard (nothing_given (Cfg_Tool config) (Cfg_Home config))).

(** A controller or a prepared launch may be nil. *)
Definition sdk_PrepareLaunch (controller : option (Dependencies W)) (request : WitnessRequest)
  : io W witness_error PreparedLaunch :=
  match controller with
  | None => throw (WitnessFailed "witness controller is unavailable")
  | Some dep => PrepareLaunch dep request
  end.

Definition sdk_Command (prepared : option PreparedLaunch) : string * list string :=
  match prepared with
  | None => (EmptyString, [])
  | Some p => (PL_command p, PL_arguments p)
  end.

(** A prepared launch remembers its controller. *)
Definition sdk_Spawned (prepared : option (Dependencies W * PreparedLaunch)) (pid : Z)
  : io W witness_error (LaunchReceipt * PreparedLaunch) :=
  match prepared with
  | None => throw (WitnessFailed "prepared witness launch is unavailable")
  | Some (dep, p) => Spawned dep schema_ok p pid
  end.
End Sdk.

(** ** On a machine *)

Section Launch.
Context {W H : Type} (m : Machine W H) (host : LaunchHost W).
Variable schema_ok : string -> json -> bool.
Variable NFC : string -> string.
Variable fuel : nat.                       (* the descriptor limit, as in [Local] *)

(** A function of the machine as it is. *)
Definition asking {A} (f : W -> option A) : io W unit A :=
  fun w => (match f w with Some a => Ok a | None => Err tt end, w).

(** The standard dependencies: the components of this repository. *)
Definition standard_dependencies (tool : ToolInfo) : Dependencies W := {|
  Dep_Tool := tool; Dep_Home := EmptyString; Dep_CtxErr := CtxErr (M_fs m);
  Dep_Observer := local_observer m;
  Dep_Now w := (M_time m w, w);
  Dep_LoadExpectation path := loading m (fun os => Load schema_ok os path);
  Dep_DigestArtifact := Digest (M_fs m) NFC fuel;
  Dep_LookPath name := asking (fun w => H_LookPath host w name);
  Dep_Getwd := asking (fun w => Some (WorkingDir (M_paths m w)));
  Dep_EvalSymlinks path := asking (fun w => EvalSymlinks (M_paths m w) path);
  Dep_HomeVariable := H_HomeVariable host;
  Dep_UserHomeDir := asking (fun w => UserHomeDir (M_paths m w));
  Dep_WriteReceipt root value := wrap_error (fun _ => tt) (WriteReceipt (H_Store host) schema_ok root value) |}.

(** The controller of [main]. *)
Definition main_controller (tool : ToolInfo) : Dependencies W :=
  NewController (standard_dependencies tool) (nothing_given tool EmptyString).

Context (live : W -> Z) (limit : Z) `{!DescriptorLaws (M_fs m) live limit}.
Context (observers : forall w, ObserverContract (M_observer m w)).
Context (files : W -> gmap string string) `{!StoreLaws (H_Store host) files}.
Hypothesis fuel_enough : limit <= Z.of_nat fuel.

(** The declared entrypoint, links resolved, is what is started: the command,
    or the script given to it as an interpreter. *)
Definition starts_entrypoint (resolved : Resolved) (prepared : PreparedLaunch) : Prop :=
  let launch := Launch (Res_Value resolved) in
  exists w entrypoint path,
    EvalSymlinks (M_paths m w) (JoinPath [ArtifactRoot resolved; FromSlash (Entrypoint launch)]) = Some entrypoint
    /\ Clean entrypoint = Clean path
    /\ if (Kind launch =s "native") || (Kind launch =s "declared-tree") then path = PL_command prepared
       else Kind launch = "interpreter-script"
            /\ exists script rest w1 absolute w2, PL_arguments prepared = script :: rest
               /\ absolute = (if IsAbs script then Clean script else JoinPath [WorkingDir (M_paths m w1); script])
               /\ EvalSymlinks (M_paths m w2) absolute = Some path.

(** Before the start: the expectation was loaded, the command line is the one
    it describes, and the artifact was read with the digest it demands. *)
Definition bound_to_expectation (request : WitnessRequest) (prepared : PreparedLaunch)
  (resolved : Resolved) (artifact : ArtifactObservation) : Prop :=
  exists w1 w2 w3,
    Load schema_ok (M_paths m w1) (WR_ExpectationPath request) = Ok resolved
    /\ starts_entrypoint resolved prepared
    /\ arguments_match resolved (PL_command prepared :: PL_arguments prepared)
    /\ Digest (M_fs m) NFC fuel resolved w2 = (Ok artifact, w3)
    /\ (0 <= live w2 -> live w3 = live w2 /\ sound_observation resolved artifact)
    /\ Obs_SHA256 artifact = Art_SHA256 (Artifact (Res_Value resolved))
    /\ prepared = bound_launch (PL_command prepared) (PL_arguments prepared) resolved artifact.

(** After the start: the process was observed twice, with one identity, and
    its executable is the prepared command. *)
Definition observed_process (prepared : PreparedLaunch) (pid : Z) (candidate : Candidate) : Prop :=
  exists actual declared w1 w2 w3,
    P_Snapshot (M_observer m w1) false pid = (candidate, None)
    /\ P_Snapshot (M_observer m w2) false pid = (actual, None)
    /\ identity_of candidate = identity_of actual
    /\ EvalSymlinks (M_paths m w3) (DeclaredExecutablePath candidate) = Some declared
    /\ Clean declared = Clean (PL_command prepared).

(** The receipt of the launch, in the store and nowhere else. *)
Definition stored_receipt (value : LaunchReceipt) (w' : W) : Prop :=
  VerifyID value = Ok tt
  /\ exists w0 absRoot, IsAbs absRoot = true
     /\ files w' = <[receipt_target (receipt_directory absRoot) value := encode_receipt value]> (files w0).

Lemma asking_ok {A} (f : W -> option A) w a w' : asking f w = (Ok a, w') -> f w = Some a /\ w' = w.
Proof. unfold asking. destruct (f w); [|done]. by intros [= -> ->]. Qed.

Lemma bound_path_started tool home kind executable arguments w path w' :
  bound_path (NewController (standard_dependencies tool) (nothing_given tool home)) kind executable arguments w
  = (Ok path, w') ->
  if (kind =s "native") || (kind =s "declared-tree") then path = executable
  else kind = "interpreter-script"
       /\ exists script rest w1 absolute w2, arguments = script :: rest
          /\ absolute = (if IsAbs script then Clean script else JoinPath [WorkingDir (M_paths m w1); script])
          /\ EvalSymlinks (M_paths m w2) absolute = Some path.
Proof.
  unfold bound_path. destruct (_ || _); [by intros [= -> _]|].
  destruct (String.eqb_spec kind "interpreter-script") as [->|]; [|done].
  destruct arguments as [|script rest]; [done|]. intros H1. split; [done|].
  apply bind_ok in H1 as (absolute & w1 & Ha%wrap_ok & He%wrap_ok).
  cbn [NewController nothing_given default Dep_EvalSymlinks G_EvalSymlinks standard_dependencies] in He.
  apply asking_ok in He as [He ->]. unfold absolute_path in Ha. destruct (IsAbs script) eqn:Hs.
  - injection Ha as <- <-. exists script, rest, w, (Clean script), w. by rewrite Hs.
  - apply bind_ok in Ha as (wd & w2 & Hw & Ha). injection Ha as <- <-.
    cbn [NewController Dep_Getwd standard_dependencies] in Hw. apply asking_ok in Hw as [[= <-] ->].
    exists script, rest, w, (JoinPath [WorkingDir (M_paths m w); script]), w. by rewrite Hs.
Qed.

Lemma prepared_bound tool home request w prepared w' :
  PrepareLaunch (NewController (standard_dependencies tool) (nothing_given tool home)) request w = (Ok prepared, w') ->
  WR_ExpectationPath request <> EmptyString ->
  exists resolved artifact, bound_to_expectation request prepared resolved artifact.
Proof using DescriptorLaws0 fuel_enough.
  intros Hp Hne. pose proof (PrepareLaunch_ok _ _ _ _ _ Hp Hne)
    as (resolved & artifact & entrypoint & path & w1 & w2 & w3 & w4 & w5 & w6 & w7
        & Hload & Hentry & Hpath & Hsame & Hargs & Hdig & Hsha & Hprep).
  cbn [NewController nothing_given default Dep_LoadExpectation standard_dependencies G_LoadExpectation
       Dep_DigestArtifact G_DigestArtifact Dep_EvalSymlinks G_EvalSymlinks] in Hload, Hdig, Hentry.
  apply asking_ok in Hentry as [Hentry _]. apply bound_path_started in Hpath.
  unfold loading in Hload. injection Hload as Hload <-. apply map_err_ok in Hload.
  exists resolved, artifact, w1, w7, w'. split; [assumption|].
  split; [by exists w3, entrypoint, path|]. do 2 (split; [assumption|]). split; [|by split].
  intros Hl. pose proof (Digest_uses (M_fs m) live limit NFC resolved (live w7) fuel ltac:(lia) w7 eq_refl) as Hd.
  by rewrite Hdig in Hd.
Qed.

Lemma spawned_recorded tool home prepared pid w value after w' :
  Spawned (NewController (standard_dependencies tool) (nothing_given tool home)) schema_ok prepared pid w
  = (Ok (value, after), w') ->
  exists candidate createdAt id,
    observed_process prepared pid candidate /\ PID (Cand_Process candidate) = pid
    /\ value = with_receipt_id
         (receipt_of (receipt_input (NewController (standard_dependencies tool) (nothing_given tool home))
                        prepared candidate createdAt)) id
    /\ stored_receipt value w'.
Proof using observers StoreLaws0.
  intros (_ & _ & candidate & declared & createdAt & root & path & w1 & w2 & w3 & w4 & w5
    & Hsnap & Hrev & Hdecl & Hsame & Hpid & Hbuild & _ & Hwrite)%Spawned_ok.
  cbn [NewController nothing_given default Dep_Observer G_Observer Dep_EvalSymlinks G_EvalSymlinks
       Dep_WriteReceipt G_WriteReceipt standard_dependencies] in Hsnap, Hrev, Hdecl, Hwrite.
  apply (snapshot_seen m observers) in Hsnap.
  apply (revalidation_seen m observers) in Hrev as (actual & Hrev & Hi). rewrite Hpid in Hrev.
  apply asking_ok in Hdecl as [Hdecl ->].
  apply Build_ok in Hbuild as [Hv [id Hval]]. apply wrap_ok in Hwrite.
  exists candidate, createdAt, id. split; [by exists actual, declared, w1, w2, w2|]. split; [done|]. split; [done|].
  split; [done|].
  pose proof (WriteReceipt_triple (H_Store host) files schema_ok root value (files w5) Hv w5 eq_refl) as Hw.
  rewrite Hwrite in Hw. destruct Hw as (Hf & _ & absRoot & Ha & ->). by exists w5, absRoot.
Qed.

End Launch.

(** A nil controller and a nil launch do nothing, and an identity the tool
    could not have is refused. *)
Lemma sdk_nil {W} schema_ok request pid (w : W) :
  sdk_PrepareLaunch None request w = (Err (WitnessFailed "witness controller is unavailable"), w)
  /\ sdk_Command None = (EmptyString, [])
  /\ sdk_Spawned schema_ok None pid w = (Err (WitnessFailed "prepared witness launch is unavailable"), w).
Proof. done. Qed.

(** ** A machine with a disk *)

Section Beside.
Context {V S H : Type}.

Definition fs_beside (fs : FS V H) : FS (V * S) H := {|
  Artifact.Now := on_first (Now fs); CtxErr := on_first (CtxErr fs); OpenSlash := on_first (OpenSlash fs);
  Openat h name directory := on_first (Openat fs h name directory);
  Dup h := on_first (Dup fs h); Fstat h := on_first (Fstat fs h); ReadDir h := on_first (ReadDir fs h);
  Read h n := on_first (Read fs h n); Close h w := (Close fs h (fst w), snd w) |}.

#[export] Instance fs_beside_laws fs live limit `{!DescriptorLaws fs live limit} :
  DescriptorLaws (fs_beside fs) (fun w => live (fst w)) limit.
Proof.
  destruct DescriptorLaws0 as [A B C D E F G I J K L].
  split; cbn [fs_beside Artifact.Now CtxErr OpenSlash Openat Dup Fstat ReadDir Read Close fst]; unfold on_first; intros;
    repeat match goal with
    | |- context [live (fst (snd (let '(_, _) := ?x in _)))] =>
        let E := fresh in destruct x eqn:E; apply (f_equal snd) in E as ?; apply (f_equal fst) in E as ?
    end; cbn [fst snd] in *; subst; auto.
  destruct (Fstat fs h (fst w)) eqn:X. cbn [fst] in *. apply (L h (fst w)). by rewrite X.
Qed.

Definition store_beside (os : StoreOS S) : StoreOS (V * S) := {|
  Getwd := on_second (Getwd os); MkdirAll p := on_second (MkdirAll os p);
  ChmodDirectory p := on_second (ChmodDirectory os p); CreateTemp d := on_second (CreateTemp os d);
  ChmodTemp p := on_second (ChmodTemp os p); WriteTemp p c := on_second (WriteTemp os p c);
  SyncTemp p := on_second (SyncTemp os p); CloseTemp p := on_second (CloseTemp os p);
  Link p t := on_second (Link os p t); ReadAtMost p n := on_second (ReadAtMost os p n);
  SyncDirectory p := on_second (SyncDirectory os p); RemoveFile p := on_second (RemoveFile os p) |}.

#[export] Instance store_beside_laws os files `{!StoreLaws os files} :
  StoreLaws (store_beside os) (fun w => files (snd w)).
Proof.
  destruct StoreLaws0. split;
    cbn [store_beside Getwd MkdirAll ChmodDirectory CreateTemp ChmodTemp WriteTemp SyncTemp CloseTemp
         Link ReadAtMost SyncDirectory RemoveFile]; intros;
    repeat match goal with
    | H : on_second _ _ = _ |- _ => apply on_second_at in H as [H _]
    | H : context [fst (on_second _ _)] |- _ => rewrite on_second_fst in H
    | |- context [snd (snd (on_second _ _))] => rewrite on_second_snd
    end; eauto.
Qed.
End Beside.

Definition stocked_machine : Machine (tree_world * gmap string string) descriptor := {|
  M_fs := fs_beside (M_fs sample_machine); M_observer w := M_observer sample_machine (fst w);
  M_paths w := M_paths sample_machine (fst w); M_time w := M_time sample_machine (fst w);
  M_seek h := on_first (M_seek sample_machine h); M_room := M_room sample_machine;
  M_resolver := M_resolver sample_machine; M_goos := M_goos sample_machine;
  M_embedded := M_embedded sample_machine |}.

Definition stocked_host : LaunchHost (tree_world * gmap string string) := {|
  H_LookPath _ _ := Some "/opt/app/bin/runtime"; H_HomeVariable := "/state"; H_Store := store_beside disk |}.

Definition sample_tool : ToolInfo :=
  {| Tool_Name := "agent-runtime-proof"; Tool_Version := "1"; Tool_Commit := "c0ffee"; Toolchain := "go1.26" |}.

Definition embedding_program : Dependencies (tree_world * gmap string string) :=
  NewController (standard_dependencies stocked_machine stocked_host (fun _ _ => true) identity_map 100 sample_tool)
    (nothing_given sample_tool "/state").

Definition on_disk (w : tree_world * gmap string string) : gmap string string := snd w.

#[export] Instance stocked_disk : StoreLaws (H_Store stocked_host) on_disk.
Proof. exact (store_beside_laws disk (fun d => d)). Qed.

#[export] Instance stocked_descriptors : DescriptorLaws (M_fs stocked_machine) (fun w => tree_live 100 (fst w)) 100.
Proof. exact (fs_beside_laws (tree_fs (installed sample_tree) 100) (tree_live 100) 100). Qed.

(** The SDK of the embedding program prepares the launch of the sample. *)
Definition prepared_sample : result witness_error PreparedLaunch * (tree_world * gmap string string) :=
  sdk_PrepareLaunch (Some embedding_program) sample_launch (empty_world, ∅).

Definition recorded_sample (prepared : PreparedLaunch)
  : result witness_error (LaunchReceipt * PreparedLaunch) * (tree_world * gmap string string) :=
  sdk_Spawned (fun _ _ => true) (Some (embedding_program, prepared)) 7 (snd prepared_sample).

Lemma prepared_sample_ok :
  match prepared_sample with
  | (Ok prepared, _) => is_ok (fst (recorded_sample prepared))
  | _ => false
  end = true.
Proof. vm_compute. reflexivity. Qed.

Lemma both_ok {A B C} (r : result A B * C) :
  is_ok (fst r) = true -> exists b c, r = (Ok b, c).
Proof. destruct r as [[b|] c]; [eauto|done]. Qed.

