(* ===== verification/Witnessed.v ===== *)
(** * The [witness] command from end to end

    The command of [Cli], the controller of [Sdk] and the supervisor of
    [Supervised], on one machine: its world is that of the machine, beside the
    session of the supervisor.  What the supervisor does leaves the machine's
    files alone, so what the controller did before the child was served is
    still so when the command returns. *)

From S2P Require Import Prelude GoStrings GoPath GoSha256 Model Canonical Contract Expectation Process Evaluator Observers ProofId Receipt.
From S2P Require Import World Artifact ArtifactTree App Flags Cli Store Witness WitnessRun Supervisor Supervised Local Sdk.

(** ** The controller on its part of the world *)

Section Beside.
Context {X S : Type} (dep : Dependencies X).
Notation both := (beside S dep).

Lemma first_resolve command : first_part (resolve_executable both command) (resolve_executable dep command).
Proof.
  unfold resolve_executable, absolute_path. apply first_bind; [apply first_wrap, first_on|]. intros found.
  apply first_bind; [|intros path; apply first_wrap, first_on]. apply first_wrap.
  destruct (IsAbs found); [apply (first_lift (Ok _))|]. apply first_bind; [apply first_on|].
  intros wd. apply (first_lift (Ok _)).
Qed.

Lemma first_path path : first_part (absolute_path both path) (absolute_path dep path).
Proof.
  unfold absolute_path. destruct (IsAbs path); [apply (first_lift (Ok _))|].
  apply first_bind; [apply first_on|]. intros wd. apply (first_lift (Ok _)).
Qed.

Lemma first_bindCommand resolved executable arguments :
  first_part (bindCommand both resolved executable arguments) (bindCommand dep resolved executable arguments).
Proof.
  unfold bindCommand. apply first_bind; [apply first_wrap, first_on|]. intros entrypoint.
  apply first_bind.
  - unfold bound_path. destruct (_ || _); [apply (first_lift (Ok _))|].
    destruct (_ =s _); [|apply (first_lift (Err _))]. destruct arguments; [apply (first_lift (Err _))|].
    apply first_bind; [apply first_wrap, first_path|]. intros path. apply first_wrap, first_on.
  - intros path. apply first_require, first_lift.
Qed.

Lemma first_ctx : first_part (witness_ctx both) (witness_ctx dep).
Proof. intros w. unfold witness_ctx. cbn [beside Dep_CtxErr]. unfold on_first. by destruct (Dep_CtxErr dep _). Qed.

Lemma first_PrepareLaunch request : first_part (PrepareLaunch both request) (PrepareLaunch dep request).
Proof.
  unfold PrepareLaunch. apply first_bind; [apply first_ctx|]. intros []. apply first_require.
  destruct (WR_Command request) as [|name arguments]; [apply (first_lift (Err _))|].
  apply first_bind; [apply first_resolve|]. intros command.
  destruct (_ =s _); [apply (first_lift (Ok _))|]. apply first_bind; [apply first_wrap, first_on|]. intros resolved.
  apply first_bind; [apply first_bindCommand|]. intros [].
  apply first_bind; [apply first_wrap, first_on|]. intros artifact. apply first_require, (first_lift (Ok _)).
Qed.

Lemma first_home : first_part (resolveHome both) (resolveHome dep).
Proof.
  unfold resolveHome. cbn [beside Dep_Home Dep_HomeVariable Dep_UserHomeDir].
  destruct (_ =s _) in |- *; [|apply first_path]. apply first_bind; [apply first_on|]. intros home. apply first_path.
Qed.

Lemma first_Spawned schema_ok prepared pid :
  first_part (Spawned both schema_ok prepared pid) (Spawned dep schema_ok prepared pid).
Proof.
  unfold Spawned. do 2 apply first_require. apply first_bind; [apply first_wrap, first_on|]. intros candidate.
  apply first_require. apply first_bind; [apply first_wrap, first_on|]. intros [].
  apply first_bind; [apply first_wrap, first_on|]. intros declared. apply first_require.
  apply first_bind.
  { intros w. unfold dep_now. cbn [beside Dep_Now]. unfold on_first. by destruct (Dep_Now dep _). }
  intros createdAt. apply first_bind; [apply first_lift|]. intros value.
  apply first_bind; [apply first_wrap, first_home|]. intros home.
  apply first_bind; [apply first_wrap, first_on|]. intros path. apply (first_lift (Ok _)).
Qed.
End Beside.

(** ** The run *)

Section Session.
Context {X : Type} (dep : Dependencies X).
Variable answers : start_answers.
Variable pipe : bool.
Variable script : list occurrence.
Variable schema_ok : string -> json -> bool.
Notation both := (beside session dep).
Notation sup := (unix_supervision answers pipe script).

(** The supervisor changes neither the machine nor its own command. *)
Definition kept_command (w w' : X * session) : Prop :=
  fst w' = fst w /\ Z_command (snd w') = Z_command (snd w).

Lemma session_exit_command z : Z_command (session_exit z) = Z_command z.
Proof. unfold session_exit. destruct (Z_phase z); try done. by destruct (wait_begin _). Qed.

Lemma session_wait_command z : Z_command (session_wait z) = Z_command z.
Proof. unfold session_wait. rewrite <- (session_exit_command z). by destruct (Z_phase (session_exit z)). Qed.

Lemma select_keeps s w : kept_command w (snd (S_Select sup s w)).
Proof.
  destruct w as [x z]. cbn [S_Select unix_supervision]. unfold on_second, session_select, kept_command.
  cbn [fst snd]. split; [done|].
  assert (Ha : forall c, Z_command (advance c z) = Z_command z).
  { intros c. unfold advance. destruct (Ch_exited c); [by rewrite session_exit_command|done]. }
  destruct (Ch_event _); rewrite ?session_wait_command; apply Ha.
Qed.

Lemma perform_keeps actions w : kept_command w (perform sup actions w).
Proof.
  revert w. induction actions as [|a l IH]; intros w; [done|].
  destruct (IH (S_Act sup a w)) as [H1 H2]. unfold perform in *. cbn [fold_left]. by split.
Qed.

Lemma event_loop_keeps rounds s w r w' :
  event_loop sup rounds s w = Some (r, w') -> kept_command w w'.
Proof.
  revert s w. induction rounds as [|n IH]; intros s w; [done|]. cbn [event_loop].
  pose proof (select_keeps s w) as [Hx Hc]. destruct (S_Select sup s w) as [e w1]. cbn [snd] in *.
  destruct (serve s e) as [s' actions|exit|].
  - intros H%IH. destruct (perform_keeps actions w1) as [Px Pc], H as [H1 H2].
    split; [by rewrite H1, Px|by rewrite H2, Pc].
  - by intros [= _ <-].
  - intros [H1 H2]%IH. split; [by rewrite H1|by rewrite H2].
Qed.

(** A launch that succeeds: the process was started with the prepared command,
    and its receipt recorded. *)
Lemma launch_recorded prepared x z receiptID pid w' :
  Z_phase z = Fresh ->
  launch both sup schema_ok prepared (x, z) = (Ok (receiptID, pid), w') ->
  (exists actions, Start answers (PL_command prepared :: PL_arguments prepared) [] = (Ok pid, actions))
  /\ Z_command (snd w') = PL_command prepared :: PL_arguments prepared
  /\ exists value after, Spawned dep schema_ok prepared pid x = (Ok (value, after), fst w') /\ receiptID = ReceiptID value.
Proof.
  intros Hp. unfold launch, supervise. intros H.
  apply bind_ok in H as ([] & w1 & [Hn Hx1]%wrap_ok%on_second_at & H).
  apply bind_ok in H as ([] & w2 & [Hs Hx2]%wrap_ok%on_second_at & H).
  apply bind_ok in H as (p & w3 & Hpid & H). injection Hpid as <- <-.
  apply bind_ok in H as ([value after] & w4 & Hr & H). injection H as <- <- <-.
  unfold session_new in Hn. destruct (_ =s _) in Hn; [done|]. injection Hn as Hn. rewrite <- Hn in Hs.
  unfold session_start, Z_sup in Hs. cbn [Z_phase Z_command] in Hs. rewrite Hp in Hs.
  cbn [supervisor_of new_supervisor U_pid] in Hs.
  destruct (Start answers _ []) as [[started_pid|e] actions] eqn:Es; [|done]. injection Hs as Hs.
  unfold record_or_stop in Hr. rewrite (first_Spawned dep schema_ok) in Hr.
  cbn [S_PID unix_supervision] in *. rewrite <- Hs in Hr. change (default 0 _) with started_pid in Hr.
  rewrite <- Hs. change (default 0 _) with started_pid.
  destruct (on_first _ w2) as [[[v a]|e] w5] eqn:E; [|done]. injection Hr as -> -> <-.
  apply on_first_at in E as [E Hx5]. rewrite Hx2, Hx1 in E. cbn [fst] in E.
  split; [by exists actions|]. split; [by rewrite Hx5, <- Hs|]. by exists value, after.
Qed.

(** A run that succeeds: prepared, started, recorded, and nothing of the
    machine touched after that. *)
Lemma Run_launched rounds request gracePeriod x result w' :
  Run both sup schema_ok rounds request gracePeriod (x, new_session) = Some (Ok result, w') ->
  exists prepared value after x1,
    PrepareLaunch dep request x = (Ok prepared, x1)
    /\ Spawned dep schema_ok prepared (Run_PID result) x1 = (Ok (value, after), fst w')
    /\ Run_ReceiptID result = ReceiptID value
    /\ exists actions, Start answers (PL_command prepared :: PL_arguments prepared) [] = (Ok (Run_PID result), actions).
Proof.
  unfold Run. destruct (bind _ _ (x, new_session)) as [[prepared|e] w1] eqn:E; [|done].
  apply bind_ok in E as ([] & w0 & [_ ->]%require_ok & E). apply bind_ok in E as (p & w2 & Hprep & E).
  apply bind_ok in E as ([] & w3 & Hpipe%wrap_ok & E). injection E as -> ->.
  rewrite (first_PrepareLaunch dep) in Hprep. apply on_first_at in Hprep as [Hprep Hz]. cbn [fst snd] in Hprep, Hz.
  cbn [S_Pipe unix_supervision] in Hpipe. injection Hpipe as _ <-. destruct w2 as [x1 z1]. cbn [fst snd] in Hprep, Hz.
  subst z1. destruct (launch both sup schema_ok prepared (x1, new_session)) as [[[receiptID pid]|e] w4] eqn:El; [|done].
  destruct (launch_recorded prepared x1 new_session receiptID pid w4 eq_refl El) as (Hs & _ & value & after & Hsp & ->).
  unfold finish. destruct (event_loop _ rounds initial_loop w4) as [[[code|[]] w5]|] eqn:Ev; [|done..].
  intros [= <- <-]. cbn [S_ClosePipe unix_supervision Run_PID Run_ReceiptID].
  apply event_loop_keeps in Ev as [Hx _]. exists prepared, value, after, x1. rewrite Hx. by repeat split.
Qed.

Lemma PrepareLaunch_unbound request x prepared x1 :
  PrepareLaunch dep request x = (Ok prepared, x1) -> WR_ExpectationPath request = EmptyString ->
  prepared = observation_of_launch (PL_command prepared) (PL_arguments prepared).
Proof.
  unfold PrepareLaunch. intros H Hp.
  apply bind_ok in H as (? & v0 & _ & H). apply bind_ok in H as (? & v1 & _ & H).
  destruct (WR_Command request) as [|name arguments]; [done|].
  apply bind_ok in H as (command & v2 & _ & H). rewrite Hp in H. by injection H as <- _.
Qed.
End Session.

(** The line that [witness] prints about the receipt. *)
Definition receipt_line (value : LaunchReceipt) : string :=
  byte_string 10 +:+ "agent-runtime-proof: launch receipt " +:+ ReceiptID value.

Lemma receipt_id_nonempty value : VerifyID value = Ok tt -> ReceiptID value =s EmptyString = false.
Proof. intros (encoded & _ & ->)%receipt_VerifyID_ok. by apply String.eqb_neq. Qed.

(** ** On a machine *)

Section Command.
Context {X H : Type} (m : Machine X H) (host : LaunchHost X).
Variable schema_ok : string -> json -> bool.
Variable NFC : string -> string.
Variable fuel : nat.
Variable answers : start_answers.
Variable pipe : bool.
Variable script : list occurrence.
Variable tool : ToolInfo.

(** [localRuntime.RunWitness] with the Unix supervisor. *)
Definition run_witness : WitnessRequest -> Z -> X * session -> option (result witness_error RunResult * (X * session)) :=
  Run (beside session (main_controller m host schema_ok NFC fuel tool)) (unix_supervision answers pipe script)
    schema_ok (arrivals script + 4).

Context (live : X -> Z) (limit : Z) `{!DescriptorLaws (M_fs m) live limit}.
Context (observers : forall x, ObserverContract (M_observer m x)).
Context (files : X -> gmap string string) `{!StoreLaws (H_Store host) files}.
Hypothesis fuel_enough : limit <= Z.of_nat fuel.

(** What a receipt stands for. *)
Definition launched (request : WitnessRequest) (pid : Z) (value : LaunchReceipt) (x' : X) : Prop :=
  exists prepared candidate,
    (exists actions, Start answers (PL_command prepared :: PL_arguments prepared) [] = (Ok pid, actions))
    /\ observed_process m prepared pid candidate
    /\ stored_receipt files value x'
    /\ R_Tool value = tool /\ R_Process value = Cand_Process candidate /\ PID (R_Process value) = pid
    /\ R_Command value = commandProjection (PL_command prepared) (PL_arguments prepared)
    /\ if WR_ExpectationPath request =s EmptyString then R_ObservationOnly value = true
       else exists resolved artifact,
              bound_to_expectation m schema_ok NFC fuel live request prepared resolved artifact
              /\ R_Subject value = Some (Exp_Subject (Res_Value resolved))
              /\ option_map RA_SHA256 (R_Artifact value) = Some (Art_SHA256 (Artifact (Res_Value resolved)))
              /\ R_ObservationOnly value = false.

Lemma run_launched request gracePeriod x result w' :
  run_witness request gracePeriod (x, new_session) = Some (Ok result, w') ->
  exists value, Run_ReceiptID result = ReceiptID value /\ VerifyID value = Ok tt
                /\ launched request (Run_PID result) value (fst w').
Proof using observers StoreLaws0 fuel_enough DescriptorLaws0.
  intros Hrun. apply Run_launched in Hrun as (prepared & value & after & x1 & Hp & Hs & -> & Hstart).
  exists value. split; [done|].
  destruct (spawned_recorded m host schema_ok NFC fuel observers files _ _ _ _ _ _ _ _ Hs)
    as (candidate & createdAt & id & Ho & Hpid & -> & Hst).
  split; [apply Hst|]. exists prepared, candidate. do 3 (split; [assumption|]). split; [done|]. split; [done|].
  split; [exact Hpid|].
  destruct (String.eqb_spec (WR_ExpectationPath request) EmptyString) as [He|He].
  - pose proof (PrepareLaunch_unbound _ _ _ _ _ Hp He) as E. rewrite E. by split.
  - destruct (prepared_bound m host schema_ok NFC fuel live limit fuel_enough _ _ _ _ _ _ Hp He)
      as (resolved & artifact & Hb). pose proof Hb as (? & ? & ? & _ & _ & _ & _ & _ & Hsha & E).
    split; [by rewrite E at 1|]. exists resolved, artifact. split; [exact Hb|]. rewrite E. cbn. by rewrite Hsha.
Qed.

(** The process the system saw. *)
Definition one_process (pid : Z) (z : session) : Prop :=
  exists signals, Z_effects z = Launch pid :: closing pid signals /\ allowed initial_loop signals
                  /\ reported_pid answers pid.

(** The command fails with its own exit codes, or it reports a launch. *)
Definition witness_reply (request : WitnessRequest) (r : reply) (x' : X) (z : session) : Prop :=
  (exists code message, r = fail_with code message /\ (code = ExitInvalidInput \/ code = ExitInternal)
     /\ (Z_effects z = [] \/ exists pid, one_process pid z))
  \/ exists code pid value,
       r = {| Exit := code; Stdout := []; Stderr := [receipt_line value] |} /\ 0 <= code
       /\ one_process pid z /\ launched request pid value x'.
End Command.


(** ** A witnessed launch *)

Definition witness_args : list string := ["--expectation"; "m.json"; "--"; "runtime"; "--serve"].

Definition witnessed_service : Service ((tree_world * gmap string string) * session) :=
  NewService {| M_fs := fs_beside (M_fs stocked_machine); M_observer w := M_observer stocked_machine (fst w);
                M_paths w := M_paths stocked_machine (fst w); M_time w := M_time stocked_machine (fst w);
                M_seek h := on_first (M_seek stocked_machine h); M_room := M_room stocked_machine;
                M_resolver := M_resolver stocked_machine; M_goos := "linux"; M_embedded := [] |}
    (fun _ _ => true) ascii_tables identity_map (fun _ => None) (fun _ => None) (fun _ => None) 100 sample_tool.

Definition witnessed_runtime : Runtime ((tree_world * gmap string string) * session) :=
  localRuntime (fun _ _ => true) ascii_tables sample_platform 7 witnessed_service
    (Some (run_witness stocked_machine stocked_host (fun _ _ => true) identity_map 100 willing_system true
             stubborn_script sample_tool)).

Definition witnessed_start : (tree_world * gmap string string) * session := ((empty_world, ∅), new_session).

Definition witnessed_run : option (reply * ((tree_world * gmap string string) * session)) :=
  runWitness no_fractions witnessed_runtime witness_args witnessed_start.

