(* ===== verification/Refusals.v ===== *)
(** * What the schemas refuse

    Some inputs that the program accepts lead to documents its own schemas
    refuse: a launch is started and then ended because its receipt cannot be
    built, or no request is ever answered because no proof can be.  The
    conditions are necessary ones, read off the schemas. *)

From S2P Require Import Prelude GoStrings GoPath GoRegexp Model GoJson Canonical Contract RoundTrip Wire Protected Evaluator Privacy ProofId Receipt World Embedded JsonSchema Schemas Conformance Issue App Answers Accepted Witness Artifact ArtifactTree Observers Process Local LocalAnswers Sdk.

(** A required member of a document that has passed a schema. *)
Lemma member_fits document url s m k s' :
  ok document (Ref url) = true -> resolve_in embedded_schemas url = Some s -> document = JObject m ->
  demands s k = true -> first_property k (parts s) = Some s' -> ok (get m k) s' = true.
Proof. intros H Hr -> Hd Hf. rewrite (ok_ref _ _ _ Hr) in H. by apply (member_accepted m s k). Qed.

Lemma get_after_optional field value rest k :
  field =s k = false -> get (omitempty field value ++ rest) k = get rest k.
Proof. intros Hf. unfold omitempty, get. destruct (value =s EmptyString); [done|]. cbn [app get_in]. by rewrite Hf. Qed.

Definition basename_schema : schema :=
  Both (Both (Both (Type_ [TypeString]) (MinLength 1)) (MaxLength 255)) (Pattern "^[^/\\]+$").

Section Engine.
Variable schema_ok : string -> json -> bool.
Hypothesis engine : engine_agrees schema_ok.

(** ** Receipts *)

Lemma issued_receipt input value :
  Receipt.Build schema_ok input = Ok value ->
  ok_receipt EmptyString (LaunchReceipt_json (utf8_receipt value)) = true.
Proof.
  unfold Receipt.Build. intros (r & _ & H)%rbind_ok. apply rbind_ok in H as (x & Hv%map_err_ok & H). injection H as ->.
  unfold ValidateLaunchReceipt_tree, validate_schema in Hv. rewrite engine, standard_receipt, receipt_normal in Hv by done.
  by destruct (ok_receipt _ _).
Qed.

Lemma receipt_member value k s s' :
  ok_receipt EmptyString (LaunchReceipt_json value) = true ->
  resolve_in embedded_schemas (url receipt_schema EmptyString) = Some s ->
  demands s k = true -> first_property k (parts s) = Some s' ->
  ok (get (LaunchReceipt_members value) k) s' = true.
Proof. intros H Hr. by eapply member_fits. Qed.

Lemma issued_tool value :
  ok_receipt EmptyString (LaunchReceipt_json value) = true -> receipt_tool_fits (R_Tool value) = true.
Proof.
  intros H. rewrite <- receipt_tool_ok.
  assert (Ht : ok (get (LaunchReceipt_members value) "tool") (Ref (url receipt_schema "tool")) = true)
    by (eapply receipt_member; [exact H|vm_compute; reflexivity..]).
  revert Ht. unfold LaunchReceipt_members, omitempty. by destruct (ReceiptID value =s EmptyString).
Qed.

Lemma issued_basename value :
  ok_receipt EmptyString (LaunchReceipt_json value) = true ->
  MatchString "^[^/\\]+$" (ExecutableBasename (R_Command value)) = true.
Proof.
  intros H.
  assert (Hc : ok (get (LaunchReceipt_members value) "command") (Ref (url receipt_schema "command")) = true)
    by (eapply receipt_member; [exact H|vm_compute; reflexivity..]).
  assert (Hm : ok (CommandObservation_json (R_Command value)) (Ref (url receipt_schema "command")) = true).
  { revert Hc. unfold LaunchReceipt_members, omitempty. by destruct (ReceiptID value =s EmptyString). }
  assert (Hb : ok (JString (ExecutableBasename (R_Command value))) basename_schema = true).
  { eapply (member_fits _ _ _ [("executable_basename", JString (ExecutableBasename (R_Command value)));
      ("executable_path_hash", _); ("argument_fingerprints", _)] "executable_basename" basename_schema Hm); [vm_compute; reflexivity|reflexivity|vm_compute; reflexivity..]. }
  unfold basename_schema in Hb. rewrite !ok_both in Hb. apply andb_true_iff in Hb as [_ Hb]. exact Hb.
Qed.

(** ** Proofs *)

Lemma issued_proof u build_platform input p :
  ProofId.Build schema_ok u build_platform input = Ok p ->
  ok_proof EmptyString (Proof_json (utf8_proof p)) = true /\ Tool p = PI_Tool input.
Proof.
  unfold ProofId.Build. intros (q & Hq%map_err_ok%AssignID_ok & H)%rbind_ok. destruct Hq as (encoded & _ & ->).
  apply rbind_ok in H as (x & Hv & H). injection H as <-. split; [|done].
  rewrite proof_normal in Hv by done. unfold Validate_tree, ValidateProof_tree, validate_schema in Hv.
  rewrite engine, standard_proof in Hv by done. by destruct (ok_proof _ _).
Qed.

Lemma proof_tool p :
  ok_proof EmptyString (Proof_json p) = true -> tool_fits (Tool p) = true.
Proof.
  intros H. rewrite <- tool_ok.
  assert (Ht : ok (get (Proof_members p) "tool") (Ref (url proof_schema "tool")) = true).
  { eapply (member_fits _ _ _ (Proof_members p) "tool" _ H); [vm_compute; reflexivity|reflexivity|vm_compute; reflexivity..]. }
  revert Ht. unfold Proof_members, omitempty. by destruct (ProofID p =s EmptyString).
Qed.

Lemma verified_fits {W} u build_platform (service : Service W) request w p w' :
  Verify schema_ok u build_platform service request w = (Ok p, w') ->
  tool_fits (utf8_tool (Svc_Tool service)) = true.
Proof.
  unfold Verify. intros H. inv_io. unfold build in H. inv_io.
  match goal with Hb : map_err _ (ProofId.Build _ _ _ _) = Ok p |- _ => apply map_err_ok, issued_proof in Hb as [Hp Ht] end.
  apply proof_tool in Hp. cbn [PI_Tool verify_proof_input] in Ht. rewrite <- Ht. exact Hp.
Qed.

(** ** Launches *)

Lemma recorded_fits {W} (dep : Dependencies W) prepared pid w value after w' :
  Spawned dep schema_ok prepared pid w = (Ok (value, after), w') ->
  receipt_tool_fits (utf8_tool (Dep_Tool dep)) = true
  /\ MatchString "^[^/\\]+$" (ExecutableBasename (PL_safeCommand prepared)) = true.
Proof.
  intros (_ & _ & candidate & declared & createdAt & home & path & w1 & w2 & w3 & w4 & w5
    & _ & _ & _ & _ & _ & Hb & _ & _)%Spawned_ok.
  pose proof (issued_receipt _ _ Hb) as Hi. apply Build_ok in Hb as (_ & id & ->). split.
  - exact (issued_tool _ Hi).
  - rewrite <- match_utf8. exact (issued_basename _ Hi).
Qed.
End Engine.

(** C11: A launch that is recorded has a tool and a command that the receipt
    schema takes: its toolchain is one of Go's numbered versions, its version
    has at most 64 characters, and the name of its executable has no slash and
    no backslash.  The SDK and the witness check none of this before they
    start the process. *)
Theorem recorded_launch_fits {W} schema_ok (dep : Dependencies W) prepared pid w value after w' :
  engine_agrees schema_ok -> Spawned dep schema_ok prepared pid w = (Ok (value, after), w') ->
  receipt_tool_fits (utf8_tool (Dep_Tool dep)) = true
  /\ MatchString "^[^/\\]+$" (ExecutableBasename (PL_safeCommand prepared)) = true.
Proof. intros He. by apply recorded_fits. Qed.

Definition recorded_by_standard (prepared : PreparedLaunch)
  : result witness_error (LaunchReceipt * PreparedLaunch) * (tree_world * gmap string string) :=
  Spawned embedding_program standard_schema_ok prepared 7 (snd prepared_sample).

Lemma recorded_by_standard_ok :
  match prepared_sample with
  | (Ok prepared, _) => is_ok (fst (recorded_by_standard prepared))
  | _ => false
  end = true.
Proof. vm_compute. reflexivity. Qed.

Lemma recorded_launch_fits_witness :
  exists prepared value after w',
    recorded_by_standard prepared = (Ok (value, after), w')
    /\ receipt_tool_fits (utf8_tool (Dep_Tool embedding_program)) = true.
Proof.
  destruct (both_ok prepared_sample) as (prepared & w1 & Hp); [vm_compute; reflexivity|].
  pose proof recorded_by_standard_ok as Hok. rewrite Hp in Hok. apply both_ok in Hok as ([value after] & w' & Hs).
  exists prepared, value, after, w'. split; [exact Hs|].
  apply (recorded_launch_fits standard_schema_ok embedding_program prepared 7 (snd prepared_sample) value after w').
  - intros name v _. reflexivity.
  - exact Hs.
Defined.

(** ** Inputs that are accepted and cannot be served *)

Definition develop_config : Config := {|
  Cfg_Home := "/state";
  Cfg_Tool := {| Tool_Name := "agent-runtime-proof"; Tool_Version := "1.0.0"; Tool_Commit := "0123abc";
                 Toolchain := "devel" |} |}.

(** The SDK takes a toolchain that no receipt can carry: every launch it
    prepares is started and then fails. *)
Lemma sdk_accepts_unrecordable {W} schema_ok (standard : Dependencies W) :
  engine_agrees schema_ok ->
  exists dep, New standard develop_config = Ok dep
    /\ forall prepared pid w r w', sdk_Spawned schema_ok (Some (dep, prepared)) pid w <> (Ok r, w').
Proof.
  intros He. eexists. split; [reflexivity|]. intros prepared pid w [value after] w' H.
  apply (recorded_fits schema_ok He) in H as [H _]. vm_compute in H. discriminate H.
Qed.

(** A Unix program whose name has a backslash is started and never recorded. *)
Lemma backslash_unrecordable {W} schema_ok (dep : Dependencies W) prepared pid w r w' :
  engine_agrees schema_ok -> ExecutableBasename (PL_safeCommand prepared) = "a\b" ->
  Spawned dep schema_ok prepared pid w <> (Ok r, w').
Proof.
  intros He Hb H. destruct r as [value after]. apply (recorded_fits schema_ok He) in H as [_ H].
  rewrite Hb in H. vm_compute in H. discriminate H.
Qed.

(** A build by a Go release candidate, which [go build] allows, witnesses
    launches but can verify nothing. *)
Definition candidate_tool : ToolInfo :=
  {| Tool_Name := "agent-runtime-proof"; Tool_Version := "1.0.0"; Tool_Commit := "0123abc"; Toolchain := "go1.26rc1" |}.

Example candidate_tool_receipts : receipt_tool_fits candidate_tool = true.
Proof. vm_compute. reflexivity. Qed.

Lemma candidate_verifies_nothing {W} schema_ok u build_platform (service : Service W) request w p w' :
  engine_agrees schema_ok -> Svc_Tool service = candidate_tool ->
  Verify schema_ok u build_platform service request w <> (Ok p, w').
Proof.
  intros He Ht H. apply (verified_fits schema_ok He) in H. rewrite Ht in H. vm_compute in H. discriminate H.
Qed.
